(** * AidChain off-chain orchestrator: a shallow embedding

    The development follows the backend services of the repository:

    - [Geo]          the haversine helper of [services/fdc.js] and
                     [services/fulfillment.js];
    - [Fulfillment]  delivery verification ([services/fulfillment.js]);
    - [Fdc]          event de-duplication and scoring ([services/fdc.js]);
    - [LlmPanel]     the consensus aggregation (the llm-panel service,
                     [runConsensus]);
    - [AidChain]     the ledger's [submitConsensus] (contract [AidChain]);
    - [Blockchain]   the ledger adapter's operations ([services/blockchain.js]);
    - [Pipeline]     the orchestrator and its registry (the pipeline
                     service, [executePipeline] and [completeDelivery]);
    - [Async]        the same two functions among the other tasks of the
                     event loop, on a store of shared state objects;
    - [Server]       the WebSocket subscription filter ([server.js]).

    JavaScript numbers that take part in floating-point arithmetic are
    IEEE-754 binary64 values ([PrimFloat.float]); counters, identifiers
    and money amounts are integers.  The functions of [Math] whose
    results the language leaves to the implementation are an interface
    ([JsMath]); hashing and the clock are parameters of the sections
    that use them. *)

From Stdlib Require Import ZArith List String Ascii Bool Lia PrimFloat.
From Stdlib Require Import SpecFloat FloatOps FloatAxioms.
From Stdlib Require Uint63 DecimalString.
From Stdlib Require Import Sorting.Sorted Sorting.Permutation.
From stdpp Require Import gmap strings.
Import ListNotations.

#[local] Set Warnings "-inexact-float".

Local Open Scope string_scope.
Local Open Scope list_scope.
Local Open Scope Z_scope.

(** ** JavaScript numerics *)

(** [Math.sin], [Math.cos], [Math.atan2], [Math.pow] and [Math.round] as
    the host provides them. *)
Class JsMath := {
  Math_sin   : float -> float;
  Math_cos   : float -> float;
  Math_atan2 : float -> float -> float;
  Math_pow   : float -> float -> float;
  Math_round : float -> float
}.

Module Js.

(** [Math.PI], the double nearest to pi. *)
Definition Math_PI : float := 0x1.921fb54442d18p+1%float.

(** [Math.max(a, b)]: NaN if either argument is NaN, and [+0] is
    larger than [-0]. *)
Definition Math_max (a b : float) : float :=
  if is_nan a then a
  else if is_nan b then b
  else if (a <? b)%float then b
  else if (b <? a)%float then a
  else if get_sign a then b else a.

(** [Math.min(a, b)]: NaN if either argument is NaN, and [-0] is
    smaller than [+0]. *)
Definition Math_min (a b : float) : float :=
  if is_nan a then a
  else if is_nan b then b
  else if (a <? b)%float then a
  else if (b <? a)%float then b
  else if get_sign a then a else b.

(** The number value of a list length. *)
Definition of_length {A} (l : list A) : float :=
  of_uint63 (Uint63.of_Z (Z.of_nat (List.length l))).

(** Truthiness of a string-or-undefined value: [undefined] and the
    empty string are falsy. *)
Definition truthy_str (s : option string) : bool :=
  match s with
  | None => false
  | Some s => negb (String.eqb s "")
  end.

(** [a || b] on string-or-undefined values. *)
Definition or_str (a : option string) (b : string) : string :=
  match a with
  | Some s => if String.eqb s "" then b else s
  | None => b
  end.

(** [x || d] on a number-or-undefined value: [undefined], NaN and zero
    are falsy. *)
Definition or_num (x : option float) (d : float) : float :=
  match x with
  | Some v => if is_nan v || is_zero v then d else v
  | None => d
  end.

(** [[...new Set(l)]]: the distinct elements of [l] in the order of
    their first occurrence. *)
Fixpoint set_spread_from (seen l : list string) : list string :=
  match l with
  | [] => []
  | x :: l' =>
      if existsb (String.eqb x) seen then set_spread_from seen l'
      else x :: set_spread_from (x :: seen) l'
  end.

Definition set_spread (l : list string) : list string := set_spread_from [] l.

(** An integer as a template literal renders it. *)
Definition showNat (n : nat) : string :=
  DecimalString.NilZero.string_of_uint (Nat.to_uint n).

Definition showZ (z : Z) : string :=
  DecimalString.NilZero.string_of_int (Z.to_int z).

(** The double-quote character. *)
Definition dquote : string := String (ascii_of_nat 34) EmptyString.

(** *** Plain objects used as dictionaries

    An object is the list of its own entries in the order [Object.keys]
    reports them: array-index keys first, ascending, then the other
    string keys in the order of their creation. *)

Definition digit_of (c : ascii) : option N :=
  let n := N_of_ascii c in
  if ((48 <=? n) && (n <=? 57))%N then Some (n - 48)%N else None.

Fixpoint digits_value (acc : N) (s : string) : option N :=
  match s with
  | EmptyString => Some acc
  | String c s' =>
      match digit_of c with
      | Some d => digits_value (acc * 10 + d)%N s'
      | None => None
      end
  end.

(** A key is an array index when it is the canonical decimal spelling
    of an integer below [2^32 - 1]. *)
Definition array_index (k : string) : option N :=
  match k with
  | EmptyString => None
  | String c rest =>
      if Ascii.eqb c "0" && negb (String.eqb rest "") then None
      else match digits_value 0 k with
           | Some n => if (n <? 4294967295)%N then Some n else None
           | None => None
           end
  end.

Definition Obj (V : Type) : Type := list (string * V).

Definition obj_has {V} (k : string) (o : Obj V) : bool :=
  existsb (fun kv => String.eqb (fst kv) k) o.

Definition obj_get {V} (k : string) (o : Obj V) : option V :=
  option_map snd (List.find (fun kv => String.eqb (fst kv) k) o).

Fixpoint obj_insert_index {V} (n : N) (k : string) (v : V) (o : Obj V) : Obj V :=
  match o with
  | [] => [(k, v)]
  | (k', v') :: o' =>
      match array_index k' with
      | Some n' =>
          if (n' <? n)%N then (k', v') :: obj_insert_index n k v o'
          else (k, v) :: o
      | None => (k, v) :: o
      end
  end.

(** The entry of key [k] takes the value [v], in place. *)
Fixpoint obj_replace {V} (k : string) (v : V) (o : Obj V) : Obj V :=
  match o with
  | [] => []
  | (k', v') :: o' =>
      if String.eqb k' k then (k, v) :: o' else (k', v') :: obj_replace k v o'
  end.

(** [o[k] = v]: an existing key keeps its place, a new one takes the
    place its kind gives it. *)
Definition obj_set {V} (k : string) (v : V) (o : Obj V) : Obj V :=
  if obj_has k o
  then obj_replace k v o
  else match array_index k with
       | Some n => obj_insert_index n k v o
       | None => o ++ [(k, v)]
       end.

(** [Object.values(o)]. *)
Definition obj_values {V} (o : Obj V) : list V := List.map snd o.

End Js.

(** ** Great-circle distance *)

Module Geo.
Section Haversine.
Context `{JsMath}.
Local Open Scope float_scope.

(** [haversineDistance(lat1, lng1, lat2, lng2)], in metres. *)
Definition haversineDistance (lat1 lng1 lat2 lng2 : float) : float :=
  let R := 6371000 in
  let dLat := ((lat2 - lat1) * Js.Math_PI) / 180 in
  let dLng := ((lng2 - lng1) * Js.Math_PI) / 180 in
  let a :=
    Math_pow (Math_sin (dLat / 2)) 2 +
    Math_cos ((lat1 * Js.Math_PI) / 180) *
      Math_cos ((lat2 * Js.Math_PI) / 180) *
      Math_pow (Math_sin (dLng / 2)) 2 in
  R * 2 * Math_atan2 (sqrt a) (sqrt (1 - a)).

End Haversine.
End Geo.

(** ** Delivery verification *)

Module Fulfillment.

(** [ethers.ZeroHash]. *)
Definition ZeroHash : string :=
  "0x0000000000000000000000000000000000000000000000000000000000000000".

(** The proof object of a delivery confirmation.  One object serves
    both variants; a field the sender left out is [None] (or NaN for
    a coordinate). *)
Record ProofData := {
  dropLat : float;
  dropLng : float;
  cameraImageHash : option string;
  droneId : option string;
  officerId : option string;
  signature : option string;
  timestamp : option string
}.

Inductive Attestation :=
| DroneAttestation (droneId : option string) (gpsMatch : bool)
    (gpsDistance : float) (cameraVerified : bool) (timestamp : string)
    (verified : bool)
| HumanAttestation (officerId : option string) (signatureValid : bool)
    (officerValid : bool) (timestamp : string) (verified : bool).

Record VerificationResult := {
  verified : bool;
  attestation : Attestation;
  verificationHash : string
}.

Section Verify.
Context `{JsMath}.
(** [keccak256(toUtf8Bytes(JSON.stringify(attestation)))]. *)
Variable hashAttestation : Attestation -> string.
(** [new Date().toISOString()]. *)
Variable now : string.

Definition verifyDroneDelivery (proofData : ProofData)
    (targetLat targetLng : float) : VerificationResult :=
  let distance :=
    Geo.haversineDistance targetLat targetLng
      (dropLat proofData) (dropLng proofData) in
  let gpsMatch := (distance <? 30)%float in
  let cameraValid :=
    Js.truthy_str (cameraImageHash proofData) &&
    negb (bool_decide (cameraImageHash proofData = Some ZeroHash)) in
  let attestation :=
    DroneAttestation (droneId proofData) gpsMatch
      (Math_round (distance * 10) / 10)%float cameraValid
      (Js.or_str (timestamp proofData) now)
      (gpsMatch && cameraValid) in
  {| verified := gpsMatch && cameraValid;
     attestation := attestation;
     verificationHash := hashAttestation attestation |}.

Definition verifyAuthorityDelivery (proofData : ProofData)
    : VerificationResult :=
  let signatureValid := Js.truthy_str (signature proofData) in
  let officerValid := Js.truthy_str (officerId proofData) in
  let attestation :=
    HumanAttestation (officerId proofData) signatureValid officerValid
      (Js.or_str (timestamp proofData) now)
      (signatureValid && officerValid) in
  {| verified := signatureValid && officerValid;
     attestation := attestation;
     verificationHash := hashAttestation attestation |}.

Definition verifyDelivery (deliveryType : string) (proofData : ProofData)
    (targetLat targetLng : float) : VerificationResult :=
  if String.eqb deliveryType "drone"
  then verifyDroneDelivery proofData targetLat targetLng
  else verifyAuthorityDelivery proofData.

End Verify.
End Fulfillment.


(** ** Event attestation ([fdc.js]) *)

Module Fdc.

(** The severity labels the three parsers produce. *)
Inductive Severity := Low | Moderate | Severe | Critical | UnknownSeverity.

(** The label as the parsers spell it. *)
Definition severityName (s : Severity) : string :=
  match s with
  | Low => "low"
  | Moderate => "moderate"
  | Severe => "severe"
  | Critical => "critical"
  | UnknownSeverity => "unknown"
  end.

Record Event := {
  id : string;
  type : string;
  name : string;
  severity : Severity;
  region : option string;
  lat : float;
  lng : float;
  radiusKm : float;
  active : bool;
  sources : list string;
  startDate : option string
}.

(** [config.env === "production"]. *)
Inductive Env := Production | Development.

Definition EVENT_TYPES : list (string * string) :=
  [("EQ", "earthquake"); ("FL", "flood"); ("TC", "cyclone"); ("DR", "drought");
   ("VO", "volcano"); ("WF", "wildfire"); ("TS", "tsunami"); ("EP", "epidemic")].

Definition SEVERITY_LEVELS : list (string * Severity) :=
  [("GREEN", Low); ("ORANGE", Moderate); ("RED", Severe); ("PURPLE", Critical)].

(** [TABLE[key] || dflt] over the table's own entries. *)
Definition lookup_or {V} (table : list (string * V)) (key : option string) (dflt : V) : V :=
  match key with
  | Some k =>
      match List.find (fun kv => String.eqb (fst kv) k) table with
      | Some kv => snd kv
      | None => dflt
      end
  | None => dflt
  end.

(** One GeoJSON feature of the GDACS event list. *)
Record GdacsFeature := {
  g_eventid : option string;
  g_eventtype : option string;
  g_eventname : option string;
  g_alertlevel : option string;
  g_country : option string;
  g_coord0 : option float;
  g_coord1 : option float;
  g_severity : option float;
  g_fromdate : option string
}.

(** One GeoJSON feature of the USGS earthquake feed; [u_time] is the
    ISO rendering of [properties.time]. *)
Record UsgsFeature := {
  u_id : string;
  u_place : option string;
  u_mag : float;
  u_coord0 : float;
  u_coord1 : float;
  u_time : string
}.

(** One entry of the ReliefWeb disaster list; [r_type] is
    [fields.type[0].name] already in lower case. *)
Record ReliefWebItem := {
  r_id : string;
  r_status : option string;
  r_type : option string;
  r_name : option string;
  r_country : option string;
  r_lat : option float;
  r_lon : option float;
  r_created : option string
}.

Record FdcAttestation := {
  eventId : string;
  eventType : string;
  eventName : string;
  att_severity : Severity;
  att_region : option string;
  center : float * float;
  affectedRadius : float;
  att_sources : list string;
  sourceCount : nat;
  distanceFromUser : float;
  verifiedAt : string;
  att_active : bool
}.

Record FdcVerification := {
  verified : bool;
  reason : option string;
  event : option FdcAttestation;
  eventIdHash : option string;
  proofHash : option string;
  events : list Event
}.

(** An element of [scored] in [findBestMatch]: the event with its score. *)
Record ScoredEvent := {
  scored_event : Event;
  score : float
}.

Section Engine.
Context `{JsMath}.
(** [keccak256(toUtf8Bytes(s))] and [JSON.stringify(attestation)]. *)
Variable keccak256 : string -> string.
Variable stringifyAttestation : FdcAttestation -> string.
(** [new Date().toISOString()]. *)
Variable now : string.

(** Distance between the user and an event centre, in kilometres. *)
Definition distanceKm (lat1 lng1 lat2 lng2 : float) : float :=
  (Geo.haversineDistance lat1 lng1 lat2 lng2 / 1000)%float.

Definition gdacsEvent (f : GdacsFeature) : Event :=
  {| id := "gdacs-" ++ Js.or_str (g_eventid f) "unknown";
     type := lookup_or EVENT_TYPES (g_eventtype f) "unknown";
     name := Js.or_str (g_eventname f) "Unknown Event";
     severity := lookup_or SEVERITY_LEVELS (g_alertlevel f) UnknownSeverity;
     region := Some (Js.or_str (g_country f) "Unknown");
     lat := Js.or_num (g_coord1 f) 0;
     lng := Js.or_num (g_coord0 f) 0;
     radiusKm := Js.or_num (g_severity f) 100;
     active := true;
     sources := ["GDACS"];
     startDate := g_fromdate f |}.

Definition parseGDACSEvents (data : option (list GdacsFeature))
    (lat0 lng0 radius : float) : list Event :=
  match data with
  | None => []
  | Some features =>
      List.filter
        (fun e => (distanceKm lat0 lng0 (lat e) (lng e) <? radius)%float)
        (List.map gdacsEvent features)
  end.

Definition simulatedGDACS : list Event :=
  [ {| id := "gdacs-fl-2026-001"; type := "flood";
       name := "Mozambique Flooding 2026"; severity := Critical;
       region := Some "Zambezia Province, Mozambique";
       lat := (-17.05)%float; lng := 36.87%float; radiusKm := 200%float;
       active := true; sources := ["GDACS"];
       startDate := Some "2026-01-28T00:00:00Z" |};
    {| id := "gdacs-eq-2026-002"; type := "earthquake";
       name := "Eastern Turkey Earthquake"; severity := Severe;
       region := Some "Van Province, Turkey";
       lat := 38.49%float; lng := 43.38%float; radiusKm := 150%float;
       active := true; sources := ["GDACS"];
       startDate := Some "2026-02-01T00:00:00Z" |} ].

(** [queryGDACS]: [response] is the decoded body, [None] when the
    request failed or the body has no feature list. *)
Definition queryGDACS (env : Env) (response : option (list GdacsFeature))
    (lat0 lng0 radius : float) : list Event :=
  match env with
  | Production => parseGDACSEvents response lat0 lng0 radius
  | Development => simulatedGDACS
  end.

Definition usgsEvent (f : UsgsFeature) : Event :=
  {| id := "usgs-" ++ u_id f;
     type := "earthquake";
     name := Js.or_str (u_place f) "Earthquake";
     severity :=
       if (7 <=? u_mag f)%float then Critical
       else if (5.5 <=? u_mag f)%float then Severe else Moderate;
     region := u_place f;
     lat := u_coord1 f;
     lng := u_coord0 f;
     radiusKm := Js.Math_max 50 (u_mag f * 30)%float;
     active := true;
     sources := ["USGS"];
     startDate := Some (u_time f) |}.

Definition parseUSGSEvents (data : option (list UsgsFeature)) : list Event :=
  match data with
  | None => []
  | Some features => List.map usgsEvent features
  end.

Definition queryUSGS (env : Env) (response : option (list UsgsFeature)) : list Event :=
  match env with
  | Production => parseUSGSEvents response
  | Development => []
  end.

Definition reliefWebEvent (d : ReliefWebItem) : Event :=
  {| id := "reliefweb-" ++ r_id d;
     type := Js.or_str (r_type d) "disaster";
     name := Js.or_str (r_name d) "Unknown Disaster";
     severity := Severe;
     region := Some (Js.or_str (r_country d) "Unknown");
     lat := Js.or_num (r_lat d) 0;
     lng := Js.or_num (r_lon d) 0;
     radiusKm := 200%float;
     active := true;
     sources := ["ReliefWeb"];
     startDate := r_created d |}.

Definition parseReliefWebEvents (data : option (list ReliefWebItem))
    (lat0 lng0 radius : float) : list Event :=
  match data with
  | None => []
  | Some items =>
      List.filter
        (fun e => negb (lat e =? 0)%float &&
                  (distanceKm lat0 lng0 (lat e) (lng e) <? radius)%float)
        (List.map reliefWebEvent
           (List.filter (fun d => bool_decide (r_status d = Some "current")) items))
  end.

Definition queryReliefWeb (env : Env) (response : option (list ReliefWebItem))
    (lat0 lng0 radius : float) : list Event :=
  match env with
  | Production => parseReliefWebEvents response lat0 lng0 radius
  | Development => []
  end.

(** *** De-duplication *)

(** The merge condition of [deduplicateEvents]: same type, centres
    under 50 km apart. *)
Definition sameTypeWithin50 (existing event : Event) : bool :=
  String.eqb (type existing) (type event) &&
  (distanceKm (lat existing) (lng existing) (lat event) (lng event) <? 50)%float.

(** [existing.sources = [...new Set([...existing.sources, ...event.sources])]]. *)
Definition mergeSources (existing event : Event) : Event :=
  {| id := id existing; type := type existing; name := name existing;
     severity := severity existing; region := region existing;
     lat := lat existing; lng := lng existing; radiusKm := radiusKm existing;
     active := active existing;
     sources := Js.set_spread (sources existing ++ sources event);
     startDate := startDate existing |}.

(** The inner loop over [Object.keys(grouped)]: the first group the
    event belongs to absorbs its sources; [None] when there is none. *)
Fixpoint mergeInto (event : Event) (grouped : Js.Obj Event) : option (Js.Obj Event) :=
  match grouped with
  | [] => None
  | (key, existing) :: rest =>
      if sameTypeWithin50 existing event
      then Some ((key, mergeSources existing event) :: rest)
      else option_map (cons (key, existing)) (mergeInto event rest)
  end.

(** One turn of the outer loop. *)
Definition dedupStep (grouped : Js.Obj Event) (event : Event) : Js.Obj Event :=
  match mergeInto event grouped with
  | Some grouped' => grouped'
  | None => Js.obj_set (id event) event grouped
  end.

Definition deduplicateEvents (events : list Event) : list Event :=
  Js.obj_values (fold_left dedupStep events []).

(** Two events neither of which would be merged into the other. *)
Definition apart (a b : Event) : Prop :=
  sameTypeWithin50 a b = false /\ sameTypeWithin50 b a = false.

(** Two events of the same type with the same centre. *)
Definition sameSite (a b : Event) : Prop :=
  type a = type b /\ lat a = lat b /\ lng a = lng b.

(** What the outer loop of [deduplicateEvents] maintains: the groups
    are pairwise apart, and each sits where some input event does. *)
Definition groupsInv (events : list Event) (grouped : Js.Obj Event) : Prop :=
  ForallOrdPairs apart (Js.obj_values grouped) /\
  (forall v, In v (Js.obj_values grouped) -> exists x, In x events /\ sameSite v x).

(** *** Best match *)

Definition severityScore (s : Severity) : float :=
  match s with
  | Critical => 1
  | Severe => 0.75
  | Moderate => 0.5
  | Low => 0.25
  | UnknownSeverity => 0
  end%float.

(** The callback of [events.map] in [findBestMatch]. *)
Definition scoreEvent (lat0 lng0 : float) (e : Event) : ScoredEvent :=
  let distance := distanceKm lat0 lng0 (lat e) (lng e) in
  let proximityScore := Js.Math_max 0 (1 - distance / radiusKm e)%float in
  let sourceScore := (Js.of_length (sources e) / 3)%float in
  {| scored_event := e;
     score := (proximityScore * 0.5 + sourceScore * 0.3
               + severityScore (severity e) * 0.2)%float |}.

(** [scored.sort((a, b) => b.score - a.score)]: a stable sort by
    descending score. *)
Fixpoint insertByScore (x : ScoredEvent) (l : list ScoredEvent) : list ScoredEvent :=
  match l with
  | [] => [x]
  | y :: l' =>
      if (score x <? score y)%float then y :: insertByScore x l'
      else x :: l
  end.

Definition sortByScore (l : list ScoredEvent) : list ScoredEvent :=
  fold_right insertByScore [] l.

Definition findBestMatch (events : list Event) (lat0 lng0 : float)
    (claimedEvent : string) : option ScoredEvent :=
  match events with
  | [] => None
  | _ => List.head (sortByScore (List.map (scoreEvent lat0 lng0) events))
  end.

(** *** [verifyEvent] *)

Definition failedVerification (why : string) (evs : list Event) : FdcVerification :=
  {| verified := false; reason := Some why; event := None;
     eventIdHash := None; proofHash := None; events := evs |}.

(** The events gathered from the three providers. *)
Definition allEvents (env : Env)
    (gdacs : option (list GdacsFeature)) (usgs : option (list UsgsFeature))
    (reliefWeb : option (list ReliefWebItem))
    (lat0 lng0 radius : float) : list Event :=
  queryGDACS env gdacs lat0 lng0 radius ++
  queryUSGS env usgs ++
  queryReliefWeb env reliefWeb lat0 lng0 radius.

Definition verifyEvent (env : Env)
    (gdacs : option (list GdacsFeature)) (usgs : option (list UsgsFeature))
    (reliefWeb : option (list ReliefWebItem))
    (lat0 lng0 : float) (claimedEvent : string) (radius : float) : FdcVerification :=
  let all := allEvents env gdacs usgs reliefWeb lat0 lng0 radius in
  match all with
  | [] => failedVerification "No active events found in the vicinity" []
  | _ =>
      let deduped := deduplicateEvents all in
      match findBestMatch deduped lat0 lng0 claimedEvent with
      | None =>
          failedVerification "No matching event found for the claimed situation" deduped
      | Some best =>
          let bestMatch := scored_event best in
          if negb (active bestMatch)
          then failedVerification "Matched event is no longer active" deduped
          else
            let attestation :=
              {| eventId := id bestMatch;
                 eventType := type bestMatch;
                 eventName := name bestMatch;
                 att_severity := severity bestMatch;
                 att_region := region bestMatch;
                 center := (lat bestMatch, lng bestMatch);
                 affectedRadius := radiusKm bestMatch;
                 att_sources := sources bestMatch;
                 sourceCount := List.length (sources bestMatch);
                 distanceFromUser :=
                   distanceKm lat0 lng0 (lat bestMatch) (lng bestMatch);
                 verifiedAt := now;
                 att_active := true |} in
            {| verified := true; reason := None;
               event := Some attestation;
               eventIdHash := Some (keccak256 (eventId attestation));
               proofHash := Some (keccak256 (stringifyAttestation attestation));
               events := deduped |}
      end
  end.

End Engine.

(** The score as the specification words it:
    [0.5 * proximity + 0.3 * source_coverage + 0.2 * severity] with
    [proximity = max(0, 1 - distance_to_user / event_radius)] and
    [source_coverage = min(1, source_count / 3)]. *)
Definition specScore (distance_to_user event_radius : float)
    (source_count : nat) (severity_weight : float) : float :=
  let proximity := Js.Math_max 0 (1 - distance_to_user / event_radius)%float in
  let source_coverage :=
    Js.Math_min 1 (of_uint63 (Uint63.of_Z (Z.of_nat source_count)) / 3)%float in
  (0.5 * proximity + 0.3 * source_coverage + 0.2 * severity_weight)%float.

(** The labels the three providers put in [sources]. *)
Definition providerTags : list string := ["GDACS"; "USGS"; "ReliefWeb"].

(** A source list without repetition made of provider labels. *)
Definition sourcesOk (e : Event) : Prop :=
  List.NoDup (sources e) /\ incl (sources e) providerTags.

End Fdc.


(** ** LLM consensus panel *)

Module LlmPanel.

(** The verdict a node returns ([decision]). *)
Record Decision := {
  dec_approved : bool;
  dec_recommendedAid : N;
  dec_fulfillerType : N;
  dec_estimatedCostUSD : Z;
  dec_confidence : Z
}.

(** What [queryNode] returns; [decision] is [None] ([null]) when the
    node timed out or its answer did not parse. *)
Record NodeResult := {
  nodeId : string;
  nodeName : string;
  model : string;
  decision : option Decision;
  latency : Z;
  error : option string
}.

(** An entry of [transcript.nodeDecisions]. *)
Record NodeDecision := {
  nd_nodeId : string;
  nd_model : string;
  nd_approved : bool;
  nd_recommendedAid : N;
  nd_confidence : Z;
  nd_latency : Z
}.

Record Transcript := {
  t_timestamp : string;
  t_nodeCount : nat;
  t_validCount : nat;
  t_approvalCount : nat;
  t_approved : bool;
  t_recommendedAid : N;
  t_fulfillerType : N;
  t_estimatedCostUSD : Z;
  t_avgConfidence : Z;
  t_nodeDecisions : list NodeDecision
}.

(** The three texts [reason] can take. *)
Inductive Reason :=
| InsufficientResponses
| ApprovedBy (approvalCount totalValid : nat) (avgConfidence : Z)
| RejectedOnly (approvalCount totalValid : nat).

Definition reasonText (r : Reason) : string :=
  match r with
  | InsufficientResponses => "Insufficient LLM node responses for consensus"
  | ApprovedBy a v c =>
      "Approved by " ++ Js.showNat a ++ "/" ++ Js.showNat v ++ " nodes (" ++
      Js.showZ c ++ "% avg confidence)"
  | RejectedOnly a v =>
      "Rejected: only " ++ Js.showNat a ++ "/" ++ Js.showNat v ++
      " nodes approved (supermajority not met)"
  end%string.

(** The value [runConsensus] resolves to.  The four aggregates and the
    transcript are absent ([None]) from the below-quorum result. *)
Record ConsensusResult := {
  approved : bool;
  reason : Reason;
  nodeCount : nat;
  validCount : nat;
  approvalCount : nat;
  recommendedAid : option N;
  fulfillerType : option N;
  estimatedCostUSD : option Z;
  avgConfidence : option Z;
  results : list NodeResult;
  transcript : option Transcript;
  consensusHash : string
}.

(** The decisions of the nodes that answered:
    [results.filter((r) => r.decision !== null)], each with its result. *)
Fixpoint validResults (results : list NodeResult) : list (NodeResult * Decision) :=
  match results with
  | [] => []
  | r :: rest =>
      match decision r with
      | Some d => (r, d) :: validResults rest
      | None => validResults rest
      end
  end.

Definition failedNodes (results : list NodeResult) : list NodeResult :=
  List.filter (fun r => match decision r with None => true | Some _ => false end) results.

(** The key an integer takes as a property name. *)
Definition key_of (n : N) : string := DecimalString.NilEmpty.string_of_uint (N.to_uint n).

(** [parseInt(key)] on such a key. *)
Definition parseInt (k : string) : N :=
  match Js.digits_value 0 k with
  | Some n => n
  | None => 0%N
  end.

(** [votes[k] = (votes[k] || 0) + 1] for each [k] in turn. *)
Definition countVotes (ks : list N) : Js.Obj nat :=
  fold_left
    (fun votes k =>
       Js.obj_set (key_of k)
         (S (match Js.obj_get (key_of k) votes with Some c => c | None => 0%nat end))
         votes)
    ks [].

(** [entries.sort((a, b) => b[1] - a[1])]: stable, by descending count. *)
Fixpoint insertByCount (x : string * nat) (l : list (string * nat)) : list (string * nat) :=
  match l with
  | [] => [x]
  | y :: l' =>
      if (snd x <? snd y)%nat then y :: insertByCount x l' else x :: l
  end.

(** [parseInt(Object.entries(votes).sort(...)[0][0])]. *)
Definition majorityVote (ks : list N) : N :=
  match fold_right insertByCount [] (countVotes ks) with
  | [] => 0%N
  | (k, _) :: _ => parseInt k
  end.

(** [costs.sort((a, b) => a - b)]: ascending. *)
Fixpoint insertAsc (x : Z) (l : list Z) : list Z :=
  match l with
  | [] => [x]
  | y :: l' => if (y <? x)%Z then y :: insertAsc x l' else x :: l
  end.

Definition sortAsc (l : list Z) : list Z := fold_right insertAsc [] l.

(** [Math.round(sum / n)] for an integer sum and a positive count:
    the quotient rounded to the nearest integer, halves upwards. *)
Definition roundDiv (sum : Z) (n : nat) : Z :=
  (2 * sum + Z.of_nat n) / (2 * Z.of_nat n).

Section Panel.
(** [keccak256(toUtf8Bytes(JSON.stringify(transcript)))]. *)
Variable hashTranscript : Transcript -> string.
(** [new Date().toISOString()]. *)
Variable now : string.

(** [runConsensus] from the point where every node has answered:
    [results] is the value of [Promise.all(nodes.map(queryNode))]. *)
Definition runConsensus (results : list NodeResult) : ConsensusResult :=
  let valid := validResults results in
  if (List.length valid <? 3)%nat then
    {| approved := false;
       reason := InsufficientResponses;
       nodeCount := List.length results;
       validCount := List.length valid;
       approvalCount := 0;
       recommendedAid := None; fulfillerType := None;
       estimatedCostUSD := None; avgConfidence := None;
       results := results;
       transcript := None;
       consensusHash := Fulfillment.ZeroHash |}
  else
    let approvalVotes := List.filter (fun rd => dec_approved (snd rd)) valid in
    let approvalCount := List.length approvalVotes in
    let totalValid := List.length valid in
    let approved := (totalValid * 2 <? approvalCount * 3)%nat in
    let aggregate := approved && (0 <? List.length approvalVotes)%nat in
    let recommendedAid :=
      if aggregate
      then majorityVote (List.map (fun rd => dec_recommendedAid (snd rd)) approvalVotes)
      else 0%N in
    let fulfillerType :=
      if aggregate
      then majorityVote (List.map (fun rd => dec_fulfillerType (snd rd)) approvalVotes)
      else 0%N in
    let estimatedCostUSD :=
      if aggregate
      then
        let costs :=
          sortAsc (List.map (fun rd => dec_estimatedCostUSD (snd rd)) approvalVotes) in
        List.nth (List.length costs / 2) costs 0
      else 0 in
    let avgConfidence :=
      if aggregate
      then roundDiv
             (fold_left (fun sum rd => sum + dec_confidence (snd rd)) approvalVotes 0)
             (List.length approvalVotes)
      else 0 in
    let transcript :=
      {| t_timestamp := now;
         t_nodeCount := List.length results;
         t_validCount := totalValid;
         t_approvalCount := approvalCount;
         t_approved := approved;
         t_recommendedAid := recommendedAid;
         t_fulfillerType := fulfillerType;
         t_estimatedCostUSD := estimatedCostUSD;
         t_avgConfidence := avgConfidence;
         t_nodeDecisions :=
           List.map
             (fun rd =>
                {| nd_nodeId := nodeId (fst rd);
                   nd_model := model (fst rd);
                   nd_approved := dec_approved (snd rd);
                   nd_recommendedAid := dec_recommendedAid (snd rd);
                   nd_confidence := dec_confidence (snd rd);
                   nd_latency := latency (fst rd) |})
             valid |} in
    {| approved := approved;
       reason :=
         if approved then ApprovedBy approvalCount totalValid avgConfidence
         else RejectedOnly approvalCount totalValid;
       nodeCount := List.length results;
       validCount := totalValid;
       approvalCount := approvalCount;
       recommendedAid := Some recommendedAid;
       fulfillerType := Some fulfillerType;
       estimatedCostUSD := Some estimatedCostUSD;
       avgConfidence := Some avgConfidence;
       results := results;
       transcript := Some transcript;
       consensusHash := hashTranscript transcript |}.

End Panel.

(** The costs the approving nodes estimated, in panel order. *)
Definition approvingCosts (results : list NodeResult) : list Z :=
  List.map (fun rd => dec_estimatedCostUSD (snd rd))
    (List.filter (fun rd => dec_approved (snd rd)) (validResults results)).

(** The verdicts as the specification counts them, read off what each
    node returned: a node has returned a parseable verdict when its
    [decision] is not [null], and it approves when that verdict says
    so. *)
Definition parseable (r : NodeResult) : bool :=
  match decision r with
  | Some _ => true
  | None => false
  end.

Definition approves (r : NodeResult) : bool :=
  match decision r with
  | Some d => dec_approved d
  | None => false
  end.

(** The lower median of the specification: the middle value of the
    sorted list, and for an even count the smaller of the two middle
    values. *)
Definition lowerMedian (costs : list Z) : Z :=
  List.nth ((List.length costs - 1) / 2) (sortAsc costs) 0.

End LlmPanel.


(** ** The ledger's consensus entry point ([AidChain.sol]) *)

Module AidChain.

Inductive RequestStatus :=
| Submitted | Verified | Approved | Rejected | Funded
| DeliverySubmitted | DeliveryVerified | DeliveryFailed | Settled | TimedOut.

(** The fields of [AidRequest] that [submitConsensus] reads or writes. *)
Record AidRequest := {
  status : RequestStatus;
  consensusHash : string;
  recommendedAid : Z;
  fulfillerType : Z;
  estimatedCostUSD : Z
}.

Record State := {
  nextRequestId : Z;
  aidRequests : gmap Z AidRequest;
  approvedPanelOperators : gset string
}.

(** A storage slot never written reads as zero. *)
Definition emptyRequest : AidRequest :=
  {| status := Submitted; consensusHash := Fulfillment.ZeroHash;
     recommendedAid := 0; fulfillerType := 0; estimatedCostUSD := 0 |}.

Inductive Outcome :=
| Done (st : State)
| Revert (msg : string)
| Panic (code : Z).

(** Checked multiplication on [uint8] (Solidity 0.8): overflow panics
    with code [0x11]. *)
Definition mul_uint8 (a b : Z) : option Z :=
  if a * b <=? 255 then Some (a * b) else None.

(** [submitConsensus], with its modifiers [onlyPanelOperator] and
    [requestExists]; [nodeCount] and [approvalCount] are [uint8]. *)
Definition submitConsensus (st : State) (msg_sender : string)
    (requestId : Z) (approved : bool) (recommendedAid' fulfillerType' : Z)
    (estimatedCostUSD' : Z) (consensusHash' : string)
    (nodeCount approvalCount : Z) : Outcome :=
  if negb (bool_decide (msg_sender ∈ approvedPanelOperators st))
  then Revert "AidChain: not panel operator"
  else if negb (requestId <? nextRequestId st)
  then Revert "AidChain: request does not exist"
  else
    let r := default emptyRequest (aidRequests st !! requestId) in
    match status r with
    | Verified =>
        if negb (3 <=? nodeCount) then Revert "AidChain: insufficient nodes"
        else
          let store :=
            Done {| nextRequestId := nextRequestId st;
                    aidRequests :=
                      <[requestId :=
                          {| status := if approved then Approved else Rejected;
                             consensusHash := consensusHash';
                             recommendedAid := recommendedAid';
                             fulfillerType := fulfillerType';
                             estimatedCostUSD := estimatedCostUSD' |}]>
                        (aidRequests st);
                    approvedPanelOperators := approvedPanelOperators st |} in
          if negb approved then store
          else
            match mul_uint8 approvalCount 3, mul_uint8 nodeCount 2 with
            | Some a3, Some n2 =>
                if n2 <? a3 then store
                else Revert "AidChain: supermajority not met"
            | _, _ => Panic 17
            end
    | _ => Revert "AidChain: not verified"
    end.

End AidChain.

(** ** Effects: state and exceptions *)

Module Eff.

(** What the ledger client can answer to a transaction. *)
Inductive RpcFault :=
| Transient (msg : string)
| Reverted (msg : string).

Inductive Exn :=
| PipelineError (stage : string) (message : string)
| LedgerError (fault : RpcFault).

(** [err.message]. *)
Definition message_of (e : Exn) : string :=
  match e with
  | PipelineError _ m => m
  | LedgerError (Transient m) => m
  | LedgerError (Reverted m) => m
  end.

Inductive Res (A : Type) :=
| Ok (a : A)
| Throw (e : Exn).
Arguments Ok {A} a.
Arguments Throw {A} e.

Definition M (S A : Type) : Type := S -> Res A * S.

Definition ret {S A} (a : A) : M S A := fun s => (Ok a, s).

Definition bind {S A B} (m : M S A) (k : A -> M S B) : M S B :=
  fun s =>
    match m s with
    | (Ok a, s') => k a s'
    | (Throw e, s') => (Throw e, s')
    end.

Definition throw {S A} (e : Exn) : M S A := fun s => (Throw e, s).

Definition gets {S A} (f : S -> A) : M S A := fun s => (Ok (f s), s).

Definition modify {S} (f : S -> S) : M S unit := fun s => (Ok tt, f s).

(** [try { m } catch (err) { handler(err) }]. *)
Definition tryCatch {S A} (m : M S A) (handler : Exn -> M S A) : M S A :=
  fun s =>
    match m s with
    | (Ok a, s') => (Ok a, s')
    | (Throw e, s') => handler e s'
    end.

(** Run a computation on a component of the state. *)
Definition zoom {S T A} (proj : S -> T) (upd : T -> S -> S) (m : M T A) : M S A :=
  fun s =>
    match m (proj s) with
    | (r, t') => (r, upd t' s)
    end.

End Eff.

Notation "'let!' x ':=' m 'in' k" := (Eff.bind m (fun x => k))
  (at level 10, x name, m at level 100, k at level 200).
Notation "'run!' m 'in' k" := (Eff.bind m (fun _ => k))
  (at level 10, m at level 100, k at level 200).

(** ** Ledger adapter ([blockchain.js]) *)

Module Blockchain.
Import Eff.

(** A contract method invoked through the adapter, with its arguments. *)
Inductive LedgerCall :=
| VerifyRequest (requestId : Z) (galileoProofHash fdcEventId fdcProofHash : string)
| SubmitConsensus (requestId : Z) (approved : bool) (recommendedAid fulfillerType : N)
    (costInUnits : Z) (consensusHash : string) (nodeCount approvalCount : nat)
| AssignFulfiller (requestId : Z) (fulfiller : string)
| VerifyDelivery (requestId : Z) (verified : bool) (verificationHash : string)
| ReleasePayout (requestId : Z)
| GetRequest (requestId : Z).

Inductive RpcOutcome :=
| Confirmed (txHash : string)
| Failed (fault : RpcFault).

(** The client side of the connection: every call handed to the
    contract object so far, oldest first. *)
Record Client := {
  sent : list LedgerCall
}.

(** The request as [formatRequest] renders it. *)
Record FormattedRequest := {
  fr_id : Z;
  fr_fulfillerType : string;
  fr_lat : float;
  fr_lng : float;
  fr_statusCode : Z
}.

Section Adapter.
(** The ledger's answer to the n-th call the client makes (counting
    from zero), and what a successful read of a request returns. *)
Variable rpc : nat -> RpcOutcome.
Variable chainRequest : Z -> FormattedRequest.

(** [const tx = await contract.method(...); const receipt = await tx.wait()]:
    one call, whose failure is thrown to the caller. *)
Definition transact (call : LedgerCall) : M Client string :=
  fun c =>
    let c' := {| sent := sent c ++ [call] |} in
    match rpc (List.length (sent c)) with
    | Confirmed txHash => (Ok txHash, c')
    | Failed fault => (Throw (LedgerError fault), c')
    end.

Definition getRequest (requestId : Z) : M Client FormattedRequest :=
  let! _ := transact (GetRequest requestId) in
  ret (chainRequest requestId).

Definition submitVerification (requestId : Z)
    (galileoProofHash fdcEventId fdcProofHash : string) : M Client string :=
  let! receipt := transact (VerifyRequest requestId galileoProofHash fdcEventId fdcProofHash) in
  ret receipt.

(** [ethers.parseUnits(estimatedCostUSD.toString(), 6)] on a whole amount. *)
Definition parseUnits6 (amount : Z) : Z := amount * 1000000.

Definition submitConsensusOnChain (requestId : Z) (approved : bool)
    (recommendedAid fulfillerType : N) (estimatedCostUSD : Z)
    (consensusHash : string) (nodeCount approvalCount : nat) : M Client string :=
  let costInUnits := parseUnits6 estimatedCostUSD in
  let! receipt := transact (SubmitConsensus requestId approved recommendedAid fulfillerType
                         costInUnits consensusHash nodeCount approvalCount) in
  ret receipt.

Definition assignFulfillerOnChain (requestId : Z) (fulfillerAddress : string)
    : M Client string :=
  let! receipt := transact (AssignFulfiller requestId fulfillerAddress) in
  ret receipt.

Definition verifyDeliveryOnChain (requestId : Z) (verified : bool)
    (verificationHash : string) : M Client string :=
  let! receipt := transact (VerifyDelivery requestId verified verificationHash) in
  ret receipt.

Definition releasePayoutOnChain (requestId : Z) : M Client string :=
  let! receipt := transact (ReleasePayout requestId) in
  ret receipt.

(** The five write operations with their arguments. *)
Inductive LedgerWrite :=
| WriteVerification (requestId : Z) (galileoProofHash fdcEventId fdcProofHash : string)
| WriteConsensus (requestId : Z) (approved : bool) (recommendedAid fulfillerType : N)
    (estimatedCostUSD : Z) (consensusHash : string) (nodeCount approvalCount : nat)
| WriteAssignment (requestId : Z) (fulfillerAddress : string)
| WriteDeliveryVerification (requestId : Z) (verified : bool) (verificationHash : string)
| WritePayout (requestId : Z).

Definition perform (wr : LedgerWrite) : M Client string :=
  match wr with
  | WriteVerification requestId g e p => submitVerification requestId g e p
  | WriteConsensus requestId approved aid ft cost h n a =>
      submitConsensusOnChain requestId approved aid ft cost h n a
  | WriteAssignment requestId fulfiller => assignFulfillerOnChain requestId fulfiller
  | WriteDeliveryVerification requestId verified h =>
      verifyDeliveryOnChain requestId verified h
  | WritePayout requestId => releasePayoutOnChain requestId
  end.

(** The contract call a write operation stands for. *)
Definition callOf (wr : LedgerWrite) : LedgerCall :=
  match wr with
  | WriteVerification requestId g e p => VerifyRequest requestId g e p
  | WriteConsensus requestId approved aid ft cost h n a =>
      SubmitConsensus requestId approved aid ft (parseUnits6 cost) h n a
  | WriteAssignment requestId fulfiller => AssignFulfiller requestId fulfiller
  | WriteDeliveryVerification requestId verified h => VerifyDelivery requestId verified h
  | WritePayout requestId => ReleasePayout requestId
  end.

End Adapter.

(** The ledger's verdict on a consensus submission the adapter sends
    from the account [sender]. *)
Definition consensusOnLedger (st : AidChain.State) (sender : string)
    (call : LedgerCall) : option AidChain.Outcome :=
  match call with
  | SubmitConsensus requestId approved recommendedAid fulfillerType
      costInUnits consensusHash nodeCount approvalCount =>
      Some (AidChain.submitConsensus st sender requestId approved
              (Z.of_N recommendedAid) (Z.of_N fulfillerType) costInUnits
              consensusHash (Z.of_nat nodeCount) (Z.of_nat approvalCount))
  | _ => None
  end.

(** *** The retry policy of the specification

    "On transient failure the adapter retries with bounded exponential
    backoff (default: 3 attempts, 500 ms, 2 s, 8 s). Non-transient
    errors surface immediately."  [retryWithBackoff] follows these
    words, not the code: it makes at most one attempt per entry of the
    schedule, waits the entry's delay before the next attempt, and
    returns the result together with the delays it waited. *)
Definition defaultBackoff : list Z := [500; 2000; 8000].

Fixpoint retryWithBackoff (rpc : nat -> RpcOutcome) (call : LedgerCall)
    (schedule : list Z) (c : Client) : Res string * Client * list Z :=
  match schedule with
  | [] => (Throw (LedgerError (Transient "retries exhausted")), c, [])
  | delay :: later =>
      match transact rpc call c with
      | (Ok receipt, c') => (Ok receipt, c', [])
      | (Throw (LedgerError (Transient m)), c') =>
          match later with
          | [] => (Throw (LedgerError (Transient m)), c', [])
          | _ =>
              match retryWithBackoff rpc call later c' with
              | (r, c'', waited) => (r, c'', delay :: waited)
              end
          end
      | (Throw e, c') => (Throw e, c', [])
      end
  end.

End Blockchain.


(** ** Pipeline orchestrator *)

Module Pipeline.
Import Eff.

(** The stage an event carries: a name, or the stage number when an
    error that is not a [PipelineError] is reported. *)
Inductive StageLabel :=
| StageName (s : string)
| StageNumber (n : Z).

(** What [emit] hands to the listeners. *)
Record PipelineEvent := {
  ev_requestId : Z;
  ev_stage : StageLabel;
  ev_status : option string;
  ev_message : string
}.

(** The record kept in [activePipelines]; [stages] lists the keys of
    the stages completed so far. *)
Record PipelineState := {
  requestId : Z;
  currentStage : Z;
  startTime : Z;
  stages : list string;
  error : option string
}.

Definition STAGE_REQUEST : Z := 1.
Definition STAGE_GPS_VERIFY : Z := 2.
Definition STAGE_EVENT_VERIFY : Z := 3.
Definition STAGE_LLM_PANEL : Z := 4.
Definition STAGE_CONTRACT : Z := 5.
Definition STAGE_FULFILLMENT : Z := 6.
Definition STAGE_RECEIPT : Z := 7.
Definition STAGE_SETTLEMENT : Z := 8.

(** The orchestrator's mutable world: the registry, the events emitted
    so far (oldest first) and the ledger client. *)
Record Sys := {
  activePipelines : gmap Z PipelineState;
  emitted : list PipelineEvent;
  client : Blockchain.Client
}.

(** The parameters of [executePipeline]. *)
Record Params := {
  p_requestId : Z;
  p_aidType : string;
  p_urgency : string;
  p_lat : float;
  p_lng : float;
  p_details : string;
  p_deviceId : option string
}.

(** The result of [verifyLocation]. *)
Record GalileoVerification := {
  gal_valid : bool;
  gal_reason : string;
  gal_lat : float;
  gal_lng : float;
  gal_accuracy : float;
  gal_proofHash : string
}.

(** The result of [dispatchFulfiller]. *)
Record DispatchResult := {
  dr_success : bool;
  dr_error : string;
  dr_fulfillerAddress : string;
  dr_dispatchId : string;
  dr_estimatedEta : string
}.

(** Everything the collaborators answer during one run. *)
Record World := {
  rpc : nat -> Blockchain.RpcOutcome;
  chainRequest : Z -> Blockchain.FormattedRequest;
  galileo : GalileoVerification;
  fdcEnv : Fdc.Env;
  gdacs : option (list Fdc.GdacsFeature);
  usgs : option (list Fdc.UsgsFeature);
  reliefWeb : option (list Fdc.ReliefWebItem);
  panel : list LlmPanel.NodeResult;
  dispatch : DispatchResult
}.

(** What [executePipeline] resolves to. *)
Inductive PipelineResult :=
| PipelineSuccess (state : PipelineState) (dispatchResult : DispatchResult)
| PipelineFailure (error : string) (stage : StageLabel) (state : PipelineState).

(** What [completeDelivery] resolves to. *)
Inductive DeliveryResult :=
| DeliverySuccess
| DeliveryRejected (reason : string)
| DeliveryError (error : string).

Definition success (r : DeliveryResult) : bool :=
  match r with
  | DeliverySuccess => true
  | _ => false
  end.

Section Orchestrator.
Context `{JsMath}.
Variable keccak256 : string -> string.
Variable stringifyAttestation : Fdc.FdcAttestation -> string.
Variable hashTranscript : LlmPanel.Transcript -> string.
Variable hashAttestation : Fulfillment.Attestation -> string.
(** [new Date().toISOString()] and [Date.now()]. *)
Variable now : string.
Variable nowMs : Z.
(** [x.toFixed(digits)] and the rendering of a number in a template
    literal. *)
Variable toFixed : float -> nat -> string.
Variable showNumber : float -> string.
(** The wallets of the fulfiller registry. *)
Variable ziplineWallet : string.
Variable authorityWallet : string.
Variable w : World.

(** [emit(requestId, stage, data)]. *)
Definition emit (rid : Z) (stage : StageLabel) (status : option string)
    (message : string) : M Sys unit :=
  modify (fun s =>
    {| activePipelines := activePipelines s;
       emitted := emitted s ++
         [{| ev_requestId := rid; ev_stage := stage;
             ev_status := status; ev_message := message |}];
       client := client s |}).

(** The registry operations. *)
Definition registrySet (rid : Z) (st : PipelineState) : M Sys unit :=
  modify (fun s =>
    {| activePipelines := <[rid := st]> (activePipelines s);
       emitted := emitted s; client := client s |}).

Definition registryGet (rid : Z) : M Sys (option PipelineState) :=
  gets (fun s => activePipelines s !! rid).

Definition registryDelete (rid : Z) : M Sys unit :=
  modify (fun s =>
    {| activePipelines := delete rid (activePipelines s);
       emitted := emitted s; client := client s |}).

(** An assignment to a field of the record the registry holds for
    [rid]: the record is shared, so the registry sees the change. *)
Definition mutate (rid : Z) (f : PipelineState -> PipelineState) : M Sys unit :=
  modify (fun s =>
    {| activePipelines := alter f rid (activePipelines s);
       emitted := emitted s; client := client s |}).

Definition setStage (n : Z) (st : PipelineState) : PipelineState :=
  {| requestId := requestId st; currentStage := n; startTime := startTime st;
     stages := stages st; error := error st |}.

Definition completeStage (key : string) (st : PipelineState) : PipelineState :=
  {| requestId := requestId st; currentStage := currentStage st;
     startTime := startTime st; stages := stages st ++ [key]; error := error st |}.

Definition setError (msg : string) (st : PipelineState) : PipelineState :=
  {| requestId := requestId st; currentStage := currentStage st;
     startTime := startTime st; stages := stages st; error := Some msg |}.

(** A call of the ledger adapter from the orchestrator. *)
Definition ledger {A} (m : M Blockchain.Client A) : M Sys A :=
  zoom client
    (fun c s => {| activePipelines := activePipelines s;
                   emitted := emitted s; client := c |})
    m.

(** [getFulfillerAddress(fulfillerType)] on the panel's numeric code. *)
Definition getFulfillerAddress (fulfillerType : N) : string :=
  if (fulfillerType =? 0)%N then ziplineWallet else authorityWallet.

Definition AID_NAMES : list string :=
  ["medical"; "food"; "shelter"; "rescue"; "comms"; "evacuation"].

(** The two calls of [submitConsensusOnChain] in [executePipeline]:
    the rejection and the approval of a consensus result. *)
Definition submitRejection (rid : Z) (c : LlmPanel.ConsensusResult)
    : M Blockchain.Client string :=
  Blockchain.submitConsensusOnChain (rpc w) rid false 0 0 0
    (LlmPanel.consensusHash c) (LlmPanel.nodeCount c) (LlmPanel.approvalCount c).

Definition submitApproval (rid : Z) (c : LlmPanel.ConsensusResult)
    : M Blockchain.Client string :=
  Blockchain.submitConsensusOnChain (rpc w) rid true
    (default 0%N (LlmPanel.recommendedAid c))
    (default 0%N (LlmPanel.fulfillerType c))
    (default 0 (LlmPanel.estimatedCostUSD c))
    (LlmPanel.consensusHash c) (LlmPanel.nodeCount c) (LlmPanel.approvalCount c).

(** The body of the [try] block of [executePipeline]. *)
Definition stages1to6 (params : Params) : M Sys DispatchResult :=
  let rid := p_requestId params in
  (* Stage 1 *)
  run! mutate rid (setStage STAGE_REQUEST) in
  run! emit rid (StageName "request") (Some "confirmed")
         "Aid request confirmed on-chain" in
  run! mutate rid (completeStage "request") in
  (* Stage 2 *)
  run! mutate rid (setStage STAGE_GPS_VERIFY) in
  run! emit rid (StageName "gps_verify") (Some "started")
         "Initiating Galileo OS-NMA authentication..." in
  let galileoResult := galileo w in
  if negb (gal_valid galileoResult)
  then throw (PipelineError "GPS_VERIFY"
                ("Galileo verification failed: " ++ gal_reason galileoResult))
  else
  run! ledger (Blockchain.submitVerification (rpc w) rid
                 (gal_proofHash galileoResult) Fulfillment.ZeroHash
                 Fulfillment.ZeroHash) in
  run! emit rid (StageName "gps_verify") (Some "completed")
         ("Location authenticated: " ++ toFixed (gal_lat galileoResult) 4 ++ ", " ++
          toFixed (gal_lng galileoResult) 4 ++ " ±" ++
          showNumber (gal_accuracy galileoResult) ++ "m") in
  run! mutate rid (completeStage "gpsVerify") in
  (* Stage 3 *)
  run! mutate rid (setStage STAGE_EVENT_VERIFY) in
  run! emit rid (StageName "event_verify") (Some "started")
         "Querying FDC for local events..." in
  let fdcResult :=
    Fdc.verifyEvent keccak256 stringifyAttestation now (fdcEnv w)
      (gdacs w) (usgs w) (reliefWeb w)
      (gal_lat galileoResult) (gal_lng galileoResult)
      (if String.eqb (p_details params) "" then p_aidType params
       else p_details params)
      100%float in
  if negb (Fdc.verified fdcResult)
  then throw (PipelineError "EVENT_VERIFY"
                ("Event verification failed: " ++
                 default "undefined" (Fdc.reason fdcResult)))
  else
  run! emit rid (StageName "event_verify") (Some "completed")
         (match Fdc.event fdcResult with
          | Some ev =>
              "Event confirmed: " ++ Js.dquote ++ Fdc.eventName ev ++ Js.dquote ++
              " (" ++ Fdc.eventType ev ++ ", " ++
              Fdc.severityName (Fdc.att_severity ev) ++ ")"
          | None => "Event confirmed"
          end) in
  run! mutate rid (completeStage "eventVerify") in
  (* Stage 4 *)
  run! mutate rid (setStage STAGE_LLM_PANEL) in
  run! emit rid (StageName "llm_panel") (Some "started")
         "Distributing to LLM consensus panel..." in
  let consensusResult := LlmPanel.runConsensus hashTranscript now (panel w) in
  if negb (LlmPanel.approved consensusResult)
  then
    run! ledger (submitRejection rid consensusResult) in
    throw (PipelineError "LLM_PANEL"
             ("Consensus rejected: " ++
              LlmPanel.reasonText (LlmPanel.reason consensusResult)))
  else
  run! ledger (submitApproval rid consensusResult) in
  run! emit rid (StageName "llm_panel") (Some "completed")
         ("Consensus reached: " ++
          LlmPanel.reasonText (LlmPanel.reason consensusResult)) in
  run! mutate rid (completeStage "llmPanel") in
  (* Stage 5 *)
  run! mutate rid (setStage STAGE_CONTRACT) in
  run! emit rid (StageName "contract") (Some "started")
         "Deploying smart contract escrow..." in
  let fulfillerAddr :=
    getFulfillerAddress (default 0%N (LlmPanel.fulfillerType consensusResult)) in
  run! ledger (Blockchain.assignFulfillerOnChain (rpc w) rid fulfillerAddr) in
  run! emit rid (StageName "contract") (Some "completed")
         ("Escrow funded: " ++
          Js.showZ (default 0 (LlmPanel.estimatedCostUSD consensusResult)) ++
          " USDC → Fulfiller assigned") in
  run! mutate rid (completeStage "contract") in
  (* Stage 6 *)
  run! mutate rid (setStage STAGE_FULFILLMENT) in
  run! emit rid (StageName "fulfillment") (Some "started")
         "Dispatching fulfiller..." in
  let dispatchResult := dispatch w in
  if negb (dr_success dispatchResult)
  then throw (PipelineError "FULFILLMENT"
                ("Dispatch failed: " ++ dr_error dispatchResult))
  else
  run! emit rid (StageName "fulfillment") (Some "completed")
         ("Fulfiller dispatched — ETA: " ++ dr_estimatedEta dispatchResult) in
  run! mutate rid (completeStage "fulfillment") in
  run! emit rid (StageName "awaiting_delivery") (Some "pending")
         "Awaiting delivery confirmation..." in
  ret dispatchResult.

(** [executePipeline(params)]. *)
Definition executePipeline (params : Params) : M Sys PipelineResult :=
  let rid := p_requestId params in
  let state :=
    {| requestId := rid; currentStage := STAGE_REQUEST; startTime := nowMs;
       stages := []; error := None |} in
  run! registrySet rid state in
  tryCatch
    (let! dispatchResult := stages1to6 params in
     let! st := registryGet rid in
     ret (PipelineSuccess (default state st) dispatchResult))
    (fun err =>
       run! mutate rid (setError (message_of err)) in
       let! st := registryGet rid in
       let stage :=
         match err with
         | PipelineError stage _ => StageName stage
         | _ => StageNumber (currentStage (default state st))
         end in
       run! emit rid stage None (message_of err) in
       ret (PipelineFailure (message_of err) stage (default state st))).

(** [completeDelivery(requestId, deliveryProof)]. *)
Definition completeDelivery (rid : Z) (deliveryProof : Fulfillment.ProofData)
    : M Sys DeliveryResult :=
  let! state := registryGet rid in
  tryCatch
    ((* Stage 7 *)
     run! emit rid (StageName "receipt") (Some "started")
            "Verifying delivery proof..." in
     let! onChainReq := ledger (Blockchain.getRequest (rpc w) (chainRequest w) rid) in
     let verifyResult :=
       Fulfillment.verifyDelivery hashAttestation now
         (Blockchain.fr_fulfillerType onChainReq) deliveryProof
         (Blockchain.fr_lat onChainReq) (Blockchain.fr_lng onChainReq) in
     run! ledger (Blockchain.verifyDeliveryOnChain (rpc w) rid
                    (Fulfillment.verified verifyResult)
                    (Fulfillment.verificationHash verifyResult)) in
     if negb (Fulfillment.verified verifyResult)
     then
       run! emit rid (StageName "receipt") (Some "failed")
              "Delivery verification failed" in
       ret (DeliveryRejected "Delivery verification failed")
     else
     run! emit rid (StageName "receipt") (Some "completed") "Delivery verified ✓" in
     (* Stage 8 *)
     run! emit rid (StageName "settlement") (Some "started") "Releasing payout..." in
     run! ledger (Blockchain.releasePayoutOnChain (rpc w) rid) in
     run! emit rid (StageName "settlement") (Some "completed")
            "Payout released — Contract settled ✓" in
     (* Clean up *)
     run! match state with
          | Some _ =>
              run! mutate rid (completeStage "receipt") in
              run! mutate rid (completeStage "settlement") in
              mutate rid (setStage STAGE_SETTLEMENT)
          | None => ret tt
          end in
     run! registryDelete rid in
     ret DeliverySuccess)
    (fun err =>
       run! emit rid (StageName "delivery") None (message_of err) in
       ret (DeliveryError (message_of err))).

(** [getPipelineState(requestId)]. *)
Definition getPipelineState (rid : Z) (s : Sys) : option PipelineState :=
  activePipelines s !! rid.

End Orchestrator.

(** A computation that, started with the registry [base] plus one
    record for [rid], ends with the registry [base] plus one record
    for [rid] whose [error] field is the same. *)
Definition keepsRecord {A} (base : gmap Z PipelineState) (rid : Z) (m : M Sys A) : Prop :=
  forall s x,
    activePipelines s = <[rid := x]> base ->
    exists x', activePipelines (snd (m s)) = <[rid := x']> base /\ error x' = error x.

(** The same system with another registry. *)
Definition withRegistry (reg : gmap Z PipelineState) (s : Sys) : Sys :=
  {| activePipelines := reg; emitted := emitted s; client := client s |}.

End Pipeline.


(** ** The orchestrator on the event loop

    [executePipeline] and [completeDelivery] are [async] functions: at
    each [await] the event loop runs whatever else is ready (other
    runs, other completions, the handlers of the routes) on the same
    [activePipelines] map and the same state objects.  Here the state
    objects live in a store of their own, the map holds references to
    them, and a call works on the reference it took at entry, as the
    [const state] of the source does. *)

Module Async.
Import Eff Pipeline.

(** The objects created so far, by reference; the [activePipelines]
    map, from request identifiers to references; the events emitted so
    far and the ledger client. *)
Record Heap := {
  objects : gmap nat PipelineState;
  activePipelines : gmap Z nat;
  emitted : list PipelineEvent;
  client : Blockchain.Client
}.

(** [const state = {...}]: a new object, which nothing refers to yet. *)
Definition create (st : PipelineState) : M Heap nat :=
  fun h =>
    let ref := fresh (dom (objects h) : gset nat) in
    (Ok ref,
     {| objects := <[ref := st]> (objects h);
        activePipelines := activePipelines h;
        emitted := emitted h; client := client h |}).

(** [state.field = value], on the object itself. *)
Definition assign (ref : nat) (f : PipelineState -> PipelineState) : M Heap unit :=
  modify (fun h =>
    {| objects := alter f ref (objects h);
       activePipelines := activePipelines h;
       emitted := emitted h; client := client h |}).

(** The object as it is now ([state] where the source reads it). *)
Definition deref (ref : nat) : M Heap (option PipelineState) :=
  gets (fun h => objects h !! ref).

(** [activePipelines.set], [.get] and [.delete]. *)
Definition registrySet (rid : Z) (ref : nat) : M Heap unit :=
  modify (fun h =>
    {| objects := objects h;
       activePipelines := <[rid := ref]> (activePipelines h);
       emitted := emitted h; client := client h |}).

Definition registryGet (rid : Z) : M Heap (option nat) :=
  gets (fun h => activePipelines h !! rid).

Definition registryDelete (rid : Z) : M Heap unit :=
  modify (fun h =>
    {| objects := objects h;
       activePipelines := delete rid (activePipelines h);
       emitted := emitted h; client := client h |}).

(** [emit(requestId, stage, data)]. *)
Definition emit (rid : Z) (stage : StageLabel) (status : option string)
    (message : string) : M Heap unit :=
  modify (fun h =>
    {| objects := objects h;
       activePipelines := activePipelines h;
       emitted := emitted h ++
         [{| ev_requestId := rid; ev_stage := stage;
             ev_status := status; ev_message := message |}];
       client := client h |}).

(** A call of the ledger adapter. *)
Definition ledger {A} (m : M Blockchain.Client A) : M Heap A :=
  zoom client
    (fun c h => {| objects := objects h; activePipelines := activePipelines h;
                   emitted := emitted h; client := c |})
    m.

(** [getPipelineState(requestId)]: the object the map refers to. *)
Definition getPipelineState (rid : Z) (h : Heap) : option PipelineState :=
  match activePipelines h !! rid with
  | Some ref => objects h !! ref
  | None => None
  end.

Section Orchestrator.
Context `{JsMath}.
Variable keccak256 : string -> string.
Variable stringifyAttestation : Fdc.FdcAttestation -> string.
Variable hashTranscript : LlmPanel.Transcript -> string.
Variable hashAttestation : Fulfillment.Attestation -> string.
Variable now : string.
Variable nowMs : Z.
Variable toFixed : float -> nat -> string.
Variable showNumber : float -> string.
Variable ziplineWallet : string.
Variable authorityWallet : string.
(** What the rest of the program does to the heap while the call
    waits at its [k]-th [await]. *)
Variable others : nat -> Heap -> Heap.
Variable w : World.

(** [await m]: the awaited operation, then the other tasks, then the
    call resumes, with the result or the exception of [m]. *)
Definition await {A} (k : nat) (m : M Heap A) : M Heap A :=
  fun h =>
    match m h with
    | (r, h') => (r, others k h')
    end.

(** The body of the [try] block of [executePipeline], working on the
    object [state]. *)
Definition stages1to6 (params : Params) (state : nat) : M Heap DispatchResult :=
  let rid := p_requestId params in
  (* Stage 1 *)
  run! assign state (setStage STAGE_REQUEST) in
  run! emit rid (StageName "request") (Some "confirmed")
         "Aid request confirmed on-chain" in
  run! assign state (completeStage "request") in
  (* Stage 2 *)
  run! assign state (setStage STAGE_GPS_VERIFY) in
  run! emit rid (StageName "gps_verify") (Some "started")
         "Initiating Galileo OS-NMA authentication..." in
  let! galileoResult := await 1 (ret (galileo w)) in
  if negb (gal_valid galileoResult)
  then throw (PipelineError "GPS_VERIFY"
                ("Galileo verification failed: " ++ gal_reason galileoResult))
  else
  run! await 2 (ledger (Blockchain.submitVerification (rpc w) rid
                          (gal_proofHash galileoResult) Fulfillment.ZeroHash
                          Fulfillment.ZeroHash)) in
  run! emit rid (StageName "gps_verify") (Some "completed")
         ("Location authenticated: " ++ toFixed (gal_lat galileoResult) 4 ++ ", " ++
          toFixed (gal_lng galileoResult) 4 ++ " ±" ++
          showNumber (gal_accuracy galileoResult) ++ "m") in
  run! assign state (completeStage "gpsVerify") in
  (* Stage 3 *)
  run! assign state (setStage STAGE_EVENT_VERIFY) in
  run! emit rid (StageName "event_verify") (Some "started")
         "Querying FDC for local events..." in
  let! fdcResult :=
    await 3 (ret (Fdc.verifyEvent keccak256 stringifyAttestation now (fdcEnv w)
                    (gdacs w) (usgs w) (reliefWeb w)
                    (gal_lat galileoResult) (gal_lng galileoResult)
                    (if String.eqb (p_details params) "" then p_aidType params
                     else p_details params)
                    100%float)) in
  if negb (Fdc.verified fdcResult)
  then throw (PipelineError "EVENT_VERIFY"
                ("Event verification failed: " ++
                 default "undefined" (Fdc.reason fdcResult)))
  else
  run! emit rid (StageName "event_verify") (Some "completed")
         (match Fdc.event fdcResult with
          | Some ev =>
              "Event confirmed: " ++ Js.dquote ++ Fdc.eventName ev ++ Js.dquote ++
              " (" ++ Fdc.eventType ev ++ ", " ++
              Fdc.severityName (Fdc.att_severity ev) ++ ")"
          | None => "Event confirmed"
          end) in
  run! assign state (completeStage "eventVerify") in
  (* Stage 4 *)
  run! assign state (setStage STAGE_LLM_PANEL) in
  run! emit rid (StageName "llm_panel") (Some "started")
         "Distributing to LLM consensus panel..." in
  let! consensusResult :=
    await 4 (ret (LlmPanel.runConsensus hashTranscript now (panel w))) in
  if negb (LlmPanel.approved consensusResult)
  then
    run! await 5 (ledger (submitRejection w rid consensusResult)) in
    throw (PipelineError "LLM_PANEL"
             ("Consensus rejected: " ++
              LlmPanel.reasonText (LlmPanel.reason consensusResult)))
  else
  run! await 5 (ledger (submitApproval w rid consensusResult)) in
  run! emit rid (StageName "llm_panel") (Some "completed")
         ("Consensus reached: " ++
          LlmPanel.reasonText (LlmPanel.reason consensusResult)) in
  run! assign state (completeStage "llmPanel") in
  (* Stage 5 *)
  run! assign state (setStage STAGE_CONTRACT) in
  run! emit rid (StageName "contract") (Some "started")
         "Deploying smart contract escrow..." in
  let fulfillerAddr :=
    getFulfillerAddress ziplineWallet authorityWallet
      (default 0%N (LlmPanel.fulfillerType consensusResult)) in
  run! await 6 (ledger (Blockchain.assignFulfillerOnChain (rpc w) rid fulfillerAddr)) in
  run! emit rid (StageName "contract") (Some "completed")
         ("Escrow funded: " ++
          Js.showZ (default 0 (LlmPanel.estimatedCostUSD consensusResult)) ++
          " USDC → Fulfiller assigned") in
  run! assign state (completeStage "contract") in
  (* Stage 6 *)
  run! assign state (setStage STAGE_FULFILLMENT) in
  run! emit rid (StageName "fulfillment") (Some "started")
         "Dispatching fulfiller..." in
  let! dispatchResult := await 7 (ret (dispatch w)) in
  if negb (dr_success dispatchResult)
  then throw (PipelineError "FULFILLMENT"
                ("Dispatch failed: " ++ dr_error dispatchResult))
  else
  run! emit rid (StageName "fulfillment") (Some "completed")
         ("Fulfiller dispatched — ETA: " ++ dr_estimatedEta dispatchResult) in
  run! assign state (completeStage "fulfillment") in
  run! emit rid (StageName "awaiting_delivery") (Some "pending")
         "Awaiting delivery confirmation..." in
  ret dispatchResult.

(** [executePipeline(params)]: the object is created and put in the
    map once, at entry; from then on the call writes to the object
    and never to the map. *)
Definition executePipeline (params : Params) : M Heap PipelineResult :=
  let rid := p_requestId params in
  let state0 :=
    {| requestId := rid; currentStage := STAGE_REQUEST; startTime := nowMs;
       stages := []; error := None |} in
  let! state := create state0 in
  run! registrySet rid state in
  tryCatch
    (let! dispatchResult := stages1to6 params state in
     let! st := deref state in
     ret (PipelineSuccess (default state0 st) dispatchResult))
    (fun err =>
       run! assign state (setError (message_of err)) in
       let! st := deref state in
       let stage :=
         match err with
         | PipelineError stage _ => StageName stage
         | _ => StageNumber (currentStage (default state0 st))
         end in
       run! emit rid stage None (message_of err) in
       ret (PipelineFailure (message_of err) stage (default state0 st))).

(** [completeDelivery(requestId, deliveryProof)]: the object (if any)
    is the one the map held at entry. *)
Definition completeDelivery (rid : Z) (deliveryProof : Fulfillment.ProofData)
    : M Heap DeliveryResult :=
  let! state := registryGet rid in
  tryCatch
    ((* Stage 7 *)
     run! emit rid (StageName "receipt") (Some "started")
            "Verifying delivery proof..." in
     run! await 1 (ret tt) in
     let! onChainReq :=
       await 2 (ledger (Blockchain.getRequest (rpc w) (chainRequest w) rid)) in
     let! verifyResult :=
       await 3 (ret (Fulfillment.verifyDelivery hashAttestation now
                       (Blockchain.fr_fulfillerType onChainReq) deliveryProof
                       (Blockchain.fr_lat onChainReq) (Blockchain.fr_lng onChainReq))) in
     run! await 4 (ledger (Blockchain.verifyDeliveryOnChain (rpc w) rid
                             (Fulfillment.verified verifyResult)
                             (Fulfillment.verificationHash verifyResult))) in
     if negb (Fulfillment.verified verifyResult)
     then
       run! emit rid (StageName "receipt") (Some "failed")
              "Delivery verification failed" in
       ret (DeliveryRejected "Delivery verification failed")
     else
     run! emit rid (StageName "receipt") (Some "completed") "Delivery verified ✓" in
     (* Stage 8 *)
     run! emit rid (StageName "settlement") (Some "started") "Releasing payout..." in
     run! await 5 (ledger (Blockchain.releasePayoutOnChain (rpc w) rid)) in
     run! emit rid (StageName "settlement") (Some "completed")
            "Payout released — Contract settled ✓" in
     (* Clean up *)
     run! match state with
          | Some ref =>
              run! assign ref (completeStage "receipt") in
              run! assign ref (completeStage "settlement") in
              assign ref (setStage STAGE_SETTLEMENT)
          | None => ret tt
          end in
     run! registryDelete rid in
     ret DeliverySuccess)
    (fun err =>
       run! emit rid (StageName "delivery") None (message_of err) in
       ret (DeliveryError (message_of err))).

End Orchestrator.

(** No other task runs while the call waits. *)
Definition alone : nat -> Heap -> Heap := fun _ h => h.




(** The heap as the sequential model of the orchestrator sees it: the
    registry holds, for each identifier, the object its entry refers
    to. *)
Definition registryView (h : Heap) : gmap Z PipelineState :=
  omap (fun ref => objects h !! ref) (activePipelines h).

Definition toSys (h : Heap) : Sys :=
  {| Pipeline.activePipelines := registryView h;
     Pipeline.emitted := emitted h;
     Pipeline.client := client h |}.

(** Every entry of the map refers to an object, and no two entries to
    the same one. *)
Definition wellFormed (h : Heap) : Prop :=
  (forall rid ref, activePipelines h !! rid = Some ref -> is_Some (objects h !! ref)) /\
  (forall rid rid' ref,
     activePipelines h !! rid = Some ref -> activePipelines h !! rid' = Some ref ->
     rid = rid').

(** A well-formed heap in which the entry of [rid] refers to [ref]. *)
Definition registered (rid : Z) (ref : nat) (h : Heap) : Prop :=
  wellFormed h /\ activePipelines h !! rid = Some ref.

(** [m], on a heap with the property [P], and [m'], on the view of
    that heap, give the same result and end in a heap and its view,
    the heap with the property [Q]. *)
Definition agrees {A} (P Q : Heap -> Prop) (m : M Heap A) (m' : M Sys A) : Prop :=
  forall h, P h ->
    fst (m h) = fst (m' (toSys h)) /\
    toSys (snd (m h)) = snd (m' (toSys h)) /\
    Q (snd (m h)).

End Async.


(** ** WebSocket feed ([server.js]) *)

Module Server.

(** A value a client can put in a JSON message. *)
Inductive JsValue :=
| JsUndefined
| JsNull
| JsBool (b : bool)
| JsNumber (n : Z)
| JsString (s : string)
| JsObject.

(** [!!v]. *)
Definition truthy (v : JsValue) : bool :=
  match v with
  | JsUndefined | JsNull => false
  | JsBool b => b
  | JsNumber n => negb (n =? 0)
  | JsString s => negb (String.eqb s "")
  | JsObject => true
  end.

(** [v === n] for a number [n]. *)
Definition strictEqNumber (v : JsValue) (n : Z) : bool :=
  match v with
  | JsNumber m => m =? n
  | _ => false
  end.

(** [v === s] for a string [s], and [v === undefined]. *)
Definition strictEqString (v : JsValue) (s : string) : bool :=
  match v with
  | JsString t => String.eqb t s
  | _ => false
  end.

Definition isUndefined (v : JsValue) : bool :=
  match v with
  | JsUndefined => true
  | _ => false
  end.

(** A parsed client message: its [type] and [requestId] properties. *)
Record ClientMessage := {
  msg_type : JsValue;
  msg_requestId : JsValue
}.

(** A connected socket. *)
Record Ws := {
  ws_id : nat;
  readyState : Z;
  subscribedRequestId : JsValue
}.

Inductive ServerMessage :=
| Connected
| Subscribed (requestId : JsValue)
| PipelineEventMessage (event : Pipeline.PipelineEvent).

(** [wsClients] in insertion order, and every message sent so far
    with the socket it went to. *)
Record ServerState := {
  wsClients : list Ws;
  outbox : list (nat * ServerMessage)
}.

Definition OPEN : Z := 1.

(** [wss.on("connection", ...)]: a socket that is not known yet joins
    the set and is greeted. *)
Definition onConnection (wsId : nat) (s : ServerState) : ServerState :=
  {| wsClients :=
       if existsb (fun c => Nat.eqb (ws_id c) wsId) (wsClients s)
       then wsClients s
       else wsClients s ++
              [{| ws_id := wsId; readyState := OPEN;
                  subscribedRequestId := JsUndefined |}];
     outbox := outbox s ++ [(wsId, Connected)] |}.

(** [ws.on("message", ...)]: [msg] is [None] when [JSON.parse] or the
    property access throws. *)
Definition onMessage (wsId : nat) (msg : option ClientMessage) (s : ServerState)
    : ServerState :=
  match msg with
  | Some m =>
      if strictEqString (msg_type m) "subscribe" &&
         negb (isUndefined (msg_requestId m))
      then
        {| wsClients :=
             List.map
               (fun c =>
                  if Nat.eqb (ws_id c) wsId
                  then {| ws_id := ws_id c; readyState := readyState c;
                          subscribedRequestId := msg_requestId m |}
                  else c)
               (wsClients s);
           outbox := outbox s ++ [(wsId, Subscribed (msg_requestId m))] |}
      else s
  | None => s
  end.

(** [ws.on("close", ...)]. *)
Definition onClose (wsId : nat) (s : ServerState) : ServerState :=
  {| wsClients := List.filter (fun c => negb (Nat.eqb (ws_id c) wsId)) (wsClients s);
     outbox := outbox s |}.

(** The test that decides whether [ws] is sent [event]. *)
Definition receives (ws : Ws) (event : Pipeline.PipelineEvent) : bool :=
  (readyState ws =? OPEN) &&
  (negb (truthy (subscribedRequestId ws)) ||
   strictEqNumber (subscribedRequestId ws) (Pipeline.ev_requestId event)).

(** The listener registered with [onPipelineEvent]. *)
Definition broadcast (event : Pipeline.PipelineEvent) (s : ServerState) : ServerState :=
  {| wsClients := wsClients s;
     outbox := outbox s ++
       List.map (fun ws => (ws_id ws, PipelineEventMessage event))
         (List.filter (fun ws => receives ws event) (wsClients s)) |}.

(** The pipeline events socket [wsId] was sent. *)
Definition eventsSentTo (wsId : nat) (s : ServerState) : list Pipeline.PipelineEvent :=
  flat_map
    (fun m =>
       match m with
       | (i, PipelineEventMessage e) => if Nat.eqb i wsId then [e] else []
       | _ => []
       end)
    (outbox s).

End Server.


(** ** The contracts ([AidChain.sol], [FundPool.sol],
       [VerificationRegistry.sol], [MockUSDC.sol]) *)

(** Contract code: a transaction either succeeds with a new storage,
    reverts with a message, or panics with a code; in the last two
    cases the storage it started from stays. *)
Module Evm.

Definition address : Type := string.
Definition bytes32 : Type := string.

(** [address(0)]. *)
Definition ZeroAddress : address := "0x0000000000000000000000000000000000000000".

Definition MAX_UINT256 : Z := 2 ^ 256 - 1.

Definition is_uint8 (n : Z) : bool := (0 <=? n) && (n <=? 255).
Definition is_int64 (n : Z) : bool := (- 2 ^ 63 <=? n) && (n <? 2 ^ 63).
Definition is_uint256 (n : Z) : bool := (0 <=? n) && (n <=? MAX_UINT256).

Inductive Result (A : Type) :=
| Success (a : A)
| Revert (msg : string)
| Panic (code : Z).
Arguments Success {A} a.
Arguments Revert {A} msg.
Arguments Panic {A} code.

Definition Code (S A : Type) : Type := S -> Result (A * S).

Definition ret {S A} (a : A) : Code S A := fun s => Success (a, s).

Definition bind {S A B} (m : Code S A) (k : A -> Code S B) : Code S B :=
  fun s =>
    match m s with
    | Success (a, s') => k a s'
    | Revert msg => Revert msg
    | Panic code => Panic code
    end.

Definition revert {S A} (msg : string) : Code S A := fun _ => Revert msg.

Definition panic {S A} (code : Z) : Code S A := fun _ => Panic code.

(** [require(cond, msg)]. *)
Definition require {S} (cond : bool) (msg : string) : Code S unit :=
  if cond then ret tt else revert msg.

Definition gets {S A} (f : S -> A) : Code S A := fun s => Success (f s, s).

Definition modify {S} (f : S -> S) : Code S unit := fun s => Success (tt, f s).

(** Checked [uint256] arithmetic (Solidity 0.8): overflow and
    underflow panic with code [0x11]. *)
Definition add {S} (a b : Z) : Code S Z :=
  if a + b <=? MAX_UINT256 then ret (a + b) else panic 17.

Definition sub {S} (a b : Z) : Code S Z :=
  if b <=? a then ret (a - b) else panic 17.

(** A call into a contract whose storage is a component of the
    caller's world; a failure of the callee is the caller's. *)
Definition call {S T A} (proj : S -> T) (upd : T -> S -> S) (m : Code T A) : Code S A :=
  fun s =>
    match m (proj s) with
    | Success (a, t') => Success (a, upd t' s)
    | Revert msg => Revert msg
    | Panic code => Panic code
    end.

End Evm.

Notation "'let*' x ':=' m 'in' k" := (Evm.bind m (fun x => k))
  (at level 10, x name, m at level 100, k at level 200).
Notation "'run*' m 'in' k" := (Evm.bind m (fun _ => k))
  (at level 10, m at level 100, k at level 200).

(** *** The stablecoin ([MockUSDC.sol]) *)

Module MockUSDC.
Import Evm.

Record State := {
  totalSupply : Z;
  balanceOf : gmap address Z;
  allowance : gmap (address * address) Z
}.

(** [balanceOf[a]] and [allowance[owner][spender]]: a slot never
    written reads as zero. *)
Definition balance (a : address) (st : State) : Z := default 0 (balanceOf st !! a).

Definition allowed (owner spender : address) (st : State) : Z :=
  default 0 (allowance st !! (owner, spender)).

Definition setBalance (a : address) (v : Z) : Code State unit :=
  modify (fun st =>
    {| totalSupply := totalSupply st;
       balanceOf := <[a := v]> (balanceOf st);
       allowance := allowance st |}).

Definition setAllowance (owner spender : address) (v : Z) : Code State unit :=
  modify (fun st =>
    {| totalSupply := totalSupply st;
       balanceOf := balanceOf st;
       allowance := <[(owner, spender) := v]> (allowance st) |}).

Definition _transfer (from to : address) (amount : Z) : Code State bool :=
  let* balFrom := gets (balance from) in
  run* require (amount <=? balFrom) "MockUSDC: insufficient balance" in
  let* lowered := sub balFrom amount in
  run* setBalance from lowered in
  let* balTo := gets (balance to) in
  let* raised := add balTo amount in
  run* setBalance to raised in
  ret true.

Definition _mint (to : address) (amount : Z) : Code State unit :=
  let* supply := gets totalSupply in
  let* supply' := add supply amount in
  run* modify (fun st =>
         {| totalSupply := supply';
            balanceOf := balanceOf st;
            allowance := allowance st |}) in
  let* balTo := gets (balance to) in
  let* raised := add balTo amount in
  setBalance to raised.

Definition transfer (msg_sender to : address) (amount : Z) : Code State bool :=
  _transfer msg_sender to amount.

Definition approve (msg_sender spender : address) (amount : Z) : Code State bool :=
  run* setAllowance msg_sender spender amount in
  ret true.

Definition transferFrom (msg_sender from to : address) (amount : Z) : Code State bool :=
  let* granted := gets (allowed from msg_sender) in
  run* require (amount <=? granted) "MockUSDC: insufficient allowance" in
  let* left := sub granted amount in
  run* setAllowance from msg_sender left in
  _transfer from to amount.

Definition mint (to : address) (amount : Z) : Code State unit := _mint to amount.

(** The storage the constructor leaves: ten million tokens (six
    decimals) minted to the deployer. *)
Definition constructor (msg_sender : address) : State :=
  {| totalSupply := 10000000 * 1000000;
     balanceOf := {[ msg_sender := 10000000 * 1000000 ]};
     allowance := ∅ |}.

(** The tokens in circulation: the sum of all balances. *)
Definition circulating (st : State) : Z :=
  map_fold (fun _ v acc => v + acc) 0 (balanceOf st).

(** The token's books are sound: the balances are not negative and
    add up to the total supply, a [uint256]. *)
Definition sound (st : State) : Prop :=
  (forall a, 0 <= balance a st) /\
  circulating st = totalSupply st /\
  totalSupply st <= MAX_UINT256.

End MockUSDC.

(** *** The identity registry ([VerificationRegistry.sol]) *)

Module VerificationRegistry.
Import Evm.

Record Identity := {
  verified : bool;
  nullifierHash : bytes32;
  proofHash : bytes32;
  verifiedAt : Z;
  expiresAt : Z;
  revoked : bool
}.

Definition noIdentity : Identity :=
  {| verified := false; nullifierHash := Fulfillment.ZeroHash;
     proofHash := Fulfillment.ZeroHash; verifiedAt := 0; expiresAt := 0;
     revoked := false |}.

Record State := {
  owner : address;
  zkVerifier : address;
  identities : gmap address Identity;
  usedNullifiers : gmap bytes32 bool;
  totalVerified : Z;
  verificationValidityPeriod : Z
}.

(** [identities[user]] and [usedNullifiers[h]]. *)
Definition identity (user : address) (st : State) : Identity :=
  default noIdentity (identities st !! user).

Definition nullifierUsed (h : bytes32) (st : State) : bool :=
  default false (usedNullifiers st !! h).

(** What [zkVerifier.staticcall(...)] gives: a failed call or an empty
    answer, an answer that decodes to a boolean, or one that does not
    decode. *)
Inductive StaticCall :=
| CallFailed
| Returned (b : bool)
| Malformed.

Section Registry.
(** The verifier contract at a given address, asked about a user, a
    nullifier and a proof. *)
Variable verifier : address -> address -> bytes32 -> string -> StaticCall.

Definition onlyOwner (msg_sender : address) : Code State unit :=
  let* o := gets owner in
  require (String.eqb msg_sender o) "Registry: not owner".

Definition _verifyProof (user : address) (nullifier : bytes32) (zkProof : string)
    : Code State bool :=
  let* v := gets zkVerifier in
  if String.eqb v ZeroAddress
  then ret (negb (String.eqb zkProof ""))
  else
    match verifier v user nullifier zkProof with
    | CallFailed => ret false
    | Returned b => ret b
    | Malformed => revert ""
    end.

Definition registerIdentity (msg_sender : address) (block_timestamp : Z)
    (nullifier proof : bytes32) (zkProof : string) : Code State unit :=
  let* known := gets (identity msg_sender) in
  run* require (negb (verified known)) "Registry: already verified" in
  let* used := gets (nullifierUsed nullifier) in
  run* require (negb used) "Registry: ID already registered" in
  run* require (negb (String.eqb nullifier Fulfillment.ZeroHash))
         "Registry: zero nullifier" in
  let* valid := _verifyProof msg_sender nullifier zkProof in
  run* require valid "Registry: invalid ZK proof" in
  let* period := gets verificationValidityPeriod in
  let* expires := add block_timestamp period in
  run* modify (fun st =>
         {| owner := owner st; zkVerifier := zkVerifier st;
            identities :=
              <[msg_sender :=
                  {| verified := true; nullifierHash := nullifier;
                     proofHash := proof; verifiedAt := block_timestamp;
                     expiresAt := expires; revoked := false |}]>
                (identities st);
            usedNullifiers := <[nullifier := true]> (usedNullifiers st);
            totalVerified := totalVerified st;
            verificationValidityPeriod := verificationValidityPeriod st |}) in
  let* total := gets totalVerified in
  let* total' := add total 1 in
  modify (fun st =>
    {| owner := owner st; zkVerifier := zkVerifier st;
       identities := identities st; usedNullifiers := usedNullifiers st;
       totalVerified := total';
       verificationValidityPeriod := verificationValidityPeriod st |}).

(** [isIdentityVerified(user)], a view. *)
Definition isIdentityVerified (user : address) (block_timestamp : Z) (st : State) : bool :=
  let id := identity user st in
  verified id && negb (revoked id) && (block_timestamp <? expiresAt id).

Definition revokeIdentity (msg_sender user : address) (reason : string)
    : Code State unit :=
  run* onlyOwner msg_sender in
  let* id := gets (identity user) in
  run* require (verified id) "Registry: not verified" in
  modify (fun st =>
    {| owner := owner st; zkVerifier := zkVerifier st;
       identities :=
         <[user :=
             {| verified := verified id; nullifierHash := nullifierHash id;
                proofHash := proofHash id; verifiedAt := verifiedAt id;
                expiresAt := expiresAt id; revoked := true |}]>
           (identities st);
       usedNullifiers := usedNullifiers st;
       totalVerified := totalVerified st;
       verificationValidityPeriod := verificationValidityPeriod st |}).

Definition setVerifier (msg_sender _verifier : address) : Code State unit :=
  run* onlyOwner msg_sender in
  modify (fun st =>
    {| owner := owner st; zkVerifier := _verifier;
       identities := identities st; usedNullifiers := usedNullifiers st;
       totalVerified := totalVerified st;
       verificationValidityPeriod := verificationValidityPeriod st |}).

Definition setValidityPeriod (msg_sender : address) (period : Z) : Code State unit :=
  run* onlyOwner msg_sender in
  modify (fun st =>
    {| owner := owner st; zkVerifier := zkVerifier st;
       identities := identities st; usedNullifiers := usedNullifiers st;
       totalVerified := totalVerified st;
       verificationValidityPeriod := period |}).

End Registry.

(** Every verified address has its nullifier recorded as used, and no
    two verified addresses carry the same nullifier. *)
Definition nullifiersRecorded (st : State) : Prop :=
  forall user,
    verified (identity user st) = true ->
    nullifierUsed (nullifierHash (identity user st)) st = true.

Definition oneAddressPerNullifier (st : State) : Prop :=
  forall user1 user2,
    verified (identity user1 st) = true ->
    verified (identity user2 st) = true ->
    nullifierHash (identity user1 st) = nullifierHash (identity user2 st) ->
    user1 = user2.

(** The storage the constructor leaves; the validity period is
    [365 days]. *)
Definition constructor (msg_sender _zkVerifier : address) : State :=
  {| owner := msg_sender; zkVerifier := _zkVerifier;
     identities := ∅; usedNullifiers := ∅; totalVerified := 0;
     verificationValidityPeriod := 365 * 86400 |}.

End VerificationRegistry.

(** *** The fund pool ([FundPool.sol]) *)

Module FundPool.
Import Evm.

Record Deposit := {
  depositor : address;
  amount : Z;
  timestamp : Z;
  swapTxHash : bytes32
}.

Record State := {
  owner : address;
  aidChainContract : address;
  totalDeposited : Z;
  totalEscrowed : Z;
  totalPaidOut : Z;
  availableBalance : Z;
  requestEscrow : gmap Z Z;
  deposits : list Deposit
}.

(** The pool together with the token contract it calls. *)
Record Treasury := {
  stablecoin : MockUSDC.State;
  pool : State
}.

Definition escrowOf (requestId : Z) (st : State) : Z :=
  default 0 (requestEscrow st !! requestId).

(** The four counters, the only storage the accounting functions
    write besides [requestEscrow] and [deposits]. *)
Definition setCounters (deposited escrowed paidOut available : Z) (st : State) : State :=
  {| owner := owner st; aidChainContract := aidChainContract st;
     totalDeposited := deposited; totalEscrowed := escrowed;
     totalPaidOut := paidOut; availableBalance := available;
     requestEscrow := requestEscrow st; deposits := deposits st |}.

Definition onPool {A} (m : Code State A) : Code Treasury A :=
  call pool (fun p t => {| stablecoin := stablecoin t; pool := p |}) m.

Definition onToken {A} (m : Code MockUSDC.State A) : Code Treasury A :=
  call stablecoin (fun c t => {| stablecoin := c; pool := pool t |}) m.

Section Pool.
(** [address(this)]. *)
Variable this : address.

Definition onlyOwner (msg_sender : address) : Code Treasury unit :=
  let* o := gets (fun t => owner (pool t)) in
  require (String.eqb msg_sender o) "FundPool: not owner".

Definition onlyAidChain (msg_sender : address) : Code Treasury unit :=
  let* a := gets (fun t => aidChainContract (pool t)) in
  require (String.eqb msg_sender a) "FundPool: not AidChain".

Definition setAidChainContract (msg_sender _aidChain : address) : Code Treasury unit :=
  run* onlyOwner msg_sender in
  onPool (modify (fun st =>
    {| owner := owner st; aidChainContract := _aidChain;
       totalDeposited := totalDeposited st; totalEscrowed := totalEscrowed st;
       totalPaidOut := totalPaidOut st; availableBalance := availableBalance st;
       requestEscrow := requestEscrow st; deposits := deposits st |})).

Definition deposit (msg_sender : address) (block_timestamp : Z)
    (amount' : Z) (swapTxHash' : bytes32) : Code Treasury unit :=
  run* require (0 <? amount') "FundPool: zero amount" in
  run* onToken (MockUSDC.transferFrom this msg_sender this amount') in
  let* deposited := gets (fun t => totalDeposited (pool t)) in
  let* deposited' := add deposited amount' in
  let* available := gets (fun t => availableBalance (pool t)) in
  let* available' := add available amount' in
  onPool (modify (fun st =>
    {| owner := owner st; aidChainContract := aidChainContract st;
       totalDeposited := deposited'; totalEscrowed := totalEscrowed st;
       totalPaidOut := totalPaidOut st; availableBalance := available';
       requestEscrow := requestEscrow st;
       deposits := deposits st ++
         [{| depositor := msg_sender; amount := amount';
             timestamp := block_timestamp; swapTxHash := swapTxHash' |}] |})).

Definition escrowForRequest (msg_sender : address) (requestId amount' : Z)
    : Code Treasury unit :=
  run* onlyAidChain msg_sender in
  let* available := gets (fun t => availableBalance (pool t)) in
  run* require (amount' <=? available) "FundPool: insufficient funds" in
  let* held := gets (fun t => escrowOf requestId (pool t)) in
  run* require (held =? 0) "FundPool: already escrowed" in
  let* available' := sub available amount' in
  let* escrowed := gets (fun t => totalEscrowed (pool t)) in
  let* escrowed' := add escrowed amount' in
  onPool (modify (fun st =>
    {| owner := owner st; aidChainContract := aidChainContract st;
       totalDeposited := totalDeposited st; totalEscrowed := escrowed';
       totalPaidOut := totalPaidOut st; availableBalance := available';
       requestEscrow := <[requestId := amount']> (requestEscrow st);
       deposits := deposits st |})).

Definition releaseTo (msg_sender recipient : address) (amount' : Z)
    : Code Treasury unit :=
  run* onlyAidChain msg_sender in
  let* escrowed := gets (fun t => totalEscrowed (pool t)) in
  run* require (amount' <=? escrowed) "FundPool: escrow underflow" in
  let* escrowed' := sub escrowed amount' in
  let* paidOut := gets (fun t => totalPaidOut (pool t)) in
  let* paidOut' := add paidOut amount' in
  run* onPool (modify (fun st =>
         setCounters (totalDeposited st) escrowed' paidOut' (availableBalance st) st)) in
  run* onToken (MockUSDC.transfer this recipient amount') in
  ret tt.

Definition returnToPool (msg_sender : address) (amount' : Z) : Code Treasury unit :=
  run* onlyAidChain msg_sender in
  let* escrowed := gets (fun t => totalEscrowed (pool t)) in
  run* require (amount' <=? escrowed) "FundPool: escrow underflow" in
  let* escrowed' := sub escrowed amount' in
  let* available := gets (fun t => availableBalance (pool t)) in
  let* available' := add available amount' in
  onPool (modify (fun st =>
    setCounters (totalDeposited st) escrowed' (totalPaidOut st) available' st)).

Definition emergencyWithdraw (msg_sender to : address) : Code Treasury unit :=
  run* onlyOwner msg_sender in
  let* bal := gets (fun t => MockUSDC.balance this (stablecoin t)) in
  run* onToken (MockUSDC.transfer this to bal) in
  onPool (modify (fun st =>
    setCounters (totalDeposited st) 0 (totalPaidOut st) 0 st)).

End Pool.

Definition constructor (msg_sender : address) : State :=
  {| owner := msg_sender; aidChainContract := ZeroAddress;
     totalDeposited := 0; totalEscrowed := 0; totalPaidOut := 0;
     availableBalance := 0; requestEscrow := ∅; deposits := [] |}.

End FundPool.

(** *** The request record ([IAidChain.sol]) *)

Module IAidChain.
Import Evm.

Record AidRequest := {
  id : Z;
  requester : address;
  aidType : Z;
  urgency : Z;
  lat : Z;
  lng : Z;
  detailsHash : bytes32;
  status : AidChain.RequestStatus;
  createdAt : Z;
  galileoProofHash : bytes32;
  fdcEventId : bytes32;
  fdcProofHash : bytes32;
  verifiedAt : Z;
  consensusHash : bytes32;
  recommendedAid : Z;
  fulfillerType : Z;
  estimatedCostUSD : Z;
  fulfiller : address;
  escrowAmount : Z;
  fundedAt : Z;
  deliveryProofHash : bytes32;
  deliveryLat : Z;
  deliveryLng : Z;
  deliveredAt : Z;
  deliveryVerificationHash : bytes32;
  settledAt : Z
}.

(** The number that stands for a status on the ledger, and the
    comparison [a == b] of two statuses. *)
Definition statusCode (s : AidChain.RequestStatus) : Z :=
  match s with
  | AidChain.Submitted => 0
  | AidChain.Verified => 1
  | AidChain.Approved => 2
  | AidChain.Rejected => 3
  | AidChain.Funded => 4
  | AidChain.DeliverySubmitted => 5
  | AidChain.DeliveryVerified => 6
  | AidChain.DeliveryFailed => 7
  | AidChain.Settled => 8
  | AidChain.TimedOut => 9
  end.

Definition statusIs (a b : AidChain.RequestStatus) : bool :=
  statusCode a =? statusCode b.

(** A storage slot never written. *)
Definition emptyRequest : AidRequest :=
  {| id := 0; requester := ZeroAddress; aidType := 0; urgency := 0;
     lat := 0; lng := 0; detailsHash := Fulfillment.ZeroHash;
     status := AidChain.Submitted; createdAt := 0;
     galileoProofHash := Fulfillment.ZeroHash;
     fdcEventId := Fulfillment.ZeroHash; fdcProofHash := Fulfillment.ZeroHash;
     verifiedAt := 0; consensusHash := Fulfillment.ZeroHash;
     recommendedAid := 0; fulfillerType := 0; estimatedCostUSD := 0;
     fulfiller := ZeroAddress; escrowAmount := 0; fundedAt := 0;
     deliveryProofHash := Fulfillment.ZeroHash; deliveryLat := 0;
     deliveryLng := 0; deliveredAt := 0;
     deliveryVerificationHash := Fulfillment.ZeroHash; settledAt := 0 |}.

(** The assignments each entry point makes to the record. *)
Definition storeRequest (requestId : Z) (msg_sender : address)
    (aidType' urgency' lat' lng' : Z) (detailsHash' : bytes32)
    (block_timestamp : Z) (r : AidRequest) : AidRequest :=
  {| id := requestId; requester := msg_sender; aidType := aidType';
     urgency := urgency'; lat := lat'; lng := lng'; detailsHash := detailsHash';
     status := AidChain.Submitted; createdAt := block_timestamp;
     galileoProofHash := galileoProofHash r; fdcEventId := fdcEventId r;
     fdcProofHash := fdcProofHash r; verifiedAt := verifiedAt r;
     consensusHash := consensusHash r; recommendedAid := recommendedAid r;
     fulfillerType := fulfillerType r; estimatedCostUSD := estimatedCostUSD r;
     fulfiller := fulfiller r; escrowAmount := escrowAmount r;
     fundedAt := fundedAt r; deliveryProofHash := deliveryProofHash r;
     deliveryLat := deliveryLat r; deliveryLng := deliveryLng r;
     deliveredAt := deliveredAt r;
     deliveryVerificationHash := deliveryVerificationHash r;
     settledAt := settledAt r |}.

Definition storeVerification (galileoProofHash' fdcEventId' fdcProofHash' : bytes32)
    (block_timestamp : Z) (r : AidRequest) : AidRequest :=
  {| id := id r; requester := requester r; aidType := aidType r;
     urgency := urgency r; lat := lat r; lng := lng r; detailsHash := detailsHash r;
     status := AidChain.Verified; createdAt := createdAt r;
     galileoProofHash := galileoProofHash'; fdcEventId := fdcEventId';
     fdcProofHash := fdcProofHash'; verifiedAt := block_timestamp;
     consensusHash := consensusHash r; recommendedAid := recommendedAid r;
     fulfillerType := fulfillerType r; estimatedCostUSD := estimatedCostUSD r;
     fulfiller := fulfiller r; escrowAmount := escrowAmount r;
     fundedAt := fundedAt r; deliveryProofHash := deliveryProofHash r;
     deliveryLat := deliveryLat r; deliveryLng := deliveryLng r;
     deliveredAt := deliveredAt r;
     deliveryVerificationHash := deliveryVerificationHash r;
     settledAt := settledAt r |}.

Definition storeConsensus (approved : bool) (recommendedAid' fulfillerType' : Z)
    (estimatedCostUSD' : Z) (consensusHash' : bytes32) (r : AidRequest) : AidRequest :=
  {| id := id r; requester := requester r; aidType := aidType r;
     urgency := urgency r; lat := lat r; lng := lng r; detailsHash := detailsHash r;
     status := if approved then AidChain.Approved else AidChain.Rejected;
     createdAt := createdAt r;
     galileoProofHash := galileoProofHash r; fdcEventId := fdcEventId r;
     fdcProofHash := fdcProofHash r; verifiedAt := verifiedAt r;
     consensusHash := consensusHash'; recommendedAid := recommendedAid';
     fulfillerType := fulfillerType'; estimatedCostUSD := estimatedCostUSD';
     fulfiller := fulfiller r; escrowAmount := escrowAmount r;
     fundedAt := fundedAt r; deliveryProofHash := deliveryProofHash r;
     deliveryLat := deliveryLat r; deliveryLng := deliveryLng r;
     deliveredAt := deliveredAt r;
     deliveryVerificationHash := deliveryVerificationHash r;
     settledAt := settledAt r |}.

Definition storeFunding (fulfiller' : address) (block_timestamp : Z)
    (r : AidRequest) : AidRequest :=
  {| id := id r; requester := requester r; aidType := aidType r;
     urgency := urgency r; lat := lat r; lng := lng r; detailsHash := detailsHash r;
     status := AidChain.Funded; createdAt := createdAt r;
     galileoProofHash := galileoProofHash r; fdcEventId := fdcEventId r;
     fdcProofHash := fdcProofHash r; verifiedAt := verifiedAt r;
     consensusHash := consensusHash r; recommendedAid := recommendedAid r;
     fulfillerType := fulfillerType r; estimatedCostUSD := estimatedCostUSD r;
     fulfiller := fulfiller'; escrowAmount := estimatedCostUSD r;
     fundedAt := block_timestamp; deliveryProofHash := deliveryProofHash r;
     deliveryLat := deliveryLat r; deliveryLng := deliveryLng r;
     deliveredAt := deliveredAt r;
     deliveryVerificationHash := deliveryVerificationHash r;
     settledAt := settledAt r |}.

Definition storeDelivery (deliveryHash : bytes32) (deliveryLat' deliveryLng' : Z)
    (block_timestamp : Z) (r : AidRequest) : AidRequest :=
  {| id := id r; requester := requester r; aidType := aidType r;
     urgency := urgency r; lat := lat r; lng := lng r; detailsHash := detailsHash r;
     status := AidChain.DeliverySubmitted; createdAt := createdAt r;
     galileoProofHash := galileoProofHash r; fdcEventId := fdcEventId r;
     fdcProofHash := fdcProofHash r; verifiedAt := verifiedAt r;
     consensusHash := consensusHash r; recommendedAid := recommendedAid r;
     fulfillerType := fulfillerType r; estimatedCostUSD := estimatedCostUSD r;
     fulfiller := fulfiller r; escrowAmount := escrowAmount r;
     fundedAt := fundedAt r; deliveryProofHash := deliveryHash;
     deliveryLat := deliveryLat'; deliveryLng := deliveryLng';
     deliveredAt := block_timestamp;
     deliveryVerificationHash := deliveryVerificationHash r;
     settledAt := settledAt r |}.

Definition storeDeliveryVerification (verified : bool) (verificationHash : bytes32)
    (r : AidRequest) : AidRequest :=
  {| id := id r; requester := requester r; aidType := aidType r;
     urgency := urgency r; lat := lat r; lng := lng r; detailsHash := detailsHash r;
     status := if verified then AidChain.DeliveryVerified else AidChain.DeliveryFailed;
     createdAt := createdAt r;
     galileoProofHash := galileoProofHash r; fdcEventId := fdcEventId r;
     fdcProofHash := fdcProofHash r; verifiedAt := verifiedAt r;
     consensusHash := consensusHash r; recommendedAid := recommendedAid r;
     fulfillerType := fulfillerType r; estimatedCostUSD := estimatedCostUSD r;
     fulfiller := fulfiller r; escrowAmount := escrowAmount r;
     fundedAt := fundedAt r; deliveryProofHash := deliveryProofHash r;
     deliveryLat := deliveryLat r; deliveryLng := deliveryLng r;
     deliveredAt := deliveredAt r;
     deliveryVerificationHash := verificationHash;
     settledAt := settledAt r |}.

Definition storeSettlement (block_timestamp : Z) (r : AidRequest) : AidRequest :=
  {| id := id r; requester := requester r; aidType := aidType r;
     urgency := urgency r; lat := lat r; lng := lng r; detailsHash := detailsHash r;
     status := AidChain.Settled; createdAt := createdAt r;
     galileoProofHash := galileoProofHash r; fdcEventId := fdcEventId r;
     fdcProofHash := fdcProofHash r; verifiedAt := verifiedAt r;
     consensusHash := consensusHash r; recommendedAid := recommendedAid r;
     fulfillerType := fulfillerType r; estimatedCostUSD := estimatedCostUSD r;
     fulfiller := fulfiller r; escrowAmount := escrowAmount r;
     fundedAt := fundedAt r; deliveryProofHash := deliveryProofHash r;
     deliveryLat := deliveryLat r; deliveryLng := deliveryLng r;
     deliveredAt := deliveredAt r;
     deliveryVerificationHash := deliveryVerificationHash r;
     settledAt := block_timestamp |}.

Definition storeTimeout (r : AidRequest) : AidRequest :=
  {| id := id r; requester := requester r; aidType := aidType r;
     urgency := urgency r; lat := lat r; lng := lng r; detailsHash := detailsHash r;
     status := AidChain.TimedOut; createdAt := createdAt r;
     galileoProofHash := galileoProofHash r; fdcEventId := fdcEventId r;
     fdcProofHash := fdcProofHash r; verifiedAt := verifiedAt r;
     consensusHash := consensusHash r; recommendedAid := recommendedAid r;
     fulfillerType := fulfillerType r; estimatedCostUSD := estimatedCostUSD r;
     fulfiller := fulfiller r; escrowAmount := escrowAmount r;
     fundedAt := fundedAt r; deliveryProofHash := deliveryProofHash r;
     deliveryLat := deliveryLat r; deliveryLng := deliveryLng r;
     deliveredAt := deliveredAt r;
     deliveryVerificationHash := deliveryVerificationHash r;
     settledAt := settledAt r |}.

End IAidChain.

(** *** The protocol contract ([AidChain.sol]) with the contracts it
        calls *)

Module Protocol.
Import Evm IAidChain.

Record State := {
  owner : address;
  oracleOperator : address;
  nextRequestId : Z;
  aidRequests : gmap Z AidRequest;
  userRequests : gmap address (list Z);
  approvedFulfillers : gmap address bool;
  approvedPanelOperators : gmap address bool
}.

(** The storage of the deployed contracts. *)
Record Chain := {
  treasury : FundPool.Treasury;
  registry : VerificationRegistry.State;
  aidChain : State
}.

(** [aidRequests[requestId]] and the two approval mappings. *)
Definition request (requestId : Z) (st : Chain) : AidRequest :=
  default emptyRequest (aidRequests (aidChain st) !! requestId).

Definition isFulfiller (a : address) (st : Chain) : bool :=
  default false (approvedFulfillers (aidChain st) !! a).

Definition isPanelOperator (a : address) (st : Chain) : bool :=
  default false (approvedPanelOperators (aidChain st) !! a).

Definition onAidChain (f : State -> State) : Code Chain unit :=
  modify (fun st =>
    {| treasury := treasury st; registry := registry st; aidChain := f (aidChain st) |}).

Definition onFundPool {A} (m : Code FundPool.Treasury A) : Code Chain A :=
  call treasury
    (fun t st => {| treasury := t; registry := registry st; aidChain := aidChain st |})
    m.

Definition onRegistry {A} (m : Code VerificationRegistry.State A) : Code Chain A :=
  call registry
    (fun r st => {| treasury := treasury st; registry := r; aidChain := aidChain st |})
    m.

Definition setRequest (requestId : Z) (r : AidRequest) : Code Chain unit :=
  onAidChain (fun st =>
    {| owner := owner st; oracleOperator := oracleOperator st;
       nextRequestId := nextRequestId st;
       aidRequests := <[requestId := r]> (aidRequests st);
       userRequests := userRequests st;
       approvedFulfillers := approvedFulfillers st;
       approvedPanelOperators := approvedPanelOperators st |}).

Section Contract.
(** The addresses of the [AidChain] and [FundPool] contracts. *)
Variable aidChainAddr : address.
Variable fundPoolAddr : address.

(** Modifiers. *)
Definition onlyOwner (msg_sender : address) : Code Chain unit :=
  let* o := gets (fun st => owner (aidChain st)) in
  require (String.eqb msg_sender o) "AidChain: not owner".

Definition onlyOracle (msg_sender : address) : Code Chain unit :=
  let* o := gets (fun st => oracleOperator (aidChain st)) in
  require (String.eqb msg_sender o) "AidChain: not oracle".

Definition onlyPanelOperator (msg_sender : address) : Code Chain unit :=
  let* ok := gets (isPanelOperator msg_sender) in
  require ok "AidChain: not panel operator".

Definition requestExists (requestId : Z) : Code Chain unit :=
  let* next := gets (fun st => nextRequestId (aidChain st)) in
  require (requestId <? next) "AidChain: request does not exist".

Definition requestAid (msg_sender : address) (block_timestamp : Z)
    (aidType' urgency' lat' lng' : Z) (detailsHash' : bytes32) : Code Chain Z :=
  let* known :=
    gets (fun st =>
      VerificationRegistry.isIdentityVerified msg_sender block_timestamp (registry st)) in
  run* require known "AidChain: identity not verified" in
  run* require (aidType' <=? 5) "AidChain: invalid aid type" in
  run* require (urgency' <=? 2) "AidChain: invalid urgency" in
  let* requestId := gets (fun st => nextRequestId (aidChain st)) in
  let* next := add requestId 1 in
  run* onAidChain (fun st =>
         {| owner := owner st; oracleOperator := oracleOperator st;
            nextRequestId := next;
            aidRequests := aidRequests st;
            userRequests := userRequests st;
            approvedFulfillers := approvedFulfillers st;
            approvedPanelOperators := approvedPanelOperators st |}) in
  let* r := gets (request requestId) in
  run* setRequest requestId
         (storeRequest requestId msg_sender aidType' urgency' lat' lng' detailsHash'
            block_timestamp r) in
  run* onAidChain (fun st =>
         {| owner := owner st; oracleOperator := oracleOperator st;
            nextRequestId := nextRequestId st;
            aidRequests := aidRequests st;
            userRequests :=
              <[msg_sender := default [] (userRequests st !! msg_sender) ++ [requestId]]>
                (userRequests st);
            approvedFulfillers := approvedFulfillers st;
            approvedPanelOperators := approvedPanelOperators st |}) in
  ret requestId.

Definition verifyRequest (msg_sender : address) (block_timestamp : Z)
    (requestId : Z) (galileoProofHash' fdcEventId' fdcProofHash' : bytes32)
    : Code Chain unit :=
  run* onlyOracle msg_sender in
  run* requestExists requestId in
  let* r := gets (request requestId) in
  run* require (statusIs (status r) AidChain.Submitted) "AidChain: wrong status" in
  setRequest requestId
    (storeVerification galileoProofHash' fdcEventId' fdcProofHash' block_timestamp r).

(** [require(!approved || (approvalCount * 3 > nodeCount * 2), ...)]:
    [nodeCount] and [approvalCount] are [uint8], so the two products
    are checked, the left one first; neither is computed for a
    rejection. *)
Definition supermajority (approved : bool) (nodeCount approvalCount : Z)
    : Code Chain unit :=
  if negb approved then ret tt
  else
    match AidChain.mul_uint8 approvalCount 3 with
    | None => panic 17
    | Some a3 =>
        match AidChain.mul_uint8 nodeCount 2 with
        | None => panic 17
        | Some n2 => require (n2 <? a3) "AidChain: supermajority not met"
        end
    end.

Definition submitConsensus (msg_sender : address) (requestId : Z) (approved : bool)
    (recommendedAid' fulfillerType' estimatedCostUSD' : Z) (consensusHash' : bytes32)
    (nodeCount approvalCount : Z) : Code Chain unit :=
  run* onlyPanelOperator msg_sender in
  run* requestExists requestId in
  let* r := gets (request requestId) in
  run* require (statusIs (status r) AidChain.Verified) "AidChain: not verified" in
  run* require (3 <=? nodeCount) "AidChain: insufficient nodes" in
  run* supermajority approved nodeCount approvalCount in
  setRequest requestId
    (storeConsensus approved recommendedAid' fulfillerType' estimatedCostUSD'
       consensusHash' r).

Definition assignFulfiller (msg_sender : address) (block_timestamp : Z)
    (requestId : Z) (fulfiller' : address) : Code Chain unit :=
  run* onlyOracle msg_sender in
  run* requestExists requestId in
  let* r := gets (request requestId) in
  run* require (statusIs (status r) AidChain.Approved) "AidChain: not approved" in
  let* approved := gets (isFulfiller fulfiller') in
  run* require approved "AidChain: fulfiller not approved" in
  run* onFundPool
         (FundPool.escrowForRequest aidChainAddr requestId (estimatedCostUSD r)) in
  setRequest requestId (storeFunding fulfiller' block_timestamp r).

Definition confirmDelivery (msg_sender : address) (block_timestamp : Z)
    (requestId : Z) (deliveryHash : bytes32) (deliveryLat' deliveryLng' : Z)
    : Code Chain unit :=
  run* requestExists requestId in
  let* r := gets (request requestId) in
  run* require (statusIs (status r) AidChain.Funded) "AidChain: not funded" in
  run* require (String.eqb msg_sender (fulfiller r)) "AidChain: not assigned fulfiller" in
  setRequest requestId
    (storeDelivery deliveryHash deliveryLat' deliveryLng' block_timestamp r).

Definition verifyDelivery (msg_sender : address) (requestId : Z) (verified : bool)
    (verificationHash : bytes32) : Code Chain unit :=
  run* onlyOracle msg_sender in
  run* requestExists requestId in
  let* r := gets (request requestId) in
  run* require (statusIs (status r) AidChain.DeliverySubmitted)
         "AidChain: delivery not submitted" in
  setRequest requestId (storeDeliveryVerification verified verificationHash r).

Definition releasePayout (msg_sender : address) (block_timestamp : Z)
    (requestId : Z) : Code Chain unit :=
  run* onlyOracle msg_sender in
  run* requestExists requestId in
  let* r := gets (request requestId) in
  run* require (statusIs (status r) AidChain.DeliveryVerified)
         "AidChain: delivery not verified" in
  run* setRequest requestId (storeSettlement block_timestamp r) in
  onFundPool (FundPool.releaseTo fundPoolAddr aidChainAddr (fulfiller r) (escrowAmount r)).

Definition timeoutRequest (msg_sender : address) (block_timestamp : Z)
    (requestId : Z) : Code Chain unit :=
  run* onlyOracle msg_sender in
  run* requestExists requestId in
  let* r := gets (request requestId) in
  run* require (statusIs (status r) AidChain.Funded ||
                statusIs (status r) AidChain.DeliveryFailed)
         "AidChain: cannot timeout" in
  let* deadline := add (fundedAt r) 86400 in
  run* require (deadline <? block_timestamp) "AidChain: timeout not reached" in
  run* setRequest requestId (storeTimeout r) in
  onFundPool (FundPool.returnToPool aidChainAddr (escrowAmount r)).

Definition setOracleOperator (msg_sender _oracle : address) : Code Chain unit :=
  run* onlyOwner msg_sender in
  onAidChain (fun st =>
    {| owner := owner st; oracleOperator := _oracle;
       nextRequestId := nextRequestId st; aidRequests := aidRequests st;
       userRequests := userRequests st;
       approvedFulfillers := approvedFulfillers st;
       approvedPanelOperators := approvedPanelOperators st |}).

Definition setFulfiller (msg_sender fulfiller' : address) (approved : bool)
    : Code Chain unit :=
  run* onlyOwner msg_sender in
  onAidChain (fun st =>
    {| owner := owner st; oracleOperator := oracleOperator st;
       nextRequestId := nextRequestId st; aidRequests := aidRequests st;
       userRequests := userRequests st;
       approvedFulfillers := <[fulfiller' := approved]> (approvedFulfillers st);
       approvedPanelOperators := approvedPanelOperators st |}).

Definition setPanelOperator (msg_sender operator : address) (approved : bool)
    : Code Chain unit :=
  run* onlyOwner msg_sender in
  onAidChain (fun st =>
    {| owner := owner st; oracleOperator := oracleOperator st;
       nextRequestId := nextRequestId st; aidRequests := aidRequests st;
       userRequests := userRequests st;
       approvedFulfillers := approvedFulfillers st;
       approvedPanelOperators := <[operator := approved]> (approvedPanelOperators st) |}).

(** Views. *)
Definition getRequest (requestId : Z) : Code Chain AidRequest :=
  run* requestExists requestId in
  gets (request requestId).

Definition getUserRequests (user : address) (st : Chain) : list Z :=
  default [] (userRequests (aidChain st) !! user).

Definition getRequestCount (st : Chain) : Z := nextRequestId (aidChain st).

End Contract.

Definition constructor (msg_sender _oracleOperator : address) : State :=
  {| owner := msg_sender; oracleOperator := _oracleOperator;
     nextRequestId := 0; aidRequests := ∅; userRequests := ∅;
     approvedFulfillers := ∅; approvedPanelOperators := ∅ |}.

(** *** Transactions *)

(** The state-changing entry points of the four contracts. *)
Inductive Call :=
| TokenTransfer (to : address) (amount : Z)
| TokenApprove (spender : address) (amount : Z)
| TokenTransferFrom (from to : address) (amount : Z)
| TokenMint (to : address) (amount : Z)
| RegisterIdentity (nullifierHash proofHash : bytes32) (zkProof : string)
| RevokeIdentity (user : address) (reason : string)
| SetVerifier (verifier : address)
| SetValidityPeriod (period : Z)
| SetAidChainContract (aidChain : address)
| Deposit (amount : Z) (swapTxHash : bytes32)
| EscrowForRequest (requestId amount : Z)
| ReleaseTo (recipient : address) (amount : Z)
| ReturnToPool (amount : Z)
| EmergencyWithdraw (to : address)
| RequestAid (aidType urgency lat lng : Z) (detailsHash : bytes32)
| VerifyRequest (requestId : Z) (galileoProofHash fdcEventId fdcProofHash : bytes32)
| SubmitConsensus (requestId : Z) (approved : bool)
    (recommendedAid fulfillerType estimatedCostUSD : Z) (consensusHash : bytes32)
    (nodeCount approvalCount : Z)
| AssignFulfiller (requestId : Z) (fulfiller : address)
| ConfirmDelivery (requestId : Z) (deliveryHash : bytes32) (deliveryLat deliveryLng : Z)
| VerifyDelivery (requestId : Z) (verified : bool) (verificationHash : bytes32)
| ReleasePayout (requestId : Z)
| TimeoutRequest (requestId : Z)
| SetOracleOperator (oracle : address)
| SetFulfiller (fulfiller : address) (approved : bool)
| SetPanelOperator (operator : address) (approved : bool).

Record Tx := {
  sender : address;
  timestamp : Z;
  call : Call
}.

(** The arguments fit the types the entry point declares; a call with
    other arguments does not decode. *)
Definition wellTyped (c : Call) : bool :=
  match c with
  | TokenTransfer _ amount | TokenApprove _ amount | TokenTransferFrom _ _ amount
  | TokenMint _ amount | Deposit amount _ | ReleaseTo _ amount | ReturnToPool amount =>
      is_uint256 amount
  | SetValidityPeriod period => is_uint256 period
  | EscrowForRequest requestId amount => is_uint256 requestId && is_uint256 amount
  | RequestAid aidType urgency lat lng _ =>
      is_uint8 aidType && is_uint8 urgency && is_int64 lat && is_int64 lng
  | VerifyRequest requestId _ _ _ | AssignFulfiller requestId _
  | VerifyDelivery requestId _ _ | ReleasePayout requestId | TimeoutRequest requestId =>
      is_uint256 requestId
  | SubmitConsensus requestId _ recommendedAid fulfillerType estimatedCostUSD _
      nodeCount approvalCount =>
      is_uint256 requestId && is_uint8 recommendedAid && is_uint8 fulfillerType &&
      is_uint256 estimatedCostUSD && is_uint8 nodeCount && is_uint8 approvalCount
  | ConfirmDelivery requestId _ deliveryLat deliveryLng =>
      is_uint256 requestId && is_int64 deliveryLat && is_int64 deliveryLng
  | _ => true
  end.

Section Network.
Variable aidChainAddr : address.
Variable fundPoolAddr : address.
Variable verifier : address -> address -> bytes32 -> string -> VerificationRegistry.StaticCall.

Definition onToken {A} (m : Code MockUSDC.State A) : Code Chain A :=
  onFundPool (FundPool.onToken m).

Definition dispatch (tx : Tx) : Code Chain unit :=
  let from := sender tx in
  let now := timestamp tx in
  match call tx with
  | TokenTransfer to amount =>
      run* onToken (MockUSDC.transfer from to amount) in ret tt
  | TokenApprove spender amount =>
      run* onToken (MockUSDC.approve from spender amount) in ret tt
  | TokenTransferFrom owner' to amount =>
      run* onToken (MockUSDC.transferFrom from owner' to amount) in ret tt
  | TokenMint to amount => onToken (MockUSDC.mint to amount)
  | RegisterIdentity nullifier proof zkProof =>
      onRegistry (VerificationRegistry.registerIdentity verifier from now nullifier proof zkProof)
  | RevokeIdentity user reason =>
      onRegistry (VerificationRegistry.revokeIdentity from user reason)
  | SetVerifier v => onRegistry (VerificationRegistry.setVerifier from v)
  | SetValidityPeriod period => onRegistry (VerificationRegistry.setValidityPeriod from period)
  | SetAidChainContract a => onFundPool (FundPool.setAidChainContract from a)
  | Deposit amount swapTxHash =>
      onFundPool (FundPool.deposit fundPoolAddr from now amount swapTxHash)
  | EscrowForRequest requestId amount =>
      onFundPool (FundPool.escrowForRequest from requestId amount)
  | ReleaseTo recipient amount =>
      onFundPool (FundPool.releaseTo fundPoolAddr from recipient amount)
  | ReturnToPool amount => onFundPool (FundPool.returnToPool from amount)
  | EmergencyWithdraw to => onFundPool (FundPool.emergencyWithdraw fundPoolAddr from to)
  | RequestAid aidType' urgency' lat' lng' detailsHash' =>
      run* requestAid from now aidType' urgency' lat' lng' detailsHash' in ret tt
  | VerifyRequest requestId g e p => verifyRequest from now requestId g e p
  | SubmitConsensus requestId approved aid ft cost h n a =>
      submitConsensus from requestId approved aid ft cost h n a
  | AssignFulfiller requestId fulfiller' =>
      assignFulfiller aidChainAddr from now requestId fulfiller'
  | ConfirmDelivery requestId h la lo => confirmDelivery from now requestId h la lo
  | VerifyDelivery requestId verified h => verifyDelivery from requestId verified h
  | ReleasePayout requestId => releasePayout aidChainAddr fundPoolAddr from now requestId
  | TimeoutRequest requestId => timeoutRequest aidChainAddr from now requestId
  | SetOracleOperator o => setOracleOperator from o
  | SetFulfiller f approved => setFulfiller from f approved
  | SetPanelOperator o approved => setPanelOperator from o approved
  end.

(** One transaction, and the storage after it: a transaction that
    fails changes nothing. *)
Definition exec (tx : Tx) : Code Chain unit :=
  if wellTyped (call tx) then dispatch tx else revert "".

Definition apply (st : Chain) (tx : Tx) : Chain :=
  match exec tx st with
  | Success (_, st') => st'
  | _ => st
  end.

Definition run (txs : list Tx) (st : Chain) : Chain := fold_left apply txs st.

End Network.

(** The storage after the deployment script: the four constructors,
    the pool linked to [AidChain], the deployer approved as panel
    operator. *)
Definition deployed (deployer aidChainAddr : address) : Chain :=
  {| treasury :=
       {| FundPool.stablecoin := MockUSDC.constructor deployer;
          FundPool.pool :=
            {| FundPool.owner := deployer;
               FundPool.aidChainContract := aidChainAddr;
               FundPool.totalDeposited := 0; FundPool.totalEscrowed := 0;
               FundPool.totalPaidOut := 0; FundPool.availableBalance := 0;
               FundPool.requestEscrow := ∅; FundPool.deposits := [] |} |};
     registry := VerificationRegistry.constructor deployer ZeroAddress;
     aidChain :=
       {| owner := deployer; oracleOperator := deployer;
          nextRequestId := 0; aidRequests := ∅; userRequests := ∅;
          approvedFulfillers := ∅;
          approvedPanelOperators := {[ deployer := true ]} |} |}.

(** *** The life cycle of a request *)

(** The steps a request's status can take. *)
Definition lifecycleStep (s s' : AidChain.RequestStatus) : bool :=
  match s, s' with
  | AidChain.Submitted, AidChain.Verified
  | AidChain.Verified, AidChain.Approved
  | AidChain.Verified, AidChain.Rejected
  | AidChain.Approved, AidChain.Funded
  | AidChain.Funded, AidChain.DeliverySubmitted
  | AidChain.Funded, AidChain.TimedOut
  | AidChain.DeliverySubmitted, AidChain.DeliveryVerified
  | AidChain.DeliverySubmitted, AidChain.DeliveryFailed
  | AidChain.DeliveryVerified, AidChain.Settled
  | AidChain.DeliveryFailed, AidChain.TimedOut => true
  | _, _ => false
  end.

(** Who may bring a request to a status: the oracle operator, a panel
    operator for the two verdicts, the assigned fulfiller for the
    delivery proof; nobody brings a request back to [Submitted]. *)
Definition mayMove (requestId : Z) (who : address) (s' : AidChain.RequestStatus)
    (st : Chain) : bool :=
  match s' with
  | AidChain.Submitted => false
  | AidChain.Approved | AidChain.Rejected => isPanelOperator who st
  | AidChain.DeliverySubmitted => String.eqb who (fulfiller (request requestId st))
  | _ => String.eqb who (oracleOperator (aidChain st))
  end.

(** The statuses no entry point accepts. *)
Definition final (s : AidChain.RequestStatus) : bool :=
  match s with
  | AidChain.Rejected | AidChain.Settled | AidChain.TimedOut => true
  | _ => false
  end.

(** The statuses in which the pool holds the request's escrow. *)
Definition holdsEscrow (s : AidChain.RequestStatus) : bool :=
  match s with
  | AidChain.Funded | AidChain.DeliverySubmitted
  | AidChain.DeliveryVerified | AidChain.DeliveryFailed => true
  | _ => false
  end.

(** Every stored request has an identifier the contract has issued. *)
Definition issued (st : Chain) : Prop :=
  0 <= nextRequestId (aidChain st) /\
  forall requestId r,
    aidRequests (aidChain st) !! requestId = Some r ->
    0 <= requestId < nextRequestId (aidChain st).

(** The pool's books balance: what was deposited is available, in
    escrow or paid out. *)
Definition balanced (p : FundPool.State) : Prop :=
  FundPool.totalDeposited p =
    FundPool.availableBalance p + FundPool.totalEscrowed p + FundPool.totalPaidOut p.

(** The escrow the pool should hold for one request, and for all the
    requests under way. *)
Definition escrowHeld (r : AidRequest) : Z :=
  if holdsEscrow (status r) then escrowAmount r else 0.

Definition escrowUnderWay (st : Chain) : Z :=
  map_fold (fun _ r acc => escrowHeld r + acc) 0 (aidRequests (aidChain st)).

(** The pool takes its orders from the [AidChain] contract at [a]. *)
Definition linked (a : address) (st : Chain) : Prop :=
  FundPool.aidChainContract (FundPool.pool (treasury st)) = a.

(** The owner's emergency withdrawal, and the calls by which the owner
    rewires or empties the pool. *)
Definition drains (c : Call) : bool :=
  match c with
  | EmergencyWithdraw _ => true
  | _ => false
  end.

Definition overrides (c : Call) : bool :=
  match c with
  | SetAidChainContract _ | EmergencyWithdraw _ => true
  | _ => false
  end.

(** A transaction an account other than the contract at [a] sends,
    and that does not override the pool. *)
Definition ordinary (a : address) (tx : Tx) : bool :=
  negb (String.eqb (sender tx) a) && negb (overrides (call tx)).

(** The parts of [AidChain]'s storage no request entry point writes. *)
Definition sameRoles (st st' : Chain) : Prop :=
  owner (aidChain st') = owner (aidChain st) /\
  oracleOperator (aidChain st') = oracleOperator (aidChain st) /\
  approvedFulfillers (aidChain st') = approvedFulfillers (aidChain st) /\
  approvedPanelOperators (aidChain st') = approvedPanelOperators (aidChain st).

(** An entry point that rewrites the record of one request and leaves
    the counter alone. *)
Definition rewrites (requestId : Z) (r' : AidRequest) (st st' : Chain) : Prop :=
  requestId < nextRequestId (aidChain st) /\
  nextRequestId (aidChain st') = nextRequestId (aidChain st) /\
  aidRequests (aidChain st') = <[requestId := r']> (aidRequests (aidChain st)) /\
  registry st' = registry st /\
  sameRoles st st'.

(** The administrative entry points leave the requests, the pool and
    the registry alone. *)
Definition sameLedger (st st' : Chain) : Prop :=
  aidRequests (aidChain st') = aidRequests (aidChain st) /\
  nextRequestId (aidChain st') = nextRequestId (aidChain st) /\
  treasury st' = treasury st /\ registry st' = registry st.

(** *** The funds *)

(** The token contract the pool keeps its funds in. *)
Definition token (st : Chain) : MockUSDC.State := FundPool.stablecoin (treasury st).

(** No request carries a negative cost estimate or escrow amount. *)
Definition amountsOk (st : Chain) : Prop :=
  forall requestId,
    0 <= estimatedCostUSD (request requestId st) /\
    0 <= escrowAmount (request requestId st).

(** The pool at the address [a] is solvent: its counters are not
    negative, it holds at least the tokens its books call available or
    in escrow, and it has granted no allowance on them. *)
Definition solvent (a : address) (st : Chain) : Prop :=
  0 <= FundPool.availableBalance (FundPool.pool (treasury st)) /\
  0 <= FundPool.totalEscrowed (FundPool.pool (treasury st)) /\
  0 <= FundPool.totalPaidOut (FundPool.pool (treasury st)) /\
  FundPool.totalDeposited (FundPool.pool (treasury st)) <= MAX_UINT256 /\
  FundPool.availableBalance (FundPool.pool (treasury st)) +
    FundPool.totalEscrowed (FundPool.pool (treasury st))
    <= MockUSDC.balance a (token st) /\
  forall spender, MockUSDC.allowed a spender (token st) = 0.

(** A transaction sent by an account that is neither of the two
    contracts, and that does not override the pool. *)
Definition external (aidChainAddr fundPoolAddr : address) (tx : Tx) : bool :=
  ordinary aidChainAddr tx && negb (String.eqb (sender tx) fundPoolAddr).

(** The state of a deployment in working order. *)
Definition healthy (aidChainAddr fundPoolAddr : address) (st : Chain) : Prop :=
  MockUSDC.sound (token st) /\ amountsOk st /\ solvent fundPoolAddr st /\
  balanced (FundPool.pool (treasury st)) /\ issued st /\ linked aidChainAddr st /\
  FundPool.totalEscrowed (FundPool.pool (treasury st)) = escrowUnderWay st /\
  nextRequestId (aidChain st) <= MAX_UINT256.

End Protocol.

(** ** What de-duplication keeps of an event *)

(** The group [g] stands for the event [e]: it has the type of [e],
    lists the sources of [e], and has the centre of [e] or one under
    50 km away from it. *)
Definition standsFor `{JsMath} (g e : Fdc.Event) : Prop :=
  Fdc.type g = Fdc.type e /\
  incl (Fdc.sources e) (Fdc.sources g) /\
  (Fdc.lat g = Fdc.lat e /\ Fdc.lng g = Fdc.lng e \/
   (Geo.haversineDistance (Fdc.lat g) (Fdc.lng g) (Fdc.lat e) (Fdc.lng e) / 1000
    <? 50)%float = true).

(** ** The WebSocket feed as a reactive system ([server.js]) *)

Module Feed.
Import Server.

(** What the server reacts to: the three socket callbacks and the
    pipeline's event emitter. *)
Inductive Input :=
| Connection (wsId : nat)
| Message (wsId : nat) (msg : option ClientMessage)
| Close (wsId : nat)
| Emitted (event : Pipeline.PipelineEvent).

Definition handle (s : ServerState) (i : Input) : ServerState :=
  match i with
  | Connection wsId => onConnection wsId s
  | Message wsId msg => onMessage wsId msg s
  | Close wsId => onClose wsId s
  | Emitted event => broadcast event s
  end.

Definition run (inputs : list Input) (s : ServerState) : ServerState :=
  fold_left handle inputs s.

(** The inputs that come from the socket [wsId]. *)
Definition from (wsId : nat) (i : Input) : bool :=
  match i with
  | Connection j | Message j _ | Close j => Nat.eqb j wsId
  | Emitted _ => false
  end.

Definition connects (wsId : nat) (i : Input) : bool :=
  match i with
  | Connection j => Nat.eqb j wsId
  | _ => false
  end.

(** What the server holds about the socket [wsId]: its entries in
    [wsClients] and the pipeline events it was sent. *)
Definition view (wsId : nat) (s : ServerState) : list Ws * list Pipeline.PipelineEvent :=
  (List.filter (fun c => Nat.eqb (ws_id c) wsId) (wsClients s), eventsSentTo wsId s).

End Feed.

(** ** Contract event polling ([services/blockchain.js], [listenToEvents]) *)

Module Listener.

(** The arguments of the two events the poller reads. *)
Record AidRequestedArgs := {
  ar_requestId : Z;
  ar_requester : string;
  ar_aidType : Z;
  ar_urgency : Z
}.

Record PayoutReleasedArgs := {
  pr_requestId : Z;
  pr_fulfiller : string;
  pr_amount : Z
}.

(** What the node answers during one run of [pollEvents]:
    [getBlockNumber] throws, or returns a block number, after which each
    [queryFilter] returns its events or throws ([None]). *)
Inductive NodeAnswer :=
| BlockNumberFails
| AtBlock (currentBlock : Z)
    (requested : option (list AidRequestedArgs))
    (payouts : option (list PayoutReleasedArgs)).

(** A call of [queryFilter]. *)
Record Query := {
  eventName : string;
  fromBlock : Z;
  toBlock : Z
}.

(** What is passed to the callbacks. *)
Inductive Notification :=
| OnAidRequested (requestId : Z) (requester : string) (aidType urgency : Z)
| OnPayoutReleased (requestId : Z) (fulfiller : string) (amount : string).

(** The closure of [listenToEvents]: the cursor, and a log of the
    queries made and of the callbacks called. *)
Record Poller := {
  lastBlock : Z;
  queries : list Query;
  notified : list Notification
}.

Definition started : Poller := {| lastBlock := 0; queries := []; notified := [] |}.

Section Poll.
(** [ethers.formatUnits(amount, 6)]. *)
Variable formatUnits6 : Z -> string.
(** Whether [callbacks.onAidRequested] and [callbacks.onPayoutReleased]
    are defined. *)
Variable hasOnAidRequested : bool.
Variable hasOnPayoutReleased : bool.

Definition notifyRequested (events : list AidRequestedArgs) : list Notification :=
  if hasOnAidRequested
  then List.map (fun e => OnAidRequested (ar_requestId e) (ar_requester e)
                            (ar_aidType e) (ar_urgency e)) events
  else [].

Definition notifyPayouts (events : list PayoutReleasedArgs) : list Notification :=
  if hasOnPayoutReleased
  then List.map (fun e => OnPayoutReleased (pr_requestId e) (pr_fulfiller e)
                            (formatUnits6 (pr_amount e))) events
  else [].

(** One run of [pollEvents]; an exception ends it where it is thrown. *)
Definition pollEvents (p : Poller) (answer : NodeAnswer) : Poller :=
  match answer with
  | BlockNumberFails => p
  | AtBlock currentBlock requested payouts =>
      if lastBlock p =? 0
      then {| lastBlock := currentBlock; queries := queries p; notified := notified p |}
      else if currentBlock <=? lastBlock p then p
      else
        let fromBlock := lastBlock p + 1 in
        let toBlock := currentBlock in
        let q1 := {| eventName := "AidRequested"; fromBlock := fromBlock;
                     toBlock := toBlock |} in
        let q2 := {| eventName := "PayoutReleased"; fromBlock := fromBlock;
                     toBlock := toBlock |} in
        match requested with
        | None =>
            {| lastBlock := currentBlock; queries := queries p ++ [q1];
               notified := notified p |}
        | Some requestedEvents =>
            match payouts with
            | None =>
                {| lastBlock := currentBlock; queries := queries p ++ [q1; q2];
                   notified := notified p ++ notifyRequested requestedEvents |}
            | Some payoutEvents =>
                {| lastBlock := currentBlock; queries := queries p ++ [q1; q2];
                   notified := notified p ++ notifyRequested requestedEvents ++
                               notifyPayouts payoutEvents |}
            end
        end
  end.

(** The polls of the timer, one after the other. *)
Definition polls (answers : list NodeAnswer) (p : Poller) : Poller :=
  fold_left pollEvents answers p.

End Poll.

(** The node reports no negative block number. *)
Definition plausible (answer : NodeAnswer) : Prop :=
  match answer with
  | BlockNumberFails => True
  | AtBlock currentBlock _ _ => 0 <= currentBlock
  end.

(** The block numbers the node reports, poll after poll. *)
Definition observed (answers : list NodeAnswer) : list Z :=
  flat_map (fun answer =>
              match answer with
              | BlockNumberFails => []
              | AtBlock currentBlock _ _ => [currentBlock]
              end) answers.

(** The first cursor of the poller: the one it has, or, as long as it
    has none, the first block number other than 0 that the node
    reports (0 when there is no such report). *)
Definition firstCursor (p : Poller) (answers : list NodeAnswer) : Z :=
  if lastBlock p =? 0
  then hd 0 (List.filter (fun n => negb (n =? 0)) (observed answers))
  else lastBlock p.

(** The ranges asked for an event, in the order of the queries. *)
Definition rangesOf (name : string) (qs : list Query) : list (Z * Z) :=
  List.map (fun q => (fromBlock q, toBlock q))
    (List.filter (fun q => String.eqb (eventName q) name) qs).

(** Ranges that follow one another from the block after [start] to the
    block [stop], without gap or overlap, none of them empty. *)
Fixpoint chained (start : Z) (ranges : list (Z * Z)) (stop : Z) : Prop :=
  match ranges with
  | [] => start = stop
  | (from, to) :: rest => from = start + 1 /\ from <= to /\ chained to rest stop
  end.

End Listener.


(** * Scenarios

    Concrete inputs the properties below are evaluated on. *)

Definition panelNode (name : string) (d : option LlmPanel.Decision) : LlmPanel.NodeResult :=
  {| LlmPanel.nodeId := name; LlmPanel.nodeName := name; LlmPanel.model := "model";
     LlmPanel.decision := d; LlmPanel.latency := 900;
     LlmPanel.error := match d with Some _ => None | None => Some "timeout" end |}.

Definition verdict (approve : bool) (cost : Z) : option LlmPanel.Decision :=
  Some {| LlmPanel.dec_approved := approve; LlmPanel.dec_recommendedAid := 0;
          LlmPanel.dec_fulfillerType := 0; LlmPanel.dec_estimatedCostUSD := cost;
          LlmPanel.dec_confidence := 90 |}.

(** Five answers, all approving, with the costs of the happy path. *)
Definition unanimousPanel : list LlmPanel.NodeResult :=
  [panelNode "alpha" (verdict true 120); panelNode "beta" (verdict true 140);
   panelNode "gamma" (verdict true 150); panelNode "delta" (verdict true 160);
   panelNode "epsilon" (verdict true 200)].

(** Four approving answers, costs 100 to 400, and one rejection. *)
Definition evenPanel : list LlmPanel.NodeResult :=
  [panelNode "alpha" (verdict true 400); panelNode "beta" (verdict true 100);
   panelNode "gamma" (verdict true 300); panelNode "delta" (verdict true 200);
   panelNode "epsilon" (verdict false 0)].

(** Three approvals, one rejection and one node that failed. *)
Definition panelWithFailedNode : list LlmPanel.NodeResult :=
  [panelNode "alpha" (verdict true 120); panelNode "beta" (verdict true 140);
   panelNode "gamma" (verdict true 150); panelNode "delta" (verdict false 0);
   panelNode "epsilon" None].


(** A host whose [Math] functions are first-order approximations
    (sine the identity, cosine one, the arc tangent of a quotient the
    quotient itself); distances then computed are planar. *)
Definition planarMath : JsMath :=
  {| Math_sin := fun x => x;
     Math_cos := fun _ => 1%float;
     Math_atan2 := fun y x => (y / x)%float;
     Math_pow := fun x _ => (x * x)%float;
     Math_round := fun x => x |}.

Definition floodEvent (ident : string) (la lo : float) (src : string) : Fdc.Event :=
  {| Fdc.id := ident; Fdc.type := "flood"; Fdc.name := "Mozambique Flooding 2026";
     Fdc.severity := Fdc.Critical; Fdc.region := Some "Zambezia Province, Mozambique";
     Fdc.lat := la; Fdc.lng := lo; Fdc.radiusKm := 200%float;
     Fdc.active := true; Fdc.sources := [src]; Fdc.startDate := None |}.

(** The same flood reported by two providers about a kilometre and a
    half apart, and an earthquake elsewhere. *)
Definition reportedEvents : list Fdc.Event :=
  [ floodEvent "gdacs-fl-2026-001" (-17.05)%float 36.87%float "GDACS";
    floodEvent "reliefweb-51234" (-17.06)%float 36.88%float "ReliefWeb";
    {| Fdc.id := "gdacs-eq-2026-002"; Fdc.type := "earthquake";
       Fdc.name := "Eastern Turkey Earthquake"; Fdc.severity := Fdc.Severe;
       Fdc.region := Some "Van Province, Turkey";
       Fdc.lat := 38.49%float; Fdc.lng := 43.38%float; Fdc.radiusKm := 150%float;
       Fdc.active := true; Fdc.sources := ["GDACS"]; Fdc.startDate := None |} ].


(** The aerial proof of the happy path, dropped about a metre from
    the target [(-17.0523, 36.8714)], and one dropped outside the
    tolerance. *)
Definition dropNearTarget : Fulfillment.ProofData :=
  {| Fulfillment.dropLat := (-17.05231)%float;
     Fulfillment.dropLng := 36.87138%float;
     Fulfillment.cameraImageHash :=
       Some "0x5f2a7c9e1b3d4f60718293a4b5c6d7e8f90a1b2c3d4e5f60718293a4b5c6d7e8";
     Fulfillment.droneId := Some "ZPL-4217";
     Fulfillment.officerId := None;
     Fulfillment.signature := None;
     Fulfillment.timestamp := Some "2026-02-03T10:15:00Z" |}.

Definition dropOutsideTolerance : Fulfillment.ProofData :=
  {| Fulfillment.dropLat := (-17.0530)%float;
     Fulfillment.dropLng := 36.8720%float;
     Fulfillment.cameraImageHash := Fulfillment.cameraImageHash dropNearTarget;
     Fulfillment.droneId := Some "ZPL-4217";
     Fulfillment.officerId := None;
     Fulfillment.signature := None;
     Fulfillment.timestamp := Some "2026-02-03T10:15:00Z" |}.


(** A ledger that confirms every call, and one whose first answer is a
    time-out. *)
Definition calmRpc : nat -> Blockchain.RpcOutcome :=
  fun _ => Blockchain.Confirmed "0xtx".

Definition flakyRpc : nat -> Blockchain.RpcOutcome :=
  fun n =>
    match n with
    | O => Blockchain.Failed (Eff.Transient "timeout")
    | S _ => Blockchain.Confirmed "0xtx"
    end.

(** Request 0 as the ledger reports it once funded for an aerial
    delivery to [(-17.0523, 36.8714)]. *)
Definition droneRequest (rid : Z) : Blockchain.FormattedRequest :=
  {| Blockchain.fr_id := rid; Blockchain.fr_fulfillerType := "drone";
     Blockchain.fr_lat := (-17.0523)%float; Blockchain.fr_lng := 36.8714%float;
     Blockchain.fr_statusCode := 5 |}.

Definition authenticatedFix (ok : bool) : Pipeline.GalileoVerification :=
  {| Pipeline.gal_valid := ok; Pipeline.gal_reason := "Spoofing detected";
     Pipeline.gal_lat := (-17.0523)%float; Pipeline.gal_lng := 36.8714%float;
     Pipeline.gal_accuracy := 2%float; Pipeline.gal_proofHash := "0xg" |}.

Definition dispatched : Pipeline.DispatchResult :=
  {| Pipeline.dr_success := true; Pipeline.dr_error := "";
     Pipeline.dr_fulfillerAddress := "0xzipline";
     Pipeline.dr_dispatchId := "dispatch-0"; Pipeline.dr_estimatedEta := "12 minutes" |}.

(** A run in development mode with the given location fix, panel and
    ledger answers. *)
Definition world (fixOk : bool) (panel : list LlmPanel.NodeResult)
    (rpc : nat -> Blockchain.RpcOutcome) : Pipeline.World :=
  {| Pipeline.rpc := rpc; Pipeline.chainRequest := droneRequest;
     Pipeline.galileo := authenticatedFix fixOk;
     Pipeline.fdcEnv := Fdc.Development;
     Pipeline.gdacs := None; Pipeline.usgs := None; Pipeline.reliefWeb := None;
     Pipeline.panel := panel; Pipeline.dispatch := dispatched |}.

Definition medicalRequest : Pipeline.Params :=
  {| Pipeline.p_requestId := 0; Pipeline.p_aidType := "medical";
     Pipeline.p_urgency := "high"; Pipeline.p_lat := (-17.0523)%float;
     Pipeline.p_lng := 36.8714%float; Pipeline.p_details := "";
     Pipeline.p_deviceId := Some "dev-1" |}.

Definition idle : Pipeline.Sys :=
  {| Pipeline.activePipelines := ∅; Pipeline.emitted := [];
     Pipeline.client := {| Blockchain.sent := [] |} |}.

(** [executePipeline] and [completeDelivery] on the planar host, with
    fixed renderings for the numbers shown in messages. *)
Definition runPipeline (w : Pipeline.World) (params : Pipeline.Params)
    : Eff.M Pipeline.Sys Pipeline.PipelineResult :=
  @Pipeline.executePipeline planarMath (fun s => s) (fun _ => "{}") (fun _ => "0xc")
    "2026-02-03T10:00:00Z" 1770112800000 (fun _ _ => "0.0000") (fun _ => "0")
    "0xzipline" "0xauthority" w params.

Definition runDelivery (w : Pipeline.World) (rid : Z) (proof : Fulfillment.ProofData)
    : Eff.M Pipeline.Sys Pipeline.DeliveryResult :=
  @Pipeline.completeDelivery planarMath (fun _ => "0xv") "2026-02-03T10:00:00Z" w rid proof.

(** The heap before any request, and the two entry points on the
    planar host, among the tasks [others]. *)
Definition idleHeap : Async.Heap :=
  {| Async.objects := ∅; Async.activePipelines := ∅; Async.emitted := [];
     Async.client := {| Blockchain.sent := [] |} |}.

Definition runPipelineAmong (others : nat -> Async.Heap -> Async.Heap)
    (w : Pipeline.World) (params : Pipeline.Params)
    : Eff.M Async.Heap Pipeline.PipelineResult :=
  @Async.executePipeline planarMath (fun s => s) (fun _ => "{}") (fun _ => "0xc")
    "2026-02-03T10:00:00Z" 1770112800000 (fun _ _ => "0.0000") (fun _ => "0")
    "0xzipline" "0xauthority" others w params.




Definition sameRequestAgain (k : nat) (h : Async.Heap) : Async.Heap :=
  if (k =? 1)%nat
  then snd (runPipelineAmong Async.alone (world true unanimousPanel calmRpc)
              medicalRequest h)
  else h.

(** The ledger with request 0 verified and the backend's account
    approved as panel operator. *)
Definition verifiedLedger : AidChain.State :=
  {| AidChain.nextRequestId := 1;
     AidChain.aidRequests :=
       {[ 0 := {| AidChain.status := AidChain.Verified;
                  AidChain.consensusHash := Fulfillment.ZeroHash;
                  AidChain.recommendedAid := 0; AidChain.fulfillerType := 0;
                  AidChain.estimatedCostUSD := 0 |} ]};
     AidChain.approvedPanelOperators := {[ "0xoracle" ]} |}.


(** Five valid answers, three approving and two rejecting. *)
Definition splitPanel : list LlmPanel.NodeResult :=
  [panelNode "alpha" (verdict true 120); panelNode "beta" (verdict true 140);
   panelNode "gamma" (verdict true 150); panelNode "delta" (verdict false 0);
   panelNode "epsilon" (verdict false 0)].

Definition pipelineEvent (rid : Z) : Pipeline.PipelineEvent :=
  {| Pipeline.ev_requestId := rid; Pipeline.ev_stage := Pipeline.StageName "gps_verify";
     Pipeline.ev_status := Some "started";
     Pipeline.ev_message := "Initiating Galileo OS-NMA authentication..." |}.

(** The message [{type: "subscribe", requestId: n}]. *)
Definition subscribeTo (n : Z) : Server.ClientMessage :=
  {| Server.msg_type := Server.JsString "subscribe";
     Server.msg_requestId := Server.JsNumber n |}.

Definition noClients : Server.ServerState :=
  {| Server.wsClients := []; Server.outbox := [] |}.


(** A human-fulfilled proof signed by an officer. *)
Definition signedByOfficer : Fulfillment.ProofData :=
  {| Fulfillment.dropLat := nan; Fulfillment.dropLng := nan;
     Fulfillment.cameraImageHash := None; Fulfillment.droneId := None;
     Fulfillment.officerId := Some "ESR-204";
     Fulfillment.signature := Some "0x3045022100c1";
     Fulfillment.timestamp := None |}.

(** An open socket subscribed to request 5. *)
Definition subscriberOfFive : Server.Ws :=
  {| Server.ws_id := 7; Server.readyState := Server.OPEN;
     Server.subscribedRequestId := Server.JsNumber 5 |}.


(** The accounts and contract addresses of a local deployment, and a
    request taken from the registration of its requester to the
    payout. *)
Definition deployerAccount : Evm.address := "0xf39fd6e51aad88f6f4ce6ab8827279cfffb92266".
Definition userAccount : Evm.address := "0x70997970c51812dc3a010c7d01b50e0d17dc79c8".
Definition ziplineAccount : Evm.address := "0x1234567890abcdef1234567890abcdef12345678".
Definition aidChainAddress : Evm.address := "0xcf7ed3acca5a467e9e704c703e8d87f634fb0fc9".
Definition fundPoolAddress : Evm.address := "0x9fe46736679d2d9a65f0992f2272de9f3c7fa6e0".

(** No verifier contract is deployed: the registry runs in its
    development mode. *)
Definition noVerifier : Evm.address -> Evm.address -> Evm.bytes32 -> string ->
    VerificationRegistry.StaticCall :=
  fun _ _ _ _ => VerificationRegistry.CallFailed.

Definition sent (who : Evm.address) (at_ : Z) (c : Protocol.Call) : Protocol.Tx :=
  {| Protocol.sender := who; Protocol.timestamp := at_; Protocol.call := c |}.

Definition fundingTrace : list Protocol.Tx :=
  [ sent userAccount 1000 (Protocol.RegisterIdentity "0xa1" "0xb2" "proof");
    sent deployerAccount 1010 (Protocol.SetFulfiller ziplineAccount true);
    sent deployerAccount 1020 (Protocol.TokenApprove fundPoolAddress 1000000000000);
    sent deployerAccount 1030 (Protocol.Deposit 1000000000000 "0xc3");
    sent userAccount 1040 (Protocol.RequestAid 0 1 (-170523000) 368714000 "0xd4");
    sent deployerAccount 1050 (Protocol.VerifyRequest 0 "0xe5" "0xf6" "0xa7");
    sent deployerAccount 1060 (Protocol.SubmitConsensus 0 true 0 0 150000000 "0xb8" 5 4);
    sent deployerAccount 1070 (Protocol.AssignFulfiller 0 ziplineAccount) ].

Definition deliveryTrace : list Protocol.Tx :=
  [ sent ziplineAccount 1080 (Protocol.ConfirmDelivery 0 "0xc9" (-170523100) 368713800);
    sent deployerAccount 1090 (Protocol.VerifyDelivery 0 true "0xda");
    sent deployerAccount 1100 (Protocol.ReleasePayout 0) ].

Definition localChain (txs : list Protocol.Tx) : Protocol.Chain :=
  Protocol.run aidChainAddress fundPoolAddress noVerifier txs
    (Protocol.deployed deployerAccount aidChainAddress).

(** A second account that tries to register with the nullifier the
    first one used, and the owner revoking the first account. *)
Definition otherAccount : Evm.address := "0x3c44cdddb6a900fa2b585dd299e03d12fa4293bc".

Definition sybilTrace : list Protocol.Tx :=
  [ sent userAccount 1000 (Protocol.RegisterIdentity "0xa1" "0xb2" "proof");
    sent otherAccount 1005 (Protocol.RegisterIdentity "0xa1" "0xb3" "proof") ].

Definition revocationTrace : list Protocol.Tx :=
  [ sent userAccount 1000 (Protocol.RegisterIdentity "0xa1" "0xb2" "proof");
    sent deployerAccount 1500 (Protocol.RevokeIdentity userAccount "fraud") ].

(** The local deployment with request 0 verified and waiting for the
    panel. *)
Definition awaitingConsensus : Protocol.Chain := localChain (firstn 6 fundingTrace).


(** * Properties *)

(** ** Consensus *)

Section ConsensusFacts.
Import LlmPanel.

Lemma insertAsc_perm x l : Permutation (x :: l) (insertAsc x l).
Proof.
  induction l as [|y l IH]; simpl; [reflexivity|].
  destruct (y <? x); [|reflexivity].
  rewrite perm_swap. now apply perm_skip.
Qed.

Lemma sortAsc_perm l : Permutation l (sortAsc l).
Proof.
  induction l as [|x l IH]; simpl; [constructor|].
  rewrite <- insertAsc_perm. now apply perm_skip.
Qed.

Lemma insertAsc_sorted x l : Sorted Z.le l -> Sorted Z.le (insertAsc x l).
Proof.
  induction l as [|y l IH]; simpl; intros Hs.
  - repeat constructor.
  - destruct (Z.ltb_spec y x) as [Hlt|Hge].
    + inversion Hs as [|? ? Hs' Hhd]; subst.
      constructor; [now apply IH|].
      destruct l as [|z l]; simpl.
      * constructor. lia.
      * destruct (Z.ltb_spec z x); constructor; [|lia].
        inversion Hhd; subst. assumption.
    + constructor; [assumption|]. constructor. lia.
Qed.

Lemma sortAsc_sorted l : Sorted Z.le (sortAsc l).
Proof.
  induction l as [|x l IH]; simpl; [constructor|].
  now apply insertAsc_sorted.
Qed.

Lemma sortAsc_length l : List.length (sortAsc l) = List.length l.
Proof. symmetry. apply Permutation_length, sortAsc_perm. Qed.

Lemma sorted_nth_le (l : list Z) (i j : nat) :
  Sorted Z.le l -> (i <= j)%nat -> (j < List.length l)%nat ->
  List.nth i l 0 <= List.nth j l 0.
Proof.
  intros Hs. apply Sorted_StronglySorted in Hs; [|intros a b c; lia].
  revert i j. induction Hs as [|a l Hs IH Hall]; simpl; intros i j Hij Hj; [lia|].
  destruct i as [|i], j as [|j]; try lia.
  - rewrite List.Forall_forall in Hall. apply Hall, nth_In. lia.
  - apply IH; lia.
Qed.

End ConsensusFacts.

Section QuorumFacts.
Import LlmPanel.

Lemma validResults_parseable (results : list NodeResult) :
  List.length (validResults results) = List.length (List.filter parseable results).
Proof.
  induction results as [|r rest IH]; [reflexivity|].
  cbn [validResults List.filter]. unfold parseable at 1.
  destruct (decision r); cbn [List.length]; now rewrite IH.
Qed.

Lemma validResults_approves (results : list NodeResult) :
  List.length (List.filter (fun rd => dec_approved (snd rd)) (validResults results))
  = List.length (List.filter approves results).
Proof.
  induction results as [|r rest IH]; [reflexivity|].
  cbn [validResults List.filter]. unfold approves at 1.
  destruct (decision r) as [d|]; [|exact IH].
  cbn [List.filter snd]. destruct (dec_approved d); cbn [List.length]; now rewrite IH.
Qed.

End QuorumFacts.

(** C1: every transcript [runConsensus] marks approved has
    [3 * approval_count > 2 * valid_count] and [valid_count >= 3],
    where [valid_count] is the number of nodes whose decision is not
    null and [approval_count] the number of nodes whose decision is
    not null and approves; with fewer than 3 nodes returning a
    parseable verdict the result is marked unapproved, for want of
    responses; with 3 or more, it is approved exactly when
    [3 * approval_count > 2 * valid_count].  The result and the
    transcript that is hashed carry these counts and this mark. *)
Theorem runConsensus_quorum_and_supermajority
    (hashTranscript : LlmPanel.Transcript -> string) (now : string)
    (results : list LlmPanel.NodeResult) :
  let r := LlmPanel.runConsensus hashTranscript now results in
  let valid_count := List.length (List.filter LlmPanel.parseable results) in
  let approval_count := List.length (List.filter LlmPanel.approves results) in
  LlmPanel.validCount r = valid_count /\
  (LlmPanel.approved r = true ->
     LlmPanel.approvalCount r = approval_count /\
     (3 * approval_count > 2 * valid_count)%nat /\
     (valid_count >= 3)%nat) /\
  ((valid_count < 3)%nat ->
     LlmPanel.approved r = false /\
     LlmPanel.reason r = LlmPanel.InsufficientResponses) /\
  ((3 <= valid_count)%nat ->
     LlmPanel.approvalCount r = approval_count /\
     LlmPanel.approved r = (valid_count * 2 <? approval_count * 3)%nat) /\
  (forall t, LlmPanel.transcript r = Some t ->
     LlmPanel.t_approved t = LlmPanel.approved r /\
     LlmPanel.t_validCount t = valid_count /\
     LlmPanel.t_approvalCount t = approval_count).
Proof.
  intros r valid_count approval_count. subst r valid_count approval_count.
  rewrite <- validResults_parseable, <- validResults_approves.
  unfold LlmPanel.runConsensus.
  destruct (Nat.ltb_spec (List.length (LlmPanel.validResults results)) 3) as [Hlt|Hge];
    cbn [LlmPanel.validCount LlmPanel.approved LlmPanel.approvalCount
         LlmPanel.reason LlmPanel.transcript].
  - split; [reflexivity|]. split; [discriminate|]. split; [tauto|].
    split; [lia|discriminate].
  - split; [reflexivity|]. split; [|split; [|split]].
    + intros Happ. apply Nat.ltb_lt in Happ. repeat split; lia.
    + lia.
    + intros _. split; reflexivity.
    + intros t [= <-]. repeat split.
Qed.

(** On the unanimous panel: approved, with 15 > 10 and five parseable
    verdicts; and on the panel of which one node failed, four. *)
Lemma runConsensus_quorum_and_supermajority_witness :
  LlmPanel.approved (LlmPanel.runConsensus (fun _ => "h") "t" unanimousPanel) = true /\
  (3 * List.length (List.filter LlmPanel.approves unanimousPanel)
   > 2 * List.length (List.filter LlmPanel.parseable unanimousPanel))%nat /\
  (List.length (List.filter LlmPanel.parseable unanimousPanel) >= 3)%nat /\
  LlmPanel.validCount (LlmPanel.runConsensus (fun _ => "h") "t" panelWithFailedNode)
    = 4%nat.
Proof.
  split; [reflexivity|].
  destruct (proj1 (proj2 (runConsensus_quorum_and_supermajority
                            (fun _ => "h") "t" unanimousPanel)) eq_refl)
    as (_ & Hsuper & Hquorum).
  split; [exact Hsuper|]. split; [exact Hquorum|]. reflexivity.
Defined.

(** C3 (amended): for every approved consensus the chosen cost
    estimate is the element at index [floor(n / 2)] of the approving
    nodes' costs in ascending order: the median when their number [n]
    is odd, and the upper median (the larger of the two middle values)
    when it is even. *)
Theorem runConsensus_cost_is_upper_median
    (hashTranscript : LlmPanel.Transcript -> string) (now : string)
    (results : list LlmPanel.NodeResult) :
  let r := LlmPanel.runConsensus hashTranscript now results in
  let costs := LlmPanel.approvingCosts results in
  let n := List.length costs in
  LlmPanel.approved r = true ->
  exists chosen,
    LlmPanel.estimatedCostUSD r = Some chosen /\
    Permutation costs (LlmPanel.sortAsc costs) /\
    Sorted Z.le (LlmPanel.sortAsc costs) /\
    nth_error (LlmPanel.sortAsc costs) (n / 2) = Some chosen /\
    (Nat.odd n = true -> chosen = LlmPanel.lowerMedian costs) /\
    (Nat.even n = true ->
       nth_error (LlmPanel.sortAsc costs) (n / 2 - 1) = Some (LlmPanel.lowerMedian costs) /\
       LlmPanel.lowerMedian costs <= chosen).
Proof.
  intros r costs n Happ.
  assert (Hn : (3 <= n)%nat).
  { subst r n costs. unfold LlmPanel.approvingCosts. rewrite length_map.
    unfold LlmPanel.runConsensus in Happ.
    destruct (Nat.ltb_spec (List.length (LlmPanel.validResults results)) 3);
      cbn [LlmPanel.approved] in Happ; [discriminate|].
    apply Nat.ltb_lt in Happ. lia. }
  assert (Hlen : List.length (LlmPanel.sortAsc costs) = n)
    by apply sortAsc_length.
  exists (List.nth (n / 2) (LlmPanel.sortAsc costs) 0).
  split.
  { subst r. unfold LlmPanel.runConsensus in *.
    destruct (Nat.ltb_spec (List.length (LlmPanel.validResults results)) 3);
      cbn [LlmPanel.approved LlmPanel.estimatedCostUSD] in *; [discriminate|].
    rewrite Happ. cbn [andb].
    replace (List.length (List.filter (fun rd => LlmPanel.dec_approved (snd rd))
                            (LlmPanel.validResults results))) with n
      by (subst n costs; unfold LlmPanel.approvingCosts; now rewrite length_map).
    destruct (Nat.ltb_spec 0 n); [|lia].
    fold (LlmPanel.approvingCosts results). fold costs. now rewrite Hlen. }
  split; [apply sortAsc_perm|].
  split; [apply sortAsc_sorted|].
  split; [apply nth_error_nth'; rewrite Hlen; apply Nat.div_lt; lia|].
  split.
  - intros Hodd. apply Nat.odd_spec in Hodd as [k Hk].
    unfold LlmPanel.lowerMedian. fold n.
    replace ((n - 1) / 2)%nat with (n / 2)%nat; [reflexivity|].
    rewrite Hk. replace (2 * k + 1 - 1)%nat with (k * 2)%nat by lia.
    rewrite Nat.div_mul by lia.
    replace (2 * k + 1)%nat with (1 + k * 2)%nat by lia.
    rewrite Nat.div_add by lia. reflexivity.
  - intros Heven. apply Nat.even_spec in Heven as [k Hk].
    assert (Hidx : ((n - 1) / 2 = n / 2 - 1)%nat).
    { rewrite Hk. replace (2 * k)%nat with (k * 2)%nat by lia.
      rewrite Nat.div_mul by lia.
      replace (k * 2 - 1)%nat with (1 + (k - 1) * 2)%nat by lia.
      rewrite Nat.div_add by lia. reflexivity. }
    unfold LlmPanel.lowerMedian. fold n. rewrite Hidx.
    split.
    + apply nth_error_nth'. rewrite Hlen.
      assert (n / 2 < n)%nat by (apply Nat.div_lt; lia). lia.
    + apply sorted_nth_le; [apply sortAsc_sorted|lia|].
      rewrite Hlen. apply Nat.div_lt; lia.
Qed.

(** On the unanimous panel the estimate is the third of the five sorted costs. *)
Lemma runConsensus_cost_is_upper_median_witness :
  exists chosen,
    LlmPanel.estimatedCostUSD (LlmPanel.runConsensus (fun _ => "h") "t" unanimousPanel)
      = Some chosen /\
    nth_error (LlmPanel.sortAsc (LlmPanel.approvingCosts unanimousPanel)) 2 = Some chosen.
Proof.
  destruct (runConsensus_cost_is_upper_median (fun _ => "h") "t" unanimousPanel eq_refl)
    as (chosen & Hcost & _ & _ & Hnth & _).
  exists chosen. split; [exact Hcost | exact Hnth].
Defined.

(** C3, as stated, fails: with four approving nodes whose costs are
    100, 200, 300 and 400 the consensus is approved and the chosen
    cost is 300, while the lower median is 200. *)
Lemma runConsensus_even_count_not_lower_median :
  LlmPanel.approved (LlmPanel.runConsensus (fun _ => "h") "t" evenPanel) = true /\
  LlmPanel.approvingCosts evenPanel = [400; 100; 300; 200] /\
  LlmPanel.estimatedCostUSD (LlmPanel.runConsensus (fun _ => "h") "t" evenPanel) = Some 300 /\
  LlmPanel.lowerMedian (LlmPanel.approvingCosts evenPanel) = 200.
Proof. repeat split. Qed.


(** ** Event attestation *)

Lemma float_mul_comm (x y : float) : (x * y)%float = (y * x)%float.
Proof.
  apply Prim2SF_inj. rewrite !mul_spec. unfold SF64mul, SFmul.
  destruct (Prim2SF x) as [sx| sx| |sx mx ex], (Prim2SF y) as [sy| sy| |sy my ey];
    try reflexivity; rewrite ?(xorb_comm sx sy); try reflexivity.
  now rewrite Pos.mul_comm, Z.add_comm.
Qed.

Lemma set_spread_from_In seen l x :
  In x (Js.set_spread_from seen l) <-> In x l /\ ~ In x seen.
Proof.
  revert seen. induction l as [|y l IH]; intros seen; simpl.
  - tauto.
  - destruct (existsb (String.eqb y) seen) eqn:Hex.
    + apply existsb_exists in Hex as (z & Hz & Heq).
      apply String.eqb_eq in Heq. subst z.
      rewrite IH. split; [tauto|]. intros [[->|Hin] Hn]; tauto.
    + assert (Hny : ~ In y seen).
      { intros Hin. apply not_true_iff_false in Hex. apply Hex.
        apply existsb_exists. exists y. split; [assumption|apply String.eqb_refl]. }
      simpl. rewrite IH. simpl. split.
      * intros [->|[Hin Hn]]; [tauto|]. split; [tauto|]. intros Hs. apply Hn. tauto.
      * intros [[->|Hin] Hn]; [tauto|].
        destruct (string_dec y x) as [->|Hne]; [tauto|]. right. split; [assumption|].
        intros [Heq|Hs]; [congruence|tauto].
Qed.

Lemma set_spread_from_NoDup seen l : List.NoDup (Js.set_spread_from seen l).
Proof.
  revert seen. induction l as [|y l IH]; intros seen; simpl; [constructor|].
  destruct (existsb (String.eqb y) seen); [apply IH|].
  constructor; [|apply IH].
  rewrite set_spread_from_In. simpl. tauto.
Qed.

Lemma set_spread_In l x : In x (Js.set_spread l) <-> In x l.
Proof. unfold Js.set_spread. rewrite set_spread_from_In. simpl. tauto. Qed.

Lemma set_spread_NoDup l : List.NoDup (Js.set_spread l).
Proof. apply set_spread_from_NoDup. Qed.

Section ListFacts.
Context {A : Type} (R : A -> A -> Prop).

Lemma FOP_cons_inv a l :
  ForallOrdPairs R (a :: l) <-> List.Forall (R a) l /\ ForallOrdPairs R l.
Proof.
  split.
  - intros Hp. inversion Hp; subst. tauto.
  - intros [Ha Hl]. now constructor.
Qed.

Lemma FOP_app l1 l2 :
  ForallOrdPairs R (l1 ++ l2) <->
  ForallOrdPairs R l1 /\ ForallOrdPairs R l2 /\
  (forall a b, In a l1 -> In b l2 -> R a b).
Proof.
  induction l1 as [|x l1 IH]; simpl.
  - split; [intros Hp; repeat split; [constructor|assumption|tauto]|tauto].
  - rewrite !FOP_cons_inv, IH, !List.Forall_forall. split.
    + intros (Hx & H1 & H2 & H12). repeat split; auto.
      * intros b Hb. apply Hx, in_or_app. tauto.
      * intros a b [->|Ha] Hb; [apply Hx, in_or_app; tauto|auto].
    + intros ((Hx & H1) & H2 & H12). repeat split; auto.
      intros b Hb. apply in_app_or in Hb as [Hb|Hb]; auto.
Qed.

Lemma FOP_insert l1 l2 x :
  (forall a b, R a b -> R b a) ->
  ForallOrdPairs R (l1 ++ l2) -> (forall a, In a (l1 ++ l2) -> R a x) ->
  ForallOrdPairs R (l1 ++ x :: l2).
Proof.
  intros R_sym. rewrite !FOP_app, FOP_cons_inv, List.Forall_forall.
  intros (H1 & H2 & H12) Hx. repeat split; auto.
  - intros b Hb. apply R_sym, Hx, in_or_app. tauto.
  - intros a b Ha [<-|Hb]; [apply Hx, in_or_app; tauto|auto].
Qed.

Lemma FOP_remove l1 l2 y :
  ForallOrdPairs R (l1 ++ y :: l2) -> ForallOrdPairs R (l1 ++ l2).
Proof.
  rewrite !FOP_app, FOP_cons_inv. intros (H1 & (_ & H2) & H12).
  repeat split; auto. intros a b Ha Hb. apply H12; simpl; tauto.
Qed.

Lemma FOP_nth_lt l i j a b :
  ForallOrdPairs R l -> (i < j)%nat ->
  nth_error l i = Some a -> nth_error l j = Some b -> R a b.
Proof.
  intros Hp. revert i j. induction Hp as [|x l Hx Hp IH]; intros i j Hij Hi Hj.
  - destruct i; discriminate.
  - destruct j as [|j]; [lia|]. destruct i as [|i]; simpl in *.
    + injection Hi as <-. rewrite List.Forall_forall in Hx.
      apply Hx. eapply nth_error_In; eassumption.
    + apply (IH i j); [lia|assumption|assumption].
Qed.

Lemma FOP_nth_ne l i j a b :
  (forall a b, R a b -> R b a) ->
  ForallOrdPairs R l -> i <> j ->
  nth_error l i = Some a -> nth_error l j = Some b -> R a b.
Proof.
  intros R_sym Hp Hij Hi Hj. destruct (Nat.lt_ge_cases i j) as [Hlt|Hge].
  - eapply FOP_nth_lt; eassumption.
  - apply R_sym. eapply (FOP_nth_lt l j i); [assumption|lia|assumption|assumption].
Qed.

End ListFacts.

Section ObjFacts.
Context {V : Type}.

Lemma obj_replace_decomp (k : string) (v : V) (o : Js.Obj V) :
  Js.obj_has k o = true ->
  exists l1 y l2, o = l1 ++ y :: l2 /\ Js.obj_replace k v o = l1 ++ (k, v) :: l2.
Proof.
  induction o as [|[k' v'] o IH]; simpl; [discriminate|].
  destruct (String.eqb k' k) eqn:Hk; simpl.
  - intros _. exists [], (k', v'), o. split; reflexivity.
  - intros Hhas. destruct (IH Hhas) as (l1 & y & l2 & -> & Hr).
    exists ((k', v') :: l1), y, l2. simpl. rewrite Hr. split; reflexivity.
Qed.

Lemma obj_insert_index_decomp (n : N) (k : string) (v : V) (o : Js.Obj V) :
  exists l1 l2, o = l1 ++ l2 /\ Js.obj_insert_index n k v o = l1 ++ (k, v) :: l2.
Proof.
  induction o as [|[k' v'] o IH]; simpl.
  - exists [], []. split; reflexivity.
  - destruct (Js.array_index k') as [n'|].
    + destruct (n' <? n)%N.
      * destruct IH as (l1 & l2 & -> & Hr).
        exists ((k', v') :: l1), l2. simpl. rewrite Hr. split; reflexivity.
      * exists [], ((k', v') :: o). split; reflexivity.
    + exists [], ((k', v') :: o). split; reflexivity.
Qed.

(** Writing a property puts the value somewhere in the entry list,
    in place of at most one earlier entry. *)
Lemma obj_set_decomp (k : string) (v : V) (o : Js.Obj V) :
  exists l1 l2,
    Js.obj_set k v o = l1 ++ (k, v) :: l2 /\
    (o = l1 ++ l2 \/ exists y, o = l1 ++ y :: l2).
Proof.
  unfold Js.obj_set. destruct (Js.obj_has k o) eqn:Hhas.
  - destruct (obj_replace_decomp k v o Hhas) as (l1 & y & l2 & Ho & Hr).
    exists l1, l2. split; [assumption|]. right. now exists y.
  - destruct (Js.array_index k) as [n|].
    + destruct (obj_insert_index_decomp n k v o) as (l1 & l2 & Ho & Hr).
      exists l1, l2. tauto.
    + exists o, []. rewrite app_nil_r. tauto.
Qed.

End ObjFacts.

Section DedupFacts.
Context `{JsMath}.
Import Fdc.

Lemma apart_sym (a b : Event) : apart a b -> apart b a.
Proof. unfold apart. tauto. Qed.

Lemma sameTypeWithin50_sites (a a' b b' : Event) :
  sameSite a a' -> sameSite b b' ->
  sameTypeWithin50 a b = sameTypeWithin50 a' b'.
Proof.
  intros (Ht & Hlat & Hlng) (Ht' & Hlat' & Hlng').
  unfold sameTypeWithin50. now rewrite Ht, Hlat, Hlng, Ht', Hlat', Hlng'.
Qed.

(** The merge test, written out: the same type, and centres under
    50 km apart. *)
Lemma sameTypeWithin50_true (a b : Event) :
  sameTypeWithin50 a b = true <->
  type a = type b /\
  (Geo.haversineDistance (lat a) (lng a) (lat b) (lng b) / 1000 <? 50)%float = true.
Proof.
  unfold sameTypeWithin50, distanceKm.
  rewrite andb_true_iff, String.eqb_eq. tauto.
Qed.

Lemma sameTypeWithin50_false (a b : Event) :
  sameTypeWithin50 a b = false <->
  (type a = type b ->
   (Geo.haversineDistance (lat a) (lng a) (lat b) (lng b) / 1000 <? 50)%float = false).
Proof.
  unfold sameTypeWithin50, distanceKm.
  rewrite andb_false_iff, String.eqb_neq.
  destruct (string_dec (type a) (type b)) as [Heq|Hne].
  - split; [intros [Hn|Hf] _; [contradiction|exact Hf]|auto].
  - split; [intros _ Heq; contradiction|auto].
Qed.

Lemma sameSite_refl (a : Event) : sameSite a a.
Proof. repeat split. Qed.

Lemma mergeSources_sameSite (existing event : Event) :
  sameSite (mergeSources existing event) existing.
Proof. repeat split. Qed.

Lemma apart_sites (a a' b b' : Event) :
  sameSite a a' -> sameSite b b' -> apart a b -> apart a' b'.
Proof.
  intros Ha Hb. unfold apart.
  now rewrite (sameTypeWithin50_sites a a' b b' Ha Hb),
              (sameTypeWithin50_sites b b' a a' Hb Ha).
Qed.

Lemma mergeInto_None (event : Event) (grouped : Js.Obj Event) :
  mergeInto event grouped = None ->
  forall v, In v (Js.obj_values grouped) -> sameTypeWithin50 v event = false.
Proof.
  induction grouped as [|[key existing] rest IH]; simpl; [tauto|].
  destruct (sameTypeWithin50 existing event) eqn:Hsame; [discriminate|].
  destruct (mergeInto event rest); [discriminate|].
  intros _ v [<-|Hv]; [assumption|now apply IH].
Qed.

Lemma mergeInto_Some (event : Event) (grouped grouped' : Js.Obj Event) :
  mergeInto event grouped = Some grouped' ->
  exists l1 key existing l2,
    grouped = l1 ++ (key, existing) :: l2 /\
    grouped' = l1 ++ (key, mergeSources existing event) :: l2 /\
    sameTypeWithin50 existing event = true /\
    (forall v, In v (Js.obj_values l1) -> sameTypeWithin50 v event = false).
Proof.
  revert grouped'. induction grouped as [|[key existing] rest IH]; simpl; [discriminate|].
  intros grouped'. destruct (sameTypeWithin50 existing event) eqn:Hsame.
  - intros [= <-]. exists [], key, existing, rest. simpl. tauto.
  - destruct (mergeInto event rest) as [rest'|]; [|discriminate].
    intros [= <-].
    destruct (IH rest' eq_refl) as (l1 & k & ex & l2 & -> & -> & Hs & Hl1).
    exists ((key, existing) :: l1), k, ex, l2. simpl. repeat split; auto.
    intros v [<-|Hv]; auto.
Qed.

Lemma obj_values_app (l1 l2 : Js.Obj Event) :
  Js.obj_values (l1 ++ l2) = Js.obj_values l1 ++ Js.obj_values l2.
Proof. apply map_app. Qed.

Lemma dedupStep_inv (events : list Event) (grouped : Js.Obj Event) (event : Event) :
  (forall a b, In a events -> In b events ->
     distanceKm (lat a) (lng a) (lat b) (lng b)
     = distanceKm (lat b) (lng b) (lat a) (lng a)) ->
  In event events ->
  groupsInv events grouped -> groupsInv events (dedupStep grouped event).
Proof.
  intros Hsym He [Hfop Hsite]. unfold dedupStep, groupsInv.
  destruct (mergeInto event grouped) as [grouped'|] eqn:Hm.
  - apply mergeInto_Some in Hm as (l1 & key & existing & l2 & -> & -> & _ & _).
    rewrite obj_values_app in Hfop, Hsite. rewrite obj_values_app.
    cbn [Js.obj_values List.map snd] in *.
    fold (Js.obj_values l2) in *. split.
    + apply FOP_app in Hfop as (H1 & H2 & H12).
      apply FOP_cons_inv in H2 as [Hex H2]. rewrite List.Forall_forall in Hex.
      apply FOP_app. split; [assumption|]. split.
      * apply FOP_cons_inv. split; [|assumption].
        apply List.Forall_forall. intros b Hb.
        apply (apart_sites existing _ b b); auto using sameSite_refl.
        repeat split.
      * intros a b Ha [<-|Hb].
        -- apply (apart_sites a a existing _); auto using sameSite_refl.
           ++ repeat split.
           ++ apply H12; simpl; tauto.
        -- apply H12; simpl; tauto.
    + intros v Hv. apply in_app_or in Hv as [Hv|[<-|Hv]].
      * apply Hsite, in_or_app. tauto.
      * destruct (Hsite existing) as (x & Hx & Hs); [apply in_or_app; simpl; tauto|].
        exists x. split; [assumption|]. exact Hs.
      * apply Hsite, in_or_app. simpl. tauto.
  - pose proof (mergeInto_None _ _ Hm) as Hfar.
    assert (Hapart : forall v, In v (Js.obj_values grouped) -> apart v event).
    { intros v Hv. split; [now apply Hfar|].
      destruct (Hsite v Hv) as (x & Hx & Hs).
      rewrite (sameTypeWithin50_sites event event v x (sameSite_refl _) Hs).
      rewrite <- (Hfar v Hv).
      rewrite (sameTypeWithin50_sites v x event event Hs (sameSite_refl _)).
      unfold sameTypeWithin50.
      rewrite (String.eqb_sym (type event) (type x)).
      now rewrite (Hsym event x He Hx). }
    destruct (obj_set_decomp (id event) event grouped) as (l1 & l2 & -> & Hg).
    rewrite obj_values_app. cbn [Js.obj_values List.map]. fold (Js.obj_values l2).
    assert (Hsub : forall v, In v (Js.obj_values l1 ++ Js.obj_values l2) ->
                             In v (Js.obj_values grouped)).
    { intros v Hv. destruct Hg as [->|[y ->]]; rewrite obj_values_app.
      - assumption.
      - cbn [Js.obj_values List.map]. apply in_app_or in Hv.
        apply in_or_app. simpl. tauto. }
    split.
    + apply FOP_insert; [exact apart_sym| |auto].
      destruct Hg as [->|[y ->]].
      * now rewrite obj_values_app in Hfop.
      * rewrite obj_values_app in Hfop. cbn [Js.obj_values List.map] in Hfop.
        now apply FOP_remove in Hfop.
    + intros v Hv. apply in_app_or in Hv as [Hv|[<-|Hv]].
      * apply Hsite, Hsub, in_or_app. tauto.
      * exists event. split; [assumption|apply sameSite_refl].
      * apply Hsite, Hsub, in_or_app. tauto.
Qed.

Lemma fold_dedupStep_inv (events evs : list Event) (grouped : Js.Obj Event) :
  (forall a b, In a events -> In b events ->
     distanceKm (lat a) (lng a) (lat b) (lng b)
     = distanceKm (lat b) (lng b) (lat a) (lng a)) ->
  (forall e, In e evs -> In e events) ->
  groupsInv events grouped -> groupsInv events (fold_left dedupStep evs grouped).
Proof.
  intros Hsym. revert grouped. induction evs as [|e evs IH]; simpl; intros grouped Hin Hinv.
  - assumption.
  - apply IH; [auto|]. apply dedupStep_inv; auto.
Qed.

End DedupFacts.

(** C5: for every input list of provider events (on which the
    distance between two centres does not depend on their order), no
    two distinct events in the output of [deduplicateEvents] have the
    same type with centres under 50 km apart; and whenever the inner
    loop merges an event into a group, the two have the same type and
    centres under 50 km apart, the group keeps its identity and
    centre, and its source list becomes the duplicate-free union of
    the two source lists. *)
Theorem deduplicateEvents_keeps_groups_apart `{JsMath} (events : list Fdc.Event) :
  (forall a b, In a events -> In b events ->
     Fdc.distanceKm (Fdc.lat a) (Fdc.lng a) (Fdc.lat b) (Fdc.lng b)
     = Fdc.distanceKm (Fdc.lat b) (Fdc.lng b) (Fdc.lat a) (Fdc.lng a)) ->
  (forall i j a b, i <> j ->
     nth_error (Fdc.deduplicateEvents events) i = Some a ->
     nth_error (Fdc.deduplicateEvents events) j = Some b ->
     Fdc.type a = Fdc.type b ->
     (Geo.haversineDistance (Fdc.lat a) (Fdc.lng a) (Fdc.lat b) (Fdc.lng b) / 1000
      <? 50)%float = false) /\
  (forall grouped event grouped',
     Fdc.mergeInto event grouped = Some grouped' ->
     exists l1 key existing merged l2,
       grouped = l1 ++ (key, existing) :: l2 /\
       grouped' = l1 ++ (key, merged) :: l2 /\
       Fdc.type existing = Fdc.type event /\
       (Geo.haversineDistance (Fdc.lat existing) (Fdc.lng existing)
                              (Fdc.lat event) (Fdc.lng event) / 1000
        <? 50)%float = true /\
       (forall s, In s (Fdc.sources merged) <->
                  In s (Fdc.sources existing) \/ In s (Fdc.sources event)) /\
       List.NoDup (Fdc.sources merged) /\
       Fdc.id merged = Fdc.id existing /\
       Fdc.sameSite merged existing).
Proof.
  intros Hsym. split.
  - intros i j a b Hij Ha Hb.
    assert (Hinv : Fdc.groupsInv events (fold_left Fdc.dedupStep events [])).
    { apply fold_dedupStep_inv; [assumption|auto|].
      split; [constructor|]. intros v []. }
    destruct Hinv as [Hfop _].
    apply sameTypeWithin50_false.
    apply (FOP_nth_ne Fdc.apart _ i j a b apart_sym Hfop Hij Ha Hb).
  - intros grouped event grouped' Hm.
    apply mergeInto_Some in Hm as (l1 & key & existing & l2 & -> & -> & Hs & _).
    apply sameTypeWithin50_true in Hs as [Htype Hnear].
    exists l1, key, existing, (Fdc.mergeSources existing event), l2.
    repeat split; auto.
    + cbn [Fdc.mergeSources Fdc.sources]. rewrite set_spread_In. apply in_app_or.
    + cbn [Fdc.mergeSources Fdc.sources]. rewrite set_spread_In. apply in_or_app.
    + apply set_spread_NoDup.
Qed.

(** On the three reported events: the two flood reports merge, with both
    sources, and the two survivors, were they of one type, are 50 km
    or more apart. *)
Lemma deduplicateEvents_keeps_groups_apart_witness :
  List.map Fdc.id (@Fdc.deduplicateEvents planarMath reportedEvents)
    = ["gdacs-fl-2026-001"; "gdacs-eq-2026-002"] /\
  List.map Fdc.sources (@Fdc.deduplicateEvents planarMath reportedEvents)
    = [["GDACS"; "ReliefWeb"]; ["GDACS"]] /\
  match nth_error (@Fdc.deduplicateEvents planarMath reportedEvents) 0,
        nth_error (@Fdc.deduplicateEvents planarMath reportedEvents) 1 with
  | Some a, Some b =>
      Fdc.type a = Fdc.type b ->
      (@Geo.haversineDistance planarMath (Fdc.lat a) (Fdc.lng a) (Fdc.lat b) (Fdc.lng b)
       / 1000 <? 50)%float = false
  | _, _ => False
  end.
Proof.
  split; [vm_compute; reflexivity|]. split; [vm_compute; reflexivity|].
  assert (Hsym : forall a b, In a reportedEvents -> In b reportedEvents ->
            @Fdc.distanceKm planarMath (Fdc.lat a) (Fdc.lng a) (Fdc.lat b) (Fdc.lng b)
            = @Fdc.distanceKm planarMath (Fdc.lat b) (Fdc.lng b) (Fdc.lat a) (Fdc.lng a)).
  { intros a b [<-|[<-|[<-|[]]]] [<-|[<-|[<-|[]]]]; vm_compute; reflexivity. }
  pose proof (proj1 (@deduplicateEvents_keeps_groups_apart planarMath reportedEvents Hsym)
                0%nat 1%nat) as Hfar.
  destruct (nth_error (@Fdc.deduplicateEvents planarMath reportedEvents) 0) as [a|] eqn:Ha;
    [|vm_compute in Ha; discriminate].
  destruct (nth_error (@Fdc.deduplicateEvents planarMath reportedEvents) 1) as [b|] eqn:Hb;
    [|vm_compute in Hb; discriminate].
  apply Hfar; [discriminate|reflexivity|reflexivity].
Defined.

Section ScoreFacts.
Context `{JsMath}.
Import Fdc.

Lemma singleton_sourcesOk (e : Event) (tag : string) :
  sources e = [tag] -> In tag providerTags -> sourcesOk e.
Proof.
  intros Hs Htag. unfold sourcesOk. rewrite Hs. split.
  - constructor; [simpl; tauto|constructor].
  - intros s [<-|[]]. assumption.
Qed.

Lemma allEvents_sourcesOk env gd us rw lat0 lng0 radius (e : Event) :
  In e (allEvents env gd us rw lat0 lng0 radius) -> sourcesOk e.
Proof.
  unfold allEvents, queryGDACS, queryUSGS, queryReliefWeb.
  intros Hin. apply in_app_or in Hin as [Hin|Hin]; [|apply in_app_or in Hin as [Hin|Hin]].
  - destruct env.
    + unfold parseGDACSEvents in Hin. destruct gd as [features|]; [|destruct Hin].
      apply filter_In in Hin as [Hin _]. apply in_map_iff in Hin as (f & <- & _).
      apply (singleton_sourcesOk _ "GDACS"); [reflexivity|simpl; tauto].
    + destruct Hin as [<-|[<-|[]]];
        apply (singleton_sourcesOk _ "GDACS"); try reflexivity; simpl; tauto.
  - destruct env; [|destruct Hin].
    unfold parseUSGSEvents in Hin. destruct us as [features|]; [|destruct Hin].
    apply in_map_iff in Hin as (f & <- & _).
    apply (singleton_sourcesOk _ "USGS"); [reflexivity|simpl; tauto].
  - destruct env; [|destruct Hin].
    unfold parseReliefWebEvents in Hin. destruct rw as [items|]; [|destruct Hin].
    apply filter_In in Hin as [Hin _]. apply in_map_iff in Hin as (d & <- & _).
    apply (singleton_sourcesOk _ "ReliefWeb"); [reflexivity|simpl; tauto].
Qed.

Lemma mergeSources_sourcesOk (existing event : Event) :
  sourcesOk existing -> sourcesOk event -> sourcesOk (mergeSources existing event).
Proof.
  intros [_ Hi1] [_ Hi2]. split; cbn [mergeSources sources].
  - apply set_spread_NoDup.
  - intros s Hs. rewrite set_spread_In in Hs. apply in_app_or in Hs as [Hs|Hs]; auto.
Qed.

Lemma dedupStep_sourcesOk (grouped : Js.Obj Event) (event : Event) :
  sourcesOk event ->
  (forall v, In v (Js.obj_values grouped) -> sourcesOk v) ->
  forall v, In v (Js.obj_values (dedupStep grouped event)) -> sourcesOk v.
Proof.
  intros He Hg v. unfold dedupStep.
  destruct (mergeInto event grouped) as [grouped'|] eqn:Hm.
  - apply mergeInto_Some in Hm as (l1 & key & existing & l2 & -> & -> & _ & _).
    rewrite obj_values_app in Hg. rewrite obj_values_app.
    cbn [Js.obj_values List.map snd] in *.
    intros Hv. apply in_app_or in Hv as [Hv|[<-|Hv]].
    + apply Hg, in_or_app. tauto.
    + apply mergeSources_sourcesOk; [|assumption]. apply Hg, in_or_app. simpl. tauto.
    + apply Hg, in_or_app. simpl. tauto.
  - destruct (obj_set_decomp (id event) event grouped) as (l1 & l2 & -> & Hd).
    rewrite obj_values_app. cbn [Js.obj_values List.map snd].
    intros Hv. apply in_app_or in Hv as [Hv|[<-|Hv]]; [|assumption|];
      apply Hg; destruct Hd as [->|[y ->]]; rewrite obj_values_app;
      cbn [Js.obj_values List.map snd]; apply in_or_app; simpl; tauto.
Qed.

Lemma deduplicateEvents_sourcesOk (events : list Event) :
  (forall e, In e events -> sourcesOk e) ->
  forall v, In v (deduplicateEvents events) -> sourcesOk v.
Proof.
  unfold deduplicateEvents.
  assert (Hgen : forall evs grouped,
            (forall e, In e evs -> sourcesOk e) ->
            (forall v, In v (Js.obj_values grouped) -> sourcesOk v) ->
            forall v, In v (Js.obj_values (fold_left dedupStep evs grouped)) -> sourcesOk v).
  { induction evs as [|e evs IH]; simpl; intros grouped Hevs Hg; [assumption|].
    apply IH; [auto|]. apply dedupStep_sourcesOk; auto. }
  intros Hevs. apply Hgen; [assumption|]. intros v [].
Qed.

Lemma sourcesOk_length (e : Event) : sourcesOk e -> (List.length (sources e) <= 3)%nat.
Proof.
  intros [Hnd Hincl].
  apply (NoDup_incl_length Hnd Hincl).
Qed.

(** With at most three sources the coverage ratio needs no clamp. *)
Lemma coverage_clamp {A} (l : list A) :
  (List.length l <= 3)%nat ->
  Js.Math_min 1 (Js.of_length l / 3)%float = (Js.of_length l / 3)%float.
Proof.
  destruct l as [|a [|b [|c [|d l]]]]; simpl; intros Hlen; try lia;
    vm_compute; reflexivity.
Qed.

Lemma insertByScore_In (x y : ScoredEvent) (l : list ScoredEvent) :
  In y (insertByScore x l) -> y = x \/ In y l.
Proof.
  induction l as [|z l IH]; simpl.
  - intros [<-|[]]. now left.
  - destruct (score x <? score z)%float; simpl.
    + intros [<-|Hy]; [tauto|]. destruct (IH Hy); tauto.
    + intros [<-|[<-|Hy]]; tauto.
Qed.

Lemma sortByScore_In (y : ScoredEvent) (l : list ScoredEvent) :
  In y (sortByScore l) -> In y l.
Proof.
  induction l as [|x l IH]; simpl; [tauto|].
  intros Hy. apply insertByScore_In in Hy as [->|Hy]; auto.
Qed.

Lemma findBestMatch_scored (events : list Event) (lat0 lng0 : float)
    (claimedEvent : string) (best : ScoredEvent) :
  findBestMatch events lat0 lng0 claimedEvent = Some best ->
  In (scored_event best) events /\ best = scoreEvent lat0 lng0 (scored_event best).
Proof.
  unfold findBestMatch. destruct events as [|e0 events]; [discriminate|].
  intros Hhd.
  assert (Hin : In best (sortByScore (List.map (scoreEvent lat0 lng0) (e0 :: events)))).
  { destruct (sortByScore _) as [|s l]; [discriminate|].
    injection Hhd as <-. now left. }
  apply sortByScore_In, in_map_iff in Hin as (e & <- & He).
  split; [exact He|reflexivity].
Qed.

End ScoreFacts.

(** C4: for every event that survives de-duplication of what the
    providers returned, the score [findBestMatch] computes equals
    [0.5 * proximity + 0.3 * source_coverage + 0.2 * severity] with
    [proximity = max(0, 1 - distance / radius)] and
    [source_coverage = min(1, source_count / 3)]; this holds in
    particular for the event [findBestMatch] selects; and severity
    weighs 1.0, 0.75, 0.5 and 0.25 for critical, severe, moderate and
    low. *)
Theorem engine_scores_match_specification `{JsMath}
    (env : Fdc.Env) (gd : option (list Fdc.GdacsFeature))
    (us : option (list Fdc.UsgsFeature)) (rw : option (list Fdc.ReliefWebItem))
    (lat0 lng0 radius : float) (claimedEvent : string) :
  let deduped := Fdc.deduplicateEvents (Fdc.allEvents env gd us rw lat0 lng0 radius) in
  let claimed (e : Fdc.Event) :=
    Fdc.specScore (Fdc.distanceKm lat0 lng0 (Fdc.lat e) (Fdc.lng e)) (Fdc.radiusKm e)
      (List.length (Fdc.sources e)) (Fdc.severityScore (Fdc.severity e)) in
  (forall e, In e deduped -> Fdc.score (Fdc.scoreEvent lat0 lng0 e) = claimed e) /\
  (forall best, Fdc.findBestMatch deduped lat0 lng0 claimedEvent = Some best ->
     In (Fdc.scored_event best) deduped /\
     Fdc.score best = claimed (Fdc.scored_event best)) /\
  Fdc.severityScore Fdc.Critical = 1%float /\
  Fdc.severityScore Fdc.Severe = 0.75%float /\
  Fdc.severityScore Fdc.Moderate = 0.5%float /\
  Fdc.severityScore Fdc.Low = 0.25%float.
Proof.
  intros deduped claimed.
  assert (Hscore : forall e, In e deduped ->
            Fdc.score (Fdc.scoreEvent lat0 lng0 e) = claimed e).
  { intros e He. subst claimed. cbv beta.
    assert (Hlen : (List.length (Fdc.sources e) <= 3)%nat).
    { apply sourcesOk_length.
      apply (deduplicateEvents_sourcesOk
               (Fdc.allEvents env gd us rw lat0 lng0 radius)); [|exact He].
      intros x Hx. eapply allEvents_sourcesOk; eassumption. }
    unfold Fdc.scoreEvent, Fdc.specScore. cbn [Fdc.score].
    fold (Js.of_length (Fdc.sources e)).
    rewrite (coverage_clamp (Fdc.sources e) Hlen).
    rewrite (float_mul_comm 0.5), (float_mul_comm 0.3), (float_mul_comm 0.2).
    reflexivity. }
  split; [exact Hscore|]. split; [|repeat split].
  intros best Hbest. apply findBestMatch_scored in Hbest as [Hin Heq].
  split; [exact Hin|]. rewrite <- (Hscore _ Hin). now rewrite <- Heq.
Qed.

(** In development mode near the Mozambique flood: the flood is selected
    and its score is the specified one. *)
Lemma engine_scores_match_specification_witness :
  match @Fdc.findBestMatch planarMath
          (@Fdc.deduplicateEvents planarMath
             (@Fdc.allEvents planarMath Fdc.Development None None None
                (-17.0523)%float 36.8714%float 100%float))
          (-17.0523)%float 36.8714%float "flood" with
  | Some best =>
      Fdc.id (Fdc.scored_event best) = "gdacs-fl-2026-001" /\
      Fdc.score best =
        Fdc.specScore
          (@Fdc.distanceKm planarMath (-17.0523)%float 36.8714%float
             (Fdc.lat (Fdc.scored_event best)) (Fdc.lng (Fdc.scored_event best)))
          (Fdc.radiusKm (Fdc.scored_event best))
          (List.length (Fdc.sources (Fdc.scored_event best)))
          (Fdc.severityScore (Fdc.severity (Fdc.scored_event best)))
  | None => False
  end.
Proof.
  pose proof (@engine_scores_match_specification planarMath Fdc.Development
                None None None (-17.0523)%float 36.8714%float 100%float "flood")
    as (_ & Hbest & _).
  destruct (@Fdc.findBestMatch planarMath _ _ _ _) as [best|] eqn:Hb;
    [|vm_compute in Hb; discriminate].
  split; [|exact (proj2 (Hbest best eq_refl))].
  vm_compute in Hb. injection Hb as <-. reflexivity.
Defined.


(** ** Delivery verification *)

(** C6: [verifyDelivery] marks an aerial (drone) proof verified if
    and only if the haversine distance from the target to the drop
    coordinate is under 30 metres and the image digest is present (a
    non-empty value) and differs from the zero digest. *)
Theorem verifyDelivery_drone_verified_iff `{JsMath}
    (hashAttestation : Fulfillment.Attestation -> string) (now : string)
    (proofData : Fulfillment.ProofData) (targetLat targetLng : float) :
  Fulfillment.verified
    (Fulfillment.verifyDelivery hashAttestation now "drone" proofData targetLat targetLng)
    = true
  <->
  (Geo.haversineDistance targetLat targetLng
     (Fulfillment.dropLat proofData) (Fulfillment.dropLng proofData) <? 30)%float = true /\
  (exists digest,
     Fulfillment.cameraImageHash proofData = Some digest /\
     digest <> "" /\ digest <> Fulfillment.ZeroHash).
Proof.
  unfold Fulfillment.verifyDelivery. cbn [String.eqb Ascii.eqb Bool.eqb].
  unfold Fulfillment.verifyDroneDelivery. cbn [Fulfillment.verified].
  rewrite !andb_true_iff, negb_true_iff, bool_decide_eq_false.
  destruct (Fulfillment.cameraImageHash proofData) as [digest|]; simpl.
  - rewrite negb_true_iff, String.eqb_neq. split.
    + intros (Hgps & Hne & Hnz). split; [assumption|].
      exists digest. repeat split; [assumption|congruence].
    + intros (Hgps & d & [= <-] & Hne & Hnz). repeat split; [assumption..|congruence].
  - split; [intros (_ & Hf & _); discriminate|].
    intros (_ & d & Hd & _). discriminate.
Qed.

(** The drop a metre from the target verifies; the one outside the
    tolerance does not. *)
Lemma verifyDelivery_drone_verified_iff_witness :
  Fulfillment.verified
    (@Fulfillment.verifyDelivery planarMath (fun _ => "0xv") "t" "drone"
       dropNearTarget (-17.0523)%float 36.8714%float) = true /\
  Fulfillment.verified
    (@Fulfillment.verifyDelivery planarMath (fun _ => "0xv") "t" "drone"
       dropOutsideTolerance (-17.0523)%float 36.8714%float) = false.
Proof.
  split.
  - apply (@verifyDelivery_drone_verified_iff planarMath). split.
    + vm_compute. reflexivity.
    + eexists. split; [reflexivity|]. split; discriminate.
  - apply not_true_is_false. intros Hv.
    apply (@verifyDelivery_drone_verified_iff planarMath) in Hv as [Hgps _].
    vm_compute in Hgps. discriminate.
Defined.

(** ** Ledger adapter *)

Lemma transact_once (rpc : nat -> Blockchain.RpcOutcome)
    (call : Blockchain.LedgerCall) (c : Blockchain.Client) :
  Blockchain.transact rpc call c =
    (match rpc (List.length (Blockchain.sent c)) with
     | Blockchain.Confirmed txHash => Eff.Ok txHash
     | Blockchain.Failed fault => Eff.Throw (Eff.LedgerError fault)
     end,
     {| Blockchain.sent := Blockchain.sent c ++ [call] |}).
Proof.
  unfold Blockchain.transact.
  destruct (rpc (List.length (Blockchain.sent c))); reflexivity.
Qed.

(** C7 (amended): every ledger write of the adapter
    ([submitVerification], [submitConsensusOnChain],
    [assignFulfillerOnChain], [verifyDeliveryOnChain],
    [releasePayoutOnChain]) hands its call to the contract exactly
    once; when that one attempt fails, transiently or not, the failure
    is thrown to the caller at once, and when it is confirmed the
    receipt is returned.  There is no retry and no backoff. *)
Theorem ledger_write_single_attempt (rpc : nat -> Blockchain.RpcOutcome)
    (wr : Blockchain.LedgerWrite) (c : Blockchain.Client) :
  Blockchain.perform rpc wr c =
    (match rpc (List.length (Blockchain.sent c)) with
     | Blockchain.Confirmed txHash => Eff.Ok txHash
     | Blockchain.Failed fault => Eff.Throw (Eff.LedgerError fault)
     end,
     {| Blockchain.sent := Blockchain.sent c ++ [Blockchain.callOf wr] |}).
Proof.
  destruct wr; cbn [Blockchain.perform Blockchain.callOf];
    unfold Blockchain.submitVerification, Blockchain.submitConsensusOnChain,
      Blockchain.assignFulfillerOnChain, Blockchain.verifyDeliveryOnChain,
      Blockchain.releasePayoutOnChain, Eff.bind;
    rewrite transact_once;
    destruct (rpc (List.length (Blockchain.sent c))); reflexivity.
Qed.

(** C7, as stated, fails: when the first answer of the ledger is a
    time-out and the second would be a confirmation,
    [submitVerification] throws the time-out after a single call,
    whereas the retry policy of the specification would call again
    after 500 ms and return the receipt. *)
Lemma transient_failure_is_not_retried :
  Blockchain.perform flakyRpc
    (Blockchain.WriteVerification 0 "0xg" Fulfillment.ZeroHash Fulfillment.ZeroHash)
    {| Blockchain.sent := [] |}
  = (Eff.Throw (Eff.LedgerError (Eff.Transient "timeout")),
     {| Blockchain.sent :=
          [Blockchain.VerifyRequest 0 "0xg" Fulfillment.ZeroHash Fulfillment.ZeroHash] |}) /\
  Blockchain.retryWithBackoff flakyRpc
    (Blockchain.VerifyRequest 0 "0xg" Fulfillment.ZeroHash Fulfillment.ZeroHash)
    Blockchain.defaultBackoff {| Blockchain.sent := [] |}
  = (Eff.Ok "0xtx",
     {| Blockchain.sent :=
          [Blockchain.VerifyRequest 0 "0xg" Fulfillment.ZeroHash Fulfillment.ZeroHash;
           Blockchain.VerifyRequest 0 "0xg" Fulfillment.ZeroHash Fulfillment.ZeroHash] |},
     [500]).
Proof. split; reflexivity. Qed.

(** C2, evaluated where it fails: with five nodes of which one fails,
    three approve and one rejects, the engine approves (9 > 8 over the
    four valid nodes); [executePipeline] submits the approval with
    [nodeCount = 5], the total, and the ledger's check (9 > 10) reverts
    the submission.  With the valid count the ledger would accept. *)
Theorem approved_consensus_reverted_by_ledger :
  let r := LlmPanel.runConsensus (fun _ => "0xc") "t" panelWithFailedNode in
  let submitted :=
    Blockchain.SubmitConsensus 0 true 0 0 140000000 "0xc" 5 3 in
  LlmPanel.approved r = true /\
  LlmPanel.nodeCount r = 5%nat /\
  LlmPanel.validCount r = 4%nat /\
  LlmPanel.approvalCount r = 3%nat /\
  Blockchain.sent
    (snd (Pipeline.submitApproval (world true panelWithFailedNode calmRpc) 0 r
            {| Blockchain.sent := [] |}))
    = [submitted] /\
  Blockchain.consensusOnLedger verifiedLedger "0xoracle" submitted
    = Some (AidChain.Revert "AidChain: supermajority not met") /\
  match Blockchain.consensusOnLedger verifiedLedger "0xoracle"
          (Blockchain.SubmitConsensus 0 true 0 0 140000000 "0xc" 4 3) with
  | Some (AidChain.Done st) =>
      AidChain.status <$> (AidChain.aidRequests st !! 0) = Some AidChain.Approved
  | _ => False
  end.
Proof. vm_compute. repeat split. Qed.

(** ** Pipeline registry *)

Section PipelineFacts.
Context `{JsMath}.
Variable keccak256 : string -> string.
Variable stringifyAttestation : Fdc.FdcAttestation -> string.
Variable hashTranscript : LlmPanel.Transcript -> string.
Variable hashAttestation : Fulfillment.Attestation -> string.
Variable now : string.
Variable nowMs : Z.
Variable toFixed : float -> nat -> string.
Variable showNumber : float -> string.
Variable ziplineWallet : string.
Variable authorityWallet : string.
Variable w : Pipeline.World.
Import Eff Pipeline.

Lemma keeps_ret {A} base rid (a : A) : keepsRecord base rid (ret a).
Proof. intros s x Hs. exists x. simpl. tauto. Qed.

Lemma keeps_throw {A} base rid (e : Exn) : keepsRecord base rid (@throw Sys A e).
Proof. intros s x Hs. exists x. simpl. tauto. Qed.

Lemma keeps_bind {A B} base rid (m : M Sys A) (k : A -> M Sys B) :
  keepsRecord base rid m -> (forall a, keepsRecord base rid (k a)) ->
  keepsRecord base rid (bind m k).
Proof.
  intros Hm Hk s x Hs. unfold bind.
  destruct (Hm s x Hs) as (x1 & H1 & He1).
  destruct (m s) as [[a|e] s1]; simpl in *.
  - destruct (Hk a s1 x1 H1) as (x2 & H2 & He2).
    exists x2. split; [assumption|congruence].
  - exists x1. tauto.
Qed.

Lemma keeps_emit base rid rid' stage status message :
  keepsRecord base rid (emit rid' stage status message).
Proof. intros s x Hs. exists x. simpl. tauto. Qed.

Lemma keeps_ledger {A} base rid (m : M Blockchain.Client A) :
  keepsRecord base rid (ledger m).
Proof.
  intros s x Hs. exists x. unfold ledger, zoom.
  destruct (m (client s)). simpl. tauto.
Qed.

Lemma keeps_mutate base rid (f : PipelineState -> PipelineState) :
  (forall x, error (f x) = error x) -> keepsRecord base rid (mutate rid f).
Proof.
  intros Hf s x Hs. exists (f x). simpl. rewrite Hs, alter_insert_eq. auto.
Qed.

Lemma keeps_setStage base rid n : keepsRecord base rid (mutate rid (setStage n)).
Proof. apply keeps_mutate. reflexivity. Qed.

Lemma keeps_completeStage base rid key :
  keepsRecord base rid (mutate rid (completeStage key)).
Proof. apply keeps_mutate. reflexivity. Qed.

Lemma stages1to6_keeps base (params : Params) :
  keepsRecord base (p_requestId params)
    (stages1to6 keccak256 stringifyAttestation hashTranscript now
       toFixed showNumber ziplineWallet authorityWallet w params).
Proof.
  unfold stages1to6. cbv zeta.
  repeat first
    [ apply keeps_bind; [|intros ?]
    | apply keeps_setStage | apply keeps_completeStage | apply keeps_emit
    | apply keeps_ledger | apply keeps_ret | apply keeps_throw
    | match goal with
      | |- keepsRecord _ _ (if ?c then _ else _) => destruct c
      end ].
Qed.

Lemma executePipeline_registry (params : Params) (s : Sys) :
  exists st,
    activePipelines
      (snd (executePipeline keccak256 stringifyAttestation hashTranscript now nowMs
              toFixed showNumber ziplineWallet authorityWallet w params s))
      = <[p_requestId params := st]> (activePipelines s) /\
    match fst (executePipeline keccak256 stringifyAttestation hashTranscript now nowMs
                 toFixed showNumber ziplineWallet authorityWallet w params s) with
    | Ok (PipelineSuccess st' _) => st' = st /\ error st = None
    | Ok (PipelineFailure msg _ st') => st' = st /\ error st = Some msg
    | Throw _ => False
    end.
Proof.
  destruct (executePipeline _ _ _ _ _ _ _ _ _ w params s) as [res s'] eqn:Hrun.
  cbn [fst snd]. revert Hrun.
  unfold executePipeline. cbv zeta.
  set (rid := p_requestId params).
  set (state0 := {| requestId := rid; currentStage := STAGE_REQUEST;
                    startTime := nowMs; stages := []; error := None |}).
  unfold tryCatch, bind, registrySet, modify. cbn [fst snd].
  set (s1 := {| activePipelines := <[rid := state0]> (activePipelines s);
                emitted := emitted s; client := client s |}).
  pose proof (stages1to6_keeps (activePipelines s) params s1 state0 eq_refl)
    as (x1 & Hreg & Herr).
  fold rid in Hreg.
  destruct (stages1to6 _ _ _ _ _ _ _ _ w params s1) as [[d|err] s2]; cbn [snd] in Hreg.
  - unfold registryGet, gets, ret. cbn [fst snd].
    rewrite Hreg, lookup_insert_eq. cbn [default].
    intros [= <- <-]. exists x1. repeat split; [assumption|].
    rewrite Herr. reflexivity.
  - unfold mutate, modify, registryGet, gets, emit, ret.
    cbn [fst snd activePipelines].
    rewrite Hreg, alter_insert_eq, lookup_insert_eq. cbn [default].
    intros [= <- <-]. cbn [activePipelines].
    exists (setError (message_of err) x1). repeat split.
Qed.

Lemma completeDelivery_registry (rid : Z) (proof : Fulfillment.ProofData) (s : Sys) :
  activePipelines (snd (completeDelivery hashAttestation now w rid proof s)) =
    match fst (completeDelivery hashAttestation now w rid proof s) with
    | Ok DeliverySuccess => delete rid (activePipelines s)
    | _ => activePipelines s
    end.
Proof.
  unfold completeDelivery, tryCatch, registryGet, gets, emit, ledger,
    zoom, registryDelete, mutate, modify, Blockchain.getRequest,
    Blockchain.verifyDeliveryOnChain, Blockchain.releasePayoutOnChain, bind, ret.
  cbn [fst snd activePipelines client emitted].
  rewrite !transact_once. cbn [fst snd activePipelines client emitted Blockchain.sent].
  repeat first
    [ reflexivity
    | match goal with
      | |- context [match rpc w ?n with _ => _ end] => destruct (rpc w n)
      | |- context [if negb ?b then _ else _] => destruct b
      | |- context [match activePipelines s !! rid with _ => _ end] =>
          destruct (activePipelines s !! rid)
      end; cbn [fst snd activePipelines client emitted Blockchain.sent negb]
    | rewrite transact_once
    | rewrite !delete_alter_eq ].
Qed.

Lemma completeDelivery_ignores_registry (rid : Z) (proof : Fulfillment.ProofData)
    (reg : gmap Z PipelineState) (s : Sys) :
  fst (completeDelivery hashAttestation now w rid proof (withRegistry reg s))
    = fst (completeDelivery hashAttestation now w rid proof s) /\
  client (snd (completeDelivery hashAttestation now w rid proof (withRegistry reg s)))
    = client (snd (completeDelivery hashAttestation now w rid proof s)) /\
  emitted (snd (completeDelivery hashAttestation now w rid proof (withRegistry reg s)))
    = emitted (snd (completeDelivery hashAttestation now w rid proof s)).
Proof.
  unfold completeDelivery, withRegistry, tryCatch, registryGet, gets, emit, ledger,
    zoom, registryDelete, mutate, modify, Blockchain.getRequest,
    Blockchain.verifyDeliveryOnChain, Blockchain.releasePayoutOnChain, bind, ret.
  cbn [fst snd activePipelines client emitted].
  rewrite !transact_once. cbn [fst snd activePipelines client emitted Blockchain.sent].
  repeat first
    [ solve [repeat split]
    | match goal with
      | |- context [match rpc w ?n with _ => _ end] => destruct (rpc w n)
      | |- context [if negb ?b then _ else _] => destruct b
      | |- context [match ?m !! rid with _ => _ end] => destruct (m !! rid)
      end; cbn [fst snd activePipelines client emitted Blockchain.sent negb]
    | rewrite transact_once ].
Qed.

Lemma completeDelivery_confirmed (rid : Z) (proof : Fulfillment.ProofData) (s : Sys)
    (h1 h2 h3 : string) :
  let n := List.length (Blockchain.sent (client s)) in
  let req := chainRequest w rid in
  let v :=
    Fulfillment.verifyDelivery hashAttestation now (Blockchain.fr_fulfillerType req)
      proof (Blockchain.fr_lat req) (Blockchain.fr_lng req) in
  activePipelines s !! rid = None ->
  rpc w n = Blockchain.Confirmed h1 ->
  rpc w (n + 1)%nat = Blockchain.Confirmed h2 ->
  (Fulfillment.verified v = true -> rpc w (n + 1 + 1)%nat = Blockchain.Confirmed h3) ->
  fst (completeDelivery hashAttestation now w rid proof s)
    = Ok (if Fulfillment.verified v then DeliverySuccess
          else DeliveryRejected "Delivery verification failed") /\
  Blockchain.sent (client (snd (completeDelivery hashAttestation now w rid proof s)))
    = Blockchain.sent (client s) ++
        [Blockchain.GetRequest rid;
         Blockchain.VerifyDelivery rid (Fulfillment.verified v)
           (Fulfillment.verificationHash v)] ++
        (if Fulfillment.verified v then [Blockchain.ReleasePayout rid] else []) /\
  activePipelines (snd (completeDelivery hashAttestation now w rid proof s))
    = activePipelines s.
Proof.
  intros n req v Hnone H1 H2 H3.
  unfold completeDelivery, tryCatch, registryGet, gets, emit, ledger,
    zoom, registryDelete, mutate, modify, Blockchain.getRequest,
    Blockchain.verifyDeliveryOnChain, Blockchain.releasePayoutOnChain, bind, ret.
  cbn [fst snd activePipelines client emitted].
  rewrite !transact_once. cbn [fst snd activePipelines client emitted Blockchain.sent].
  fold n. rewrite H1. cbn [fst snd activePipelines client emitted Blockchain.sent].
  rewrite transact_once. cbn [fst snd activePipelines client emitted Blockchain.sent].
  rewrite length_app. cbn [List.length]. fold n. rewrite H2.
  cbn [fst snd activePipelines client emitted Blockchain.sent].
  fold req. fold v.
  destruct (Fulfillment.verified v);
    cbn [negb fst snd activePipelines client emitted Blockchain.sent].
  - rewrite transact_once. cbn [fst snd activePipelines client emitted Blockchain.sent].
    rewrite !length_app. cbn [List.length]. fold n. rewrite (H3 eq_refl), Hnone.
    cbn [fst snd activePipelines client emitted Blockchain.sent].
    repeat split.
    + now rewrite <- !app_assoc.
    + now apply delete_id.
  - repeat split. now rewrite <- !app_assoc.
Qed.

End PipelineFacts.

(** ** The registry among other tasks *)

Section AsyncFacts.
Context `{JsMath}.
Variable keccak256 : string -> string.
Variable stringifyAttestation : Fdc.FdcAttestation -> string.
Variable hashTranscript : LlmPanel.Transcript -> string.
Variable hashAttestation : Fulfillment.Attestation -> string.
Variable now : string.
Variable nowMs : Z.
Variable toFixed : float -> nat -> string.
Variable showNumber : float -> string.
Variable ziplineWallet : string.
Variable authorityWallet : string.
Variable others : nat -> Async.Heap -> Async.Heap.
Variable w : Pipeline.World.
Import Eff Pipeline Async.

Section Preservation.
(** A property of the objects and of the map, which the other tasks
    keep. *)
Variable P : Heap -> Prop.
Hypothesis P_store :
  forall h h', objects h = objects h' -> Async.activePipelines h = Async.activePipelines h' ->
               P h -> P h'.
Hypothesis P_others : forall k h, P h -> P (others k h).















End Preservation.





End AsyncFacts.




(** Without that condition the registry's record need not be the
    run's: when a second run for request 0 goes by while the first
    waits for its location fix, the first run fails and returns its
    object with the failure message, and the registry holds the
    object of the second run, which carries no error. *)
Lemma interleaved_run_hides_the_failure :
  match fst (runPipelineAmong sameRequestAgain (world false unanimousPanel calmRpc)
               medicalRequest idleHeap) with
  | Eff.Ok (Pipeline.PipelineFailure msg _ st) =>
      msg = "Galileo verification failed: Spoofing detected" /\
      Pipeline.error st = Some msg
  | _ => False
  end /\
  Pipeline.error <$>
    Async.getPipelineState 0
      (snd (runPipelineAmong sameRequestAgain (world false unanimousPanel calmRpc)
              medicalRequest idleHeap)) = Some None.
Proof. vm_compute. repeat split. Qed.

(** C10: for a request id with no entry in the registry,
    [completeDelivery] reads the request from the ledger, verifies the
    proof against it, writes [verifyDelivery] and, when the proof
    verifies, [releasePayout], and returns success (or the failed
    verification), provided the ledger confirms these calls; the
    registry stays as it was, and whatever the registry holds the
    result, the ledger calls and the events are the same. *)
Theorem completeDelivery_without_pipeline_record `{JsMath}
    (hashAttestation : Fulfillment.Attestation -> string) (now : string)
    (w : Pipeline.World) (rid : Z) (proof : Fulfillment.ProofData)
    (s : Pipeline.Sys) (h1 h2 h3 : string) :
  let n := List.length (Blockchain.sent (Pipeline.client s)) in
  let req := Pipeline.chainRequest w rid in
  let v :=
    Fulfillment.verifyDelivery hashAttestation now (Blockchain.fr_fulfillerType req)
      proof (Blockchain.fr_lat req) (Blockchain.fr_lng req) in
  let run := Pipeline.completeDelivery hashAttestation now w rid proof in
  Pipeline.activePipelines s !! rid = None ->
  Pipeline.rpc w n = Blockchain.Confirmed h1 ->
  Pipeline.rpc w (n + 1)%nat = Blockchain.Confirmed h2 ->
  (Fulfillment.verified v = true ->
     Pipeline.rpc w (n + 1 + 1)%nat = Blockchain.Confirmed h3) ->
  fst (run s)
    = Eff.Ok (if Fulfillment.verified v then Pipeline.DeliverySuccess
              else Pipeline.DeliveryRejected "Delivery verification failed") /\
  Blockchain.sent (Pipeline.client (snd (run s)))
    = Blockchain.sent (Pipeline.client s) ++
        [Blockchain.GetRequest rid;
         Blockchain.VerifyDelivery rid (Fulfillment.verified v)
           (Fulfillment.verificationHash v)] ++
        (if Fulfillment.verified v then [Blockchain.ReleasePayout rid] else []) /\
  Pipeline.activePipelines (snd (run s)) = Pipeline.activePipelines s /\
  (forall reg,
     fst (run (Pipeline.withRegistry reg s)) = fst (run s) /\
     Pipeline.client (snd (run (Pipeline.withRegistry reg s)))
       = Pipeline.client (snd (run s)) /\
     Pipeline.emitted (snd (run (Pipeline.withRegistry reg s)))
       = Pipeline.emitted (snd (run s))).
Proof.
  intros n req v run Hnone H1 H2 H3.
  destruct (completeDelivery_confirmed hashAttestation now w rid proof s h1 h2 h3
              Hnone H1 H2 H3) as (Hres & Hsent & Hreg).
  repeat split; try assumption;
    apply (completeDelivery_ignores_registry hashAttestation now w rid proof reg s).
Qed.

(** With an empty registry and a confirming ledger, the delivery of
    request 0 is verified and settled in three ledger calls. *)
Lemma completeDelivery_without_pipeline_record_witness :
  Pipeline.activePipelines idle !! 0 = None /\
  fst (runDelivery (world true unanimousPanel calmRpc) 0 dropNearTarget idle)
    = Eff.Ok Pipeline.DeliverySuccess /\
  List.length
    (Blockchain.sent
       (Pipeline.client
          (snd (runDelivery (world true unanimousPanel calmRpc) 0 dropNearTarget idle))))
    = 3%nat.
Proof.
  split; [reflexivity|].
  destruct (@completeDelivery_without_pipeline_record planarMath (fun _ => "0xv")
              "2026-02-03T10:00:00Z" (world true unanimousPanel calmRpc) 0
              dropNearTarget idle "0xtx" "0xtx" "0xtx"
              eq_refl eq_refl eq_refl (fun _ => eq_refl)) as (Hres & Hsent & _).
  unfold runDelivery. split.
  - rewrite Hres. vm_compute. reflexivity.
  - rewrite Hsent. vm_compute. reflexivity.
Defined.

(** ** WebSocket feed *)

Lemma receives_subscribed (ws : Server.Ws) (event : Pipeline.PipelineEvent) :
  Server.truthy (Server.subscribedRequestId ws) = true ->
  Server.receives ws event = true ->
  Server.subscribedRequestId ws = Server.JsNumber (Pipeline.ev_requestId event).
Proof.
  unfold Server.receives. intros Ht Hr. rewrite Ht in Hr. simpl in Hr.
  apply andb_true_iff in Hr as [_ Heq].
  destruct (Server.subscribedRequestId ws); simpl in Heq; try discriminate.
  apply Z.eqb_eq in Heq. now subst.
Qed.

(** C9, evaluated where it fails: a client that subscribed to request
    0, the first id the ledger assigns, is still sent the events of
    request 1, because the filter treats the stored 0 as no
    subscription; a client that subscribed to request 5 is not. *)
Theorem subscriber_of_request_zero_gets_other_requests :
  let subscribed (n : Z) :=
    Server.onMessage 7 (Some (subscribeTo n)) (Server.onConnection 7 noClients) in
  List.map Server.subscribedRequestId (Server.wsClients (subscribed 0))
    = [Server.JsNumber 0] /\
  Server.eventsSentTo 7 (Server.broadcast (pipelineEvent 1) (subscribed 0))
    = [pipelineEvent 1] /\
  Server.eventsSentTo 7 (Server.broadcast (pipelineEvent 1) (subscribed 5)) = [] /\
  Server.eventsSentTo 7 (Server.broadcast (pipelineEvent 5) (subscribed 5))
    = [pipelineEvent 5].
Proof. repeat split. Qed.

(** X1: a socket whose stored subscription is a non-zero number is sent a
    pipeline event only when the event is about that request. *)
Theorem nonzero_subscription_filters (ws : Server.Ws) (event : Pipeline.PipelineEvent)
    (n : Z) :
  Server.subscribedRequestId ws = Server.JsNumber n -> n <> 0 ->
  Server.receives ws event = true -> Pipeline.ev_requestId event = n.
Proof.
  intros Hsub Hn Hr.
  assert (Ht : Server.truthy (Server.subscribedRequestId ws) = true).
  { rewrite Hsub. simpl. now apply negb_true_iff, Z.eqb_neq. }
  pose proof (receives_subscribed ws event Ht Hr) as Heq.
  rewrite Hsub in Heq. now injection Heq.
Qed.

(** A socket subscribed to request 5 receives an event of request 5. *)
Lemma nonzero_subscription_filters_witness :
  Server.receives subscriberOfFive (pipelineEvent 5) = true /\
  Pipeline.ev_requestId (pipelineEvent 5) = 5.
Proof.
  split; [reflexivity|].
  apply (nonzero_subscription_filters subscriberOfFive (pipelineEvent 5) 5);
    [reflexivity|discriminate|reflexivity].
Defined.

(** X2: [verifyDelivery] marks a human-fulfilled proof verified if and
    only if both the signature and the officer identifier are present
    and non-empty. *)
Theorem verifyDelivery_human_verified_iff `{JsMath}
    (hashAttestation : Fulfillment.Attestation -> string) (now : string)
    (deliveryType : string) (proofData : Fulfillment.ProofData)
    (targetLat targetLng : float) :
  deliveryType <> "drone" ->
  (Fulfillment.verified
     (Fulfillment.verifyDelivery hashAttestation now deliveryType proofData
        targetLat targetLng) = true
   <->
   (exists sig, Fulfillment.signature proofData = Some sig /\ sig <> "") /\
   (exists officer, Fulfillment.officerId proofData = Some officer /\ officer <> "")).
Proof.
  intros Hty. unfold Fulfillment.verifyDelivery.
  apply String.eqb_neq in Hty. rewrite Hty.
  unfold Fulfillment.verifyAuthorityDelivery. cbn [Fulfillment.verified].
  rewrite andb_true_iff. unfold Js.truthy_str.
  destruct (Fulfillment.signature proofData) as [sig|],
           (Fulfillment.officerId proofData) as [officer|];
    rewrite ?negb_true_iff, ?String.eqb_neq; split;
    try (intros [? ?]; discriminate).
  - intros [Hs Ho]. split; eexists; split; eauto.
  - intros [(s' & [= <-] & Hs) (o' & [= <-] & Ho)]. tauto.
  - intros [_ (o' & Ho & _)]. discriminate.
  - intros [(s' & Hs & _) _]. discriminate.
  - intros [(s' & Hs & _) _]. discriminate.
Qed.

(** A proof carrying a signature and an officer identifier verifies. *)
Lemma verifyDelivery_human_verified_iff_witness :
  Fulfillment.verified
    (@Fulfillment.verifyDelivery planarMath (fun _ => "0xv") "t" "human"
       signedByOfficer 0%float 0%float) = true.
Proof.
  apply (@verifyDelivery_human_verified_iff planarMath (fun _ => "0xv") "t" "human"
           signedByOfficer 0%float 0%float); [discriminate|].
  split; eexists; (split; [reflexivity|discriminate]).
Defined.

(** The split panel of the boundary scenarios: with five valid
    answers of which three approve, the consensus is rejected
    (9 > 10 fails), and [executePipeline] submits the rejection to the
    ledger and stops at the panel stage. *)
Theorem split_panel_is_rejected :
  LlmPanel.approved (LlmPanel.runConsensus (fun _ => "0xc") "t" splitPanel) = false /\
  LlmPanel.reason (LlmPanel.runConsensus (fun _ => "0xc") "t" splitPanel)
    = LlmPanel.RejectedOnly 3 5 /\
  match fst (runPipeline (world true splitPanel calmRpc) medicalRequest idle) with
  | Eff.Ok (Pipeline.PipelineFailure _ stage _) => stage = Pipeline.StageName "LLM_PANEL"
  | _ => False
  end /\
  Blockchain.sent
    (Pipeline.client
       (snd (runPipeline (world true splitPanel calmRpc) medicalRequest idle)))
  = [Blockchain.VerifyRequest 0 "0xg" Fulfillment.ZeroHash Fulfillment.ZeroHash;
     Blockchain.SubmitConsensus 0 false 0 0 0 "0xc" 5 3].
Proof. vm_compute. repeat split. Qed.

(** The happy aerial path of the boundary scenarios: five approvals
    with costs 120, 140, 150, 160 and 200 give the estimate 150; the
    pipeline reaches the dispatch, and the delivery proof dropped a
    metre from the target settles the request and clears the
    registry. *)
Theorem happy_aerial_path :
  LlmPanel.estimatedCostUSD (LlmPanel.runConsensus (fun _ => "0xc") "t" unanimousPanel)
    = Some 150 /\
  match fst (runPipeline (world true unanimousPanel calmRpc) medicalRequest idle) with
  | Eff.Ok (Pipeline.PipelineSuccess st _) =>
      Pipeline.currentStage st = Pipeline.STAGE_FULFILLMENT
  | _ => False
  end /\
  fst (runDelivery (world true unanimousPanel calmRpc) 0 dropNearTarget
         (snd (runPipeline (world true unanimousPanel calmRpc) medicalRequest idle)))
    = Eff.Ok Pipeline.DeliverySuccess /\
  Pipeline.activePipelines
    (snd (runDelivery (world true unanimousPanel calmRpc) 0 dropNearTarget
            (snd (runPipeline (world true unanimousPanel calmRpc) medicalRequest idle))))
    = ∅ /\
  Blockchain.sent
    (Pipeline.client
       (snd (runDelivery (world true unanimousPanel calmRpc) 0 dropNearTarget
               (snd (runPipeline (world true unanimousPanel calmRpc)
                       medicalRequest idle)))))
  = [Blockchain.VerifyRequest 0 "0xg" Fulfillment.ZeroHash Fulfillment.ZeroHash;
     Blockchain.SubmitConsensus 0 true 0 0 150000000 "0xc" 5 5;
     Blockchain.AssignFulfiller 0 "0xzipline";
     Blockchain.GetRequest 0;
     Blockchain.VerifyDelivery 0 true "0xv";
     Blockchain.ReleasePayout 0].
Proof. vm_compute. repeat split. Qed.

(** ** The contracts *)

Section EvmFacts.
Import Evm.
Context {S : Type}.

Lemma bind_Success {A B} (m : Code S A) (k : A -> Code S B) s b s'' :
  bind m k s = Success (b, s'') ->
  exists a s', m s = Success (a, s') /\ k a s' = Success (b, s'').
Proof.
  unfold bind. destruct (m s) as [[a s']| |]; try discriminate.
  intros Hk. now exists a, s'.
Qed.

Lemma ret_Success {A} (a b : A) (s s' : S) :
  ret a s = Success (b, s') -> b = a /\ s' = s.
Proof. unfold ret. intros [= <- <-]. tauto. Qed.

Lemma require_Success (c : bool) msg (s s' : S) u :
  require c msg s = Success (u, s') -> c = true /\ s' = s.
Proof. unfold require, ret. destruct c; [intros [= <- <-]; tauto|discriminate]. Qed.

Lemma gets_Success {A} (f : S -> A) (s s' : S) a :
  gets f s = Success (a, s') -> a = f s /\ s' = s.
Proof. unfold gets. intros [= <- <-]. tauto. Qed.

Lemma modify_Success (f : S -> S) (s s' : S) u :
  modify f s = Success (u, s') -> s' = f s.
Proof. unfold modify. now intros [= <-]. Qed.

Lemma add_Success (a b r : Z) (s s' : S) :
  add a b s = Success (r, s') -> r = a + b /\ a + b <= MAX_UINT256 /\ s' = s.
Proof.
  unfold add, ret. destruct (Z.leb_spec (a + b) MAX_UINT256); [|discriminate].
  intros [= <- <-]. tauto.
Qed.

Lemma sub_Success (a b r : Z) (s s' : S) :
  sub a b s = Success (r, s') -> r = a - b /\ b <= a /\ s' = s.
Proof.
  unfold sub, ret. destruct (Z.leb_spec b a); [|discriminate].
  intros [= <- <-]. tauto.
Qed.

Lemma call_Success {T A} (proj : S -> T) (upd : T -> S -> S) (m : Code T A) s a s' :
  call proj upd m s = Success (a, s') ->
  exists t', m (proj s) = Success (a, t') /\ s' = upd t' s.
Proof.
  unfold call. destruct (m (proj s)) as [[a' t']| |]; try discriminate.
  intros [= <- <-]. now exists t'.
Qed.

End EvmFacts.

(** Symbolic execution of a successful run, one construct at a time. *)
Ltac evm_inv :=
  repeat match goal with
  | H : Evm.bind _ _ _ = Evm.Success _ |- _ =>
      let a := fresh "a" in let s := fresh "s" in
      let H1 := fresh "H" in let H2 := fresh "H" in
      apply bind_Success in H as (a & s & H1 & H2)
  | H : Evm.ret _ _ = Evm.Success _ |- _ =>
      apply ret_Success in H as [? ?]; subst
  | H : Evm.require _ _ _ = Evm.Success _ |- _ =>
      let Hc := fresh "Hreq" in
      apply require_Success in H as [Hc ?]; subst
  | H : Evm.gets _ _ = Evm.Success _ |- _ =>
      apply gets_Success in H as [? ?]; subst
  | H : Evm.modify _ _ = Evm.Success _ |- _ =>
      apply modify_Success in H; subst
  | H : Evm.add _ _ _ = Evm.Success _ |- _ =>
      let Hb := fresh "Hadd" in
      apply add_Success in H as (? & Hb & ?); subst
  | H : Evm.sub _ _ _ = Evm.Success _ |- _ =>
      let Hb := fresh "Hsub" in
      apply sub_Success in H as (? & Hb & ?); subst
  | H : Evm.call _ _ _ _ = Evm.Success _ |- _ =>
      let t := fresh "t" in let Ht := fresh "H" in
      apply call_Success in H as (t & Ht & ?); subst
  | H : Evm.revert _ _ = Evm.Success _ |- _ => discriminate H
  | H : Evm.panic _ _ = Evm.Success _ |- _ => discriminate H
  end.

Section ProtocolFacts.
Import Evm IAidChain Protocol.

Lemma statusIs_true (a b : AidChain.RequestStatus) : statusIs a b = true -> a = b.
Proof. destruct a, b; simpl; intros Hc; try reflexivity; discriminate. Qed.

(** What the calls that leave [AidChain]'s storage alone have in common. *)
Lemma onFundPool_aidChain {A} (m : Code FundPool.Treasury A) st a st' :
  onFundPool m st = Success (a, st') -> aidChain st' = aidChain st.
Proof. unfold onFundPool. intros Hc. evm_inv. reflexivity. Qed.

Lemma onRegistry_aidChain {A} (m : Code VerificationRegistry.State A) st a st' :
  onRegistry m st = Success (a, st') -> aidChain st' = aidChain st.
Proof. unfold onRegistry. intros Hc. evm_inv. reflexivity. Qed.

Lemma request_same (st st' : Chain) requestId :
  aidRequests (aidChain st') = aidRequests (aidChain st) ->
  request requestId st' = request requestId st.
Proof. unfold request. now intros ->. Qed.

Lemma issued_same (st st' : Chain) :
  aidChain st' = aidChain st -> issued st -> issued st'.
Proof. unfold issued. now intros ->. Qed.

Lemma request_setRequest requestId r st u st' j :
  setRequest requestId r st = Success (u, st') ->
  request j st' = if decide (j = requestId) then r else request j st.
Proof.
  unfold setRequest, onAidChain. intros Hc. evm_inv.
  unfold request. cbn [aidChain aidRequests].
  destruct (decide (j = requestId)) as [->|Hne].
  - now rewrite lookup_insert_eq.
  - now rewrite lookup_insert_ne.
Qed.

Lemma setRequest_rest requestId r st u st' :
  setRequest requestId r st = Success (u, st') ->
  treasury st' = treasury st /\ registry st' = registry st /\
  nextRequestId (aidChain st') = nextRequestId (aidChain st) /\
  aidRequests (aidChain st') = <[requestId := r]> (aidRequests (aidChain st)) /\
  oracleOperator (aidChain st') = oracleOperator (aidChain st) /\
  owner (aidChain st') = owner (aidChain st) /\
  approvedFulfillers (aidChain st') = approvedFulfillers (aidChain st) /\
  approvedPanelOperators (aidChain st') = approvedPanelOperators (aidChain st).
Proof.
  unfold setRequest, onAidChain. intros Hc. evm_inv. repeat split.
Qed.

Lemma issued_insert (st st' : Chain) requestId r :
  issued st ->
  0 <= requestId < nextRequestId (aidChain st') ->
  nextRequestId (aidChain st) <= nextRequestId (aidChain st') ->
  aidRequests (aidChain st') = <[requestId := r]> (aidRequests (aidChain st)) ->
  issued st'.
Proof.
  intros [Hi0 Hi] Hid Hnext Hreq. split; [lia|]. intros j x. rewrite Hreq.
  destruct (decide (j = requestId)) as [->|Hne].
  - intros _. lia.
  - rewrite lookup_insert_ne by congruence. intros Hj. apply Hi in Hj. lia.
Qed.

Lemma is_uint256_range n : is_uint256 n = true -> 0 <= n <= MAX_UINT256.
Proof. unfold is_uint256. rewrite andb_true_iff, !Z.leb_le. tauto. Qed.

(** The guards every entry point of [AidChain] that works on a request
    starts with. *)
Lemma onlyOracle_Success who st u st' :
  onlyOracle who st = Success (u, st') ->
  st' = st /\ String.eqb who (oracleOperator (aidChain st)) = true.
Proof. unfold onlyOracle. intros Hc. evm_inv. tauto. Qed.

Lemma onlyOwner_Success who st u st' :
  onlyOwner who st = Success (u, st') ->
  st' = st /\ String.eqb who (owner (aidChain st)) = true.
Proof. unfold onlyOwner. intros Hc. evm_inv. tauto. Qed.

Lemma onlyPanelOperator_Success who st u st' :
  onlyPanelOperator who st = Success (u, st') ->
  st' = st /\ isPanelOperator who st = true.
Proof. unfold onlyPanelOperator. intros Hc. evm_inv. split; congruence. Qed.

Lemma requestExists_Success requestId st u st' :
  requestExists requestId st = Success (u, st') ->
  st' = st /\ requestId < nextRequestId (aidChain st).
Proof.
  unfold requestExists. intros Hc. evm_inv. split; [reflexivity|]. now apply Z.ltb_lt.
Qed.

Lemma supermajority_Success approved n a st u st' :
  supermajority approved n a st = Success (u, st') ->
  st' = st /\ (approved = true -> n * 2 < a * 3 /\ a * 3 <= 255).
Proof.
  unfold supermajority, AidChain.mul_uint8. destruct approved; cbn [negb].
  - destruct (Z.leb_spec (a * 3) 255); [|discriminate].
    destruct (Z.leb_spec (n * 2) 255); [|discriminate].
    intros Hc. evm_inv. apply Z.ltb_lt in Hreq. auto.
  - intros Hc. evm_inv. split; [reflexivity|discriminate].
Qed.

End ProtocolFacts.

Ltac guard_inv :=
  repeat match goal with
  | H : Protocol.onlyOracle _ _ = Evm.Success _ |- _ =>
      let Ho := fresh "Horacle" in
      apply onlyOracle_Success in H as [? Ho]; subst
  | H : Protocol.onlyOwner _ _ = Evm.Success _ |- _ =>
      let Ho := fresh "Howner" in
      apply onlyOwner_Success in H as [? Ho]; subst
  | H : Protocol.onlyPanelOperator _ _ = Evm.Success _ |- _ =>
      let Ho := fresh "Hpanel" in
      apply onlyPanelOperator_Success in H as [? Ho]; subst
  | H : Protocol.supermajority _ _ _ _ = Evm.Success _ |- _ =>
      let Ho := fresh "Hsuper" in
      apply supermajority_Success in H as [? Ho]; subst
  | H : Protocol.requestExists _ _ = Evm.Success _ |- _ =>
      let Ho := fresh "Hexists" in
      apply requestExists_Success in H as [? Ho]; subst
  end.

Ltac bool_facts :=
  repeat match goal with
  | H : IAidChain.statusIs _ _ = true |- _ => apply statusIs_true in H
  | H : (_ <=? _) = true |- _ => apply Z.leb_le in H
  | H : (_ <? _) = true |- _ => apply Z.ltb_lt in H
  | H : (_ =? _) = true |- _ => apply Z.eqb_eq in H
  | H : _ && _ = true |- _ => apply andb_true_iff in H as [? ?]
  end.

Section EntryPoints.
Import Evm IAidChain Protocol.

Lemma requestAid_spec who now aidType' urgency' lat' lng' detailsHash' st requestId st' :
  requestAid who now aidType' urgency' lat' lng' detailsHash' st
    = Success (requestId, st') ->
  requestId = nextRequestId (aidChain st) /\
  VerificationRegistry.isIdentityVerified who now (registry st) = true /\
  aidType' <= 5 /\ urgency' <= 2 /\
  nextRequestId (aidChain st') = requestId + 1 /\
  aidRequests (aidChain st') =
    <[requestId := storeRequest requestId who aidType' urgency' lat' lng' detailsHash'
                      now (request requestId st)]> (aidRequests (aidChain st)) /\
  treasury st' = treasury st /\ registry st' = registry st /\ sameRoles st st'.
Proof.
  unfold requestAid, setRequest, onAidChain. intros Hc. evm_inv.
  cbn [aidChain nextRequestId aidRequests treasury registry].
  bool_facts.
  repeat split; auto.
Qed.

Lemma verifyRequest_spec who now requestId g e p st st' :
  verifyRequest who now requestId g e p st = Success (tt, st') ->
  String.eqb who (oracleOperator (aidChain st)) = true /\
  status (request requestId st) = AidChain.Submitted /\
  treasury st' = treasury st /\
  rewrites requestId (storeVerification g e p now (request requestId st)) st st'.
Proof.
  unfold verifyRequest, setRequest, onAidChain. intros Hc. evm_inv. guard_inv. evm_inv.
  bool_facts.
  cbn [aidChain nextRequestId aidRequests treasury registry].
  repeat split; auto.
Qed.

Lemma submitConsensus_spec who requestId approved aid ft cost h n a st st' :
  submitConsensus who requestId approved aid ft cost h n a st = Success (tt, st') ->
  isPanelOperator who st = true /\
  status (request requestId st) = AidChain.Verified /\
  3 <= n /\ (approved = true -> n * 2 < a * 3) /\
  treasury st' = treasury st /\
  rewrites requestId (storeConsensus approved aid ft cost h (request requestId st)) st st'.
Proof.
  unfold submitConsensus, setRequest, onAidChain. intros Hc. evm_inv. guard_inv. evm_inv.
  bool_facts.
  cbn [aidChain nextRequestId aidRequests treasury registry].
  repeat split; auto. intros Ha. now apply Hsuper.
Qed.

Lemma assignFulfiller_spec aidChainAddr who now requestId fulfiller' st st' :
  assignFulfiller aidChainAddr who now requestId fulfiller' st = Success (tt, st') ->
  String.eqb who (oracleOperator (aidChain st)) = true /\
  status (request requestId st) = AidChain.Approved /\
  isFulfiller fulfiller' st = true /\
  FundPool.escrowForRequest aidChainAddr requestId
    (estimatedCostUSD (request requestId st)) (treasury st) = Success (tt, treasury st') /\
  rewrites requestId (storeFunding fulfiller' now (request requestId st)) st st'.
Proof.
  unfold assignFulfiller, setRequest, onAidChain, onFundPool.
  intros Hc. evm_inv. guard_inv. evm_inv.
  bool_facts.
  cbn [aidChain nextRequestId aidRequests treasury registry].
  repeat match goal with u : unit |- _ => destruct u end. repeat split; auto.
Qed.

Lemma confirmDelivery_spec who now requestId h la lo st st' :
  confirmDelivery who now requestId h la lo st = Success (tt, st') ->
  String.eqb who (fulfiller (request requestId st)) = true /\
  status (request requestId st) = AidChain.Funded /\
  treasury st' = treasury st /\
  rewrites requestId (storeDelivery h la lo now (request requestId st)) st st'.
Proof.
  unfold confirmDelivery, setRequest, onAidChain. intros Hc. evm_inv. guard_inv. evm_inv.
  bool_facts.
  cbn [aidChain nextRequestId aidRequests treasury registry].
  repeat split; auto.
Qed.

Lemma verifyDelivery_spec who requestId verified h st st' :
  verifyDelivery who requestId verified h st = Success (tt, st') ->
  String.eqb who (oracleOperator (aidChain st)) = true /\
  status (request requestId st) = AidChain.DeliverySubmitted /\
  treasury st' = treasury st /\
  rewrites requestId (storeDeliveryVerification verified h (request requestId st)) st st'.
Proof.
  unfold verifyDelivery, setRequest, onAidChain. intros Hc. evm_inv. guard_inv. evm_inv.
  bool_facts.
  cbn [aidChain nextRequestId aidRequests treasury registry].
  repeat split; auto.
Qed.

Lemma releasePayout_spec aidChainAddr fundPoolAddr who now requestId st st' :
  releasePayout aidChainAddr fundPoolAddr who now requestId st = Success (tt, st') ->
  String.eqb who (oracleOperator (aidChain st)) = true /\
  status (request requestId st) = AidChain.DeliveryVerified /\
  FundPool.releaseTo fundPoolAddr aidChainAddr (fulfiller (request requestId st))
    (escrowAmount (request requestId st)) (treasury st) = Success (tt, treasury st') /\
  rewrites requestId (storeSettlement now (request requestId st)) st st'.
Proof.
  unfold releasePayout, setRequest, onAidChain, onFundPool.
  intros Hc. evm_inv. guard_inv. evm_inv.
  bool_facts.
  cbn [aidChain nextRequestId aidRequests treasury registry] in *.
  repeat match goal with u : unit |- _ => destruct u end.
  repeat split; auto.
Qed.

Lemma timeoutRequest_spec aidChainAddr who now requestId st st' :
  timeoutRequest aidChainAddr who now requestId st = Success (tt, st') ->
  String.eqb who (oracleOperator (aidChain st)) = true /\
  (status (request requestId st) = AidChain.Funded \/
   status (request requestId st) = AidChain.DeliveryFailed) /\
  fundedAt (request requestId st) + 86400 < now /\
  FundPool.returnToPool aidChainAddr (escrowAmount (request requestId st)) (treasury st)
    = Success (tt, treasury st') /\
  rewrites requestId (storeTimeout (request requestId st)) st st'.
Proof.
  unfold timeoutRequest, setRequest, onAidChain, onFundPool.
  intros Hc. evm_inv. guard_inv. evm_inv.
  bool_facts.
  cbn [aidChain nextRequestId aidRequests treasury registry] in *.
  repeat match goal with u : unit |- _ => destruct u end.
  repeat split; auto.
  match goal with H : _ || _ = true |- _ =>
    apply orb_true_iff in H as [Hs|Hs]; apply statusIs_true in Hs; tauto end.
Qed.

Lemma setOracleOperator_spec who o st st' :
  setOracleOperator who o st = Success (tt, st') ->
  String.eqb who (owner (aidChain st)) = true /\ sameLedger st st' /\
  owner (aidChain st') = owner (aidChain st) /\
  oracleOperator (aidChain st') = o /\
  approvedFulfillers (aidChain st') = approvedFulfillers (aidChain st) /\
  approvedPanelOperators (aidChain st') = approvedPanelOperators (aidChain st).
Proof.
  unfold setOracleOperator, onAidChain, sameLedger.
  intros Hc; evm_inv; guard_inv; evm_inv; repeat split; auto.
Qed.

Lemma setFulfiller_spec who f approved st st' :
  setFulfiller who f approved st = Success (tt, st') ->
  String.eqb who (owner (aidChain st)) = true /\ sameLedger st st' /\
  owner (aidChain st') = owner (aidChain st) /\
  oracleOperator (aidChain st') = oracleOperator (aidChain st) /\
  approvedFulfillers (aidChain st') = <[f := approved]> (approvedFulfillers (aidChain st)) /\
  approvedPanelOperators (aidChain st') = approvedPanelOperators (aidChain st).
Proof.
  unfold setFulfiller, onAidChain, sameLedger.
  intros Hc; evm_inv; guard_inv; evm_inv; repeat split; auto.
Qed.

Lemma setPanelOperator_spec who o approved st st' :
  setPanelOperator who o approved st = Success (tt, st') ->
  String.eqb who (owner (aidChain st)) = true /\ sameLedger st st' /\
  owner (aidChain st') = owner (aidChain st) /\
  oracleOperator (aidChain st') = oracleOperator (aidChain st) /\
  approvedFulfillers (aidChain st') = approvedFulfillers (aidChain st) /\
  approvedPanelOperators (aidChain st') =
    <[o := approved]> (approvedPanelOperators (aidChain st)).
Proof.
  unfold setPanelOperator, onAidChain, sameLedger.
  intros Hc; evm_inv; guard_inv; evm_inv; repeat split; auto.
Qed.

End EntryPoints.

Section PoolFacts.
Import Evm FundPool.

Lemma setAidChainContract_spec who a t t' :
  setAidChainContract who a t = Success (tt, t') ->
  String.eqb who (owner (pool t)) = true /\
  stablecoin t' = stablecoin t /\
  pool t' =
    {| owner := owner (pool t); aidChainContract := a;
       totalDeposited := totalDeposited (pool t);
       totalEscrowed := totalEscrowed (pool t);
       totalPaidOut := totalPaidOut (pool t);
       availableBalance := availableBalance (pool t);
       requestEscrow := requestEscrow (pool t); deposits := deposits (pool t) |}.
Proof.
  unfold setAidChainContract, onlyOwner, onPool. intros Hc. evm_inv.
  cbn [pool stablecoin]. repeat split; auto.
Qed.

Lemma deposit_spec this who now amount' h t t' :
  deposit this who now amount' h t = Success (tt, t') ->
  0 < amount' /\
  (exists ok, MockUSDC.transferFrom this who this amount' (stablecoin t)
              = Success (ok, stablecoin t')) /\
  totalDeposited (pool t) + amount' <= MAX_UINT256 /\
  availableBalance (pool t) + amount' <= MAX_UINT256 /\
  pool t' =
    {| owner := owner (pool t); aidChainContract := aidChainContract (pool t);
       totalDeposited := totalDeposited (pool t) + amount';
       totalEscrowed := totalEscrowed (pool t);
       totalPaidOut := totalPaidOut (pool t);
       availableBalance := availableBalance (pool t) + amount';
       requestEscrow := requestEscrow (pool t);
       deposits := deposits (pool t) ++
         [{| depositor := who; amount := amount'; timestamp := now; swapTxHash := h |}] |}.
Proof.
  unfold deposit, onPool, onToken. intros Hc. evm_inv. bool_facts.
  cbn [pool stablecoin] in *. repeat split; eauto.
Qed.

Lemma escrowForRequest_spec who requestId amount' t t' :
  escrowForRequest who requestId amount' t = Success (tt, t') ->
  String.eqb who (aidChainContract (pool t)) = true /\
  amount' <= availableBalance (pool t) /\
  escrowOf requestId (pool t) = 0 /\
  totalEscrowed (pool t) + amount' <= MAX_UINT256 /\
  stablecoin t' = stablecoin t /\
  pool t' =
    {| owner := owner (pool t); aidChainContract := aidChainContract (pool t);
       totalDeposited := totalDeposited (pool t);
       totalEscrowed := totalEscrowed (pool t) + amount';
       totalPaidOut := totalPaidOut (pool t);
       availableBalance := availableBalance (pool t) - amount';
       requestEscrow := <[requestId := amount']> (requestEscrow (pool t));
       deposits := deposits (pool t) |}.
Proof.
  unfold escrowForRequest, onlyAidChain, onPool. intros Hc. evm_inv. bool_facts.
  cbn [pool stablecoin] in *. repeat split; auto.
Qed.

Lemma releaseTo_spec this who recipient amount' t t' :
  releaseTo this who recipient amount' t = Success (tt, t') ->
  String.eqb who (aidChainContract (pool t)) = true /\
  amount' <= totalEscrowed (pool t) /\
  totalPaidOut (pool t) + amount' <= MAX_UINT256 /\
  (exists ok, MockUSDC.transfer this recipient amount' (stablecoin t)
              = Success (ok, stablecoin t')) /\
  pool t' =
    {| owner := owner (pool t); aidChainContract := aidChainContract (pool t);
       totalDeposited := totalDeposited (pool t);
       totalEscrowed := totalEscrowed (pool t) - amount';
       totalPaidOut := totalPaidOut (pool t) + amount';
       availableBalance := availableBalance (pool t);
       requestEscrow := requestEscrow (pool t);
       deposits := deposits (pool t) |}.
Proof.
  unfold releaseTo, onlyAidChain, onPool, onToken, setCounters. intros Hc.
  evm_inv. bool_facts. cbn [pool stablecoin] in *. repeat split; eauto.
Qed.

Lemma returnToPool_spec who amount' t t' :
  returnToPool who amount' t = Success (tt, t') ->
  String.eqb who (aidChainContract (pool t)) = true /\
  amount' <= totalEscrowed (pool t) /\
  availableBalance (pool t) + amount' <= MAX_UINT256 /\
  stablecoin t' = stablecoin t /\
  pool t' =
    {| owner := owner (pool t); aidChainContract := aidChainContract (pool t);
       totalDeposited := totalDeposited (pool t);
       totalEscrowed := totalEscrowed (pool t) - amount';
       totalPaidOut := totalPaidOut (pool t);
       availableBalance := availableBalance (pool t) + amount';
       requestEscrow := requestEscrow (pool t);
       deposits := deposits (pool t) |}.
Proof.
  unfold returnToPool, onlyAidChain, onPool, setCounters. intros Hc.
  evm_inv. bool_facts. cbn [pool stablecoin] in *. repeat split; auto.
Qed.

Lemma emergencyWithdraw_spec this who to t t' :
  emergencyWithdraw this who to t = Success (tt, t') ->
  String.eqb who (owner (pool t)) = true /\
  (exists ok, MockUSDC.transfer this to (MockUSDC.balance this (stablecoin t))
                (stablecoin t) = Success (ok, stablecoin t')) /\
  pool t' =
    {| owner := owner (pool t); aidChainContract := aidChainContract (pool t);
       totalDeposited := totalDeposited (pool t);
       totalEscrowed := 0;
       totalPaidOut := totalPaidOut (pool t);
       availableBalance := 0;
       requestEscrow := requestEscrow (pool t);
       deposits := deposits (pool t) |}.
Proof.
  unfold emergencyWithdraw, onlyOwner, onPool, onToken, setCounters. intros Hc.
  evm_inv. bool_facts. cbn [pool stablecoin] in *. repeat split; eauto.
Qed.

Lemma onToken_pool {A} (m : Code MockUSDC.State A) t a t' :
  onToken m t = Success (a, t') ->
  pool t' = pool t /\ m (stablecoin t) = Success (a, stablecoin t').
Proof. unfold onToken. intros Hc. evm_inv. tauto. Qed.

End PoolFacts.

(** One transaction, taken apart: the entry point that ran and what
    its checks and writes were. *)
Ltac spec_inv :=
  repeat match goal with
  | H : Protocol.onToken _ _ = Evm.Success _ |- _ => unfold Protocol.onToken in H
  | H : Protocol.onFundPool _ _ = Evm.Success _ |- _ =>
      unfold Protocol.onFundPool in H; evm_inv
  | H : Protocol.onRegistry _ _ = Evm.Success _ |- _ =>
      unfold Protocol.onRegistry in H; evm_inv
  | H : FundPool.onToken _ _ = Evm.Success _ |- _ =>
      apply onToken_pool in H as [? ?]
  | H : FundPool.setAidChainContract _ _ _ = Evm.Success (?u, _) |- _ =>
      destruct u; apply setAidChainContract_spec in H as (? & ? & ?)
  | H : FundPool.deposit _ _ _ _ _ _ = Evm.Success (?u, _) |- _ =>
      destruct u; apply deposit_spec in H as (? & ? & ? & ? & ?)
  | H : FundPool.escrowForRequest _ _ _ _ = Evm.Success (?u, _) |- _ =>
      destruct u; apply escrowForRequest_spec in H as (? & ? & ? & ? & ? & ?)
  | H : FundPool.escrowForRequest _ _ _ _ = Evm.Success (tt, _) |- _ =>
      apply escrowForRequest_spec in H as (? & ? & ? & ? & ? & ?)
  | H : FundPool.releaseTo _ _ _ _ _ = Evm.Success (?u, _) |- _ =>
      destruct u; apply releaseTo_spec in H as (? & ? & ? & ? & ?)
  | H : FundPool.releaseTo _ _ _ _ _ = Evm.Success (tt, _) |- _ =>
      apply releaseTo_spec in H as (? & ? & ? & ? & ?)
  | H : FundPool.returnToPool _ _ _ = Evm.Success (?u, _) |- _ =>
      destruct u; apply returnToPool_spec in H as (? & ? & ? & ? & ?)
  | H : FundPool.returnToPool _ _ _ = Evm.Success (tt, _) |- _ =>
      apply returnToPool_spec in H as (? & ? & ? & ? & ?)
  | H : FundPool.emergencyWithdraw _ _ _ _ = Evm.Success (?u, _) |- _ =>
      destruct u; apply emergencyWithdraw_spec in H as (? & ? & ?)
  | H : Protocol.setOracleOperator _ _ _ = Evm.Success _ |- _ =>
      apply setOracleOperator_spec in H as (? & (? & ? & ? & ?) & ? & ? & ? & ?)
  | H : Protocol.setFulfiller _ _ _ _ = Evm.Success _ |- _ =>
      apply setFulfiller_spec in H as (? & (? & ? & ? & ?) & ? & ? & ? & ?)
  | H : Protocol.setPanelOperator _ _ _ _ = Evm.Success _ |- _ =>
      apply setPanelOperator_spec in H as (? & (? & ? & ? & ?) & ? & ? & ? & ?)
  | H : Protocol.requestAid _ _ _ _ _ _ _ _ = Evm.Success _ |- _ =>
      apply requestAid_spec in H as (? & ? & ? & ? & ? & ? & ? & ? & ?)
  | H : Protocol.verifyRequest _ _ _ _ _ _ _ = Evm.Success _ |- _ =>
      apply verifyRequest_spec in H as (? & ? & ? & ?)
  | H : Protocol.submitConsensus _ _ _ _ _ _ _ _ _ _ = Evm.Success _ |- _ =>
      apply submitConsensus_spec in H as (? & ? & ? & ? & ? & ?)
  | H : Protocol.assignFulfiller _ _ _ _ _ _ = Evm.Success _ |- _ =>
      apply assignFulfiller_spec in H as (? & ? & ? & ? & ?)
  | H : Protocol.confirmDelivery _ _ _ _ _ _ _ = Evm.Success _ |- _ =>
      apply confirmDelivery_spec in H as (? & ? & ? & ?)
  | H : Protocol.verifyDelivery _ _ _ _ _ = Evm.Success _ |- _ =>
      apply verifyDelivery_spec in H as (? & ? & ? & ?)
  | H : Protocol.releasePayout _ _ _ _ _ _ = Evm.Success _ |- _ =>
      apply releasePayout_spec in H as (? & ? & ? & ?)
  | H : Protocol.timeoutRequest _ _ _ _ _ = Evm.Success _ |- _ =>
      apply timeoutRequest_spec in H as (? & ? & ? & ? & ?)
  end.

Section LifecycleFacts.
Import Evm IAidChain Protocol.

Lemma rewrites_request requestId r' st st' j :
  rewrites requestId r' st st' ->
  request j st' = if decide (j = requestId) then r' else request j st.
Proof.
  intros (_ & _ & Hreqs & _). unfold request. rewrite Hreqs.
  destruct (decide (j = requestId)) as [->|Hne].
  - now rewrite lookup_insert_eq.
  - now rewrite lookup_insert_ne.
Qed.

Lemma rewrites_issued requestId r' st st' :
  0 <= requestId -> rewrites requestId r' st st' -> issued st -> issued st'.
Proof.
  intros Hid (Hlt & Hnext & Hreqs & _) Hi.
  apply (issued_insert st st' requestId r'); auto; lia.
Qed.

Lemma unissued_request (st : Chain) requestId :
  issued st -> nextRequestId (aidChain st) <= requestId ->
  request requestId st = emptyRequest.
Proof.
  intros Hi Hge. unfold request.
  destruct (aidRequests (aidChain st) !! requestId) eqn:Hl; [|reflexivity].
  apply Hi in Hl. lia.
Qed.

Lemma mayMove_oracle requestId who s' st :
  String.eqb who (oracleOperator (aidChain st)) = true ->
  match s' with
  | AidChain.Verified | AidChain.Funded | AidChain.DeliveryVerified
  | AidChain.DeliveryFailed | AidChain.Settled | AidChain.TimedOut => True
  | _ => False
  end ->
  mayMove requestId who s' st = true.
Proof. destruct s'; simpl; tauto. Qed.

(** What one successful transaction does to the status of a request. *)
Lemma exec_status aidChainAddr fundPoolAddr verifier
    (tx : Tx) (st st' : Chain) (requestId : Z) :
  issued st ->
  exec aidChainAddr fundPoolAddr verifier tx st = Success (tt, st') ->
  issued st' /\
  (status (request requestId st') = status (request requestId st) \/
   lifecycleStep (status (request requestId st)) (status (request requestId st')) = true /\
   mayMove requestId (sender tx) (status (request requestId st')) st = true).
Proof.
  intros Hi. unfold exec. destruct (wellTyped (call tx)) eqn:Hty; [|discriminate].
  destruct tx as [who now c]. cbn [sender timestamp call] in *.
  destruct c;
    try (intros Hc;
         assert (Hsame : aidChain st' = aidChain st);
         [ unfold dispatch, onToken in Hc; cbn [sender timestamp call] in Hc; evm_inv;
           first [ eapply onFundPool_aidChain; eassumption
                 | eapply onRegistry_aidChain; eassumption ]
         | split; [now apply (issued_same st st')|];
           left; f_equal; apply request_same; now rewrite Hsame ]);
    try (unfold dispatch; cbn [sender timestamp call]; intros Hc; spec_inv;
         match goal with
         | Hreqs : aidRequests (aidChain st') = aidRequests (aidChain st),
           Hnext : nextRequestId (aidChain st') = nextRequestId (aidChain st) |- _ =>
             split; [unfold issued; rewrite Hreqs, Hnext; apply Hi|];
             left; f_equal; now apply request_same
         end);
    unfold dispatch; cbn [sender timestamp call wellTyped] in *; intros Hc;
    bool_facts;
    repeat match goal with
    | H : is_uint256 _ = true |- _ => apply is_uint256_range in H
    end.
  - (* requestAid *)
    apply bind_Success in Hc as (rid & s1 & Hreq & Hret).
    apply ret_Success in Hret as [_ ->].
    apply requestAid_spec in Hreq as (-> & _ & _ & _ & Hnext & Hreqs & _).
    assert (Hfree : request (nextRequestId (aidChain st)) st = emptyRequest)
      by (apply unissued_request; [assumption|lia]).
    split.
    + eapply (issued_insert st s1 (nextRequestId (aidChain st))); [exact Hi| |lia|exact Hreqs].
      destruct Hi as [Hi0 _]. lia.
    + left. unfold request at 1. rewrite Hreqs.
      destruct (decide (requestId = nextRequestId (aidChain st))) as [->|Hne].
      * rewrite lookup_insert_eq, Hfree. reflexivity.
      * rewrite lookup_insert_ne by congruence. reflexivity.
  - (* verifyRequest *)
    apply verifyRequest_spec in Hc as (Hwho & Hs & _ & Hrw).
    split; [apply (rewrites_issued requestId0 _ _ _ ltac:(lia) Hrw Hi)|].
    rewrite (rewrites_request _ _ _ _ requestId Hrw).
    destruct (decide (requestId = requestId0)) as [->|Hne]; [right|now left].
    rewrite Hs. cbn [storeVerification status]. split; [reflexivity|].
    now apply mayMove_oracle.
  - (* submitConsensus *)
    apply submitConsensus_spec in Hc as (Hwho & Hs & _ & _ & _ & Hrw).
    split; [apply (rewrites_issued requestId0 _ _ _ ltac:(lia) Hrw Hi)|].
    rewrite (rewrites_request _ _ _ _ requestId Hrw).
    destruct (decide (requestId = requestId0)) as [->|Hne]; [right|now left].
    rewrite Hs. cbn [storeConsensus status]. destruct approved; split; auto.
  - (* assignFulfiller *)
    apply assignFulfiller_spec in Hc as (Hwho & Hs & _ & _ & Hrw).
    split; [apply (rewrites_issued requestId0 _ _ _ ltac:(lia) Hrw Hi)|].
    rewrite (rewrites_request _ _ _ _ requestId Hrw).
    destruct (decide (requestId = requestId0)) as [->|Hne]; [right|now left].
    rewrite Hs. cbn [storeFunding status]. split; [reflexivity|].
    now apply mayMove_oracle.
  - (* confirmDelivery *)
    apply confirmDelivery_spec in Hc as (Hwho & Hs & _ & Hrw).
    split; [apply (rewrites_issued requestId0 _ _ _ ltac:(lia) Hrw Hi)|].
    rewrite (rewrites_request _ _ _ _ requestId Hrw).
    destruct (decide (requestId = requestId0)) as [->|Hne]; [right|now left].
    rewrite Hs. cbn [storeDelivery status]. split; [reflexivity|]. exact Hwho.
  - (* verifyDelivery *)
    apply verifyDelivery_spec in Hc as (Hwho & Hs & _ & Hrw).
    split; [apply (rewrites_issued requestId0 _ _ _ ltac:(lia) Hrw Hi)|].
    rewrite (rewrites_request _ _ _ _ requestId Hrw).
    destruct (decide (requestId = requestId0)) as [->|Hne]; [right|now left].
    rewrite Hs. cbn [storeDeliveryVerification status].
    destruct verified; (split; [reflexivity|]); now apply mayMove_oracle.
  - (* releasePayout *)
    apply releasePayout_spec in Hc as (Hwho & Hs & _ & Hrw).
    split; [apply (rewrites_issued requestId0 _ _ _ ltac:(lia) Hrw Hi)|].
    rewrite (rewrites_request _ _ _ _ requestId Hrw).
    destruct (decide (requestId = requestId0)) as [->|Hne]; [right|now left].
    rewrite Hs. cbn [storeSettlement status]. split; [reflexivity|].
    now apply mayMove_oracle.
  - (* timeoutRequest *)
    apply timeoutRequest_spec in Hc as (Hwho & Hs & _ & _ & Hrw).
    split; [apply (rewrites_issued requestId0 _ _ _ ltac:(lia) Hrw Hi)|].
    rewrite (rewrites_request _ _ _ _ requestId Hrw).
    destruct (decide (requestId = requestId0)) as [->|Hne]; [right|now left].
    cbn [storeTimeout status].
    destruct Hs as [-> | ->]; (split; [reflexivity|]); now apply mayMove_oracle.
Qed.

End LifecycleFacts.

Section AccountingFacts.
Import Evm IAidChain Protocol.

(** What one successful transaction other than an emergency
    withdrawal does to the pool's books. *)
Lemma exec_balanced aidChainAddr fundPoolAddr verifier (tx : Tx) (st st' : Chain) :
  drains (call tx) = false ->
  exec aidChainAddr fundPoolAddr verifier tx st = Success (tt, st') ->
  balanced (FundPool.pool (treasury st)) ->
  balanced (FundPool.pool (treasury st')).
Proof.
  intros Hcall. unfold exec. destruct (wellTyped (call tx)); [|discriminate].
  destruct tx as [who now c]. cbn [sender timestamp call] in *.
  unfold balanced.
  destruct c; try discriminate;
    unfold dispatch; cbn [sender timestamp call]; intros Hc Hb;
    evm_inv; spec_inv; cbn [treasury FundPool.pool] in *;
    repeat match goal with
    | H : rewrites _ _ _ _ |- _ => clear H
    | H : treasury _ = treasury _ |- _ => rewrite H
    | H : FundPool.pool _ = _ |- _ => rewrite H
    end;
    cbn [treasury FundPool.pool FundPool.totalDeposited FundPool.availableBalance
         FundPool.totalEscrowed FundPool.totalPaidOut] in *;
    try lia.
Qed.

End AccountingFacts.

Section EscrowFacts.
Import Evm IAidChain Protocol.

Lemma escrowed_insert (m : gmap Z AidRequest) (requestId : Z) (r' : AidRequest) :
  map_fold (fun _ r acc => escrowHeld r + acc) 0 (<[requestId := r']> m) =
    map_fold (fun _ r acc => escrowHeld r + acc) 0 m
    - escrowHeld (default emptyRequest (m !! requestId)) + escrowHeld r'.
Proof.
  assert (Hcomm : forall (m' : gmap Z AidRequest) (j1 j2 : Z) (z1 z2 : AidRequest) (y : Z),
            j1 <> j2 -> m' !! j1 = Some z1 -> m' !! j2 = Some z2 ->
            escrowHeld z1 + (escrowHeld z2 + y) = escrowHeld z2 + (escrowHeld z1 + y))
    by (intros; lia).
  destruct (m !! requestId) as [x|] eqn:Hl; cbn [default].
  - rewrite <- (insert_delete_eq m requestId r').
    rewrite map_fold_insert_L; [|apply Hcomm|apply lookup_delete_eq].
    rewrite (map_fold_delete_L _ 0 requestId x m); [|apply Hcomm|exact Hl].
    unfold Datatypes.id. lia.
  - rewrite map_fold_insert_L; [|apply Hcomm|exact Hl].
    change (escrowHeld emptyRequest) with 0. lia.
Qed.

Lemma escrowUnderWay_rewrites requestId r' st st' :
  rewrites requestId r' st st' ->
  escrowUnderWay st' = escrowUnderWay st - escrowHeld (request requestId st) + escrowHeld r'.
Proof.
  intros (_ & _ & Hreqs & _). unfold escrowUnderWay, request. rewrite Hreqs.
  apply escrowed_insert.
Qed.

Lemma eqb_address (a b : address) : String.eqb a b = true -> a = b.
Proof. apply String.eqb_eq. Qed.

(** What one successful transaction does to the escrow, as long as the
    pool is linked to [AidChain] and nobody rewires or empties it. *)
Lemma exec_escrow aidChainAddr fundPoolAddr verifier (tx : Tx) (st st' : Chain) :
  issued st -> linked aidChainAddr st ->
  sender tx <> aidChainAddr -> overrides (call tx) = false ->
  exec aidChainAddr fundPoolAddr verifier tx st = Success (tt, st') ->
  FundPool.totalEscrowed (FundPool.pool (treasury st)) = escrowUnderWay st ->
  linked aidChainAddr st' /\
  FundPool.totalEscrowed (FundPool.pool (treasury st')) = escrowUnderWay st'.
Proof.
  intros Hi Hl Hwho Hcall. unfold exec.
  destruct (wellTyped (call tx)); [|discriminate].
  destruct tx as [who now c]. cbn [sender timestamp call] in *.
  unfold linked in *.
  destruct c; try discriminate;
    unfold dispatch; cbn [sender timestamp call]; intros Hc Hb;
    evm_inv; spec_inv; cbn [treasury FundPool.pool aidChain] in *;
    repeat match goal with
    | H : String.eqb _ _ = true |- _ => apply eqb_address in H
    end;
    try congruence;
    try (unfold escrowUnderWay in *; cbn [aidChain treasury] in *;
         repeat match goal with
         | H : FundPool.pool _ = _ |- _ => rewrite H
         end;
         cbn [FundPool.aidChainContract FundPool.totalEscrowed];
         split; [reflexivity|assumption]).
  all: try (match goal with
            | Hrw : rewrites ?id ?r' ?st0 ?st1 |- _ =>
                rewrite (escrowUnderWay_rewrites id r' st0 st1 Hrw); clear Hrw
            end;
            unfold escrowHeld;
            repeat match goal with
            | H : _ \/ _ |- _ => destruct H
            end;
            repeat match goal with
            | H : treasury _ = treasury _ |- _ => rewrite H
            | H : FundPool.pool _ = _ |- _ => rewrite H
            | H : status _ = _ |- _ => rewrite H
            end;
            cbn [status escrowAmount storeVerification storeConsensus storeFunding
                 storeDelivery storeDeliveryVerification storeSettlement storeTimeout
                 holdsEscrow FundPool.aidChainContract FundPool.totalEscrowed];
            try match goal with
                | |- context [if ?b then _ else _] => destruct b
                end;
            cbn [holdsEscrow];
            split; [congruence|lia]).
  - (* requestAid *)
    subst a. rewrite H6. split; [reflexivity|]. rewrite Hb.
    unfold escrowUnderWay. rewrite H5, escrowed_insert.
    fold (request (nextRequestId (aidChain st)) st).
    rewrite (unissued_request st _ Hi) by lia.
    unfold escrowHeld. cbn [status storeRequest emptyRequest holdsEscrow]. lia.
  - (* submitConsensus *)
    rewrite (escrowUnderWay_rewrites _ _ _ _ H4), H3. split; [assumption|].
    unfold escrowHeld. cbn [status escrowAmount storeConsensus]. rewrite H0.
    destruct approved; cbn [holdsEscrow]; lia.
  - (* verifyDelivery *)
    rewrite (escrowUnderWay_rewrites _ _ _ _ H2), H1. split; [assumption|].
    unfold escrowHeld. cbn [status escrowAmount storeDeliveryVerification]. rewrite H0.
    destruct verified; cbn [holdsEscrow]; lia.
  - (* timeoutRequest *)
    rewrite (escrowUnderWay_rewrites _ _ _ _ H3), H7.
    cbn [FundPool.aidChainContract FundPool.totalEscrowed]. split; [assumption|].
    unfold escrowHeld. cbn [status escrowAmount storeTimeout holdsEscrow].
    destruct H0 as [-> | ->]; cbn [holdsEscrow]; lia.
  - unfold escrowUnderWay in *. rewrite H0, H2. split; assumption.
  - unfold escrowUnderWay in *. rewrite H0, H2. split; assumption.
  - unfold escrowUnderWay in *. rewrite H0, H2. split; assumption.
Qed.


End EscrowFacts.

Section TraceFacts.
Import Evm IAidChain Protocol.

(** A property every permitted successful transaction keeps holds
    after any run of permitted transactions. *)
Lemma run_invariant aidChainAddr fundPoolAddr verifier
    (Inv : Chain -> Prop) (permitted : Tx -> bool) :
  (forall tx st st',
     permitted tx = true -> Inv st ->
     exec aidChainAddr fundPoolAddr verifier tx st = Success (tt, st') -> Inv st') ->
  forall txs st,
    forallb permitted txs = true -> Inv st ->
    Inv (run aidChainAddr fundPoolAddr verifier txs st).
Proof.
  intros Hstep. induction txs as [|tx txs IH]; intros st Hall Hinv; [exact Hinv|].
  cbn [forallb] in Hall. apply andb_true_iff in Hall as [Htx Hall].
  cbn [run fold_left]. apply IH; [exact Hall|].
  unfold apply.
  destruct (exec aidChainAddr fundPoolAddr verifier tx st) as [[[] st']| |] eqn:He;
    [|exact Hinv|exact Hinv].
  exact (Hstep tx st st' Htx Hinv He).
Qed.

Lemma run_issued aidChainAddr fundPoolAddr verifier txs st :
  issued st -> issued (run aidChainAddr fundPoolAddr verifier txs st).
Proof.
  intros Hi.
  apply (run_invariant aidChainAddr fundPoolAddr verifier issued (fun _ => true));
    [|now apply forallb_forall|exact Hi].
  intros tx s s' _ Hs He.
  exact (proj1 (exec_status aidChainAddr fundPoolAddr verifier tx s s' 0 Hs He)).
Qed.

Lemma deployed_issued deployer aidChainAddr : issued (deployed deployer aidChainAddr).
Proof. split; [cbn; lia|]. intros requestId r Hl. cbn in Hl. discriminate. Qed.

Lemma final_no_step s s' : final s = true -> lifecycleStep s s' = false.
Proof. destruct s, s'; simpl; congruence. Qed.

End TraceFacts.

(** X3: whatever transactions are sent to the contracts, by whomever,
    the status of a request moves only along the life cycle
    Submitted, Verified, Approved or Rejected, Funded,
    DeliverySubmitted, DeliveryVerified or DeliveryFailed, Settled or
    TimedOut; a request that is Rejected, Settled or TimedOut keeps
    that status for ever. *)
Theorem request_status_follows_life_cycle
    (aidChainAddr fundPoolAddr : Evm.address)
    (verifier : Evm.address -> Evm.address -> Evm.bytes32 -> string ->
                VerificationRegistry.StaticCall)
    (st : Protocol.Chain) (requestId : Z) (txs : list Protocol.Tx) :
  let before := IAidChain.status (Protocol.request requestId st) in
  let after :=
    IAidChain.status
      (Protocol.request requestId (Protocol.run aidChainAddr fundPoolAddr verifier txs st)) in
  Protocol.issued st ->
  rtc (fun s s' => Protocol.lifecycleStep s s' = true) before after /\
  (Protocol.final before = true -> after = before).
Proof.
  intros before after Hi.
  assert (Hrtc : rtc (fun s s' => Protocol.lifecycleStep s s' = true) before after).
  { subst before after. revert st Hi.
    induction txs as [|tx txs IH]; intros st Hi; [apply rtc_refl|].
    cbn [Protocol.run fold_left].
    change (fold_left (Protocol.apply aidChainAddr fundPoolAddr verifier) txs ?s)
      with (Protocol.run aidChainAddr fundPoolAddr verifier txs s).
    unfold Protocol.apply.
    destruct (Protocol.exec aidChainAddr fundPoolAddr verifier tx st)
      as [[[] st']| |] eqn:He; try (now apply IH).
    destruct (exec_status aidChainAddr fundPoolAddr verifier tx st st' requestId Hi He)
      as [Hi' [Heq|[Hstep _]]].
    - rewrite <- Heq. now apply IH.
    - eapply rtc_l; [exact Hstep|]. now apply IH. }
  split; [exact Hrtc|].
  intros Hfinal. destruct Hrtc as [|s1 s2 s3 Hstep _]; [reflexivity|].
  rewrite (final_no_step _ s2 Hfinal) in Hstep. discriminate.
Qed.

(** On the local deployment: the request goes from the empty slot to
    Settled along the life cycle, and stays Settled when the oracle
    tries to time it out. *)
Lemma request_status_follows_life_cycle_witness :
  IAidChain.status (Protocol.request 0 (localChain (fundingTrace ++ deliveryTrace)))
    = AidChain.Settled /\
  IAidChain.status
    (Protocol.request 0
       (Protocol.run aidChainAddress fundPoolAddress noVerifier
          [sent deployerAccount 200000 (Protocol.TimeoutRequest 0)]
          (localChain (fundingTrace ++ deliveryTrace))))
    = AidChain.Settled.
Proof.
  assert (Hsettled :
    IAidChain.status (Protocol.request 0 (localChain (fundingTrace ++ deliveryTrace)))
      = AidChain.Settled) by (vm_compute; reflexivity).
  split; [exact Hsettled|].
  transitivity
    (IAidChain.status (Protocol.request 0 (localChain (fundingTrace ++ deliveryTrace))));
    [|exact Hsettled].
  apply (request_status_follows_life_cycle aidChainAddress fundPoolAddress noVerifier
           (localChain (fundingTrace ++ deliveryTrace)) 0
           [sent deployerAccount 200000 (Protocol.TimeoutRequest 0)]).
  - apply run_issued, deployed_issued.
  - rewrite Hsettled. reflexivity.
Defined.

(** X4: a successful transaction changes the status of a request only
    when its sender holds the role in charge of the new status: the
    oracle operator for Verified, Funded, DeliveryVerified,
    DeliveryFailed, Settled and TimedOut, an approved panel operator
    for Approved and Rejected, the fulfiller assigned to the request
    for DeliverySubmitted. *)
Theorem request_status_moved_by_role
    (aidChainAddr fundPoolAddr : Evm.address)
    (verifier : Evm.address -> Evm.address -> Evm.bytes32 -> string ->
                VerificationRegistry.StaticCall)
    (tx : Protocol.Tx) (st st' : Protocol.Chain) (requestId : Z) :
  Protocol.issued st ->
  Protocol.exec aidChainAddr fundPoolAddr verifier tx st = Evm.Success (tt, st') ->
  IAidChain.status (Protocol.request requestId st')
    <> IAidChain.status (Protocol.request requestId st) ->
  Protocol.mayMove requestId (Protocol.sender tx)
    (IAidChain.status (Protocol.request requestId st')) st = true.
Proof.
  intros Hi He Hne.
  destruct (exec_status aidChainAddr fundPoolAddr verifier tx st st' requestId Hi He)
    as [_ [Heq|[_ Hmay]]]; [contradiction|exact Hmay].
Qed.

(** On the local deployment, the fulfiller's delivery confirmation. *)
Lemma request_status_moved_by_role_witness :
  Protocol.mayMove 0 ziplineAccount AidChain.DeliverySubmitted (localChain fundingTrace)
    = true.
Proof.
  assert (Hrun :
    Protocol.exec aidChainAddress fundPoolAddress noVerifier
      (sent ziplineAccount 1080 (Protocol.ConfirmDelivery 0 "0xc9" (-170523100) 368713800))
      (localChain fundingTrace)
    = Evm.Success (tt, localChain (fundingTrace ++ firstn 1 deliveryTrace)))
    by (vm_compute; reflexivity).
  assert (Hafter :
    IAidChain.status
      (Protocol.request 0 (localChain (fundingTrace ++ firstn 1 deliveryTrace)))
    = AidChain.DeliverySubmitted) by (vm_compute; reflexivity).
  rewrite <- Hafter.
  apply (request_status_moved_by_role aidChainAddress fundPoolAddress noVerifier
           (sent ziplineAccount 1080
              (Protocol.ConfirmDelivery 0 "0xc9" (-170523100) 368713800))
           (localChain fundingTrace)
           (localChain (fundingTrace ++ firstn 1 deliveryTrace)) 0).
  - apply run_issued, deployed_issued.
  - exact Hrun.
  - rewrite Hafter. vm_compute. discriminate.
Defined.

(** X5: as long as the owner does not use the emergency withdrawal,
    the pool's books balance after every run of transactions: the
    total deposited is the sum of what is available, what is in
    escrow and what was paid out. *)
Theorem pool_books_balance
    (aidChainAddr fundPoolAddr : Evm.address)
    (verifier : Evm.address -> Evm.address -> Evm.bytes32 -> string ->
                VerificationRegistry.StaticCall)
    (txs : list Protocol.Tx) (st : Protocol.Chain) :
  forallb (fun tx => negb (Protocol.drains (Protocol.call tx))) txs = true ->
  Protocol.balanced (FundPool.pool (Protocol.treasury st)) ->
  Protocol.balanced
    (FundPool.pool
       (Protocol.treasury (Protocol.run aidChainAddr fundPoolAddr verifier txs st))).
Proof.
  apply (run_invariant aidChainAddr fundPoolAddr verifier
           (fun s => Protocol.balanced (FundPool.pool (Protocol.treasury s)))).
  intros tx s s' Hok Hb He. apply negb_true_iff in Hok.
  exact (exec_balanced aidChainAddr fundPoolAddr verifier tx s s' Hok He Hb).
Qed.

(** On the local deployment after the payout: 1 000 000 deposited,
    999 850 available, nothing in escrow, 150 paid out. *)
Lemma pool_books_balance_witness :
  Protocol.balanced
    (FundPool.pool (Protocol.treasury (localChain (fundingTrace ++ deliveryTrace)))) /\
  FundPool.totalPaidOut
    (FundPool.pool (Protocol.treasury (localChain (fundingTrace ++ deliveryTrace))))
    = 150000000.
Proof.
  split; [|vm_compute; reflexivity].
  apply (pool_books_balance aidChainAddress fundPoolAddress noVerifier
           (fundingTrace ++ deliveryTrace)
           (Protocol.deployed deployerAccount aidChainAddress)).
  - vm_compute. reflexivity.
  - vm_compute. reflexivity.
Defined.

(** X6: as long as the pool is linked to [AidChain], nobody rewires or
    empties it, and transactions come from other accounts than the
    contract itself, the pool's escrow total is the sum of the escrow
    amounts of the requests that are Funded, DeliverySubmitted,
    DeliveryVerified or DeliveryFailed. *)
Theorem pool_escrow_matches_requests
    (aidChainAddr fundPoolAddr : Evm.address)
    (verifier : Evm.address -> Evm.address -> Evm.bytes32 -> string ->
                VerificationRegistry.StaticCall)
    (txs : list Protocol.Tx) (st : Protocol.Chain) :
  let st' := Protocol.run aidChainAddr fundPoolAddr verifier txs st in
  forallb (Protocol.ordinary aidChainAddr) txs = true ->
  Protocol.issued st ->
  Protocol.linked aidChainAddr st ->
  FundPool.totalEscrowed (FundPool.pool (Protocol.treasury st))
    = Protocol.escrowUnderWay st ->
  Protocol.linked aidChainAddr st' /\
  FundPool.totalEscrowed (FundPool.pool (Protocol.treasury st'))
    = Protocol.escrowUnderWay st'.
Proof.
  intros st' Hall Hi Hl Hb. subst st'.
  pose (Inv := fun s : Protocol.Chain =>
    Protocol.issued s /\ Protocol.linked aidChainAddr s /\
    FundPool.totalEscrowed (FundPool.pool (Protocol.treasury s))
      = Protocol.escrowUnderWay s).
  assert (Hinv : Inv (Protocol.run aidChainAddr fundPoolAddr verifier txs st)).
  { apply (run_invariant aidChainAddr fundPoolAddr verifier Inv
             (Protocol.ordinary aidChainAddr)); [|exact Hall|exact (conj Hi (conj Hl Hb))].
    intros tx s s' Hok (Hi' & Hl' & Hb') He.
    unfold Protocol.ordinary in Hok. apply andb_true_iff in Hok as [Hwho Hcall].
    apply negb_true_iff in Hwho, Hcall. apply String.eqb_neq in Hwho.
    split; [exact (proj1 (exec_status _ _ _ tx s s' 0 Hi' He))|].
    exact (exec_escrow aidChainAddr fundPoolAddr verifier tx s s'
             Hi' Hl' Hwho Hcall He Hb'). }
  exact (proj2 Hinv).
Qed.

(** On the local deployment once the request is funded: 150 in
    escrow, for request 0. *)
Lemma pool_escrow_matches_requests_witness :
  FundPool.totalEscrowed (FundPool.pool (Protocol.treasury (localChain fundingTrace)))
    = Protocol.escrowUnderWay (localChain fundingTrace) /\
  Protocol.escrowUnderWay (localChain fundingTrace) = 150000000.
Proof.
  split; [|vm_compute; reflexivity].
  apply (pool_escrow_matches_requests aidChainAddress fundPoolAddress noVerifier
           fundingTrace (Protocol.deployed deployerAccount aidChainAddress)).
  - vm_compute. reflexivity.
  - apply deployed_issued.
  - reflexivity.
  - vm_compute. reflexivity.
Defined.

Section RegistryFacts.
Import Evm VerificationRegistry.

Lemma identity_insert (st : State) (u v : address) (id : Identity)
    (ids : gmap address Identity) :
  ids = <[u := id]> (identities st) ->
  default noIdentity (ids !! v) = if decide (v = u) then id else identity v st.
Proof.
  intros ->. unfold identity. destruct (decide (v = u)) as [->|Hne].
  - now rewrite lookup_insert_eq.
  - now rewrite lookup_insert_ne.
Qed.

Lemma _verifyProof_Success verifier user nullifier zkProof st b st' :
  _verifyProof verifier user nullifier zkProof st = Success (b, st') -> st' = st.
Proof.
  unfold _verifyProof. intros Hc. evm_inv.
  destruct (String.eqb (zkVerifier st) ZeroAddress); [now evm_inv|].
  destruct (verifier _ _ _ _); now evm_inv.
Qed.

(** What [registerIdentity] checks and writes. *)
Lemma registerIdentity_spec verifier who now nullifier proof zkProof st st' :
  registerIdentity verifier who now nullifier proof zkProof st = Success (tt, st') ->
  verified (identity who st) = false /\
  nullifierUsed nullifier st = false /\
  nullifier <> Fulfillment.ZeroHash /\
  (forall v,
     identity v st' =
       if decide (v = who)
       then {| verified := true; nullifierHash := nullifier; proofHash := proof;
               verifiedAt := now;
               expiresAt := now + verificationValidityPeriod st; revoked := false |}
       else identity v st) /\
  (forall h,
     nullifierUsed h st' = if decide (h = nullifier) then true else nullifierUsed h st) /\
  owner st' = owner st.
Proof.
  unfold registerIdentity. intros Hc. evm_inv.
  match goal with H : _verifyProof _ _ _ _ _ = _ |- _ =>
    apply _verifyProof_Success in H; subst end.
  evm_inv.
  repeat match goal with
  | H : negb _ = true |- _ => apply negb_true_iff in H
  end.
  cbn [identities usedNullifiers owner verificationValidityPeriod].
  repeat split; auto.
  - now apply String.eqb_neq.
  - intros v. unfold identity at 1. cbn [identities].
    now apply identity_insert.
  - intros h. unfold nullifierUsed at 1. cbn [usedNullifiers].
    destruct (decide (h = nullifier)) as [->|Hne].
    + now rewrite lookup_insert_eq.
    + now rewrite lookup_insert_ne.
Qed.

Lemma revokeIdentity_spec who user reason st st' :
  revokeIdentity who user reason st = Success (tt, st') ->
  String.eqb who (owner st) = true /\
  verified (identity user st) = true /\
  (forall v,
     identity v st' =
       if decide (v = user)
       then {| verified := verified (identity user st);
               nullifierHash := nullifierHash (identity user st);
               proofHash := proofHash (identity user st);
               verifiedAt := verifiedAt (identity user st);
               expiresAt := expiresAt (identity user st); revoked := true |}
       else identity v st) /\
  (forall h, nullifierUsed h st' = nullifierUsed h st) /\
  owner st' = owner st.
Proof.
  unfold revokeIdentity, onlyOwner. intros Hc. evm_inv.
  cbn [identities usedNullifiers owner]. repeat split; auto.
  intros v. unfold identity at 1. cbn [identities]. now apply identity_insert.
Qed.

Lemma setVerifier_spec who v st st' :
  setVerifier who v st = Success (tt, st') ->
  identities st' = identities st /\ usedNullifiers st' = usedNullifiers st /\
  owner st' = owner st.
Proof. unfold setVerifier, onlyOwner. intros Hc. evm_inv. repeat split. Qed.

Lemma setValidityPeriod_spec who p st st' :
  setValidityPeriod who p st = Success (tt, st') ->
  identities st' = identities st /\ usedNullifiers st' = usedNullifiers st /\
  owner st' = owner st.
Proof. unfold setValidityPeriod, onlyOwner. intros Hc. evm_inv. repeat split. Qed.

End RegistryFacts.

Section RegistryTraces.
Import Evm Protocol.

(** What one successful transaction does to the registry: nothing, a
    registration, a revocation, or a change of its settings. *)
Lemma exec_registry aidChainAddr fundPoolAddr verifier (tx : Tx) (st st' : Chain) :
  exec aidChainAddr fundPoolAddr verifier tx st = Success (tt, st') ->
  registry st' = registry st \/
  (exists nullifier proof zkProof,
     VerificationRegistry.registerIdentity verifier (sender tx) (timestamp tx)
       nullifier proof zkProof (registry st) = Success (tt, registry st')) \/
  (exists user reason,
     VerificationRegistry.revokeIdentity (sender tx) user reason (registry st)
       = Success (tt, registry st')) \/
  (VerificationRegistry.identities (registry st')
     = VerificationRegistry.identities (registry st) /\
   VerificationRegistry.usedNullifiers (registry st')
     = VerificationRegistry.usedNullifiers (registry st)).
Proof.
  unfold exec. destruct (wellTyped (call tx)); [|discriminate].
  destruct tx as [who now c]. cbn [sender timestamp call].
  destruct c; unfold dispatch; cbn [sender timestamp call]; intros Hc.
  all: try (left; evm_inv; spec_inv; cbn [registry];
            repeat match goal with
            | H : rewrites _ _ _ _ |- _ => destruct H as (_ & _ & _ & ? & _)
            end;
            solve [reflexivity | assumption]).
  - right; left. unfold onRegistry in Hc. evm_inv. cbn [registry]. eauto.
  - right; right; left. unfold onRegistry in Hc. evm_inv. cbn [registry]. eauto.
  - right; right; right. unfold onRegistry in Hc. evm_inv. cbn [registry].
    match goal with H : VerificationRegistry.setVerifier _ _ _ = _ |- _ =>
      apply setVerifier_spec in H as (? & ? & _) end. tauto.
  - right; right; right. unfold onRegistry in Hc. evm_inv. cbn [registry].
    match goal with H : VerificationRegistry.setValidityPeriod _ _ _ = _ |- _ =>
      apply setValidityPeriod_spec in H as (? & ? & _) end. tauto.
Qed.

End RegistryTraces.

Section RegistryInvariants.
Import Evm Protocol.

Lemma exec_nullifiers aidChainAddr fundPoolAddr verifier (tx : Tx) (st st' : Chain) :
  exec aidChainAddr fundPoolAddr verifier tx st = Success (tt, st') ->
  VerificationRegistry.nullifiersRecorded (registry st) /\
  VerificationRegistry.oneAddressPerNullifier (registry st) ->
  VerificationRegistry.nullifiersRecorded (registry st') /\
  VerificationRegistry.oneAddressPerNullifier (registry st').
Proof.
  intros He [Hrec Hone].
  unfold VerificationRegistry.nullifiersRecorded,
    VerificationRegistry.oneAddressPerNullifier in *.
  destruct (exec_registry _ _ _ _ _ _ He)
    as [->|[(n & p & z & Hr)|[(u & reason & Hr)|[Hids Hused]]]].
  - tauto.
  - apply registerIdentity_spec in Hr as (Hnew & Hfree & _ & Hid & Hused & _).
    split.
    + intros user. rewrite !Hid, Hused.
      destruct (decide (user = sender tx)) as [->|Hne];
        cbn [VerificationRegistry.verified VerificationRegistry.nullifierHash].
      * intros _. now rewrite decide_True.
      * intros Hv. destruct (decide _); [reflexivity|]. now apply Hrec.
    + intros u1 u2. rewrite !Hid.
      destruct (decide (u1 = sender tx)) as [->|H1], (decide (u2 = sender tx)) as [->|H2];
        cbn [VerificationRegistry.verified VerificationRegistry.nullifierHash];
        auto.
      * intros _ Hv Heq. apply Hrec in Hv. rewrite <- Heq in Hv. congruence.
      * intros Hv _ Heq. apply Hrec in Hv. rewrite Heq in Hv. congruence.
  - apply revokeIdentity_spec in Hr as (_ & Hv & Hid & Hused & _).
    split.
    + intros user. rewrite !Hid, Hused.
      destruct (decide (user = u)) as [->|Hne];
        cbn [VerificationRegistry.verified VerificationRegistry.nullifierHash];
        apply Hrec.
    + intros u1 u2. rewrite !Hid.
      destruct (decide (u1 = u)) as [->|H1], (decide (u2 = u)) as [->|H2];
        cbn [VerificationRegistry.verified VerificationRegistry.nullifierHash];
        auto.
  - unfold VerificationRegistry.identity, VerificationRegistry.nullifierUsed in *.
    rewrite Hids, Hused. tauto.
Qed.

Lemma exec_identity aidChainAddr fundPoolAddr verifier (tx : Tx) (st st' : Chain)
    (user : address) :
  exec aidChainAddr fundPoolAddr verifier tx st = Success (tt, st') ->
  VerificationRegistry.verified (VerificationRegistry.identity user (registry st)) = true ->
  let id := VerificationRegistry.identity user (registry st) in
  let id' := VerificationRegistry.identity user (registry st') in
  VerificationRegistry.verified id' = true /\
  VerificationRegistry.nullifierHash id' = VerificationRegistry.nullifierHash id /\
  VerificationRegistry.expiresAt id' = VerificationRegistry.expiresAt id /\
  (VerificationRegistry.revoked id = true -> VerificationRegistry.revoked id' = true).
Proof.
  intros He Hv id id'. subst id id'.
  destruct (exec_registry _ _ _ _ _ _ He)
    as [->|[(n & p & z & Hr)|[(u & reason & Hr)|[Hids Hused]]]].
  - tauto.
  - apply registerIdentity_spec in Hr as (Hnew & _ & _ & Hid & _).
    rewrite Hid. destruct (decide (user = sender tx)) as [->|Hne]; [congruence|tauto].
  - apply revokeIdentity_spec in Hr as (_ & _ & Hid & _).
    rewrite Hid. destruct (decide (user = u)) as [->|Hne];
      cbn [VerificationRegistry.verified VerificationRegistry.nullifierHash
           VerificationRegistry.expiresAt VerificationRegistry.revoked]; tauto.
  - unfold VerificationRegistry.identity in *. rewrite Hids. tauto.
Qed.

End RegistryInvariants.

Lemma deployed_registry deployer aidChainAddr :
  VerificationRegistry.nullifiersRecorded
    (Protocol.registry (Protocol.deployed deployer aidChainAddr)) /\
  VerificationRegistry.oneAddressPerNullifier
    (Protocol.registry (Protocol.deployed deployer aidChainAddr)).
Proof. split; [intros user Hv|intros user1 user2 Hv]; discriminate Hv. Qed.

(** X7: whatever transactions are sent, no two verified addresses of
    the registry carry the same nullifier: one government identity
    verifies one address. *)
Theorem registry_one_address_per_identity
    (aidChainAddr fundPoolAddr : Evm.address)
    (verifier : Evm.address -> Evm.address -> Evm.bytes32 -> string ->
                VerificationRegistry.StaticCall)
    (txs : list Protocol.Tx) (st : Protocol.Chain) :
  VerificationRegistry.nullifiersRecorded (Protocol.registry st) ->
  VerificationRegistry.oneAddressPerNullifier (Protocol.registry st) ->
  VerificationRegistry.oneAddressPerNullifier
    (Protocol.registry (Protocol.run aidChainAddr fundPoolAddr verifier txs st)).
Proof.
  intros Hrec Hone.
  apply (run_invariant aidChainAddr fundPoolAddr verifier
           (fun s => VerificationRegistry.nullifiersRecorded (Protocol.registry s) /\
                     VerificationRegistry.oneAddressPerNullifier (Protocol.registry s))
           (fun _ => true)); [|now apply forallb_forall|tauto].
  intros tx s s' _ Hinv He. exact (exec_nullifiers _ _ _ tx s s' He Hinv).
Qed.

(** On the local deployment: the second account, registering with the
    nullifier of the first, stays unverified. *)
Lemma registry_one_address_per_identity_witness :
  VerificationRegistry.oneAddressPerNullifier (Protocol.registry (localChain sybilTrace)) /\
  VerificationRegistry.verified
    (VerificationRegistry.identity userAccount (Protocol.registry (localChain sybilTrace)))
    = true /\
  VerificationRegistry.verified
    (VerificationRegistry.identity otherAccount (Protocol.registry (localChain sybilTrace)))
    = false.
Proof.
  split; [|split; vm_compute; reflexivity].
  apply (registry_one_address_per_identity aidChainAddress fundPoolAddress noVerifier
           sybilTrace (Protocol.deployed deployerAccount aidChainAddress));
    apply deployed_registry.
Defined.

(** X8: a registration is once and for all.  Once an address is
    verified it stays so recorded, with the same nullifier and the
    same expiry date, and a revocation is never lifted; so after its
    revocation or its expiry the address is never again reported as
    verified, whatever transactions are sent. *)
Theorem registration_is_once_and_for_all
    (aidChainAddr fundPoolAddr : Evm.address)
    (verifier : Evm.address -> Evm.address -> Evm.bytes32 -> string ->
                VerificationRegistry.StaticCall)
    (txs : list Protocol.Tx) (st : Protocol.Chain) (user : Evm.address) :
  let id := VerificationRegistry.identity user (Protocol.registry st) in
  let registry' :=
    Protocol.registry (Protocol.run aidChainAddr fundPoolAddr verifier txs st) in
  let id' := VerificationRegistry.identity user registry' in
  VerificationRegistry.verified id = true ->
  VerificationRegistry.verified id' = true /\
  VerificationRegistry.nullifierHash id' = VerificationRegistry.nullifierHash id /\
  VerificationRegistry.expiresAt id' = VerificationRegistry.expiresAt id /\
  (VerificationRegistry.revoked id = true -> VerificationRegistry.revoked id' = true) /\
  (forall now,
     VerificationRegistry.revoked id = true \/ VerificationRegistry.expiresAt id <= now ->
     VerificationRegistry.isIdentityVerified user now registry' = false).
Proof.
  intros id registry' id' Hv.
  assert (Hinv :
    VerificationRegistry.verified id' = true /\
    VerificationRegistry.nullifierHash id' = VerificationRegistry.nullifierHash id /\
    VerificationRegistry.expiresAt id' = VerificationRegistry.expiresAt id /\
    (VerificationRegistry.revoked id = true -> VerificationRegistry.revoked id' = true)).
  { subst id' registry'.
    apply (run_invariant aidChainAddr fundPoolAddr verifier
             (fun s =>
                let i := VerificationRegistry.identity user (Protocol.registry s) in
                VerificationRegistry.verified i = true /\
                VerificationRegistry.nullifierHash i = VerificationRegistry.nullifierHash id /\
                VerificationRegistry.expiresAt i = VerificationRegistry.expiresAt id /\
                (VerificationRegistry.revoked id = true ->
                 VerificationRegistry.revoked i = true))
             (fun _ => true)); [|now apply forallb_forall|cbv zeta; tauto].
    intros tx s s' _ (Hv' & Hn & He & Hr) Hx. cbv zeta.
    destruct (exec_identity _ _ _ tx s s' user Hx Hv') as (Hv2 & Hn2 & He2 & Hr2).
    repeat split; [assumption|congruence|congruence|auto]. }
  destruct Hinv as (Hv' & Hn & He & Hr). repeat split; try assumption.
  intros now Hcase. unfold VerificationRegistry.isIdentityVerified.
  fold id'. rewrite Hv', He. destruct Hcase as [Hrev|Hexp].
  - rewrite (Hr Hrev). reflexivity.
  - destruct (VerificationRegistry.revoked id'); [reflexivity|].
    cbn [negb andb]. apply Z.ltb_ge. exact Hexp.
Qed.

(** On the local deployment: once revoked, the account is not verified
    at any later date, whatever it sends. *)
Lemma registration_is_once_and_for_all_witness :
  VerificationRegistry.isIdentityVerified userAccount 2000
    (Protocol.registry
       (Protocol.run aidChainAddress fundPoolAddress noVerifier
          [sent userAccount 1900 (Protocol.RegisterIdentity "0xe9" "0xb2" "proof")]
          (localChain revocationTrace)))
    = false.
Proof.
  apply (registration_is_once_and_for_all aidChainAddress fundPoolAddress noVerifier
           [sent userAccount 1900 (Protocol.RegisterIdentity "0xe9" "0xb2" "proof")]
           (localChain revocationTrace) userAccount).
  - vm_compute. reflexivity.
  - left. vm_compute. reflexivity.
Defined.

(** ** Ledger calls of the orchestrator *)

Section LedgerDiscipline.
Context `{JsMath}.
Variable keccak256 : string -> string.
Variable stringifyAttestation : Fdc.FdcAttestation -> string.
Variable hashTranscript : LlmPanel.Transcript -> string.
Variable hashAttestation : Fulfillment.Attestation -> string.
Variable now : string.
Variable nowMs : Z.
Variable toFixed : float -> nat -> string.
Variable showNumber : float -> string.
Variable ziplineWallet : string.
Variable authorityWallet : string.
Variable w : Pipeline.World.
Import Eff Pipeline.

(** X10: [completeDelivery] talks to the ledger in a fixed order and
    stops at the first failure: it reads the request, writes the verdict
    of [verifyDelivery] on the delivery proof, and sends [releasePayout]
    only when that verdict is positive and both earlier calls went
    through; it reports success exactly when the payout call is
    confirmed too.  Nothing else is sent. *)
Theorem completeDelivery_ledger_calls (rid : Z) (proof : Fulfillment.ProofData) (s : Sys) :
  let n := List.length (Blockchain.sent (client s)) in
  let req := chainRequest w rid in
  let v :=
    Fulfillment.verifyDelivery hashAttestation now (Blockchain.fr_fulfillerType req)
      proof (Blockchain.fr_lat req) (Blockchain.fr_lng req) in
  let out := completeDelivery hashAttestation now w rid proof s in
  let read := Blockchain.GetRequest rid in
  let verdict :=
    Blockchain.VerifyDelivery rid (Fulfillment.verified v) (Fulfillment.verificationHash v) in
  exists calls,
    Blockchain.sent (client (snd out)) = Blockchain.sent (client s) ++ calls /\
    ((calls = [read] /\
      (exists fault, rpc w n = Blockchain.Failed fault) /\
      (exists msg, fst out = Ok (DeliveryError msg))) \/
     (calls = [read; verdict] /\
      (exists h, rpc w n = Blockchain.Confirmed h) /\
      (exists fault, rpc w (n + 1)%nat = Blockchain.Failed fault) /\
      (exists msg, fst out = Ok (DeliveryError msg))) \/
     (calls = [read; verdict] /\
      (exists h, rpc w n = Blockchain.Confirmed h) /\
      (exists h, rpc w (n + 1)%nat = Blockchain.Confirmed h) /\
      Fulfillment.verified v = false /\
      fst out = Ok (DeliveryRejected "Delivery verification failed")) \/
     (calls = [read; verdict; Blockchain.ReleasePayout rid] /\
      (exists h, rpc w n = Blockchain.Confirmed h) /\
      (exists h, rpc w (n + 1)%nat = Blockchain.Confirmed h) /\
      Fulfillment.verified v = true /\
      ((exists h, rpc w (n + 2)%nat = Blockchain.Confirmed h) /\
       fst out = Ok DeliverySuccess \/
       (exists fault, rpc w (n + 2)%nat = Blockchain.Failed fault) /\
       (exists msg, fst out = Ok (DeliveryError msg))))).
Proof.
  intros n req v out read verdict. subst out.
  unfold completeDelivery, tryCatch, registryGet, gets, emit, ledger,
    zoom, registryDelete, mutate, modify, Blockchain.getRequest,
    Blockchain.verifyDeliveryOnChain, Blockchain.releasePayoutOnChain, bind, ret.
  cbn [fst snd activePipelines client emitted].
  rewrite !transact_once. cbn [fst snd activePipelines client emitted Blockchain.sent].
  fold n. destruct (rpc w n) as [h1|f1] eqn:H1;
    cbn [fst snd activePipelines client emitted Blockchain.sent].
  2: { exists [read]. split; [reflexivity|]. left. eauto. }
  rewrite transact_once. cbn [fst snd activePipelines client emitted Blockchain.sent].
  rewrite length_app. cbn [List.length]. fold n. fold req. fold v.
  destruct (rpc w (n + 1)%nat) as [h2|f2] eqn:H2;
    cbn [fst snd activePipelines client emitted Blockchain.sent].
  2: { exists [read; verdict]. split; [now rewrite <- app_assoc|]. right; left. eauto 10. }
  destruct (Fulfillment.verified v) eqn:Hv;
    cbn [negb fst snd activePipelines client emitted Blockchain.sent].
  2: { exists [read; verdict]. split; [now rewrite <- app_assoc|].
       right; right; left. eauto 10. }
  rewrite transact_once. cbn [fst snd activePipelines client emitted Blockchain.sent].
  rewrite !length_app. cbn [List.length]. fold n.
  replace (n + 1 + 1)%nat with (n + 2)%nat by lia.
  exists [read; verdict; Blockchain.ReleasePayout rid].
  destruct (rpc w (n + 2)%nat) as [h3|f3] eqn:H3;
    cbn [fst snd activePipelines client emitted Blockchain.sent].
  - split.
    + destruct (activePipelines s !! rid);
        cbn [fst snd activePipelines client emitted Blockchain.sent];
        now rewrite <- !app_assoc.
    + right; right; right. split; [reflexivity|]. split; [eauto|]. split; [eauto|].
      split; [reflexivity|]. left. split; [eauto|].
      destruct (activePipelines s !! rid); reflexivity.
  - split; [now rewrite <- !app_assoc|].
    right; right; right. split; [reflexivity|]. split; [eauto|]. split; [eauto|].
    split; [reflexivity|]. right. eauto.
Qed.

Lemma stages1to6_calls (params : Params) (s : Sys) :
  let n := List.length (Blockchain.sent (client s)) in
  let rid := p_requestId params in
  let located := galileo w in
  let fdcResult :=
    Fdc.verifyEvent keccak256 stringifyAttestation now (fdcEnv w)
      (gdacs w) (usgs w) (reliefWeb w) (gal_lat located) (gal_lng located)
      (if String.eqb (p_details params) "" then p_aidType params else p_details params)
      100%float in
  let c := LlmPanel.runConsensus hashTranscript now (panel w) in
  let verifyCall :=
    Blockchain.VerifyRequest rid (gal_proofHash located)
      Fulfillment.ZeroHash Fulfillment.ZeroHash in
  let rejectCall :=
    Blockchain.SubmitConsensus rid false 0 0 (Blockchain.parseUnits6 0)
      (LlmPanel.consensusHash c) (LlmPanel.nodeCount c) (LlmPanel.approvalCount c) in
  let approveCall :=
    Blockchain.SubmitConsensus rid true
      (default 0%N (LlmPanel.recommendedAid c)) (default 0%N (LlmPanel.fulfillerType c))
      (Blockchain.parseUnits6 (default 0 (LlmPanel.estimatedCostUSD c)))
      (LlmPanel.consensusHash c) (LlmPanel.nodeCount c) (LlmPanel.approvalCount c) in
  let assignCall :=
    Blockchain.AssignFulfiller rid
      (getFulfillerAddress ziplineWallet authorityWallet
         (default 0%N (LlmPanel.fulfillerType c))) in
  let out :=
    stages1to6 keccak256 stringifyAttestation hashTranscript now toFixed showNumber
      ziplineWallet authorityWallet w params s in
  let confirmed i := exists h, rpc w i = Blockchain.Confirmed h in
  let failed i := exists fault, rpc w i = Blockchain.Failed fault in
  let stopped := exists e, fst out = Throw e in
  exists calls,
    Blockchain.sent (client (snd out)) = Blockchain.sent (client s) ++ calls /\
    ((calls = [] /\ gal_valid located = false /\ stopped) \/
     (calls = [verifyCall] /\ gal_valid located = true /\
      (failed n \/ confirmed n /\ Fdc.verified fdcResult = false) /\ stopped) \/
     (calls = [verifyCall; rejectCall] /\ gal_valid located = true /\ confirmed n /\
      Fdc.verified fdcResult = true /\ LlmPanel.approved c = false /\ stopped) \/
     (calls = [verifyCall; approveCall] /\ gal_valid located = true /\ confirmed n /\
      Fdc.verified fdcResult = true /\ LlmPanel.approved c = true /\
      failed (n + 1)%nat /\ stopped) \/
     (calls = [verifyCall; approveCall; assignCall] /\ gal_valid located = true /\
      confirmed n /\ Fdc.verified fdcResult = true /\ LlmPanel.approved c = true /\
      confirmed (n + 1)%nat /\
      (failed (n + 2)%nat /\ stopped \/
       confirmed (n + 2)%nat /\ dr_success (dispatch w) = false /\ stopped \/
       confirmed (n + 2)%nat /\ dr_success (dispatch w) = true /\
       fst out = Ok (dispatch w)))).
Proof.
  intros n rid located fdcResult c verifyCall rejectCall approveCall assignCall out
    confirmed failed stopped.
  subst stopped out confirmed failed. cbv beta.
  unfold stages1to6, submitRejection, submitApproval,
    Blockchain.submitVerification, Blockchain.submitConsensusOnChain,
    Blockchain.assignFulfillerOnChain, ledger, zoom, mutate, emit, modify, throw, bind, ret.
  cbn [fst snd activePipelines client emitted].
  fold rid located.
  destruct (gal_valid located) eqn:Hloc; cbn [negb fst snd client].
  2: { exists []. split; [now rewrite app_nil_r|]. left. eauto. }
  rewrite transact_once. cbn [fst snd activePipelines client emitted Blockchain.sent].
  fold n. fold verifyCall.
  destruct (rpc w n) as [h1|f1] eqn:H1;
    cbn [fst snd activePipelines client emitted Blockchain.sent].
  2: { exists [verifyCall]. split; [reflexivity|]. right; left.
       split; [reflexivity|]. split; [reflexivity|]. split; [left; eauto|].
       eauto. }
  fold fdcResult.
  destruct (Fdc.verified fdcResult) eqn:Hfdc;
    cbn [negb fst snd activePipelines client emitted Blockchain.sent].
  2: { exists [verifyCall]. split; [reflexivity|]. right; left.
       split; [reflexivity|]. split; [reflexivity|].
       split; [right; eauto|]. eauto. }
  fold c.
  destruct (LlmPanel.approved c) eqn:Happ;
    cbn [negb fst snd activePipelines client emitted Blockchain.sent];
    rewrite transact_once; cbn [fst snd activePipelines client emitted Blockchain.sent];
    rewrite length_app; cbn [List.length]; fold n.
  2: { exists [verifyCall; rejectCall]. split.
       - destruct (rpc w (n + 1)%nat);
           cbn [fst snd activePipelines client emitted Blockchain.sent];
           now rewrite <- app_assoc.
       - right; right; left.          split; [reflexivity|]. split; [reflexivity|]. split; [eauto|].
         split; [reflexivity|]. split; [reflexivity|].
         destruct (rpc w (n + 1)%nat); cbn [fst snd]; eauto. }
  fold approveCall.
  destruct (rpc w (n + 1)%nat) as [h2|f2] eqn:H2;
    cbn [fst snd activePipelines client emitted Blockchain.sent].
  2: { exists [verifyCall; approveCall]. split; [now rewrite <- app_assoc|].
       right; right; right; left.        split; [reflexivity|]. split; [reflexivity|]. split; [eauto|].
       split; [reflexivity|]. split; [reflexivity|]. split; eauto. }
  rewrite transact_once. cbn [fst snd activePipelines client emitted Blockchain.sent].
  rewrite !length_app. cbn [List.length]. fold n.
  replace (n + 1 + 1)%nat with (n + 2)%nat by lia.
  fold assignCall.
  exists [verifyCall; approveCall; assignCall].
  destruct (rpc w (n + 2)%nat) as [h3|f3] eqn:H3;
    cbn [fst snd activePipelines client emitted Blockchain.sent].
  2: { split; [now rewrite <- !app_assoc|].
       right; right; right; right.        split; [reflexivity|]. split; [reflexivity|]. split; [eauto|].
       split; [reflexivity|]. split; [reflexivity|]. split; [eauto|].
       left. eauto. }
  destruct (dr_success (dispatch w)) eqn:Hd;
    cbn [negb fst snd activePipelines client emitted Blockchain.sent].
  - split; [now rewrite <- !app_assoc|].
    right; right; right; right.     split; [reflexivity|]. split; [reflexivity|]. split; [eauto|].
    split; [reflexivity|]. split; [reflexivity|]. split; [eauto|].
    right; right. eauto.
  - split; [now rewrite <- !app_assoc|].
    right; right; right; right.     split; [reflexivity|]. split; [reflexivity|]. split; [eauto|].
    split; [reflexivity|]. split; [reflexivity|]. split; [eauto|].
    right; left. eauto.
Qed.

(** X9: [executePipeline] writes to the ledger in a fixed order and
    stops at the first failure: nothing when the location check fails;
    the verification record alone when that write fails or no event is
    found; then the panel's verdict, a rejection ending the run; the
    fulfiller is assigned only after an approving verdict was written
    and confirmed.  The run succeeds exactly when all three writes are
    confirmed and the dispatch succeeds. *)
Theorem executePipeline_ledger_calls (params : Params) (s : Sys) :
  let n := List.length (Blockchain.sent (client s)) in
  let rid := p_requestId params in
  let located := galileo w in
  let fdcResult :=
    Fdc.verifyEvent keccak256 stringifyAttestation now (fdcEnv w)
      (gdacs w) (usgs w) (reliefWeb w) (gal_lat located) (gal_lng located)
      (if String.eqb (p_details params) "" then p_aidType params else p_details params)
      100%float in
  let c := LlmPanel.runConsensus hashTranscript now (panel w) in
  let verifyCall :=
    Blockchain.VerifyRequest rid (gal_proofHash located)
      Fulfillment.ZeroHash Fulfillment.ZeroHash in
  let rejectCall :=
    Blockchain.SubmitConsensus rid false 0 0 (Blockchain.parseUnits6 0)
      (LlmPanel.consensusHash c) (LlmPanel.nodeCount c) (LlmPanel.approvalCount c) in
  let approveCall :=
    Blockchain.SubmitConsensus rid true
      (default 0%N (LlmPanel.recommendedAid c)) (default 0%N (LlmPanel.fulfillerType c))
      (Blockchain.parseUnits6 (default 0 (LlmPanel.estimatedCostUSD c)))
      (LlmPanel.consensusHash c) (LlmPanel.nodeCount c) (LlmPanel.approvalCount c) in
  let assignCall :=
    Blockchain.AssignFulfiller rid
      (getFulfillerAddress ziplineWallet authorityWallet
         (default 0%N (LlmPanel.fulfillerType c))) in
  let out :=
    executePipeline keccak256 stringifyAttestation hashTranscript now nowMs toFixed
      showNumber ziplineWallet authorityWallet w params s in
  let confirmed i := exists h, rpc w i = Blockchain.Confirmed h in
  let failed i := exists fault, rpc w i = Blockchain.Failed fault in
  let stopped := exists msg stage st, fst out = Ok (PipelineFailure msg stage st) in
  exists calls,
    Blockchain.sent (client (snd out)) = Blockchain.sent (client s) ++ calls /\
    ((calls = [] /\ gal_valid located = false /\ stopped) \/
     (calls = [verifyCall] /\ gal_valid located = true /\
      (failed n \/ confirmed n /\ Fdc.verified fdcResult = false) /\ stopped) \/
     (calls = [verifyCall; rejectCall] /\ gal_valid located = true /\ confirmed n /\
      Fdc.verified fdcResult = true /\ LlmPanel.approved c = false /\ stopped) \/
     (calls = [verifyCall; approveCall] /\ gal_valid located = true /\ confirmed n /\
      Fdc.verified fdcResult = true /\ LlmPanel.approved c = true /\
      failed (n + 1)%nat /\ stopped) \/
     (calls = [verifyCall; approveCall; assignCall] /\ gal_valid located = true /\
      confirmed n /\ Fdc.verified fdcResult = true /\ LlmPanel.approved c = true /\
      confirmed (n + 1)%nat /\
      (failed (n + 2)%nat /\ stopped \/
       confirmed (n + 2)%nat /\ dr_success (dispatch w) = false /\ stopped \/
       confirmed (n + 2)%nat /\ dr_success (dispatch w) = true /\
       exists st, fst out = Ok (PipelineSuccess st (dispatch w))))).
Proof.
  intros n rid located fdcResult c verifyCall rejectCall approveCall assignCall out
    confirmed failed stopped.
  set (state := {| requestId := rid; currentStage := STAGE_REQUEST; startTime := nowMs;
                   stages := []; error := None |}).
  set (s1 := snd (registrySet rid state s)).
  assert (Hc : client s1 = client s) by reflexivity.
  assert (Hout : out = tryCatch
    (let! dispatchResult := stages1to6 keccak256 stringifyAttestation hashTranscript now
        toFixed showNumber ziplineWallet authorityWallet w params in
     let! st := registryGet rid in
     ret (PipelineSuccess (default state st) dispatchResult))
    (fun err =>
       run! mutate rid (setError (message_of err)) in
       let! st := registryGet rid in
       let stage :=
         match err with
         | PipelineError stage _ => StageName stage
         | _ => StageNumber (currentStage (default state st))
         end in
       run! emit rid stage None (message_of err) in
       ret (PipelineFailure (message_of err) stage (default state st))) s1) by reflexivity.
  destruct (stages1to6_calls params s1) as (calls & Hsent & Hcases).
  rewrite Hc in Hsent, Hcases. fold n rid located fdcResult c in Hcases.
  fold verifyCall rejectCall approveCall assignCall in Hcases.
  remember (stages1to6 keccak256 stringifyAttestation hashTranscript now
        toFixed showNumber ziplineWallet authorityWallet w params s1) as r eqn:Hr.
  destruct r as [[d|e] s2].
  - (* the body returned *)
    assert (Hfst : exists st, fst out = Ok (PipelineSuccess st d) /\
                     client (snd out) = client s2).
    { rewrite Hout. unfold tryCatch, bind, registryGet, gets, ret. rewrite <- Hr.
      cbn [fst snd]. eauto. }
    destruct Hfst as (st & Hfst & Hcl).
    exists calls. rewrite Hcl. split; [exact Hsent|].
    cbn [fst snd] in Hcases.
    destruct Hcases as [(? & ? & e & He)|[(? & ? & ? & e & He)|[(? & ? & ? & ? & ? & e & He)|
      [(? & ? & ? & ? & ? & ? & e & He)|(? & ? & ? & ? & ? & ? & Hlast)]]]]; try discriminate He.
    right; right; right; right.
    repeat (split; [assumption|]).
    destruct Hlast as [(? & e & He)|[(? & ? & e & He)|(? & ? & Hd)]]; try discriminate He.
    right; right. split; [assumption|]. split; [assumption|].
    injection Hd as <-. eauto.
  - (* the body threw *)
    assert (Hfst : (exists msg stage st, fst out = Ok (PipelineFailure msg stage st)) /\
                     client (snd out) = client s2).
    { rewrite Hout. unfold tryCatch, bind, registryGet, gets, ret, mutate, modify, emit.
      rewrite <- Hr. cbn [fst snd client]. eauto. }
    destruct Hfst as (Hstop & Hcl).
    exists calls. rewrite Hcl. split; [exact Hsent|].
    cbn [fst snd] in Hcases.
    destruct Hcases as [(? & ? & _)|[(? & ? & ? & _)|[(? & ? & ? & ? & ? & _)|
      [(? & ? & ? & ? & ? & ? & _)|(? & ? & ? & ? & ? & ? & Hlast)]]]].
    + left. auto.
    + right; left. auto.
    + right; right; left. auto 10.
    + right; right; right; left. auto 10.
    + right; right; right; right.
      repeat (split; [assumption|]).
      destruct Hlast as [(? & _)|[(? & ? & _)|(? & ? & Hd)]]; [auto|auto|discriminate Hd].
Qed.

End LedgerDiscipline.

(** ** The engine's verdict on the ledger *)

Section VerdictOnLedger.
Import Evm IAidChain Protocol.

Lemma validResults_all (results : list LlmPanel.NodeResult) :
  LlmPanel.failedNodes results = [] ->
  List.length (LlmPanel.validResults results) = List.length results.
Proof.
  unfold LlmPanel.failedNodes.
  induction results as [|r rest IH]; [reflexivity|].
  cbn [List.filter LlmPanel.validResults].
  destruct (LlmPanel.decision r); [|discriminate].
  intros Hf. cbn [List.length]. now rewrite IH.
Qed.

Lemma filter_length_le {A} (f : A -> bool) (l : list A) :
  (List.length (List.filter f l) <= List.length l)%nat.
Proof.
  induction l as [|x l IH]; cbn [List.filter List.length]; [lia|].
  destruct (f x); cbn [List.length]; lia.
Qed.

(** X11: when every node of the panel answered, the ledger takes the
    engine's verdict as it is: for a panel of 3 to 85 nodes,
    [submitConsensus] called by a panel operator on a verified request
    with the engine's node count and approval count goes through, and
    leaves the request Approved when the engine approved and Rejected
    when it did not. *)
Theorem full_panel_verdict_is_accepted
    (hashTranscript : LlmPanel.Transcript -> string) (now : string)
    (results : list LlmPanel.NodeResult)
    (aidChainAddr fundPoolAddr : address)
    (verifier : address -> address -> bytes32 -> string -> VerificationRegistry.StaticCall)
    (operator : address) (at_ requestId aid fulfillerType' cost : Z) (st : Chain) :
  let c := LlmPanel.runConsensus hashTranscript now results in
  let tx :=
    {| sender := operator; timestamp := at_;
       call := SubmitConsensus requestId (LlmPanel.approved c) aid fulfillerType' cost
                 (LlmPanel.consensusHash c) (Z.of_nat (LlmPanel.nodeCount c))
                 (Z.of_nat (LlmPanel.approvalCount c)) |} in
  LlmPanel.failedNodes results = [] ->
  (3 <= List.length results <= 85)%nat ->
  is_uint8 aid = true -> is_uint8 fulfillerType' = true -> is_uint256 cost = true ->
  isPanelOperator operator st = true ->
  0 <= requestId < nextRequestId (aidChain st) ->
  nextRequestId (aidChain st) <= MAX_UINT256 ->
  status (request requestId st) = AidChain.Verified ->
  exists st',
    exec aidChainAddr fundPoolAddr verifier tx st = Success (tt, st') /\
    status (request requestId st') =
      (if LlmPanel.approved c then AidChain.Approved else AidChain.Rejected).
Proof.
  intros c tx Hall Hlen Haid Hft Hcost Hop Hid Hnext Hst.
  pose proof (validResults_all results Hall) as Hvalid.
  pose proof (filter_length_le (fun rd => LlmPanel.dec_approved (snd rd))
                (LlmPanel.validResults results)) as Hle.
  assert (Hc : LlmPanel.nodeCount c = List.length results /\
               LlmPanel.approvalCount c =
                 List.length (List.filter (fun rd => LlmPanel.dec_approved (snd rd))
                                (LlmPanel.validResults results)) /\
               LlmPanel.approved c =
                 (List.length results * 2 <?
                  List.length (List.filter (fun rd => LlmPanel.dec_approved (snd rd))
                                 (LlmPanel.validResults results)) * 3)%nat).
  { subst c. unfold LlmPanel.runConsensus. rewrite Hvalid.
    destruct (List.length results <? 3)%nat eqn:Hq; [apply Nat.ltb_lt in Hq; lia|].
    cbn [LlmPanel.nodeCount LlmPanel.approvalCount LlmPanel.approved]. auto. }
  destruct Hc as (Hn & Ha & Happ).
  set (k := List.length (List.filter (fun rd => LlmPanel.dec_approved (snd rd))
                           (LlmPanel.validResults results))) in *.
  rewrite Hvalid in Hle.
  subst tx. unfold exec. cbn [call wellTyped].
  rewrite Hn, Ha.
  assert (Hty :
    is_uint256 requestId && is_uint8 aid && is_uint8 fulfillerType' && is_uint256 cost &&
    is_uint8 (Z.of_nat (List.length results)) && is_uint8 (Z.of_nat k) = true).
  { rewrite Haid, Hft, Hcost. unfold is_uint256, is_uint8.
    repeat (apply andb_true_iff; split); try reflexivity;
      try (apply Z.leb_le; lia). }
  rewrite Hty. unfold dispatch. cbn [call sender timestamp].
  unfold submitConsensus, onlyPanelOperator, requestExists, supermajority, setRequest,
    onAidChain, bind, gets, require, modify, ret.
  rewrite Hop. cbn [negb].
  replace (requestId <? nextRequestId (aidChain st)) with true
    by (symmetry; apply Z.ltb_lt; lia).
  rewrite Hst. cbn [statusIs statusCode Z.eqb Pos.eqb].
  replace (3 <=? Z.of_nat (List.length results)) with true
    by (symmetry; apply Z.leb_le; lia).
  rewrite Happ.
  destruct (List.length results * 2 <? k * 3)%nat eqn:Hv; cbn [negb].
  - apply Nat.ltb_lt in Hv. unfold AidChain.mul_uint8.
    replace (Z.of_nat k * 3 <=? 255) with true by (symmetry; apply Z.leb_le; lia).
    replace (Z.of_nat (List.length results) * 2 <=? 255) with true
      by (symmetry; apply Z.leb_le; lia).
    replace (Z.of_nat (List.length results) * 2 <? Z.of_nat k * 3) with true
      by (symmetry; apply Z.ltb_lt; lia).
    eexists. split; [reflexivity|].
    unfold request. cbn [aidChain aidRequests]. rewrite lookup_insert_eq. reflexivity.
  - eexists. split; [reflexivity|].
    unfold request. cbn [aidChain aidRequests]. rewrite lookup_insert_eq. reflexivity.
Qed.

End VerdictOnLedger.

(** On the local deployment: the verdict of the panel of five with four
    approvals is recorded as Approved. *)
Lemma full_panel_verdict_is_accepted_witness :
  let c := LlmPanel.runConsensus (fun _ => "0xb8") "t" evenPanel in
  exists st',
    Protocol.exec aidChainAddress fundPoolAddress noVerifier
      (sent deployerAccount 1060
         (Protocol.SubmitConsensus 0 (LlmPanel.approved c) 0 0 300000000
            (LlmPanel.consensusHash c) (Z.of_nat (LlmPanel.nodeCount c))
            (Z.of_nat (LlmPanel.approvalCount c))))
      awaitingConsensus = Evm.Success (tt, st') /\
    IAidChain.status (Protocol.request 0 st') = AidChain.Approved.
Proof.
  apply (full_panel_verdict_is_accepted (fun _ => "0xb8") "t" evenPanel
           aidChainAddress fundPoolAddress noVerifier deployerAccount 1060 0 0 0 300000000
           awaitingConsensus).
  - reflexivity.
  - cbn [evenPanel List.length]. lia.
  - reflexivity.
  - reflexivity.
  - reflexivity.
  - vm_compute. reflexivity.
  - vm_compute. split; [discriminate|reflexivity].
  - vm_compute. discriminate.
  - vm_compute. reflexivity.
Defined.

(** ** De-duplication loses no event; verification needs only an event *)

Section CoverageFacts.
Context `{JsMath}.
Import Fdc.

Lemma obj_set_fresh {V} (k : string) (v : V) (o : Js.Obj V) :
  Js.obj_has k o = false ->
  exists l1 l2, o = l1 ++ l2 /\ Js.obj_set k v o = l1 ++ (k, v) :: l2.
Proof.
  intros Hfresh. unfold Js.obj_set. rewrite Hfresh.
  destruct (Js.array_index k) as [n|].
  - apply obj_insert_index_decomp.
  - exists o, []. now rewrite app_nil_r.
Qed.

Lemma obj_has_key {V} (k : string) (o : Js.Obj V) :
  Js.obj_has k o = true -> exists v, In (k, v) o.
Proof.
  unfold Js.obj_has. intros Hhas. apply existsb_exists in Hhas as ([k' v] & Hin & Hk).
  apply String.eqb_eq in Hk. cbn [fst] in Hk. subst k'. now exists v.
Qed.

Lemma standsFor_merged (existing event e : Event) :
  standsFor existing e -> standsFor (mergeSources existing event) e.
Proof.
  intros (Ht & Hs & Hsite). split; [exact Ht|]. split.
  - intros s Hin. cbn [mergeSources sources]. apply set_spread_In, in_or_app. auto.
  - exact Hsite.
Qed.

Lemma standsFor_absorbed (existing event : Event) :
  sameTypeWithin50 existing event = true ->
  standsFor (mergeSources existing event) event.
Proof.
  intros Hnear. apply sameTypeWithin50_true in Hnear as [Ht Hnear].
  split; [exact Ht|]. split.
  - intros s Hin. cbn [mergeSources sources]. apply set_spread_In, in_or_app. auto.
  - right. exact Hnear.
Qed.

Lemma standsFor_self (e : Event) : standsFor e e.
Proof. split; [reflexivity|]. split; [apply incl_refl|left; split; reflexivity]. Qed.

(** What the outer loop maintains when no two events share an
    identifier: every key is the identifier of its group and of an
    event seen so far, and every event seen so far has a group. *)
Lemma dedupStep_covers (seen : list Event) (grouped : Js.Obj Event) (event : Event) :
  ~ In (id event) (List.map id seen) ->
  (forall k v, In (k, v) grouped -> k = id v /\ In (id v) (List.map id seen)) ->
  (forall e, In e seen -> exists g, In g (Js.obj_values grouped) /\ standsFor g e) ->
  (forall k v, In (k, v) (dedupStep grouped event) ->
     k = id v /\ In (id v) (List.map id (seen ++ [event]))) /\
  (forall e, In e (seen ++ [event]) ->
     exists g, In g (Js.obj_values (dedupStep grouped event)) /\ standsFor g e).
Proof.
  intros Hnew Hkeys Hcov. unfold dedupStep.
  destruct (mergeInto event grouped) as [grouped'|] eqn:Hm.
  - apply mergeInto_Some in Hm as (l1 & key & existing & l2 & -> & -> & Hnear & _).
    split.
    + intros k v Hin. rewrite map_app. rewrite in_app_iff.
      apply in_app_or in Hin as [Hin|[Hin|Hin]].
      * destruct (Hkeys k v) as [Hk Hid]; [apply in_or_app; tauto|]. tauto.
      * injection Hin as <- <-.
        destruct (Hkeys key existing) as [Hk Hid]; [apply in_or_app; simpl; tauto|].
        cbn [mergeSources id]. tauto.
      * destruct (Hkeys k v) as [Hk Hid]; [apply in_or_app; simpl; tauto|]. tauto.
    + intros e He. rewrite obj_values_app. cbn [Js.obj_values List.map snd].
      fold (Js.obj_values l2).
      apply in_app_or in He as [He|[<-|[]]].
      * destruct (Hcov e He) as (g & Hg & Hs).
        rewrite obj_values_app in Hg. cbn [Js.obj_values List.map snd] in Hg.
        fold (Js.obj_values l2) in Hg.
        apply in_app_or in Hg as [Hg|[<-|Hg]].
        -- exists g. split; [apply in_or_app; tauto|exact Hs].
        -- exists (mergeSources existing event).
           split; [apply in_or_app; simpl; tauto|now apply standsFor_merged].
        -- exists g. split; [apply in_or_app; simpl; tauto|exact Hs].
      * exists (mergeSources existing event).
        split; [apply in_or_app; simpl; tauto|now apply standsFor_absorbed].
  - assert (Hfresh : Js.obj_has (id event) grouped = false).
    { destruct (Js.obj_has (id event) grouped) eqn:Hhas; [|reflexivity].
      apply obj_has_key in Hhas as [v Hv].
      destruct (Hkeys _ _ Hv) as [Hk Hid]. rewrite <- Hk in Hid. contradiction. }
    destruct (obj_set_fresh (id event) event grouped Hfresh) as (l1 & l2 & -> & ->).
    split.
    + intros k v Hin. rewrite map_app. rewrite in_app_iff.
      apply in_app_or in Hin as [Hin|[Hin|Hin]].
      * destruct (Hkeys k v) as [Hk Hid]; [apply in_or_app; tauto|]. tauto.
      * injection Hin as <- <-. simpl. tauto.
      * destruct (Hkeys k v) as [Hk Hid]; [apply in_or_app; tauto|]. tauto.
    + intros e He. rewrite obj_values_app. cbn [Js.obj_values List.map snd].
      fold (Js.obj_values l2).
      apply in_app_or in He as [He|[<-|[]]].
      * destruct (Hcov e He) as (g & Hg & Hs).
        rewrite obj_values_app in Hg. exists g. split; [|exact Hs].
        apply in_app_or in Hg. apply in_or_app. simpl. tauto.
      * exists event. split; [apply in_or_app; simpl; tauto|apply standsFor_self].
Qed.

Lemma fold_dedupStep_covers (rest seen : list Event) (grouped : Js.Obj Event) :
  List.NoDup (List.map id (seen ++ rest)) ->
  (forall k v, In (k, v) grouped -> k = id v /\ In (id v) (List.map id seen)) ->
  (forall e, In e seen -> exists g, In g (Js.obj_values grouped) /\ standsFor g e) ->
  forall e, In e (seen ++ rest) ->
    exists g, In g (Js.obj_values (fold_left dedupStep rest grouped)) /\ standsFor g e.
Proof.
  revert seen grouped. induction rest as [|event rest IH]; intros seen grouped Hnd Hkeys Hcov.
  - rewrite app_nil_r. exact Hcov.
  - cbn [fold_left].
    assert (Hnew : ~ In (id event) (List.map id seen)).
    { rewrite map_app in Hnd. cbn [List.map] in Hnd.
      apply List.NoDup_remove_2 in Hnd. intros Hin. apply Hnd, in_or_app. tauto. }
    destruct (dedupStep_covers seen grouped event Hnew Hkeys Hcov) as [Hkeys' Hcov'].
    replace (seen ++ event :: rest) with ((seen ++ [event]) ++ rest) in *
      by now rewrite <- app_assoc.
    apply IH; assumption.
Qed.

(** Whatever holds of every input event and is kept when a group
    absorbs the sources of another event holds of every group. *)
Lemma deduplicateEvents_Forall (P : Event -> Prop) (events : list Event) :
  (forall existing event, P existing -> P (mergeSources existing event)) ->
  (forall e, In e events -> P e) ->
  forall v, In v (deduplicateEvents events) -> P v.
Proof.
  intros Hmerge. unfold deduplicateEvents.
  assert (Hgen : forall evs grouped,
            (forall e, In e evs -> P e) ->
            (forall v, In v (Js.obj_values grouped) -> P v) ->
            forall v, In v (Js.obj_values (fold_left dedupStep evs grouped)) -> P v).
  { induction evs as [|e evs IH]; cbn [fold_left]; intros grouped Hevs Hg; [assumption|].
    apply IH; [intros x Hx; apply Hevs; now right|].
    unfold dedupStep. destruct (mergeInto e grouped) as [grouped'|] eqn:Hm.
    - apply mergeInto_Some in Hm as (l1 & key & existing & l2 & -> & -> & _ & _).
      intros v Hv. rewrite obj_values_app in Hv, Hg.
      cbn [Js.obj_values List.map snd] in Hv, Hg.
      apply in_app_or in Hv as [Hv|[<-|Hv]].
      + apply Hg, in_or_app. tauto.
      + apply Hmerge, Hg, in_or_app. simpl. tauto.
      + apply Hg, in_or_app. simpl. tauto.
    - destruct (obj_set_decomp (id e) e grouped) as (l1 & l2 & -> & Hdec).
      intros v Hv. rewrite obj_values_app in Hv. cbn [Js.obj_values List.map snd] in Hv.
      apply in_app_or in Hv as [Hv|[<-|Hv]].
      + apply Hg. destruct Hdec as [->|[y ->]]; rewrite obj_values_app;
          apply in_or_app; simpl; tauto.
      + apply Hevs. now left.
      + apply Hg. destruct Hdec as [->|[y ->]]; rewrite obj_values_app;
          apply in_or_app; simpl; tauto. }
  intros Hevs. apply Hgen; [assumption|]. intros v [].
Qed.

Lemma dedupStep_nonempty (grouped : Js.Obj Event) (event : Event) :
  dedupStep grouped event <> [].
Proof.
  unfold dedupStep. destruct (mergeInto event grouped) as [grouped'|] eqn:Hm.
  - apply mergeInto_Some in Hm as (l1 & key & existing & l2 & _ & -> & _).
    now destruct l1.
  - destruct (obj_set_decomp (id event) event grouped) as (l1 & l2 & -> & _).
    now destruct l1.
Qed.

Lemma deduplicateEvents_nonempty (events : list Event) :
  events <> [] -> deduplicateEvents events <> [].
Proof.
  unfold deduplicateEvents.
  assert (Hgen : forall evs grouped,
            grouped <> [] -> fold_left dedupStep evs grouped <> []).
  { induction evs as [|e evs IH]; cbn [fold_left]; intros grouped Hg; [assumption|].
    apply IH, dedupStep_nonempty. }
  destruct events as [|e events]; [congruence|]. intros _. cbn [fold_left].
  intros Hnil. apply map_eq_nil in Hnil. revert Hnil.
  apply Hgen, dedupStep_nonempty.
Qed.

Lemma sortByScore_nonempty (l : list ScoredEvent) : l <> [] -> sortByScore l <> [].
Proof.
  destruct l as [|x l]; [congruence|]. intros _. cbn [sortByScore fold_right].
  fold (sortByScore l). destruct (sortByScore l) as [|y l']; cbn [insertByScore];
    [discriminate|]. destruct (score x <? score y)%float; discriminate.
Qed.

Lemma allEvents_active env gd us rw lat0 lng0 radius (e : Event) :
  In e (allEvents env gd us rw lat0 lng0 radius) -> active e = true.
Proof.
  unfold allEvents, queryGDACS, queryUSGS, queryReliefWeb.
  intros Hin. apply in_app_or in Hin as [Hin|Hin]; [|apply in_app_or in Hin as [Hin|Hin]].
  - destruct env.
    + unfold parseGDACSEvents in Hin. destruct gd as [features|]; [|destruct Hin].
      apply filter_In in Hin as [Hin _]. apply in_map_iff in Hin as (f & <- & _).
      reflexivity.
    + destruct Hin as [<-|[<-|[]]]; reflexivity.
  - destruct env; [|destruct Hin].
    unfold parseUSGSEvents in Hin. destruct us as [features|]; [|destruct Hin].
    apply in_map_iff in Hin as (f & <- & _). reflexivity.
  - destruct env; [|destruct Hin].
    unfold parseReliefWebEvents in Hin. destruct rw as [items|]; [|destruct Hin].
    apply filter_In in Hin as [Hin _]. apply in_map_iff in Hin as (d & <- & _).
    reflexivity.
Qed.

End CoverageFacts.

(** X12: when no two input events share an identifier, and none has
    the identifier [__proto__] (which names no property of an
    object), [deduplicateEvents] loses none of them: every input event
    has a group in the output of its type, which lists its sources
    and whose centre is the event's or under 50 km away from it. *)
Theorem deduplicateEvents_loses_no_event `{JsMath}
    (events : list Fdc.Event) (e : Fdc.Event) :
  List.NoDup (List.map Fdc.id events) ->
  ~ In "__proto__" (List.map Fdc.id events) ->
  In e events ->
  exists g, In g (Fdc.deduplicateEvents events) /\
    Fdc.type g = Fdc.type e /\
    incl (Fdc.sources e) (Fdc.sources g) /\
    (Fdc.lat g = Fdc.lat e /\ Fdc.lng g = Fdc.lng e \/
     (Geo.haversineDistance (Fdc.lat g) (Fdc.lng g) (Fdc.lat e) (Fdc.lng e) / 1000
      <? 50)%float = true).
Proof.
  intros Hnd _ He. unfold Fdc.deduplicateEvents.
  apply (fold_dedupStep_covers events [] []); [exact Hnd| | |exact He].
  - intros k v [].
  - intros x [].
Qed.

(** On the three reported events: the relief report of the flood is
    found in the flood group of the first provider, whose centre is
    under 50 km from the one reported. *)
Lemma deduplicateEvents_loses_no_event_witness :
  exists g e, nth_error reportedEvents 1 = Some e /\
    In g (@Fdc.deduplicateEvents planarMath reportedEvents) /\
    Fdc.type g = "flood" /\ In "ReliefWeb" (Fdc.sources g) /\
    (Fdc.lat g = Fdc.lat e /\ Fdc.lng g = Fdc.lng e \/
     (@Geo.haversineDistance planarMath (Fdc.lat g) (Fdc.lng g) (Fdc.lat e) (Fdc.lng e)
      / 1000 <? 50)%float = true).
Proof.
  assert (Hin : exists e, nth_error reportedEvents 1 = Some e /\
                          Fdc.type e = "flood" /\ Fdc.sources e = ["ReliefWeb"]).
  { eexists. split; [reflexivity|]. split; reflexivity. }
  destruct Hin as (e & Hnth & Ht & Hs).
  destruct (@deduplicateEvents_loses_no_event planarMath reportedEvents e)
    as (g & Hg & Htype & Hsrc & Hnear).
  - vm_compute. repeat constructor; simpl; intuition discriminate.
  - vm_compute. intuition discriminate.
  - eapply nth_error_In. exact Hnth.
  - exists g, e. split; [exact Hnth|]. split; [exact Hg|]. split; [congruence|].
    split; [|exact Hnear]. apply Hsrc. rewrite Hs. now left.
Defined.

(** X13: [verifyEvent] succeeds as soon as the providers return any
    event at all: it fails, with "No active events found in the
    vicinity", exactly when the three queries together return
    nothing; otherwise it is verified and attests one of the
    de-duplicated events, whatever the claimed situation says.  In the
    development environment it always succeeds. *)
Theorem verifyEvent_needs_only_an_event `{JsMath}
    (keccak256 : string -> string) (stringifyAttestation : Fdc.FdcAttestation -> string)
    (now : string) (env : Fdc.Env)
    (gdacs : option (list Fdc.GdacsFeature)) (usgs : option (list Fdc.UsgsFeature))
    (reliefWeb : option (list Fdc.ReliefWebItem))
    (lat0 lng0 : float) (claimedEvent : string) (radius : float) :
  let all := Fdc.allEvents env gdacs usgs reliefWeb lat0 lng0 radius in
  let r :=
    Fdc.verifyEvent keccak256 stringifyAttestation now env gdacs usgs reliefWeb
      lat0 lng0 claimedEvent radius in
  (all = [] /\
   r = Fdc.failedVerification "No active events found in the vicinity" [] \/
   all <> [] /\ Fdc.verified r = true /\ Fdc.reason r = None /\
   Fdc.events r = Fdc.deduplicateEvents all /\
   exists best, In best (Fdc.deduplicateEvents all) /\
     option_map Fdc.eventId (Fdc.event r) = Some (Fdc.id best) /\
     Fdc.eventIdHash r = Some (keccak256 (Fdc.id best))) /\
  (env = Fdc.Development -> Fdc.verified r = true).
Proof.
  intros all r.
  assert (Hmain :
    all = [] /\
    r = Fdc.failedVerification "No active events found in the vicinity" [] \/
    all <> [] /\ Fdc.verified r = true /\ Fdc.reason r = None /\
    Fdc.events r = Fdc.deduplicateEvents all /\
    exists best, In best (Fdc.deduplicateEvents all) /\
      option_map Fdc.eventId (Fdc.event r) = Some (Fdc.id best) /\
      Fdc.eventIdHash r = Some (keccak256 (Fdc.id best))).
  { subst r. unfold Fdc.verifyEvent. fold all.
    destruct all as [|e0 rest] eqn:Hall; [left; split; reflexivity|].
    right. split; [discriminate|].
    rewrite <- Hall.
    assert (Hne : Fdc.deduplicateEvents all <> []).
    { apply deduplicateEvents_nonempty. rewrite Hall. discriminate. }
    destruct (Fdc.findBestMatch (Fdc.deduplicateEvents all) lat0 lng0 claimedEvent)
      as [best|] eqn:Hbest.
    - destruct (findBestMatch_scored _ _ _ _ _ Hbest) as [Hin _].
      assert (Hact : Fdc.active (Fdc.scored_event best) = true).
      { apply (deduplicateEvents_Forall (fun e => Fdc.active e = true) all);
          [intros existing event Hex; exact Hex| |exact Hin].
        intros e He. subst all. eapply allEvents_active. exact He. }
      rewrite Hact. cbn [negb Fdc.verified Fdc.reason Fdc.events Fdc.event Fdc.eventIdHash
                         option_map Fdc.eventId].
      repeat (split; [reflexivity|]).
      exists (Fdc.scored_event best). split; [exact Hin|]. split; reflexivity.
    - exfalso. unfold Fdc.findBestMatch in Hbest.
      destruct (Fdc.deduplicateEvents all) as [|d ds] eqn:Hd; [congruence|].
      pose proof (sortByScore_nonempty
                    (List.map (Fdc.scoreEvent lat0 lng0) (d :: ds))) as Hs.
      destruct (Fdc.sortByScore (List.map (Fdc.scoreEvent lat0 lng0) (d :: ds)));
        [apply Hs; [discriminate|reflexivity]|discriminate]. }
  split; [exact Hmain|].
  intros ->. destruct Hmain as [[Hnil _]|(_ & Hv & _)]; [|exact Hv].
  subst all. unfold Fdc.allEvents, Fdc.queryGDACS, Fdc.simulatedGDACS in Hnil.
  discriminate Hnil.
Qed.

(** ** Isolation of the WebSocket clients *)

Section FeedFacts.
Import Server Feed.

Lemma eventsSentTo_app (wsId : nat) (clients : list Ws)
    (sent1 sent2 : list (nat * ServerMessage)) :
  eventsSentTo wsId {| wsClients := clients; outbox := sent1 ++ sent2 |}
  = eventsSentTo wsId {| wsClients := clients; outbox := sent1 |} ++
    eventsSentTo wsId {| wsClients := clients; outbox := sent2 |}.
Proof. unfold eventsSentTo. cbn [outbox]. apply flat_map_app. Qed.

Lemma eventsSentTo_clients (wsId : nat) (clients clients' : list Ws)
    (sent : list (nat * ServerMessage)) :
  eventsSentTo wsId {| wsClients := clients; outbox := sent |}
  = eventsSentTo wsId {| wsClients := clients'; outbox := sent |}.
Proof. reflexivity. Qed.

(** The events one broadcast adds for a socket are decided by the
    entries of that socket alone. *)
Lemma eventsSentTo_broadcast (wsId : nat) (event : Pipeline.PipelineEvent)
    (clients : list Ws) :
  eventsSentTo wsId
    {| wsClients := clients;
       outbox := List.map (fun ws => (ws_id ws, PipelineEventMessage event))
                   (List.filter (fun ws => receives ws event) clients) |}
  = List.map (fun _ => event)
      (List.filter (fun ws => receives ws event)
         (List.filter (fun c => Nat.eqb (ws_id c) wsId) clients)).
Proof.
  unfold eventsSentTo. cbn [outbox].
  induction clients as [|c clients IH]; [reflexivity|].
  cbn [List.filter]. destruct (receives c event) eqn:Hr.
  - cbn [List.map flat_map]. destruct (Nat.eqb (ws_id c) wsId) eqn:Hid.
    + cbn [List.filter]. rewrite Hr. cbn [List.map app]. now rewrite IH.
    + cbn [app]. exact IH.
  - destruct (Nat.eqb (ws_id c) wsId) eqn:Hid; [|exact IH].
    cbn [List.filter]. rewrite Hr. exact IH.
Qed.

Lemma filter_filter_comm {A} (f g : A -> bool) (l : list A) :
  List.filter f (List.filter g l) = List.filter g (List.filter f l).
Proof.
  induction l as [|x l IH]; [reflexivity|]. cbn [List.filter].
  destruct (f x) eqn:Hf, (g x) eqn:Hg; cbn [List.filter];
    rewrite ?Hf, ?Hg, ?IH; reflexivity.
Qed.

Lemma existsb_filter_id (wsId : nat) (clients : list Ws) :
  existsb (fun c => Nat.eqb (ws_id c) wsId) clients
  = match List.filter (fun c => Nat.eqb (ws_id c) wsId) clients with
    | [] => false
    | _ => true
    end.
Proof.
  induction clients as [|c clients IH]; [reflexivity|].
  cbn [existsb List.filter]. destruct (Nat.eqb (ws_id c) wsId); [reflexivity|exact IH].
Qed.

(** The view of a socket after an input is decided by its view before
    and the input; an input from another socket leaves it alone. *)
Lemma view_handle (wsId : nat) (i : Input) (s1 s2 : ServerState) :
  view wsId s1 = view wsId s2 ->
  view wsId (handle s1 i) = view wsId (handle s2 i).
Proof.
  unfold view. intros [= Hc He]. destruct i as [j|j msg|j|event]; cbn [handle].
  - unfold onConnection. cbn [wsClients]. f_equal.
    + rewrite !existsb_filter_id.
      destruct (Nat.eqb j wsId) eqn:Hj.
      * apply Nat.eqb_eq in Hj. subst j. rewrite Hc.
        destruct (List.filter _ (wsClients s2)) eqn:Hf; [|congruence].
        rewrite !List.filter_app. congruence.
      * destruct (List.filter (fun c => Nat.eqb (ws_id c) j) (wsClients s1)),
                 (List.filter (fun c => Nat.eqb (ws_id c) j) (wsClients s2));
          rewrite ?List.filter_app; cbn [List.filter ws_id]; rewrite ?Hj, ?app_nil_r;
          exact Hc.
    + rewrite !eventsSentTo_app. f_equal.
      destruct s1, s2. exact He.
  - unfold onMessage. destruct msg as [m|]; [|now f_equal].
    destruct (strictEqString (msg_type m) "subscribe" &&
              negb (isUndefined (msg_requestId m))); [|now f_equal].
    cbn [wsClients]. f_equal.
    + assert (Hmap : forall clients,
        List.filter (fun c => Nat.eqb (ws_id c) wsId)
          (List.map (fun c => if Nat.eqb (ws_id c) j
                              then {| ws_id := ws_id c; readyState := readyState c;
                                      subscribedRequestId := msg_requestId m |}
                              else c) clients)
        = List.map (fun c => if Nat.eqb (ws_id c) j
                              then {| ws_id := ws_id c; readyState := readyState c;
                                      subscribedRequestId := msg_requestId m |}
                              else c)
            (List.filter (fun c => Nat.eqb (ws_id c) wsId) clients)).
      { induction clients as [|c clients IH]; [reflexivity|].
        cbn [List.map List.filter].
        destruct (Nat.eqb (ws_id c) j) eqn:Hcj; cbn [ws_id];
          destruct (Nat.eqb (ws_id c) wsId) eqn:Hcw; cbn [List.map];
          rewrite ?Hcj, IH; reflexivity. }
      rewrite !Hmap. now rewrite Hc.
    + rewrite !eventsSentTo_app. f_equal. destruct s1, s2. exact He.
  - unfold onClose. cbn [wsClients]. f_equal.
    + rewrite (filter_filter_comm _ _ (wsClients s1)),
              (filter_filter_comm _ _ (wsClients s2)). now rewrite Hc.
    + exact He.
  - unfold broadcast. cbn [wsClients]. f_equal; [exact Hc|].
    rewrite !eventsSentTo_app. f_equal.
    + destruct s1, s2. exact He.
    + rewrite !eventsSentTo_broadcast. now rewrite Hc.
Qed.

Lemma view_foreign (wsId : nat) (i : Input) (s : ServerState) :
  from wsId i = false -> match i with Emitted _ => False | _ => True end ->
  view wsId (handle s i) = view wsId s.
Proof.
  unfold view. destruct i as [j|j msg|j|event]; cbn [handle from]; intros Hj Hne;
    [| | |destruct Hne].
  - unfold onConnection. cbn [wsClients]. f_equal.
    + destruct (existsb _ (wsClients s)); [reflexivity|].
      rewrite List.filter_app. cbn [List.filter ws_id]. rewrite Hj. apply app_nil_r.
    + rewrite eventsSentTo_app. unfold eventsSentTo at 2. cbn [outbox flat_map].
      rewrite app_nil_r. now destruct s.
  - unfold onMessage. destruct msg as [m|]; [|reflexivity].
    destruct (strictEqString (msg_type m) "subscribe" &&
              negb (isUndefined (msg_requestId m))); [|reflexivity].
    cbn [wsClients]. f_equal.
    + induction (wsClients s) as [|c clients IH]; [reflexivity|].
      cbn [List.map List.filter].
      destruct (Nat.eqb (ws_id c) j) eqn:Hcj; cbn [ws_id].
      * apply Nat.eqb_eq in Hcj. rewrite Hcj, Hj. exact IH.
      * destruct (Nat.eqb (ws_id c) wsId); now rewrite IH.
    + rewrite eventsSentTo_app. unfold eventsSentTo at 2. cbn [outbox flat_map].
      rewrite app_nil_r. now destruct s.
  - unfold onClose. cbn [wsClients]. f_equal.
    + induction (wsClients s) as [|c clients IH]; [reflexivity|].
      cbn [List.filter].
      destruct (Nat.eqb (ws_id c) j) eqn:Hcj; cbn [negb List.filter].
      * apply Nat.eqb_eq in Hcj. rewrite Hcj, Hj. exact IH.
      * destruct (Nat.eqb (ws_id c) wsId); now rewrite IH.
Qed.

End FeedFacts.

(** X14: what a client is sent is its own affair: the pipeline events
    socket [b] receives during any run of the server are the same when
    everything another socket [a] did (connecting, subscribing,
    closing) is taken out of the run. *)
Theorem feed_clients_are_isolated
    (a b : nat) (inputs : list Feed.Input) (s : Server.ServerState) :
  a <> b ->
  Server.eventsSentTo b (Feed.run inputs s)
  = Server.eventsSentTo b
      (Feed.run (List.filter (fun i => negb (Feed.from a i)) inputs) s).
Proof.
  intros Hab.
  assert (Hview : forall s1 s2, Feed.view b s1 = Feed.view b s2 ->
            Feed.view b (Feed.run inputs s1)
            = Feed.view b (Feed.run (List.filter (fun i => negb (Feed.from a i)) inputs) s2)).
  { unfold Feed.run. induction inputs as [|i inputs IH]; intros s1 s2 Hv; [exact Hv|].
    cbn [fold_left List.filter]. destruct (Feed.from a i) eqn:Hfrom; cbn [negb fold_left].
    - apply IH. rewrite <- Hv. apply view_foreign.
      + destruct i as [j|j msg|j|event]; cbn [Feed.from] in *; try reflexivity;
          apply Nat.eqb_eq in Hfrom; subst j; now apply Nat.eqb_neq.
      + destruct i; [exact I|exact I|exact I|discriminate Hfrom].
    - apply IH. now apply view_handle. }
  specialize (Hview s s eq_refl). unfold Feed.view in Hview.
  now injection Hview.
Qed.

(** Two sockets, the second subscribing to request 5 and closing: the
    first is sent the event of request 7 either way. *)
Lemma feed_clients_are_isolated_witness :
  Server.eventsSentTo 1
    (Feed.run [Feed.Connection 1; Feed.Connection 2;
               Feed.Message 2 (Some (subscribeTo 5));
               Feed.Emitted (pipelineEvent 7); Feed.Close 2] noClients)
  = Server.eventsSentTo 1
      (Feed.run [Feed.Connection 1; Feed.Emitted (pipelineEvent 7)] noClients).
Proof.
  apply (feed_clients_are_isolated 2 1
           [Feed.Connection 1; Feed.Connection 2;
            Feed.Message 2 (Some (subscribeTo 5));
            Feed.Emitted (pipelineEvent 7); Feed.Close 2] noClients).
  discriminate.
Defined.

(** X15: a socket that closed is sent no further pipeline event, for as
    long as it does not connect again. *)
Theorem closed_socket_receives_nothing
    (wsId : nat) (inputs : list Feed.Input) (s : Server.ServerState) :
  forallb (fun i => negb (Feed.connects wsId i)) inputs = true ->
  Server.eventsSentTo wsId (Feed.run inputs (Server.onClose wsId s))
  = Server.eventsSentTo wsId s.
Proof.
  intros Hno.
  assert (Hgen : forall s0,
            List.filter (fun c => Nat.eqb (Server.ws_id c) wsId) (Server.wsClients s0) = [] ->
            Feed.view wsId (Feed.run inputs s0) = ([], Server.eventsSentTo wsId s0)).
  { unfold Feed.run. induction inputs as [|i inputs IH]; intros s0 Hgone.
    - unfold Feed.view. cbn [fold_left]. now rewrite Hgone.
    - cbn [fold_left forallb] in *. apply andb_true_iff in Hno as [Hi Hrest].
      assert (Hstep : Feed.view wsId (Feed.handle s0 i) = ([], Server.eventsSentTo wsId s0)).
      { destruct i as [j|j msg|j|event].
        - cbn [Feed.connects] in Hi. apply negb_true_iff in Hi.
          rewrite view_foreign; [|exact Hi|exact I].
          unfold Feed.view. now rewrite Hgone.
        - destruct (Nat.eqb j wsId) eqn:Hj.
          + apply Nat.eqb_eq in Hj. subst j. unfold Feed.view. cbn [Feed.handle].
            unfold Server.onMessage. destruct msg as [m|]; [|now rewrite Hgone].
            destruct (Server.strictEqString (Server.msg_type m) "subscribe" &&
                      negb (Server.isUndefined (Server.msg_requestId m)));
              [|now rewrite Hgone].
            cbn [Server.wsClients]. f_equal.
            * revert Hgone. induction (Server.wsClients s0) as [|c clients IHc];
                [reflexivity|]. cbn [List.map List.filter].
              destruct (Nat.eqb (Server.ws_id c) wsId) eqn:Hc; [discriminate|].
              rewrite Hc. exact IHc.
            * rewrite eventsSentTo_app. unfold Server.eventsSentTo at 2.
              cbn [Server.outbox flat_map]. rewrite app_nil_r. now destruct s0.
          + rewrite view_foreign; [|exact Hj|exact I].
            unfold Feed.view. now rewrite Hgone.
        - destruct (Nat.eqb j wsId) eqn:Hj.
          + apply Nat.eqb_eq in Hj. subst j. unfold Feed.view. cbn [Feed.handle].
            unfold Server.onClose. cbn [Server.wsClients]. f_equal.
            rewrite filter_filter_comm, Hgone. reflexivity.
          + rewrite view_foreign; [|exact Hj|exact I].
            unfold Feed.view. now rewrite Hgone.
        - unfold Feed.view. cbn [Feed.handle]. unfold Server.broadcast.
          cbn [Server.wsClients]. f_equal; [exact Hgone|].
          rewrite eventsSentTo_app, eventsSentTo_broadcast, Hgone.
          cbn [List.filter List.map]. rewrite app_nil_r. now destruct s0. }
      injection Hstep as Hc He. rewrite <- He. apply (IH Hrest).
      exact Hc. }
  specialize (Hgen (Server.onClose wsId s)).
  unfold Feed.view in Hgen.
  assert (Hclosed :
    List.filter (fun c => Nat.eqb (Server.ws_id c) wsId)
      (Server.wsClients (Server.onClose wsId s)) = []).
  { unfold Server.onClose. cbn [Server.wsClients].
    induction (Server.wsClients s) as [|c clients IH]; [reflexivity|].
    cbn [List.filter]. destruct (Nat.eqb (Server.ws_id c) wsId) eqn:Hc; cbn [negb];
      [exact IH|]. cbn [List.filter]. rewrite Hc. exact IH. }
  specialize (Hgen Hclosed). injection Hgen as _ He. rewrite He.
  now destruct s.
Qed.

(** A socket that received the event of request 7, then closed, is not
    sent the event of request 8. *)
Lemma closed_socket_receives_nothing_witness :
  Server.eventsSentTo 1
    (Feed.run [Feed.Emitted (pipelineEvent 8)]
       (Server.onClose 1
          (Feed.run [Feed.Connection 1; Feed.Emitted (pipelineEvent 7)] noClients)))
  = [pipelineEvent 7].
Proof.
  rewrite (closed_socket_receives_nothing 1 [Feed.Emitted (pipelineEvent 8)]
             (Feed.run [Feed.Connection 1; Feed.Emitted (pipelineEvent 7)] noClients));
    reflexivity.
Defined.

(** ** The cursor of the event poller *)

Section ListenerFacts.
Import Listener.

Lemma rangesOf_app (name : string) (qs1 qs2 : list Query) :
  rangesOf name (qs1 ++ qs2) = rangesOf name qs1 ++ rangesOf name qs2.
Proof. unfold rangesOf. now rewrite List.filter_app, map_app. Qed.

(** One poll: the cursor stays and nothing is asked, or the poller
    takes its first cursor, or it asks for the blocks after the cursor
    up to the new one. *)
Lemma pollEvents_step (formatUnits6 : Z -> string)
    (hasOnAidRequested hasOnPayoutReleased : bool) (p : Poller) (answer : NodeAnswer) :
  let p' := pollEvents formatUnits6 hasOnAidRequested hasOnPayoutReleased p answer in
  0 <= lastBlock p -> plausible answer ->
  0 <= lastBlock p' /\
  ((queries p' = queries p /\
    (lastBlock p' = lastBlock p \/ lastBlock p = 0)) \/
   (0 < lastBlock p /\ lastBlock p < lastBlock p' /\
    exists asked,
      queries p' = queries p ++ asked /\
      rangesOf "AidRequested" asked = [(lastBlock p + 1, lastBlock p')] /\
      List.Forall (fun q => fromBlock q = lastBlock p + 1 /\ toBlock q = lastBlock p')
        asked /\
      (rangesOf "PayoutReleased" asked = [] \/
       rangesOf "PayoutReleased" asked = [(lastBlock p + 1, lastBlock p')]))).
Proof.
  intros p' Hcur Hans. subst p'. unfold pollEvents.
  destruct answer as [|currentBlock requested payouts]; [tauto|].
  cbn [plausible] in Hans.
  destruct (lastBlock p =? 0) eqn:Hz.
  - apply Z.eqb_eq in Hz. cbn [lastBlock queries]. tauto.
  - apply Z.eqb_neq in Hz.
    destruct (currentBlock <=? lastBlock p) eqn:Hle; [tauto|].
    apply Z.leb_gt in Hle.
    destruct requested as [requestedEvents|]; [destruct payouts as [payoutEvents|]|];
      cbn [lastBlock queries]; (split; [lia|]); right;
      (split; [lia|]); (split; [lia|]); eexists; (split; [reflexivity|]);
      (split; [reflexivity|]); (split; [repeat constructor|]); cbv; tauto.
Qed.

(** One poll leaves the first cursor where it is, and never behind
    the cursor. *)
Lemma firstCursor_step (formatUnits6 : Z -> string)
    (hasOnAidRequested hasOnPayoutReleased : bool) (p : Poller) (answer : NodeAnswer)
    (answers : list NodeAnswer) :
  0 <= lastBlock p ->
  firstCursor (pollEvents formatUnits6 hasOnAidRequested hasOnPayoutReleased p answer)
    answers
  = firstCursor p (answer :: answers) \/
  0 < lastBlock p /\ firstCursor p (answer :: answers) = lastBlock p.
Proof.
  intros Hcur. unfold firstCursor at 2 3.
  destruct (lastBlock p =? 0) eqn:Hz; [left|right; apply Z.eqb_neq in Hz; split; [lia|reflexivity]].
  unfold pollEvents. destruct answer as [|currentBlock requested payouts].
  - unfold firstCursor. now rewrite Hz.
  - rewrite Hz. unfold firstCursor. cbn [lastBlock observed flat_map app List.filter].
    destruct (currentBlock =? 0); reflexivity.
Qed.

End ListenerFacts.

(** X16: the poller's cursor, the polls running one after the other.
    The poller asks for no event until the node has reported a block
    number other than 0, which becomes its first cursor.  Whatever
    the node answers from then on, the block ranges asked for
    [AidRequested] events follow one another, without gap or overlap,
    from the block after that first cursor to the block of the last
    cursor, so that no query reaches the first observed block or an
    earlier one; this whether or not the queries succeed, for the
    cursor moves before the first query, so that a range whose query
    failed is not asked again.  The ranges asked for [PayoutReleased]
    are among them, in the same order. *)
Theorem poller_ranges_are_chained
    (formatUnits6 : Z -> string) (hasOnAidRequested hasOnPayoutReleased : bool)
    (answers : list Listener.NodeAnswer) (p : Listener.Poller) :
  let p' := Listener.polls formatUnits6 hasOnAidRequested hasOnPayoutReleased answers p in
  let first :=
    if Listener.lastBlock p =? 0
    then hd 0 (List.filter (fun n => negb (n =? 0)) (Listener.observed answers))
    else Listener.lastBlock p in
  0 <= Listener.lastBlock p ->
  List.Forall Listener.plausible answers ->
  exists asked,
    Listener.queries p' = Listener.queries p ++ asked /\
    Listener.chained first (Listener.rangesOf "AidRequested" asked)
      (Listener.lastBlock p') /\
    List.Forall (fun q => first < Listener.fromBlock q /\
                          Listener.fromBlock q <= Listener.toBlock q) asked /\
    sublist (Listener.rangesOf "PayoutReleased" asked)
      (Listener.rangesOf "AidRequested" asked).
Proof.
  intros p' first. subst p'. unfold Listener.polls.
  change first with (Listener.firstCursor p answers). clear first.
  revert p. induction answers as [|answer answers IH]; intros p Hcur Hans; cbn [fold_left].
  - exists []. rewrite app_nil_r. split; [reflexivity|]. split.
    + cbn [Listener.rangesOf List.filter List.map Listener.chained].
      unfold Listener.firstCursor. cbn [Listener.observed flat_map List.filter hd].
      destruct (Listener.lastBlock p =? 0) eqn:Hz; [|reflexivity].
      apply Z.eqb_eq in Hz. now rewrite Hz.
    + split; constructor.
  - inversion Hans as [|? ? Hanswer Hrest]; subst.
    destruct (pollEvents_step formatUnits6 hasOnAidRequested hasOnPayoutReleased
                p answer Hcur Hanswer) as [Hcur' Hstep].
    destruct (IH _ Hcur' Hrest) as (asked & Hq & Hch & Hafter & Hsub).
    destruct (firstCursor_step formatUnits6 hasOnAidRequested hasOnPayoutReleased
                p answer answers Hcur) as [Hfirst|[Hpos Hfirst]].
    + destruct Hstep as [[Hsame Hcase]|(Hpos & Hlt & now_ & Hnow & Hreq & Hblocks & Hpay)].
      * exists asked. rewrite Hq, Hsame, <- Hfirst. repeat split; assumption.
      * exfalso. revert Hfirst. unfold Listener.firstCursor.
        destruct (Listener.lastBlock p =? 0) eqn:Hz; [apply Z.eqb_eq in Hz; lia|].
        clear Hz.
        destruct (Listener.lastBlock _ =? 0) eqn:Hz'; [apply Z.eqb_eq in Hz'; lia|].
        lia.
    + rewrite Hfirst.
      destruct Hstep as [[Hsame Hcase]|(_ & Hlt & now_ & Hnow & Hreq & Hblocks & Hpay)].
      * assert (Hkeep : Listener.lastBlock
                          (Listener.pollEvents formatUnits6 hasOnAidRequested
                             hasOnPayoutReleased p answer) = Listener.lastBlock p)
          by (destruct Hcase; [assumption|lia]).
        assert (Hsame' : Listener.firstCursor
                           (Listener.pollEvents formatUnits6 hasOnAidRequested
                              hasOnPayoutReleased p answer) answers
                         = Listener.lastBlock p).
        { unfold Listener.firstCursor. rewrite Hkeep.
          destruct (Listener.lastBlock p =? 0) eqn:Hz; [apply Z.eqb_eq in Hz; lia|].
          reflexivity. }
        rewrite Hsame' in Hch, Hafter.
        exists asked. rewrite Hq, Hsame. repeat split; assumption.
      * assert (Hnext : Listener.firstCursor
                          (Listener.pollEvents formatUnits6 hasOnAidRequested
                             hasOnPayoutReleased p answer) answers
                        = Listener.lastBlock
                            (Listener.pollEvents formatUnits6 hasOnAidRequested
                               hasOnPayoutReleased p answer)).
        { unfold Listener.firstCursor.
          destruct (Listener.lastBlock _ =? 0) eqn:Hz; [apply Z.eqb_eq in Hz; lia|].
          reflexivity. }
        rewrite Hnext in Hch, Hafter.
        exists (now_ ++ asked).
        rewrite Hq, Hnow, <- app_assoc, !rangesOf_app, Hreq.
        split; [reflexivity|]. split; [|split].
        -- cbn [app Listener.chained]. split; [reflexivity|]. split; [lia|]. exact Hch.
        -- apply Forall_app. split.
           ++ eapply List.Forall_impl; [|exact Hblocks].
              cbv beta. intros q [Hq1 Hq2]. lia.
           ++ eapply List.Forall_impl; [|exact Hafter].
              cbv beta. intros q [Hq1 Hq2]. split; [lia|exact Hq2].
        -- destruct Hpay as [->| ->]; cbn [app].
           ++ now apply sublist_cons.
           ++ now apply sublist_skip.
Qed.

(** From the start: the first answer gives the cursor 100; the query
    for the blocks 101 to 105 fails, and their payouts are not asked;
    the blocks 106 to 110 follow.  Nothing is asked of the block 100
    or of an earlier one. *)
Lemma poller_ranges_are_chained_witness :
  exists asked,
    Listener.queries
      (Listener.polls (fun _ => "0.0") true true
         [Listener.BlockNumberFails;
          Listener.AtBlock 100 (Some []) (Some []);
          Listener.AtBlock 105 None (Some []);
          Listener.AtBlock 110 (Some []) (Some [])] Listener.started) = asked /\
    Listener.rangesOf "AidRequested" asked = [(101, 105); (106, 110)] /\
    Listener.rangesOf "PayoutReleased" asked = [(106, 110)] /\
    Listener.chained 100 (Listener.rangesOf "AidRequested" asked) 110 /\
    List.Forall (fun q => 100 < Listener.fromBlock q /\
                          Listener.fromBlock q <= Listener.toBlock q) asked.
Proof.
  destruct (poller_ranges_are_chained (fun _ => "0.0") true true
              [Listener.BlockNumberFails;
               Listener.AtBlock 100 (Some []) (Some []);
               Listener.AtBlock 105 None (Some []);
               Listener.AtBlock 110 (Some []) (Some [])] Listener.started)
    as (asked & Hq & Hch & Hafter & _).
  - cbn. lia.
  - repeat constructor; cbn; lia.
  - exists asked. split; [exact Hq|]. cbn in Hq. subst asked.
    split; [reflexivity|]. split; [reflexivity|]. split; [exact Hch|exact Hafter].
Defined.

(** ** The funds: token, pool and escrow *)

Section TokenFacts.
Import Evm MockUSDC.

Lemma sum_insert (m : gmap address Z) (k : address) (v : Z) :
  map_fold (fun _ v acc => v + acc) 0 (<[k := v]> m) =
    map_fold (fun _ v acc => v + acc) 0 m - default 0 (m !! k) + v.
Proof.
  assert (Hcomm : forall (m' : gmap address Z) (j1 j2 : address) (z1 z2 y : Z),
            j1 <> j2 -> m' !! j1 = Some z1 -> m' !! j2 = Some z2 ->
            z1 + (z2 + y) = z2 + (z1 + y)) by (intros; lia).
  destruct (m !! k) as [x|] eqn:Hl; cbn [default].
  - rewrite <- (insert_delete_eq m k v).
    rewrite map_fold_insert_L; [|apply Hcomm|apply lookup_delete_eq].
    rewrite (map_fold_delete_L _ 0 k x m); [|apply Hcomm|exact Hl].
    unfold Datatypes.id. lia.
  - rewrite map_fold_insert_L; [|apply Hcomm|exact Hl]. lia.
Qed.

Lemma sum_lookup_le (m : gmap address Z) (k : address) :
  (forall a x, m !! a = Some x -> 0 <= x) ->
  0 <= map_fold (fun _ v acc => v + acc) 0 m /\
  default 0 (m !! k) <= map_fold (fun _ v acc => v + acc) 0 m.
Proof.
  revert k. induction m as [|j x m Hj Hfold IH] using map_first_key_ind; intros k Hnn.
  - rewrite map_fold_empty, lookup_empty. cbn. lia.
  - rewrite map_fold_insert_first_key by assumption.
    assert (Hm : forall a y, m !! a = Some y -> 0 <= y).
    { intros a y Ha. apply (Hnn a y). rewrite lookup_insert_ne; [exact Ha|].
      intros ->. congruence. }
    assert (Hx : 0 <= x) by (apply (Hnn j x); apply lookup_insert_eq).
    destruct (IH k Hm) as [H0 Hk].
    destruct (decide (k = j)) as [->|Hne].
    + rewrite lookup_insert_eq. cbn. lia.
    + rewrite lookup_insert_ne by congruence. lia.
Qed.

Lemma setBalance_spec a v st u st' :
  setBalance a v st = Success (u, st') ->
  (forall b, balance b st' = if decide (b = a) then v else balance b st) /\
  circulating st' = circulating st - balance a st + v /\
  totalSupply st' = totalSupply st /\ allowance st' = allowance st.
Proof.
  unfold setBalance. intros Hc. evm_inv. unfold balance, circulating.
  cbn [balanceOf totalSupply allowance]. split; [|split; [|split; reflexivity]].
  - intros b. destruct (decide (b = a)) as [->|Hne].
    + now rewrite lookup_insert_eq.
    + now rewrite lookup_insert_ne.
  - apply sum_insert.
Qed.

(** A transfer, taken apart. *)
Lemma _transfer_spec from to amount st ok st' :
  _transfer from to amount st = Success (ok, st') ->
  amount <= balance from st /\
  (forall a, balance a st' =
     balance a st - (if decide (a = from) then amount else 0)
                  + (if decide (a = to) then amount else 0)) /\
  balance to st' <= MAX_UINT256 /\
  circulating st' = circulating st /\
  totalSupply st' = totalSupply st /\ allowance st' = allowance st.
Proof.
  unfold _transfer. intros Hc.
  apply bind_Success in Hc as (balFrom & s0 & Hg & Hc). apply gets_Success in Hg as [-> ->].
  apply bind_Success in Hc as (u0 & s0 & Hr & Hc). apply require_Success in Hr as [Hle ->].
  apply Z.leb_le in Hle.
  apply bind_Success in Hc as (lowered & s0 & Hs & Hc).
  apply sub_Success in Hs as (-> & _ & ->).
  apply bind_Success in Hc as (u1 & s1 & Hset1 & Hc).
  apply setBalance_spec in Hset1 as (Hb1 & Hc1 & Hs1 & Ha1).
  apply bind_Success in Hc as (balTo & s0 & Hg & Hc). apply gets_Success in Hg as [-> ->].
  apply bind_Success in Hc as (raised & s0 & Hs & Hc).
  apply add_Success in Hs as (-> & Hadd & ->).
  apply bind_Success in Hc as (u2 & s2 & Hset2 & Hc).
  apply setBalance_spec in Hset2 as (Hb2 & Hc2 & Hs2 & Ha2).
  apply ret_Success in Hc as [-> ->].
  split; [assumption|]. split; [|split; [|split; [|split; congruence]]].
  - intros a. rewrite Hb2, !Hb1.
    repeat destruct (decide _); subst; try congruence; lia.
  - rewrite Hb2. destruct (decide (to = to)); [assumption|congruence].
  - rewrite Hc2, Hc1. lia.
Qed.

Lemma _mint_spec to amount st u st' :
  _mint to amount st = Success (u, st') ->
  (forall a, balance a st' = balance a st + (if decide (a = to) then amount else 0)) /\
  totalSupply st' = totalSupply st + amount /\
  totalSupply st' <= MAX_UINT256 /\
  circulating st' = circulating st + amount /\
  allowance st' = allowance st.
Proof.
  unfold _mint. intros Hc.
  apply bind_Success in Hc as (supply & s0 & Hg & Hc). apply gets_Success in Hg as [-> ->].
  apply bind_Success in Hc as (supply' & s0 & Hs & Hc).
  apply add_Success in Hs as (-> & Hsupply & ->).
  apply bind_Success in Hc as (u1 & s1 & Hm & Hc). apply modify_Success in Hm as ->.
  apply bind_Success in Hc as (balTo & s0 & Hg & Hc). apply gets_Success in Hg as [-> ->].
  apply bind_Success in Hc as (raised & s0 & Hs & Hc).
  apply add_Success in Hs as (-> & Hadd & ->).
  apply setBalance_spec in Hc as (Hb & Hcirc & Hsup & Hal).
  cbn [totalSupply allowance] in *.
  split; [|split; [assumption|split; [congruence|split; [|assumption]]]].
  - intros a. rewrite Hb. unfold balance. cbn [balanceOf].
    destruct (decide (a = to)) as [->|Hne]; lia.
  - rewrite Hcirc. unfold circulating, balance. cbn [balanceOf]. lia.
Qed.

Lemma allowed_setAllowance o sp v st u st' :
  setAllowance o sp v st = Success (u, st') ->
  (forall o' sp', allowed o' sp' st' =
     if decide ((o', sp') = (o, sp)) then v else allowed o' sp' st) /\
  balanceOf st' = balanceOf st /\ totalSupply st' = totalSupply st.
Proof.
  unfold setAllowance. intros Hc. evm_inv. unfold allowed.
  cbn [allowance balanceOf totalSupply]. split; [|split; reflexivity].
  intros o' sp'. destruct (decide ((o', sp') = (o, sp))) as [->|Hne].
  - now rewrite lookup_insert_eq.
  - now rewrite lookup_insert_ne.
Qed.

Lemma transferFrom_spec who from to amount st ok st' :
  transferFrom who from to amount st = Success (ok, st') ->
  amount <= allowed from who st /\
  amount <= balance from st /\
  (forall a, balance a st' =
     balance a st - (if decide (a = from) then amount else 0)
                  + (if decide (a = to) then amount else 0)) /\
  (forall o sp, allowed o sp st' =
     if decide ((o, sp) = (from, who)) then allowed from who st - amount
     else allowed o sp st) /\
  circulating st' = circulating st /\
  totalSupply st' = totalSupply st.
Proof.
  unfold transferFrom. intros Hc.
  apply bind_Success in Hc as (granted & s0 & Hg & Hc). apply gets_Success in Hg as [-> ->].
  apply bind_Success in Hc as (u0 & s0 & Hr & Hc). apply require_Success in Hr as [Hgr ->].
  apply Z.leb_le in Hgr.
  apply bind_Success in Hc as (left & s0 & Hs & Hc).
  apply sub_Success in Hs as (-> & _ & ->).
  apply bind_Success in Hc as (u1 & s1 & Hset & Hc).
  apply allowed_setAllowance in Hset as (Hal & Hbal & Hsup).
  apply _transfer_spec in Hc as (Hle & Hb & _ & Hcirc & Hsup' & Hal').
  assert (Hsame : forall a, balance a s1 = balance a st)
    by (intros a; unfold balance; now rewrite Hbal).
  split; [assumption|]. split; [now rewrite <- Hsame|].
  split; [intros a; now rewrite Hb, !Hsame|].
  split; [|split; [|congruence]].
  - intros o sp. unfold allowed at 1. rewrite Hal'. apply Hal.
  - rewrite Hcirc. unfold circulating. now rewrite Hbal.
Qed.

End TokenFacts.

Section TokenSoundness.
Import Evm MockUSDC.

Lemma approve_spec who spender amount st ok st' :
  approve who spender amount st = Success (ok, st') ->
  (forall o sp, allowed o sp st' =
     if decide ((o, sp) = (who, spender)) then amount else allowed o sp st) /\
  balanceOf st' = balanceOf st /\ totalSupply st' = totalSupply st.
Proof.
  unfold approve. intros Hc.
  apply bind_Success in Hc as (u & s1 & Hset & Hc).
  apply ret_Success in Hc as [-> ->].
  now apply allowed_setAllowance in Hset.
Qed.

Lemma sound_same (st st' : State) :
  balanceOf st' = balanceOf st -> totalSupply st' = totalSupply st ->
  sound st -> sound st'.
Proof.
  unfold sound, circulating, balance. intros -> ->. tauto.
Qed.

(** Moving tokens the sender has keeps the books sound. *)
Lemma sound_moved (from to : address) (amount : Z) (st st' : State) :
  sound st -> 0 <= amount -> amount <= balance from st ->
  (forall a, balance a st' =
     balance a st - (if decide (a = from) then amount else 0)
                  + (if decide (a = to) then amount else 0)) ->
  circulating st' = circulating st -> totalSupply st' = totalSupply st ->
  sound st'.
Proof.
  intros (Hnn & Hsum & Hmax) Hamount Hle Hb Hcirc Hsup. split; [|split; congruence].
  intros a. rewrite Hb. specialize (Hnn a).
  repeat destruct (decide _); subst; lia.
Qed.

Lemma sound_minted (to : address) (amount : Z) (st st' : State) :
  sound st -> 0 <= amount ->
  (forall a, balance a st' = balance a st + (if decide (a = to) then amount else 0)) ->
  totalSupply st' = totalSupply st + amount -> totalSupply st' <= MAX_UINT256 ->
  circulating st' = circulating st + amount ->
  sound st'.
Proof.
  intros (Hnn & Hsum & Hmax) Hamount Hb Hsup Hmax' Hcirc.
  split; [|split; [congruence|assumption]].
  intros a. rewrite Hb. specialize (Hnn a). destruct (decide _); lia.
Qed.

(** In sound books, two accounts together hold no more than the
    supply. *)
Lemma sound_two_accounts (a b : address) (st : State) :
  sound st -> a <> b -> balance a st + balance b st <= MAX_UINT256.
Proof.
  intros (Hnn & Hsum & Hmax) Hne. rewrite <- Hsum in Hmax.
  unfold circulating in Hmax. unfold balance in *.
  assert (Hm : forall c x, balanceOf st !! c = Some x -> 0 <= x).
  { intros c x Hc. specialize (Hnn c). now rewrite Hc in Hnn. }
  destruct (balanceOf st !! a) as [x|] eqn:Ha; cbn [default].
  - rewrite (map_fold_delete_L _ 0 a x (balanceOf st)) in Hmax; [|intros; lia|exact Ha].
    assert (Hm' : forall c y, delete a (balanceOf st) !! c = Some y -> 0 <= y).
    { intros c y Hc. apply lookup_delete_Some in Hc as [_ Hc]. eauto. }
    pose proof (sum_lookup_le (delete a (balanceOf st)) b Hm') as [_ Hb].
    rewrite lookup_delete_ne in Hb by congruence.
    set (held := default 0 (balanceOf st !! b)) in *. unfold Datatypes.id. lia.
  - pose proof (sum_lookup_le (balanceOf st) b Hm) as [_ Hb]. lia.
Qed.

End TokenSoundness.

(** Token calls, taken apart. *)
Ltac token_inv :=
  repeat match goal with
  | H : exists _, _ = Evm.Success _ |- _ => destruct H as [? H]
  | H : MockUSDC.transfer _ _ _ _ = Evm.Success _ |- _ =>
      unfold MockUSDC.transfer in H;
      apply _transfer_spec in H as (? & ? & ? & ? & ? & ?)
  | H : MockUSDC.transferFrom _ _ _ _ _ = Evm.Success _ |- _ =>
      apply transferFrom_spec in H as (? & ? & ? & ? & ? & ?)
  | H : MockUSDC.mint _ _ _ = Evm.Success _ |- _ =>
      unfold MockUSDC.mint in H; apply _mint_spec in H as (? & ? & ? & ? & ?)
  | H : MockUSDC.approve _ _ _ _ = Evm.Success _ |- _ =>
      apply approve_spec in H as (? & ? & ?)
  end.

Section FundsFacts.
Import Evm IAidChain Protocol.

Lemma amountsOk_same (st st' : Chain) :
  aidRequests (aidChain st') = aidRequests (aidChain st) -> amountsOk st -> amountsOk st'.
Proof. unfold amountsOk, request. now intros ->. Qed.

Lemma amountsOk_rewrites requestId r' st st' :
  rewrites requestId r' st st' ->
  0 <= estimatedCostUSD r' -> 0 <= escrowAmount r' ->
  amountsOk st -> amountsOk st'.
Proof.
  intros Hrw Hcost Hescrow Hok j. rewrite (rewrites_request _ _ _ _ j Hrw).
  destruct (decide (j = requestId)); [split; assumption|apply Hok].
Qed.

Lemma exec_funds_sound aidChainAddr fundPoolAddr verifier (tx : Tx) (st st' : Chain) :
  exec aidChainAddr fundPoolAddr verifier tx st = Success (tt, st') ->
  MockUSDC.sound (token st) /\ amountsOk st ->
  MockUSDC.sound (token st') /\ amountsOk st'.
Proof.
  unfold exec. destruct (wellTyped (call tx)) eqn:Hty; [|discriminate].
  destruct tx as [who now c]. cbn [sender timestamp call] in *.
  destruct c; unfold dispatch; cbn [sender timestamp call wellTyped] in *;
    intros Hc [Hsound Hok]; evm_inv; spec_inv; token_inv; bool_facts;
    repeat match goal with
    | H : is_uint256 _ = true |- _ => apply is_uint256_range in H
    end;
    unfold token in *; cbn [treasury FundPool.stablecoin aidChain] in *.
  all: try (split; [|first [exact Hok | eapply amountsOk_same; [|exact Hok]; congruence]]).
  all: try (eapply sound_moved; [exact Hsound| | | eassumption | eassumption | eassumption]; lia).
  all: try exact Hsound.
  all: try (eapply sound_same; [| |exact Hsound]; assumption).
  all: try (eapply sound_minted; [exact Hsound| |eassumption|eassumption|eassumption|eassumption]; lia).
  all: repeat match goal with
       | H : treasury _ = treasury _ |- _ => rewrite H in *
       | H : FundPool.stablecoin _ = FundPool.stablecoin _ |- _ => rewrite H in *
       end.
  all: try exact Hsound.
  all: try (split; [exact Hsound|]).
  all: try (eapply sound_moved; [exact Hsound| | | eassumption | eassumption | eassumption];
            first [lia | apply Hsound | apply Hok]).
  all: try (split; [exact Hsound|]).
  all: try (eapply amountsOk_rewrites; [eassumption| | |exact Hok];
            cbn [estimatedCostUSD escrowAmount storeVerification storeConsensus
                 storeFunding storeDelivery storeDeliveryVerification storeSettlement
                 storeTimeout];
            first [apply Hok | lia]).
  - (* requestAid *)
    subst a. intros j. unfold request.
    match goal with H : aidRequests (aidChain _) = _ |- _ => rewrite H end.
    destruct (decide (j = nextRequestId (aidChain st))) as [->|Hne].
    + rewrite lookup_insert_eq. cbn [default estimatedCostUSD escrowAmount storeRequest].
      apply Hok.
    + rewrite lookup_insert_ne by congruence. apply Hok.
  - (* releasePayout *)
    split.
    + eapply sound_moved; [exact Hsound| | |eassumption|eassumption|eassumption];
        [apply Hok|assumption].
    + eapply amountsOk_rewrites; [eassumption| | |exact Hok];
        cbn [estimatedCostUSD escrowAmount storeSettlement]; apply Hok.
Qed.


End FundsFacts.

Section SolvencyFacts.
Import Evm IAidChain Protocol.

(** What one successful transaction not sent from the pool's own
    address does to the pool's solvency. *)
Lemma exec_solvent aidChainAddr fundPoolAddr verifier (tx : Tx) (st st' : Chain) :
  sender tx <> fundPoolAddr ->
  exec aidChainAddr fundPoolAddr verifier tx st = Success (tt, st') ->
  MockUSDC.sound (token st) -> amountsOk st ->
  solvent fundPoolAddr st -> solvent fundPoolAddr st'.
Proof.
  unfold exec. destruct (wellTyped (call tx)) eqn:Hty; [|discriminate].
  destruct tx as [who now c]. cbn [sender timestamp call] in *.
  intros Hwho Hc Hsound Hok (Ha & He & Hp & Hd & Hbal & Hallow).
  pose proof (Hallow who) as Hgranted.
  pose proof (proj1 Hsound fundPoolAddr) as Hheld.
  unfold solvent.
  destruct c; unfold dispatch in Hc; cbn [sender timestamp call wellTyped] in *;
    evm_inv; spec_inv; token_inv; bool_facts;
    repeat match goal with
    | H : is_uint256 _ = true |- _ => apply is_uint256_range in H
    | H : rewrites ?id _ _ _ |- _ => pose proof (Hok id) as [? ?]; clear H
    end;
    unfold token in *; cbn [treasury FundPool.stablecoin FundPool.pool aidChain] in *;
    repeat match goal with
    | H : treasury _ = treasury _ |- _ => rewrite H in *
    | H : FundPool.stablecoin _ = FundPool.stablecoin _ |- _ => rewrite H in *
    | H : FundPool.pool _ = _ |- _ => rewrite H in *
    end;
    cbn [FundPool.availableBalance FundPool.totalEscrowed FundPool.totalPaidOut
         FundPool.totalDeposited] in *.
  all: try (repeat split; assumption).
  all: repeat (split; [lia|]).
  all: repeat match goal with
       | H : FundPool.stablecoin ?t = FundPool.stablecoin _
         |- context [FundPool.stablecoin ?t] => rewrite H
       end.
  all: try exact Hallow.
  all: split;
    [ first
        [ match goal with
          | Hb : forall a, MockUSDC.balance a ?t = _
            |- _ <= MockUSDC.balance ?p ?t => rewrite (Hb p)
          end;
          repeat destruct (decide _); subst; try congruence; lia
        | match goal with
          | Hb : MockUSDC.balanceOf ?t = MockUSDC.balanceOf _
            |- _ <= MockUSDC.balance _ ?t =>
              unfold MockUSDC.balance in *; rewrite Hb
          end; lia
        | lia ]
    | intros sp;
      first
        [ match goal with
          | Hal : forall o sp, MockUSDC.allowed o sp ?t = _
            |- MockUSDC.allowed _ _ ?t = 0 => rewrite Hal
          end;
          destruct (decide _) as [Heq|_]; [|apply Hallow];
          injection Heq as ? ?; subst; first [congruence | lia]
        | match goal with
          | Hal : MockUSDC.allowance ?t = MockUSDC.allowance _
            |- MockUSDC.allowed _ _ ?t = 0 =>
              unfold MockUSDC.allowed in *; rewrite Hal
          end; apply Hallow
        | apply Hallow ] ].
Qed.

(** A sum of values that are not negative is at least each of them. *)
Lemma fold_sum_lookup_le {K V} `{Countable K} (f : V -> Z) (m : gmap K V) (k : K) :
  (forall a x, m !! a = Some x -> 0 <= f x) ->
  0 <= map_fold (fun _ x acc => f x + acc) 0 m /\
  (forall x, m !! k = Some x -> f x <= map_fold (fun _ x acc => f x + acc) 0 m).
Proof.
  revert k. induction m as [|j x m Hj Hfold IH] using map_first_key_ind; intros k Hnn.
  - rewrite map_fold_empty. split; [lia|]. intros x. rewrite lookup_empty. discriminate.
  - rewrite map_fold_insert_first_key by assumption.
    assert (Hm : forall a y, m !! a = Some y -> 0 <= f y).
    { intros a y Ha. apply (Hnn a y). rewrite lookup_insert_ne; [exact Ha|].
      intros ->. congruence. }
    assert (Hx : 0 <= f x) by (apply (Hnn j x); apply lookup_insert_eq).
    destruct (IH k Hm) as [H0 Hk]. split; [lia|]. intros y.
    destruct (decide (k = j)) as [->|Hne].
    + rewrite lookup_insert_eq. intros [= <-]. lia.
    + rewrite lookup_insert_ne by congruence. intros Hy. specialize (Hk y Hy). lia.
Qed.

(** The escrow of one request is part of the escrow under way. *)
Lemma escrowHeld_le_underWay (st : Chain) (requestId : Z) :
  amountsOk st -> escrowHeld (request requestId st) <= escrowUnderWay st.
Proof.
  intros Hok. unfold escrowUnderWay.
  assert (Hnn : forall a x, aidRequests (aidChain st) !! a = Some x -> 0 <= escrowHeld x).
  { intros a x Ha. unfold escrowHeld. destruct (holdsEscrow (status x)); [|lia].
    specialize (Hok a). unfold request in Hok. rewrite Ha in Hok. apply Hok. }
  destruct (fold_sum_lookup_le escrowHeld (aidRequests (aidChain st)) requestId Hnn)
    as [H0 Hk].
  unfold request. destruct (aidRequests (aidChain st) !! requestId) as [r|] eqn:Hr.
  - cbn [default]. now apply Hk.
  - cbn [default]. exact H0.
Qed.

(** A request that has left the status [Submitted] is stored, under an
    identifier the contract has issued. *)
Lemma moved_request_issued (st : Chain) (requestId : Z) :
  issued st -> status (request requestId st) <> AidChain.Submitted ->
  0 <= requestId < nextRequestId (aidChain st).
Proof.
  intros [_ Hi] Hs. unfold request in Hs.
  destruct (aidRequests (aidChain st) !! requestId) as [r|] eqn:Hr.
  - now apply (Hi requestId r).
  - now contradiction Hs.
Qed.

(** In sound books no account holds more than the supply. *)
Lemma sound_one_account (a : address) (t : MockUSDC.State) :
  MockUSDC.sound t -> MockUSDC.balance a t <= MAX_UINT256.
Proof.
  intros (Hnn & Hsum & Hmax). rewrite <- Hsum in Hmax.
  assert (Hm : forall c x, MockUSDC.balanceOf t !! c = Some x -> 0 <= x).
  { intros c x Hc. specialize (Hnn c). unfold MockUSDC.balance in Hnn.
    now rewrite Hc in Hnn. }
  pose proof (sum_lookup_le (MockUSDC.balanceOf t) a Hm) as [_ Ha].
  unfold MockUSDC.circulating in Hmax. unfold MockUSDC.balance. lia.
Qed.

(** The checks of a transfer are all there is to it. *)
Lemma _transfer_succeeds (from to : address) (amount : Z) (t : MockUSDC.State) :
  amount <= MockUSDC.balance from t ->
  MockUSDC.balance to t + (if decide (to = from) then 0 else amount) <= MAX_UINT256 ->
  exists t', MockUSDC._transfer from to amount t = Success (true, t').
Proof.
  intros Hle Hroom. unfold MockUSDC._transfer, bind, gets, require, sub, ret.
  rewrite (proj2 (Z.leb_le _ _) Hle). cbn iota beta.
  unfold MockUSDC.setBalance at 1. unfold modify. cbn iota beta.
  unfold add, ret.
  match goal with
  | |- context [MockUSDC.balance to ?s + amount <=? MAX_UINT256] =>
      assert (Hb : MockUSDC.balance to s + amount <= MAX_UINT256)
  end.
  { unfold MockUSDC.balance in *. cbn [MockUSDC.balanceOf].
    destruct (decide (to = from)) as [->|Hne].
    - rewrite lookup_insert_eq. cbn [default]. unfold Datatypes.id in *. lia.
    - rewrite lookup_insert_ne by congruence. lia. }
  rewrite (proj2 (Z.leb_le _ _) Hb). cbn iota beta.
  unfold MockUSDC.setBalance, modify. cbn iota beta. eauto.
Qed.

End SolvencyFacts.

Section PayoutFacts.
Import Evm IAidChain Protocol.

Lemma releaseTo_succeeds (this who recipient : address) (amount : Z)
    (t : FundPool.Treasury) :
  String.eqb who (FundPool.aidChainContract (FundPool.pool t)) = true ->
  amount <= FundPool.totalEscrowed (FundPool.pool t) ->
  FundPool.totalPaidOut (FundPool.pool t) + amount <= MAX_UINT256 ->
  amount <= MockUSDC.balance this (FundPool.stablecoin t) ->
  MockUSDC.balance recipient (FundPool.stablecoin t)
    + (if decide (recipient = this) then 0 else amount) <= MAX_UINT256 ->
  exists t', FundPool.releaseTo this who recipient amount t = Success (tt, t').
Proof.
  intros Hwho Hle Hpaid Hheld Hroom.
  destruct (_transfer_succeeds this recipient amount (FundPool.stablecoin t) Hheld Hroom)
    as [c' Hc'].
  unfold FundPool.releaseTo, FundPool.onlyAidChain, bind, gets, require, sub, add, ret.
  rewrite Hwho. cbn iota beta.
  rewrite (proj2 (Z.leb_le _ _) Hle). cbn iota beta.
  rewrite (proj2 (Z.leb_le _ _) Hpaid). cbn iota beta.
  unfold FundPool.onPool, FundPool.onToken, Evm.call, modify, MockUSDC.transfer.
  cbn [FundPool.pool FundPool.stablecoin]. rewrite Hc'. eauto.
Qed.

Lemma returnToPool_succeeds (who : address) (amount : Z) (t : FundPool.Treasury) :
  String.eqb who (FundPool.aidChainContract (FundPool.pool t)) = true ->
  amount <= FundPool.totalEscrowed (FundPool.pool t) ->
  FundPool.availableBalance (FundPool.pool t) + amount <= MAX_UINT256 ->
  exists t', FundPool.returnToPool who amount t = Success (tt, t').
Proof.
  intros Hwho Hle Hroom.
  unfold FundPool.returnToPool, FundPool.onlyAidChain, bind, gets, require, sub, add, ret.
  rewrite Hwho. cbn iota beta.
  rewrite (proj2 (Z.leb_le _ _) Hle). cbn iota beta.
  rewrite (proj2 (Z.leb_le _ _) Hroom). cbn iota beta.
  unfold FundPool.onPool, Evm.call, modify. eauto.
Qed.

(** What a deployment in working order lets the pool do for a request
    whose escrow it holds. *)
Lemma healthy_escrow aidChainAddr fundPoolAddr (st : Chain) (requestId : Z) :
  healthy aidChainAddr fundPoolAddr st ->
  holdsEscrow (status (request requestId st)) = true ->
  0 <= requestId < nextRequestId (aidChain st) /\
  String.eqb aidChainAddr (FundPool.aidChainContract (FundPool.pool (treasury st))) = true /\
  0 <= escrowAmount (request requestId st)
    <= FundPool.totalEscrowed (FundPool.pool (treasury st)) /\
  FundPool.totalPaidOut (FundPool.pool (treasury st)) + escrowAmount (request requestId st)
    <= MAX_UINT256 /\
  FundPool.availableBalance (FundPool.pool (treasury st))
    + escrowAmount (request requestId st) <= MAX_UINT256 /\
  escrowAmount (request requestId st) <= MockUSDC.balance fundPoolAddr (token st) /\
  forall recipient,
    MockUSDC.balance recipient (token st)
      + (if decide (recipient = fundPoolAddr) then 0
         else escrowAmount (request requestId st)) <= MAX_UINT256.
Proof.
  intros (Hsound & Hok & (Ha & He & Hp & Hd & Hbal & _) & Hbooks & Hi & Hl & Hesc & _)
    Hholds.
  pose proof (escrowHeld_le_underWay st requestId Hok) as Hle.
  unfold escrowHeld in Hle. rewrite Hholds in Hle. rewrite <- Hesc in Hle.
  unfold balanced in Hbooks. destruct (Hok requestId) as [_ Hnn].
  split.
  { apply moved_request_issued; [exact Hi|].
    intros Hs. rewrite Hs in Hholds. discriminate. }
  split; [unfold linked in Hl; rewrite Hl; apply String.eqb_refl|].
  split; [lia|]. split; [lia|]. split; [lia|]. split; [lia|].
  intros recipient. destruct (decide (recipient = fundPoolAddr)) as [->|Hne].
  - pose proof (sound_one_account fundPoolAddr _ Hsound). lia.
  - pose proof (sound_two_accounts recipient fundPoolAddr _ Hsound Hne). lia.
Qed.

End PayoutFacts.

Section HealthFacts.
Import Evm IAidChain Protocol.

Lemma requestAid_counter who now aidType' urgency' lat' lng' detailsHash' st requestId st' :
  requestAid who now aidType' urgency' lat' lng' detailsHash' st
    = Success (requestId, st') ->
  nextRequestId (aidChain st') <= MAX_UINT256.
Proof.
  unfold requestAid, setRequest, onAidChain. intros Hc. evm_inv.
  cbn [aidChain nextRequestId]. assumption.
Qed.

Lemma exec_counter aidChainAddr fundPoolAddr verifier (tx : Tx) (st st' : Chain) :
  exec aidChainAddr fundPoolAddr verifier tx st = Success (tt, st') ->
  nextRequestId (aidChain st) <= MAX_UINT256 ->
  nextRequestId (aidChain st') <= MAX_UINT256.
Proof.
  unfold exec. destruct (wellTyped (call tx)); [|discriminate].
  destruct tx as [who now c]. cbn [sender timestamp call] in *.
  destruct c; unfold dispatch; cbn [sender timestamp call]; intros Hc Hn;
    try (assert (Hsame : aidChain st' = aidChain st);
         [ unfold onToken in Hc; evm_inv;
           first [ eapply onFundPool_aidChain; eassumption
                 | eapply onRegistry_aidChain; eassumption ]
         | now rewrite Hsame ]);
    evm_inv;
    try match goal with
        | H : requestAid _ _ _ _ _ _ _ _ = Success _ |- _ =>
            apply requestAid_counter in H; exact H
        end;
    spec_inv;
    repeat match goal with
    | H : rewrites _ _ _ _ |- _ => destruct H as (_ & H & _)
    end;
    congruence.
Qed.

(** One successful external transaction keeps a deployment in working
    order. *)
Lemma exec_healthy aidChainAddr fundPoolAddr verifier (tx : Tx) (st st' : Chain) :
  external aidChainAddr fundPoolAddr tx = true ->
  exec aidChainAddr fundPoolAddr verifier tx st = Success (tt, st') ->
  healthy aidChainAddr fundPoolAddr st -> healthy aidChainAddr fundPoolAddr st'.
Proof.
  unfold external, ordinary. intros Hext He (Hsound & Hok & Hsolv & Hbooks & Hi & Hl & Hesc & Hn).
  apply andb_true_iff in Hext as [Hord Hpool].
  apply andb_true_iff in Hord as [Hself Hover].
  apply negb_true_iff in Hpool, Hself, Hover.
  apply String.eqb_neq in Hpool, Hself.
  destruct (exec_funds_sound aidChainAddr fundPoolAddr verifier tx st st' He (conj Hsound Hok)) as [Hsound' Hok'].
  destruct (exec_escrow aidChainAddr fundPoolAddr verifier tx st st' Hi Hl Hself Hover He Hesc) as [Hl' Hesc'].
  split; [exact Hsound'|]. split; [exact Hok'|].
  split; [exact (exec_solvent aidChainAddr fundPoolAddr verifier tx st st' Hpool He Hsound Hok Hsolv)|].
  split.
  { apply (exec_balanced aidChainAddr fundPoolAddr verifier tx st st'); [|exact He|exact Hbooks].
    destruct (call tx); try reflexivity; discriminate Hover. }
  split; [exact (proj1 (exec_status aidChainAddr fundPoolAddr verifier tx st st' 0 Hi He))|].
  split; [exact Hl'|]. split; [exact Hesc'|].
  exact (exec_counter aidChainAddr fundPoolAddr verifier tx st st' He Hn).
Qed.

Lemma run_healthy aidChainAddr fundPoolAddr verifier txs st :
  forallb (external aidChainAddr fundPoolAddr) txs = true ->
  healthy aidChainAddr fundPoolAddr st ->
  healthy aidChainAddr fundPoolAddr (run aidChainAddr fundPoolAddr verifier txs st).
Proof.
  apply (run_invariant aidChainAddr fundPoolAddr verifier
           (healthy aidChainAddr fundPoolAddr) (external aidChainAddr fundPoolAddr)).
  intros tx s s' Hext Hh He. exact (exec_healthy aidChainAddr fundPoolAddr verifier tx s s' Hext He Hh).
Qed.

Lemma deployed_healthy deployer aidChainAddr fundPoolAddr :
  healthy aidChainAddr fundPoolAddr (deployed deployer aidChainAddr).
Proof.
  assert (Hbal : forall a,
    0 <= MockUSDC.balance a (MockUSDC.constructor deployer) <= 10000000 * 1000000).
  { intros a. unfold MockUSDC.balance, MockUSDC.constructor. cbn [MockUSDC.balanceOf].
    destruct (decide (a = deployer)) as [->|Hne].
    - rewrite lookup_singleton_eq. cbn [default]. unfold Datatypes.id. lia.
    - rewrite lookup_singleton_ne by congruence. cbn [default]. lia. }
  unfold healthy, token, deployed. cbn [treasury FundPool.stablecoin FundPool.pool aidChain].
  split.
  { split; [intros a; apply Hbal|]. split.
    - unfold MockUSDC.circulating, MockUSDC.constructor.
      cbn [MockUSDC.balanceOf MockUSDC.totalSupply].
      rewrite map_fold_singleton. lia.
    - unfold MockUSDC.constructor, MAX_UINT256. cbn [MockUSDC.totalSupply]. lia. }
  split; [intros requestId; unfold request; cbn [aidChain aidRequests];
          rewrite lookup_empty; cbn; lia|].
  split.
  { unfold solvent, token.
    cbn [treasury FundPool.stablecoin FundPool.pool FundPool.availableBalance
         FundPool.totalEscrowed FundPool.totalPaidOut FundPool.totalDeposited].
    repeat (split; [unfold MAX_UINT256; lia|]). split; [apply Hbal|].
    intros spender. unfold MockUSDC.allowed, MockUSDC.constructor.
    cbn [MockUSDC.allowance]. now rewrite lookup_empty. }
  split; [unfold balanced; cbn; lia|]. split; [apply deployed_issued|].
  split; [reflexivity|]. split.
  - unfold escrowUnderWay. cbn [aidChain aidRequests FundPool.totalEscrowed].
    now rewrite map_fold_empty.
  - cbn [nextRequestId]. unfold MAX_UINT256. lia.
Qed.

End HealthFacts.

Section ClosingFacts.
Import Evm IAidChain Protocol.

Lemma releasePayout_succeeds aidChainAddr fundPoolAddr who now requestId (st : Chain) :
  healthy aidChainAddr fundPoolAddr st ->
  String.eqb who (oracleOperator (aidChain st)) = true ->
  status (request requestId st) = AidChain.DeliveryVerified ->
  exists st', releasePayout aidChainAddr fundPoolAddr who now requestId st
              = Success (tt, st').
Proof.
  intros Hh Hwho Hs.
  destruct (healthy_escrow aidChainAddr fundPoolAddr st requestId Hh)
    as (Hid & Hlinked & Hesc & Hpaid & _ & Hheld & Hroom); [now rewrite Hs|].
  destruct (releaseTo_succeeds fundPoolAddr aidChainAddr
              (fulfiller (request requestId st)) (escrowAmount (request requestId st))
              (treasury st)) as [t' Ht']; try assumption; [lia|apply Hroom|].
  unfold releasePayout, onlyOracle, requestExists, bind, gets, require, ret.
  rewrite Hwho. cbn iota beta.
  rewrite (proj2 (Z.ltb_lt _ _) (proj2 Hid)). cbn iota beta.
  rewrite Hs. cbn [statusIs statusCode Z.eqb Pos.eqb]. cbn iota beta.
  unfold setRequest, onAidChain, modify, onFundPool, Evm.call.
  cbn [treasury]. rewrite Ht'. eauto.
Qed.

Lemma timeoutRequest_succeeds aidChainAddr fundPoolAddr who now requestId (st : Chain) :
  healthy aidChainAddr fundPoolAddr st ->
  String.eqb who (oracleOperator (aidChain st)) = true ->
  status (request requestId st) = AidChain.Funded \/
  status (request requestId st) = AidChain.DeliveryFailed ->
  fundedAt (request requestId st) + 86400 < now <= MAX_UINT256 ->
  exists st', timeoutRequest aidChainAddr who now requestId st = Success (tt, st').
Proof.
  intros Hh Hwho Hs Hlate.
  destruct (healthy_escrow aidChainAddr fundPoolAddr st requestId Hh)
    as (Hid & Hlinked & Hesc & _ & Havail & _); [destruct Hs as [-> | ->]; reflexivity|].
  destruct (returnToPool_succeeds aidChainAddr
              (escrowAmount (request requestId st)) (treasury st))
    as [t' Ht']; try assumption; [lia|].
  unfold timeoutRequest, onlyOracle, requestExists, bind, gets, require, add, ret.
  rewrite Hwho. cbn iota beta.
  rewrite (proj2 (Z.ltb_lt _ _) (proj2 Hid)). cbn iota beta.
  replace (statusIs (status (request requestId st)) AidChain.Funded ||
           statusIs (status (request requestId st)) AidChain.DeliveryFailed) with true
    by (destruct Hs as [-> | ->]; reflexivity).
  cbn iota beta.
  replace (fundedAt (request requestId st) + 86400 <=? MAX_UINT256) with true
    by (symmetry; apply Z.leb_le; lia).
  cbn iota beta.
  rewrite (proj2 (Z.ltb_lt _ _) (proj1 Hlate)). cbn iota beta.
  unfold setRequest, onAidChain, modify, onFundPool, Evm.call.
  cbn [treasury]. rewrite Ht'. eauto.
Qed.

End ClosingFacts.

(** X17: the token's books stay sound whatever is sent to the
    contracts: the balances are never negative and always add up to
    the total supply, which only [mint] changes. *)
Theorem token_supply_is_conserved
    (aidChainAddr fundPoolAddr : Evm.address)
    (verifier : Evm.address -> Evm.address -> Evm.bytes32 -> string ->
                VerificationRegistry.StaticCall)
    (txs : list Protocol.Tx) (st : Protocol.Chain) :
  let st' := Protocol.run aidChainAddr fundPoolAddr verifier txs st in
  MockUSDC.sound (Protocol.token st) -> Protocol.amountsOk st ->
  MockUSDC.sound (Protocol.token st') /\
  (forallb (fun tx => match Protocol.call tx with
                      | Protocol.TokenMint _ _ => false
                      | _ => true
                      end) txs = true ->
   MockUSDC.totalSupply (Protocol.token st') = MockUSDC.totalSupply (Protocol.token st)).
Proof.
  intros st' Hsound Hok. subst st'. split.
  - apply (run_invariant aidChainAddr fundPoolAddr verifier
             (fun s => MockUSDC.sound (Protocol.token s) /\ Protocol.amountsOk s)
             (fun _ => true)); [|now apply forallb_forall|tauto].
    intros tx s s' _ Hinv He.
    exact (exec_funds_sound aidChainAddr fundPoolAddr verifier tx s s' He Hinv).
  - intros Hnomint.
    apply (run_invariant aidChainAddr fundPoolAddr verifier
             (fun s => MockUSDC.totalSupply (Protocol.token s)
                       = MockUSDC.totalSupply (Protocol.token st))
             (fun tx => match Protocol.call tx with
                        | Protocol.TokenMint _ _ => false
                        | _ => true
                        end)); [|exact Hnomint|reflexivity].
    intros tx s s' Hcall Hinv He. rewrite <- Hinv. clear Hinv.
    unfold Protocol.exec in He. destruct (Protocol.wellTyped (Protocol.call tx));
      [|discriminate].
    destruct tx as [who now c]. cbn [Protocol.sender Protocol.timestamp Protocol.call] in *.
    destruct c; try discriminate Hcall;
      unfold Protocol.dispatch in He;
      cbn [Protocol.sender Protocol.timestamp Protocol.call] in He;
      evm_inv; spec_inv; token_inv;
      unfold Protocol.token in *;
      cbn [Protocol.treasury FundPool.stablecoin] in *;
      repeat match goal with
      | H : Protocol.treasury _ = Protocol.treasury _ |- _ => rewrite H in *
      | H : FundPool.stablecoin _ = FundPool.stablecoin _ |- _ => rewrite H in *
      end;
      congruence.
Qed.

(** On the local deployment, after the payout: the supply is the ten
    million tokens the constructor minted. *)
Lemma token_supply_is_conserved_witness :
  MockUSDC.sound (Protocol.token (localChain (fundingTrace ++ deliveryTrace))) /\
  MockUSDC.totalSupply (Protocol.token (localChain (fundingTrace ++ deliveryTrace)))
    = 10000000 * 1000000.
Proof.
  destruct (token_supply_is_conserved aidChainAddress fundPoolAddress noVerifier
              (fundingTrace ++ deliveryTrace)
              (Protocol.deployed deployerAccount aidChainAddress)) as [Hsound Hsupply].
  - apply (deployed_healthy deployerAccount aidChainAddress fundPoolAddress).
  - apply (deployed_healthy deployerAccount aidChainAddress fundPoolAddress).
  - split; [exact Hsound|]. unfold localChain. rewrite Hsupply; reflexivity.
Defined.

(** X18: the pool stays solvent.  As long as no transaction is sent
    from the pool's own address, the pool holds at least the tokens
    its books call available or in escrow, whatever else is sent, the
    owner's emergency withdrawal included. *)
Theorem pool_stays_solvent
    (aidChainAddr fundPoolAddr : Evm.address)
    (verifier : Evm.address -> Evm.address -> Evm.bytes32 -> string ->
                VerificationRegistry.StaticCall)
    (txs : list Protocol.Tx) (st : Protocol.Chain) :
  let st' := Protocol.run aidChainAddr fundPoolAddr verifier txs st in
  forallb (fun tx => negb (String.eqb (Protocol.sender tx) fundPoolAddr)) txs = true ->
  MockUSDC.sound (Protocol.token st) -> Protocol.amountsOk st ->
  Protocol.solvent fundPoolAddr st ->
  FundPool.availableBalance (FundPool.pool (Protocol.treasury st')) +
    FundPool.totalEscrowed (FundPool.pool (Protocol.treasury st'))
    <= MockUSDC.balance fundPoolAddr (Protocol.token st') /\
  Protocol.solvent fundPoolAddr st'.
Proof.
  intros st' Hall Hsound Hok Hsolv. subst st'.
  assert (Hinv :
    (MockUSDC.sound
       (Protocol.token (Protocol.run aidChainAddr fundPoolAddr verifier txs st)) /\
     Protocol.amountsOk (Protocol.run aidChainAddr fundPoolAddr verifier txs st)) /\
    Protocol.solvent fundPoolAddr (Protocol.run aidChainAddr fundPoolAddr verifier txs st)).
  { apply (run_invariant aidChainAddr fundPoolAddr verifier
             (fun s => (MockUSDC.sound (Protocol.token s) /\ Protocol.amountsOk s) /\
                       Protocol.solvent fundPoolAddr s)
             (fun tx => negb (String.eqb (Protocol.sender tx) fundPoolAddr)));
      [|exact Hall|tauto].
    intros tx s s' Hwho [Hfunds Hs] He.
    apply negb_true_iff, String.eqb_neq in Hwho. split.
    - exact (exec_funds_sound aidChainAddr fundPoolAddr verifier tx s s' He Hfunds).
    - exact (exec_solvent aidChainAddr fundPoolAddr verifier tx s s' Hwho He
               (proj1 Hfunds) (proj2 Hfunds) Hs). }
  destruct Hinv as [_ Hs]. split; [|exact Hs].
  unfold Protocol.solvent in Hs. tauto.
Qed.

(** On the local deployment with a request funded: 150 tokens in
    escrow, the rest of the million deposited available, all of it
    held by the pool. *)
Lemma pool_stays_solvent_witness :
  FundPool.availableBalance (FundPool.pool (Protocol.treasury (localChain fundingTrace))) +
    FundPool.totalEscrowed (FundPool.pool (Protocol.treasury (localChain fundingTrace)))
    <= MockUSDC.balance fundPoolAddress (Protocol.token (localChain fundingTrace)) /\
  FundPool.totalEscrowed (FundPool.pool (Protocol.treasury (localChain fundingTrace)))
    = 150000000.
Proof.
  split; [|vm_compute; reflexivity].
  apply (pool_stays_solvent aidChainAddress fundPoolAddress noVerifier fundingTrace
           (Protocol.deployed deployerAccount aidChainAddress)).
  - vm_compute. reflexivity.
  - apply (deployed_healthy deployerAccount aidChainAddress fundPoolAddress).
  - apply (deployed_healthy deployerAccount aidChainAddress fundPoolAddress).
  - apply (deployed_healthy deployerAccount aidChainAddress fundPoolAddress).
Defined.

(** X19: a verified delivery can always be paid.  On a deployment in
    working order, after any run of external transactions, the oracle
    operator's [releasePayout] on a request whose delivery is verified
    goes through: the request is settled, the pool's escrow goes down
    by the request's escrow amount and the fulfiller's balance up by
    it. *)
Theorem verified_delivery_can_be_paid
    (aidChainAddr fundPoolAddr : Evm.address)
    (verifier : Evm.address -> Evm.address -> Evm.bytes32 -> string ->
                VerificationRegistry.StaticCall)
    (txs : list Protocol.Tx) (st : Protocol.Chain)
    (who : Evm.address) (at_ requestId : Z) :
  let st1 := Protocol.run aidChainAddr fundPoolAddr verifier txs st in
  let r := Protocol.request requestId st1 in
  let payout :=
    {| Protocol.sender := who; Protocol.timestamp := at_;
       Protocol.call := Protocol.ReleasePayout requestId |} in
  Protocol.healthy aidChainAddr fundPoolAddr st ->
  forallb (Protocol.external aidChainAddr fundPoolAddr) txs = true ->
  IAidChain.status r = AidChain.DeliveryVerified ->
  who = Protocol.oracleOperator (Protocol.aidChain st1) ->
  exists st2,
    Protocol.exec aidChainAddr fundPoolAddr verifier payout st1 = Evm.Success (tt, st2) /\
    IAidChain.status (Protocol.request requestId st2) = AidChain.Settled /\
    FundPool.totalEscrowed (FundPool.pool (Protocol.treasury st2))
      = FundPool.totalEscrowed (FundPool.pool (Protocol.treasury st1))
        - IAidChain.escrowAmount r /\
    (IAidChain.fulfiller r <> fundPoolAddr ->
     MockUSDC.balance (IAidChain.fulfiller r) (Protocol.token st2)
       = MockUSDC.balance (IAidChain.fulfiller r) (Protocol.token st1)
         + IAidChain.escrowAmount r).
Proof.
  intros st1 r payout Hh Hall Hs Hwho.
  assert (Hh1 : Protocol.healthy aidChainAddr fundPoolAddr st1)
    by (apply run_healthy; assumption).
  assert (Hid : 0 <= requestId < Protocol.nextRequestId (Protocol.aidChain st1)).
  { apply (healthy_escrow aidChainAddr fundPoolAddr st1 requestId Hh1).
    fold r. now rewrite Hs. }
  assert (Hn : Protocol.nextRequestId (Protocol.aidChain st1) <= Evm.MAX_UINT256)
    by apply Hh1.
  destruct (releasePayout_succeeds aidChainAddr fundPoolAddr who at_ requestId st1 Hh1)
    as [st2 Hrun]; [rewrite Hwho; apply String.eqb_refl|exact Hs|].
  exists st2. split.
  { unfold Protocol.exec, payout. cbn [Protocol.call Protocol.wellTyped].
    replace (Evm.is_uint256 requestId) with true
      by (symmetry; unfold Evm.is_uint256; apply andb_true_iff;
          split; apply Z.leb_le; lia).
    exact Hrun. }
  apply releasePayout_spec in Hrun as (_ & _ & Hrel & Hrw).
  apply releaseTo_spec in Hrel as (_ & _ & _ & [ok Htr] & Hpool).
  unfold MockUSDC.transfer in Htr.
  apply _transfer_spec in Htr as (_ & Hb & _).
  split; [|split].
  - rewrite (rewrites_request _ _ _ _ requestId Hrw).
    destruct (decide (requestId = requestId)); [reflexivity|congruence].
  - rewrite Hpool. reflexivity.
  - intros Hne. unfold Protocol.token. rewrite Hb. fold r.
    destruct (decide (IAidChain.fulfiller r = fundPoolAddr)); [contradiction|].
    destruct (decide (IAidChain.fulfiller r = IAidChain.fulfiller r)); [lia|congruence].
Qed.

(** On the local deployment, with the delivery of request 0 verified:
    the oracle's payout settles it. *)
Lemma verified_delivery_can_be_paid_witness :
  exists st2,
    Protocol.exec aidChainAddress fundPoolAddress noVerifier
      (sent deployerAccount 1100 (Protocol.ReleasePayout 0))
      (localChain (fundingTrace ++ firstn 2 deliveryTrace)) = Evm.Success (tt, st2) /\
    IAidChain.status (Protocol.request 0 st2) = AidChain.Settled.
Proof.
  destruct (verified_delivery_can_be_paid aidChainAddress fundPoolAddress noVerifier
              (fundingTrace ++ firstn 2 deliveryTrace)
              (Protocol.deployed deployerAccount aidChainAddress) deployerAccount 1100 0)
    as (st2 & Hexec & Hsettled & _).
  - apply deployed_healthy.
  - vm_compute. reflexivity.
  - vm_compute. reflexivity.
  - vm_compute. reflexivity.
  - exists st2. split; [exact Hexec|exact Hsettled].
Defined.

(** X20: an expired request can always be timed out.  On a deployment
    in working order, after any run of external transactions, the
    oracle operator's [timeoutRequest] on a request that is funded, or
    whose delivery failed, goes through once 24 hours have passed
    since the funding: the request is timed out and its escrow is
    available again. *)
Theorem expired_request_can_be_timed_out
    (aidChainAddr fundPoolAddr : Evm.address)
    (verifier : Evm.address -> Evm.address -> Evm.bytes32 -> string ->
                VerificationRegistry.StaticCall)
    (txs : list Protocol.Tx) (st : Protocol.Chain)
    (who : Evm.address) (at_ requestId : Z) :
  let st1 := Protocol.run aidChainAddr fundPoolAddr verifier txs st in
  let r := Protocol.request requestId st1 in
  let timeout :=
    {| Protocol.sender := who; Protocol.timestamp := at_;
       Protocol.call := Protocol.TimeoutRequest requestId |} in
  Protocol.healthy aidChainAddr fundPoolAddr st ->
  forallb (Protocol.external aidChainAddr fundPoolAddr) txs = true ->
  IAidChain.status r = AidChain.Funded \/ IAidChain.status r = AidChain.DeliveryFailed ->
  IAidChain.fundedAt r + 86400 < at_ <= Evm.MAX_UINT256 ->
  who = Protocol.oracleOperator (Protocol.aidChain st1) ->
  exists st2,
    Protocol.exec aidChainAddr fundPoolAddr verifier timeout st1 = Evm.Success (tt, st2) /\
    IAidChain.status (Protocol.request requestId st2) = AidChain.TimedOut /\
    FundPool.totalEscrowed (FundPool.pool (Protocol.treasury st2))
      = FundPool.totalEscrowed (FundPool.pool (Protocol.treasury st1))
        - IAidChain.escrowAmount r /\
    FundPool.availableBalance (FundPool.pool (Protocol.treasury st2))
      = FundPool.availableBalance (FundPool.pool (Protocol.treasury st1))
        + IAidChain.escrowAmount r.
Proof.
  intros st1 r timeout Hh Hall Hs Hlate Hwho.
  assert (Hh1 : Protocol.healthy aidChainAddr fundPoolAddr st1)
    by (apply run_healthy; assumption).
  assert (Hid : 0 <= requestId < Protocol.nextRequestId (Protocol.aidChain st1)).
  { apply (healthy_escrow aidChainAddr fundPoolAddr st1 requestId Hh1).
    fold r. destruct Hs as [-> | ->]; reflexivity. }
  assert (Hn : Protocol.nextRequestId (Protocol.aidChain st1) <= Evm.MAX_UINT256)
    by apply Hh1.
  destruct (timeoutRequest_succeeds aidChainAddr fundPoolAddr who at_ requestId st1 Hh1)
    as [st2 Hrun]; [rewrite Hwho; apply String.eqb_refl|exact Hs|exact Hlate|].
  exists st2. split.
  { unfold Protocol.exec, timeout. cbn [Protocol.call Protocol.wellTyped].
    replace (Evm.is_uint256 requestId) with true
      by (symmetry; unfold Evm.is_uint256; apply andb_true_iff;
          split; apply Z.leb_le; lia).
    exact Hrun. }
  apply timeoutRequest_spec in Hrun as (_ & _ & _ & Hret & Hrw).
  apply returnToPool_spec in Hret as (_ & _ & _ & _ & Hpool).
  split; [|split].
  - rewrite (rewrites_request _ _ _ _ requestId Hrw).
    destruct (decide (requestId = requestId)); [reflexivity|congruence].
  - rewrite Hpool. reflexivity.
  - rewrite Hpool. reflexivity.
Qed.

(** On the local deployment, a day and a second after request 0 was
    funded with no delivery: its 150 tokens are available again. *)
Lemma expired_request_can_be_timed_out_witness :
  exists st2,
    Protocol.exec aidChainAddress fundPoolAddress noVerifier
      (sent deployerAccount 87471 (Protocol.TimeoutRequest 0))
      (localChain fundingTrace) = Evm.Success (tt, st2) /\
    IAidChain.status (Protocol.request 0 st2) = AidChain.TimedOut /\
    FundPool.availableBalance (FundPool.pool (Protocol.treasury st2)) = 1000000000000.
Proof.
  destruct (expired_request_can_be_timed_out aidChainAddress fundPoolAddress noVerifier
              fundingTrace (Protocol.deployed deployerAccount aidChainAddress)
              deployerAccount 87471 0)
    as (st2 & Hexec & Htimed & _ & Havail).
  - apply deployed_healthy.
  - vm_compute. reflexivity.
  - left. vm_compute. reflexivity.
  - vm_compute. split; [reflexivity|discriminate].
  - vm_compute. reflexivity.
  - exists st2. split; [exact Hexec|]. split; [exact Htimed|].
    rewrite Havail. vm_compute. reflexivity.
Defined.

(** ** Without other tasks, the two models of the orchestrator agree *)

Section SequentialFacts.
Context `{JsMath}.
Variable keccak256 : string -> string.
Variable stringifyAttestation : Fdc.FdcAttestation -> string.
Variable hashTranscript : LlmPanel.Transcript -> string.
Variable hashAttestation : Fulfillment.Attestation -> string.
Variable now : string.
Variable nowMs : Z.
Variable toFixed : float -> nat -> string.
Variable showNumber : float -> string.
Variable ziplineWallet : string.
Variable authorityWallet : string.
Variable w : Pipeline.World.
Import Eff Pipeline Async.

Lemma agrees_ret {A} (P Q : Heap -> Prop) (a : A) :
  (forall h, P h -> Q h) -> agrees P Q (ret a) (ret a).
Proof. intros HPQ h Hh. cbn. auto. Qed.

Lemma agrees_throw {A} (P Q : Heap -> Prop) (e : Exn) :
  (forall h, P h -> Q h) -> agrees P Q (@throw Heap A e) (@throw Sys A e).
Proof. intros HPQ h Hh. cbn. auto. Qed.

Lemma agrees_bind {A B} (P Q : Heap -> Prop) (m : M Heap A) (m' : M Sys A)
    (k : A -> M Heap B) (k' : A -> M Sys B) :
  agrees P P m m' -> (forall a, agrees P Q (k a) (k' a)) ->
  (forall h, P h -> Q h) ->
  agrees P Q (bind m k) (bind m' k').
Proof.
  intros Hm Hk HPQ h Hh. unfold bind.
  destruct (Hm h Hh) as (Hres & Hsys & Hpost).
  destruct (m h) as [r h1]. destruct (m' (toSys h)) as [r' s1].
  cbn [fst snd] in *. subst r' s1.
  destruct r as [a|e]; [now apply Hk|]. cbn. auto.
Qed.

Lemma agrees_tryCatch {A} (P R Q : Heap -> Prop) (m : M Heap A) (m' : M Sys A)
    (handler : Exn -> M Heap A) (handler' : Exn -> M Sys A) :
  agrees P R m m' -> (forall e, agrees R Q (handler e) (handler' e)) ->
  (forall h, R h -> Q h) ->
  agrees P Q (tryCatch m handler) (tryCatch m' handler').
Proof.
  intros Hm Hk HRQ h Hh. unfold tryCatch.
  destruct (Hm h Hh) as (Hres & Hsys & Hpost).
  destruct (m h) as [r h1]. destruct (m' (toSys h)) as [r' s1].
  cbn [fst snd] in *. subst r' s1.
  destruct r as [a|e]; [cbn; auto|now apply Hk].
Qed.

Lemma agrees_await {A} (P Q : Heap -> Prop) (k : nat) (m : M Heap A) (m' : M Sys A) :
  agrees P Q m m' -> agrees P Q (await alone k m) m'.
Proof.
  intros Hm h Hh. unfold await, alone. specialize (Hm h Hh).
  destruct (m h) as [r h1]. exact Hm.
Qed.

Lemma agrees_await_ret {A B} (P Q : Heap -> Prop) (k : nat) (a : A)
    (kk : A -> M Heap B) (m' : M Sys B) :
  agrees P Q (kk a) m' -> agrees P Q (bind (await alone k (ret a)) kk) m'.
Proof. intros Hm. exact Hm. Qed.

Section Stored.
(** A property of the objects and of the map only. *)
Variable P : Heap -> Prop.
Hypothesis P_store :
  forall h h', objects h = objects h' -> Async.activePipelines h = Async.activePipelines h' ->
               P h -> P h'.

Lemma agrees_emit rid stage status message :
  agrees P P (Async.emit rid stage status message)
    (Pipeline.emit rid stage status message).
Proof.
  intros h Hh. split; [reflexivity|]. split; [reflexivity|].
  apply (P_store h); [reflexivity|reflexivity|exact Hh].
Qed.

Lemma agrees_ledger {A} (m : M Blockchain.Client A) :
  agrees P P (Async.ledger m) (Pipeline.ledger m).
Proof.
  intros h Hh. unfold Async.ledger, Pipeline.ledger, zoom. cbn [toSys Pipeline.client].
  destruct (m (Async.client h)) as [r c]. split; [reflexivity|]. split; [reflexivity|].
  apply (P_store h); [reflexivity|reflexivity|exact Hh].
Qed.

End Stored.

Lemma wellFormed_store (h h' : Heap) :
  objects h = objects h' -> Async.activePipelines h = Async.activePipelines h' ->
  wellFormed h -> wellFormed h'.
Proof. intros Ho Ha. unfold wellFormed. now rewrite Ho, Ha. Qed.

Lemma registered_store (rid : Z) (ref : nat) (h h' : Heap) :
  objects h = objects h' -> Async.activePipelines h = Async.activePipelines h' ->
  registered rid ref h -> registered rid ref h'.
Proof. intros Ho Ha. unfold registered, wellFormed. now rewrite Ho, Ha. Qed.

Section Registered.
Variable rid : Z.
Variable ref : nat.

Lemma registryView_alter (f : PipelineState -> PipelineState) (h : Heap) :
  registered rid ref h ->
  omap (fun r => alter f ref (objects h) !! r) (Async.activePipelines h)
  = alter f rid (registryView h).
Proof.
  intros [[Hobj Hinj] Hreg]. apply map_eq. intros i. unfold registryView.
  rewrite lookup_omap. destruct (decide (i = rid)) as [->|Hne].
  - rewrite lookup_alter_eq, lookup_omap, Hreg. cbn. now rewrite lookup_alter_eq.
  - rewrite lookup_alter_ne, lookup_omap by congruence.
    destruct (Async.activePipelines h !! i) as [r|] eqn:Hi; [|reflexivity]. cbn.
    rewrite lookup_alter_ne; [reflexivity|].
    intros <-. apply Hne. now apply (Hinj i rid ref).
Qed.

Lemma agrees_assign (f : PipelineState -> PipelineState) :
  agrees (registered rid ref) (registered rid ref) (assign ref f) (mutate rid f).
Proof.
  intros h Hh. split; [reflexivity|]. split.
  - unfold toSys, registryView at 1. cbn.
    now rewrite (registryView_alter f h Hh).
  - destruct Hh as [[Hobj Hinj] Hreg]. split; [split|]; cbn; [|exact Hinj|exact Hreg].
    intros i r Hi. destruct (decide (r = ref)) as [->|Hr].
    + rewrite lookup_alter_eq. destruct (Hobj i ref Hi) as [x ->]. now eexists.
    + rewrite lookup_alter_ne by congruence. now apply (Hobj i).
Qed.

Lemma agrees_deref :
  agrees (registered rid ref) (registered rid ref) (deref ref) (Pipeline.registryGet rid).
Proof.
  intros h Hh. split; [|split; [reflexivity|exact Hh]].
  destruct Hh as [_ Hreg]. cbn. unfold registryView. now rewrite lookup_omap, Hreg.
Qed.

End Registered.

Ltac agree_side :=
  first [ exact (fun h Hh => Hh) | assumption
        | apply registered_store | apply wellFormed_store ].

Ltac agree_step :=
  cbv beta;
  lazymatch goal with
  | |- agrees _ _ (if ?c then _ else _) _ => destruct c
  | |- agrees _ _ (bind (Async.await _ _ (ret _)) _) _ => apply agrees_await_ret
  | |- agrees _ _ (bind (Async.registryDelete _) _) _ =>
      match goal with
      | Hlast : forall P, _ -> agrees P _ _ _ |- _ => apply Hlast; agree_side
      end
  | |- agrees _ _ (bind _ _) (bind _ _) =>
      apply agrees_bind; [|intros ?|solve [agree_side]]
  | |- agrees _ _ (Async.await _ _ _) _ => apply agrees_await
  | |- agrees _ _ (Async.assign _ _) _ => apply agrees_assign
  | |- agrees _ _ (Async.emit _ _ _ _) _ => apply agrees_emit; agree_side
  | |- agrees _ _ (Async.ledger _) _ => apply agrees_ledger; agree_side
  | |- agrees _ _ (ret _) _ => apply agrees_ret; agree_side
  | |- agrees _ _ (throw _) _ => apply agrees_throw; agree_side
  end.

(** Stages 1 to 6. *)
Lemma stages1to6_agrees (rid : Z) (ref : nat) (params : Params) :
  p_requestId params = rid ->
  agrees (registered rid ref) (registered rid ref)
    (Async.stages1to6 keccak256 stringifyAttestation hashTranscript now
       toFixed showNumber ziplineWallet authorityWallet alone w params ref)
    (Pipeline.stages1to6 keccak256 stringifyAttestation hashTranscript now
       toFixed showNumber ziplineWallet authorityWallet w params).
Proof.
  intros Hrid. unfold Async.stages1to6, Pipeline.stages1to6. cbv zeta. rewrite Hrid.
  repeat agree_step.
Qed.

(** A new object under [rid]: the view gets the record, and the heap
    stays well formed. *)
Lemma create_registered (rid : Z) (st : PipelineState) (h : Heap) :
  wellFormed h ->
  let ref := fresh (dom (objects h) : gset nat) in
  let h1 :=
    {| objects := <[ref := st]> (objects h);
       Async.activePipelines := <[rid := ref]> (Async.activePipelines h);
       Async.emitted := Async.emitted h; Async.client := Async.client h |} in
  registered rid ref h1 /\ registryView h1 = <[rid := st]> (registryView h).
Proof.
  intros [Hobj Hinj] ref h1.
  assert (Hfresh : forall i r, Async.activePipelines h !! i = Some r -> r <> ref).
  { intros i r Hi ->. apply (is_fresh (dom (objects h) : gset nat)).
    apply elem_of_dom. now apply (Hobj i). }
  split; [split; [split|]|].
  - intros i r. cbn. destruct (decide (i = rid)) as [->|Hne].
    + rewrite lookup_insert_eq. intros [= <-]. rewrite lookup_insert_eq. now eexists.
    + rewrite lookup_insert_ne by congruence. intros Hi.
      rewrite lookup_insert_ne; [now apply (Hobj i)|].
      intros Heq. now apply (Hfresh i r).
  - intros i i' r. cbn.
    destruct (decide (i = rid)) as [->|Hne]; destruct (decide (i' = rid)) as [->|Hne'];
      [reflexivity| | |].
    + rewrite lookup_insert_eq, lookup_insert_ne by congruence.
      intros [= <-] Hi'. now destruct (Hfresh i' ref).
    + rewrite lookup_insert_eq, lookup_insert_ne by congruence.
      intros Hi [= <-]. now destruct (Hfresh i ref).
    + rewrite !lookup_insert_ne by congruence. apply Hinj.
  - cbn. apply lookup_insert_eq.
  - apply map_eq. intros i. unfold registryView. cbn. rewrite lookup_omap.
    destruct (decide (i = rid)) as [->|Hne].
    + rewrite !lookup_insert_eq. cbn. now rewrite lookup_insert_eq.
    + rewrite !lookup_insert_ne, lookup_omap by congruence.
      destruct (Async.activePipelines h !! i) as [r|] eqn:Hi; [|reflexivity]. cbn.
      rewrite lookup_insert_ne; [reflexivity|].
      intros Heq. now apply (Hfresh i r).
Qed.

Lemma executePipeline_agrees (params : Params) :
  agrees wellFormed wellFormed
    (Async.executePipeline keccak256 stringifyAttestation hashTranscript now nowMs
       toFixed showNumber ziplineWallet authorityWallet alone w params)
    (Pipeline.executePipeline keccak256 stringifyAttestation hashTranscript now nowMs
       toFixed showNumber ziplineWallet authorityWallet w params).
Proof.
  intros h Hh.
  set (rid := p_requestId params).
  set (state0 := {| requestId := rid; currentStage := STAGE_REQUEST;
                    startTime := nowMs; stages := []; error := None |}).
  destruct (create_registered rid state0 h Hh) as [Hreg Hview].
  set (ref := fresh (dom (objects h) : gset nat)) in *.
  set (h1 := {| objects := <[ref := state0]> (objects h);
                Async.activePipelines := <[rid := ref]> (Async.activePipelines h);
                Async.emitted := Async.emitted h; Async.client := Async.client h |}) in *.
  assert (Hrest :
    agrees (registered rid ref) wellFormed
      (tryCatch
         (let! dispatchResult :=
            Async.stages1to6 keccak256 stringifyAttestation hashTranscript now
              toFixed showNumber ziplineWallet authorityWallet alone w params ref in
          let! st := deref ref in
          ret (PipelineSuccess (default state0 st) dispatchResult))
         (fun err =>
            run! assign ref (setError (message_of err)) in
            let! st := deref ref in
            let stage :=
              match err with
              | PipelineError stage _ => StageName stage
              | _ => StageNumber (currentStage (default state0 st))
              end in
            run! Async.emit rid stage None (message_of err) in
            ret (PipelineFailure (message_of err) stage (default state0 st))))
      (tryCatch
         (let! dispatchResult :=
            Pipeline.stages1to6 keccak256 stringifyAttestation hashTranscript now
              toFixed showNumber ziplineWallet authorityWallet w params in
          let! st := Pipeline.registryGet rid in
          ret (PipelineSuccess (default state0 st) dispatchResult))
         (fun err =>
            run! mutate rid (setError (message_of err)) in
            let! st := Pipeline.registryGet rid in
            let stage :=
              match err with
              | PipelineError stage _ => StageName stage
              | _ => StageNumber (currentStage (default state0 st))
              end in
            run! Pipeline.emit rid stage None (message_of err) in
            ret (PipelineFailure (message_of err) stage (default state0 st))))).
  { assert (Hweak : forall h', registered rid ref h' -> wellFormed h')
      by (intros h' Hh'; apply Hh').
    apply (agrees_tryCatch (registered rid ref) (registered rid ref));
      [|intros err|exact Hweak].
    - apply agrees_bind; [now apply stages1to6_agrees|intros d|auto].
      apply agrees_bind; [apply agrees_deref|intros st|auto].
      apply agrees_ret. auto.
    - apply agrees_bind; [apply agrees_assign|intros _|exact Hweak].
      apply agrees_bind; [apply agrees_deref|intros st|exact Hweak]. cbv zeta.
      apply agrees_bind;
        [apply agrees_emit; apply registered_store|intros _|exact Hweak].
      apply agrees_ret. exact Hweak. }
  specialize (Hrest h1 Hreg).
  assert (Hsys : toSys h1 = snd (Pipeline.registrySet rid state0 (toSys h))).
  { unfold toSys, Pipeline.registrySet, modify.
    cbn [snd Pipeline.activePipelines Pipeline.emitted Pipeline.client].
    now rewrite Hview. }
  rewrite Hsys in Hrest. exact Hrest.
Qed.

Lemma registryView_delete (rid : Z) (h : Heap) :
  omap (fun r => objects h !! r) (delete rid (Async.activePipelines h))
  = delete rid (registryView h).
Proof. unfold registryView. apply omap_delete. Qed.

Lemma bind_gets {S A B} (f : S -> A) (k : A -> M S B) (s : S) :
  bind (gets f) k s = k (f s) s.
Proof. reflexivity. Qed.

Lemma completeDelivery_agrees (rid : Z) (proof : Fulfillment.ProofData) :
  agrees wellFormed wellFormed
    (Async.completeDelivery hashAttestation now alone w rid proof)
    (Pipeline.completeDelivery hashAttestation now w rid proof).
Proof.
  intros h Hh.
  assert (Hlast : forall P, (forall h', P h' -> wellFormed h') ->
            agrees P wellFormed
              (run! Async.registryDelete rid in ret DeliverySuccess)
              (run! Pipeline.registryDelete rid in ret DeliverySuccess)).
  { intros P HP h' Hh'. split; [reflexivity|]. split.
    - cbn. unfold toSys. cbn. unfold registryView at 1. cbn.
      now rewrite registryView_delete.
    - destruct (HP h' Hh') as [Hobj Hinj]. split; cbn.
      + intros i r Hi. apply lookup_delete_Some in Hi as [_ Hi]. now apply (Hobj i).
      + intros i i' r Hi Hi'. apply lookup_delete_Some in Hi as [_ Hi].
        apply lookup_delete_Some in Hi' as [_ Hi']. now apply (Hinj i i' r). }
  unfold Async.completeDelivery, Pipeline.completeDelivery,
    Async.registryGet, Pipeline.registryGet.
  rewrite !bind_gets.
  change (Pipeline.activePipelines (toSys h)) with (registryView h).
  destruct (Async.activePipelines h !! rid) as [ref|] eqn:Hentry.
  - assert (Hreg : registered rid ref h) by (split; assumption).
    assert (Hview : exists x, registryView h !! rid = Some x).
    { unfold registryView. rewrite lookup_omap, Hentry. cbn.
      destruct Hh as [Hobj _]. destruct (Hobj rid ref Hentry) as [x Hx]. eauto. }
    destruct Hview as [x ->].
    assert (Hweak : forall h', registered rid ref h' -> wellFormed h')
      by (intros h' Hh'; apply Hh').
    cbv beta iota.
    refine (agrees_tryCatch (registered rid ref) wellFormed wellFormed
              _ _ _ _ _ _ _ h Hreg);
      [|intros err|exact (fun h' Hh' => Hh')].
    + repeat agree_step.
    + repeat agree_step.
  - assert (Hview : registryView h !! rid = None)
      by (unfold registryView; now rewrite lookup_omap, Hentry).
    rewrite Hview.
    cbv beta iota.
    refine (agrees_tryCatch wellFormed wellFormed wellFormed
              _ _ _ _ _ _ _ h Hh);
      [|intros err|exact (fun h' Hh' => Hh')].
    + repeat agree_step.
    + repeat agree_step.
Qed.

End SequentialFacts.

(** X21: the two models of the orchestrator agree when nothing else
    runs.  On a heap where every registry entry refers to an object
    of its own, [executePipeline] and [completeDelivery], run with no
    other task at their waits, return what the sequential model
    returns on the heap's view (the registry with each identifier's
    object in place of the reference), and end in a heap whose view is
    the sequential model's final state: the same registry contents,
    the same events, the same ledger calls.  The heap stays well
    formed. *)
Theorem sequential_runs_agree `{JsMath}
    (keccak256 : string -> string)
    (stringifyAttestation : Fdc.FdcAttestation -> string)
    (hashTranscript : LlmPanel.Transcript -> string)
    (hashAttestation : Fulfillment.Attestation -> string)
    (now : string) (nowMs : Z)
    (toFixed : float -> nat -> string) (showNumber : float -> string)
    (ziplineWallet authorityWallet : string)
    (w : Pipeline.World) (params : Pipeline.Params)
    (rid : Z) (proof : Fulfillment.ProofData) (h : Async.Heap) :
  let piped :=
    Async.executePipeline keccak256 stringifyAttestation hashTranscript now nowMs
      toFixed showNumber ziplineWallet authorityWallet Async.alone w params h in
  let piped' :=
    Pipeline.executePipeline keccak256 stringifyAttestation hashTranscript now nowMs
      toFixed showNumber ziplineWallet authorityWallet w params (Async.toSys h) in
  let delivered := Async.completeDelivery hashAttestation now Async.alone w rid proof h in
  let delivered' := Pipeline.completeDelivery hashAttestation now w rid proof (Async.toSys h) in
  (forall i ref, Async.activePipelines h !! i = Some ref ->
                 is_Some (Async.objects h !! ref)) ->
  (forall i j ref, Async.activePipelines h !! i = Some ref ->
                   Async.activePipelines h !! j = Some ref -> i = j) ->
  (fst piped = fst piped' /\
   Pipeline.activePipelines (snd piped')
     = omap (fun ref => Async.objects (snd piped) !! ref)
         (Async.activePipelines (snd piped)) /\
   Pipeline.emitted (snd piped') = Async.emitted (snd piped) /\
   Pipeline.client (snd piped') = Async.client (snd piped) /\
   Async.wellFormed (snd piped)) /\
  (fst delivered = fst delivered' /\
   Pipeline.activePipelines (snd delivered')
     = omap (fun ref => Async.objects (snd delivered) !! ref)
         (Async.activePipelines (snd delivered)) /\
   Pipeline.emitted (snd delivered') = Async.emitted (snd delivered) /\
   Pipeline.client (snd delivered') = Async.client (snd delivered) /\
   Async.wellFormed (snd delivered)).
Proof.
  intros piped piped' delivered delivered' Hobj Hinj.
  assert (Hwf : Async.wellFormed h) by (split; assumption).
  split.
  - destruct (executePipeline_agrees keccak256 stringifyAttestation hashTranscript
                now nowMs toFixed showNumber ziplineWallet authorityWallet w params
                h Hwf) as (Hres & Hsys & Hpost).
    fold piped piped' in Hres, Hsys, Hpost.
    split; [exact Hres|]. rewrite <- Hsys. repeat split; apply Hpost.
  - destruct (completeDelivery_agrees hashAttestation now w rid proof h Hwf)
      as (Hres & Hsys & Hpost).
    fold delivered delivered' in Hres, Hsys, Hpost.
    split; [exact Hres|]. rewrite <- Hsys. repeat split; apply Hpost.
Qed.

(** From the idle system, the failed run of request 0 returns the
    same failure in both models and leaves the same record. *)
Lemma sequential_runs_agree_witness :
  fst (runPipelineAmong Async.alone (world false unanimousPanel calmRpc)
         medicalRequest idleHeap)
  = fst (runPipeline (world false unanimousPanel calmRpc) medicalRequest idle) /\
  Pipeline.activePipelines
    (snd (runPipeline (world false unanimousPanel calmRpc) medicalRequest idle)) !! 0
  = Async.getPipelineState 0
      (snd (runPipelineAmong Async.alone (world false unanimousPanel calmRpc)
              medicalRequest idleHeap)).
Proof.
  destruct (proj1 (@sequential_runs_agree planarMath (fun s => s) (fun _ => "{}")
                     (fun _ => "0xc") (fun _ => "0xv") "2026-02-03T10:00:00Z"
                     1770112800000 (fun _ _ => "0.0000") (fun _ => "0")
                     "0xzipline" "0xauthority" (world false unanimousPanel calmRpc)
                     medicalRequest 0 dropNearTarget idleHeap
                     ltac:(intros i ref Hi; vm_compute in Hi; discriminate)
                     ltac:(intros i j ref Hi; vm_compute in Hi; discriminate)))
    as (Hres & Hreg & _).
  split; [exact Hres|].
  change (Async.toSys idleHeap) with idle in Hreg.
  unfold runPipeline. rewrite Hreg. unfold Async.getPipelineState.
  rewrite lookup_omap. reflexivity.
Defined.
